(** * Two-phase commit support (twophase.c): a shallow embedding

    The development follows [src/backend/access/transam/twophase.c]:
    the shared table of global transactions, the builder of the
    prepare record, COMMIT/ROLLBACK PREPARED and the two recovery
    scans.  C integers are held in [Z] with their wrap-around written
    out, pointers into the array of [GlobalTransactionData] structs
    are indices, and [ereport(ERROR, ...)] is an outcome of the
    computation that keeps whatever was written to memory before it. *)

From Stdlib Require Import ZArith Lia.
From Stdlib.Strings Require Import Byte.
From stdpp Require Import base option list strings gmap.

Local Open Scope Z_scope.

(** ** Machine integers and bytes *)

Definition wrap32 (z : Z) : Z := z mod 2 ^ 32.
Definition wrap64 (z : Z) : Z := z mod 2 ^ 64.

(** Reading an unsigned 32-bit pattern as [int32]. *)
Definition to_int32 (z : Z) : Z :=
  if wrap32 z <? 2 ^ 31 then wrap32 z else wrap32 z - 2 ^ 32.

(** [TYPEALIGN(ALIGNVAL, LEN)] of c.h, on [uintptr_t] (64 bits):
    [(LEN + (ALIGNVAL - 1)) & ~(ALIGNVAL - 1)]. *)
Definition TYPEALIGN (ALIGNVAL LEN : Z) : Z :=
  Z.land (wrap64 (LEN + (ALIGNVAL - 1))) (wrap64 (Z.lnot (ALIGNVAL - 1))).

Definition MAXIMUM_ALIGNOF : Z := 8.
Definition MAXALIGN (LEN : Z) : Z := TYPEALIGN MAXIMUM_ALIGNOF LEN.

Definition byte_of_Z (z : Z) : byte :=
  default Byte.x00 (Byte.of_N (Z.to_N (z mod 256))).
Definition Z_of_byte (b : byte) : Z := Z.of_N (Byte.to_N b).

(** Little-endian image of an integer in [n] bytes, and its value. *)
Fixpoint le_encode (n : nat) (v : Z) : list byte :=
  match n with
  | O => []
  | S k => byte_of_Z v :: le_encode k (v / 256)
  end.

Fixpoint le_decode (bs : list byte) : Z :=
  match bs with
  | [] => 0
  | b :: rest => Z_of_byte b + 256 * le_decode rest
  end.

(** [n] bytes of a buffer from offset [off]; bytes past the end of the
    buffer read as zero. *)
Definition bytes_at (buf : list byte) (off n : nat) : list byte :=
  take n (drop off buf ++ replicate n Byte.x00).

Definition read_le (buf : list byte) (off n : nat) : Z :=
  le_decode (bytes_at buf off n).

(** [memcpy(dst + off, src, |src|)] into a buffer. *)
Definition memcpy_at (dst : list byte) (off : nat) (src : list byte) : list byte :=
  take off dst ++ src ++ drop (off + length src)%nat dst.

(** A C string held in a [char] array: the bytes before the first NUL. *)
Fixpoint cstring (bs : list byte) : list byte :=
  match bs with
  | [] => []
  | b :: rest => if Byte.eqb b Byte.x00 then [] else b :: cstring rest
  end.

(** ** Types of the transaction manager *)

Abbreviation TransactionId := Z (only parsing).
Abbreviation Oid := Z (only parsing).
Abbreviation TimestampTz := Z (only parsing).
Abbreviation XLogRecPtr := Z (only parsing).
Abbreviation BackendId := Z (only parsing).
(** [GlobalTransaction] is a pointer to a [GlobalTransactionData] struct
    of the shared array: the index of the struct. *)
Abbreviation GlobalTransaction := nat (only parsing).

Definition InvalidBackendId : Z := -1.
Definition InvalidXLogRecPtr : Z := 0.
Definition InvalidTransactionId : Z := 0.
Definition GIDSIZE : Z := 200.
Definition TWOPHASE_MAGIC : Z := 0x57F94532.
Definition TWOPHASE_RM_END_ID : Z := 0.
Definition MaxAllocSize : Z := 0x3fffffff.

Inductive GpRoleValue :=
  GP_ROLE_UTILITY | GP_ROLE_DISPATCH | GP_ROLE_EXECUTE | GP_ROLE_UNDEFINED.

Inductive LocalDistribXactState :=
  | LOCALDISTRIBXACT_STATE_NONE
  | LOCALDISTRIBXACT_STATE_ACTIVE
  | LOCALDISTRIBXACT_STATE_PREPARED.

Record LocalDistribXactData := mkLocalDistribXactData {
  ldx_state : LocalDistribXactState;
  ldx_distribTimeStamp : Z;
  ldx_distribXid : Z }.

Record GlobalTransactionData := mkGlobalTransactionData {
  next : option nat;          (* list link for free list *)
  pgprocno : nat;             (* ID of associated dummy PGPROC *)
  dummyBackendId : Z;
  prepared_at : Z;
  prepare_begin_lsn : Z;
  prepare_lsn : Z;
  owner : Z;
  locking_backend : Z;
  valid : bool;
  gid : string }.

Record TwoPhaseStateData := mkTwoPhaseStateData {
  gxacts : list GlobalTransactionData;   (* the structs, after the array *)
  freeGXacts : option nat;
  numPrepXacts : nat;
  prepXacts : list (option nat) }.       (* max_prepared_xacts pointers *)

(** The dummy PGPROC and PGXACT of a prepared transaction; the fields
    [MarkAsPreparing] leaves at the zero of its [MemSet] are not kept. *)
Record PGPROC := mkPGPROC {
  proc_pgprocno : nat;
  proc_lxid : Z;
  proc_pid : Z;
  proc_backendId : Z;
  proc_databaseId : Z;
  proc_roleId : Z;
  proc_subxids : list Z;
  proc_localDistribXactData : LocalDistribXactData }.

Record PGXACT := mkPGXACT {
  pgxact_xid : Z;
  pgxact_xmin : Z;
  pgxact_delayChkpt : bool;
  pgxact_vacuumFlags : Z;
  pgxact_overflowed : bool;
  pgxact_nxids : Z }.

(** One [XLogRecData] block of the chain under construction: the
    palloc'd buffer and the number of its bytes in use. *)
Record XLogRecData := mkXLogRecData {
  rd_data : list byte;
  rd_len : Z }.

(** [static struct xllist records]; [xl_chain = []] stands for
    [head = tail = NULL], the tail is the last block. *)
Record xllist := mkxllist {
  xl_chain : list XLogRecData;
  bytes_free : Z;
  total_len : Z }.

(** An entry of the hash table of prepared transactions seen in the log. *)
Record prpt_map := mkprpt_map {
  pm_xid : Z;
  pm_xlogrecptr : Z }.

(** Modelled from the spec: the write-ahead log, a collaborator
    ("Append(record bytes) -> location; Flush(location); ReadAt(location)
    -> record bytes or CorruptRecord").  A record is its fixed part and
    the data blocks chained after it. *)
Inductive XLogMain :=
  | XLOG_XACT_PREPARE
  | XLOG_XACT_COMMIT_PREPARED
      (xid distribTimeStamp distribXid dbId tsId nrels nsubxacts nmsgs : Z)
  | XLOG_XACT_ABORT_PREPARED (xid nrels nsubxacts : Z).

Record XLogRecord := mkXLogRecord {
  xl_main : XLogMain;
  xl_blocks : list (list byte) }.

Definition XLogRecGetData (r : XLogRecord) : list byte := concat (xl_blocks r).

Record XLogState := mkXLogState {
  xlog_records : gmap Z XLogRecord;   (* by begin location *)
  xlog_insert_pos : Z;
  xlog_last_begin : Z;
  xlog_flushed : Z }.

(** Modelled from the spec: the transaction-status store
    ("CommitTree(xid, subxids); AbortTree(xid, subxids); DidCommit(xid);
    DidAbort(xid)"). *)
Inductive XidStatus := TRANSACTION_STATUS_COMMITTED | TRANSACTION_STATUS_ABORTED.

Inductive TwoPhasePhase := RecoverPhase | PostCommitPhase | PostAbortPhase.

(** Calls into the collaborators and the steps on shared state whose
    order matters, in program order. *)
Inductive Event :=
  | EvXLogInsert (main : XLogMain) (begin_lsn end_lsn : Z)
  | EvXLogFlush (upto : Z)
  | EvDistributedLog_SetCommittedTree (xid : Z) (children : list Z)
  | EvTransactionIdCommitTree (xid : Z) (children : list Z)
  | EvTransactionIdAbortTree (xid : Z) (children : list Z)
  | EvSyncRepWaitForLSN (lsn : Z)
  | EvWaitForMirror
  | EvLocalDistribXact_ChangeState (procno : nat)
  | EvProcArrayAdd (procno : nat)
  | EvProcArrayRemove (procno : nat) (latestXid : Z)
  | EvSetValid (g : nat) (v : bool)
  | EvDropRelationFiles (rels : list byte) (ndelrels : Z)
  | EvRelationCacheInitFilePreInvalidate
  | EvSendSharedInvalidMessages (msgs : list byte) (n : Z)
  | EvRelationCacheInitFilePostInvalidate
  | EvTwoPhaseCallback (phase : TwoPhasePhase) (rmid xid info : Z)
      (payload : list byte) (len : Z)
  | EvPredicateLockTwoPhaseFinish (xid : Z) (isCommit : bool)
  | EvAtEOXact_PgStat (isCommit : bool)
  | EvRemoveMapEntry (xid : Z)
  | EvRemoveGXact (g : nat)
  | EvSubTransSetParent (xid parent : Z) (overwriteOK : bool)
  | EvRegisterExitHook (before_shmem_exit : bool).

(** Everything twophase.c reads and writes: shared memory, the statics
    of the backend, and the collaborators' state. *)
Record World := mkWorld {
  TwoPhaseState : TwoPhaseStateData;
  allProcs : list PGPROC;
  allPgXact : list PGXACT;
  nextXid : Z;                           (* ShmemVariableCache->nextXid *)
  MyLockedGxact : option nat;
  twophaseExitRegistered : bool;
  map_ht : option (list prpt_map);       (* None: the table is NULL *)
  records : xllist;
  xlog : XLogState;
  clog : gmap Z XidStatus;
  procArray : list nat;
  events : list Event }.

(** What the file takes from the rest of the server: configuration, the
    identity of the running process, and functions, constants and
    tables declared elsewhere. *)
Class Env := mkEnv {
  max_prepared_xacts : nat;
  MaxBackends : Z;
  MyBackendId : Z;
  MyDatabaseId : Z;
  MyDatabaseTableSpace : Z;
  Gp_role : GpRoleValue;
  GetUserId : Z;
  InHotStandby : bool;
  superuser_arg : Z -> bool;
  dtxCrackOpenGid : string -> Z * Z;
  TransactionIdPrecedes : Z -> Z -> bool;
  TransactionIdFollowsOrEquals : Z -> Z -> bool;
  TransactionIdAdvance : Z -> Z;
  TransactionIdLatest : Z -> list Z -> Z;
  sizeof_RelFileNodePendingDelete : Z;
  sizeof_SharedInvalidationMessage : Z;
  PGPROC_MAX_CACHED_SUBXIDS : Z;
  (* the entries of a callback table that are not NULL *)
  twophase_recover_callbacks : Z -> bool;
  twophase_postcommit_callbacks : Z -> bool;
  twophase_postabort_callbacks : Z -> bool;
  (* the content of memory nobody has written yet *)
  uninit : nat -> byte }.

(** ** Errors and the monad of the embedding *)

Inductive ErrLevel := WARNING | ERROR | PANIC.

Inductive ErrCode :=
  | ERRCODE_INVALID_PARAMETER_VALUE
  | ERRCODE_OBJECT_NOT_IN_PREREQUISITE_STATE
  | ERRCODE_DUPLICATE_OBJECT
  | ERRCODE_OUT_OF_MEMORY
  | ERRCODE_INSUFFICIENT_PRIVILEGE
  | ERRCODE_FEATURE_NOT_SUPPORTED
  | ERRCODE_UNDEFINED_OBJECT
  | ERRCODE_DATA_CORRUPTED
  | ERRCODE_PROGRAM_LIMIT_EXCEEDED
  | ERRCODE_INTERNAL_ERROR.

(** The message of each [ereport]/[elog] of the file. *)
Inductive ErrMsg :=
  | msg_identifier_too_long
  | msg_prepared_transactions_disabled
  | msg_identifier_in_use
  | msg_maximum_reached
  | msg_busy
  | msg_permission_denied
  | msg_another_database
  | msg_does_not_exist
  | msg_failed_to_find_gxact
  | msg_xlog_record_invalid
  | msg_length_exceeded
  | msg_already_committed.

Inductive Outcome (A : Type) :=
  | Done (a : A)
  | Raise (lvl : ErrLevel) (code : ErrCode) (msg : ErrMsg)
  | MemoryFault          (* a load or store through NULL or outside its object *)
  | OutOfFuel.
Arguments Done {A} a.
Arguments Raise {A} lvl code msg.
Arguments MemoryFault {A}.
Arguments OutOfFuel {A}.

Definition M (A : Type) : Type := World -> Outcome A * World.

Definition ret {A} (a : A) : M A := fun w => (Done a, w).

Definition bind {A B} (m : M A) (k : A -> M B) : M B :=
  fun w =>
    match m w with
    | (Done a, w') => k a w'
    | (Raise lvl code msg, w') => (Raise lvl code msg, w')
    | (MemoryFault, w') => (MemoryFault, w')
    | (OutOfFuel, w') => (OutOfFuel, w')
    end.

Notation "x <- c1 ;; c2" := (bind c1 (fun x => c2))
  (at level 100, c1 at next level, right associativity).
Notation "c1 ;;; c2" := (bind c1 (fun _ => c2))
  (at level 100, right associativity).

Definition ereport {A} (lvl : ErrLevel) (code : ErrCode) (msg : ErrMsg) : M A :=
  fun w => (Raise lvl code msg, w).
Definition memory_fault {A} : M A := fun w => (MemoryFault, w).
Definition get : M World := fun w => (Done w, w).
Definition modify (f : World -> World) : M unit := fun w => (Done tt, f w).
Definition when (c : bool) (m : M unit) : M unit := if c then m else ret tt.

(** The errors of the registry under the names the design uses. *)
Definition IdentifierTooLong {A} : Outcome A :=
  Raise ERROR ERRCODE_INVALID_PARAMETER_VALUE msg_identifier_too_long.
Definition FeatureDisabled {A} : Outcome A :=
  Raise ERROR ERRCODE_OBJECT_NOT_IN_PREREQUISITE_STATE msg_prepared_transactions_disabled.
Definition DuplicateIdentifier {A} : Outcome A :=
  Raise ERROR ERRCODE_DUPLICATE_OBJECT msg_identifier_in_use.
Definition CapacityExhausted {A} : Outcome A :=
  Raise ERROR ERRCODE_OUT_OF_MEMORY msg_maximum_reached.
Definition Busy {A} : Outcome A :=
  Raise ERROR ERRCODE_OBJECT_NOT_IN_PREREQUISITE_STATE msg_busy.
Definition PermissionDenied {A} : Outcome A :=
  Raise ERROR ERRCODE_INSUFFICIENT_PRIVILEGE msg_permission_denied.
Definition AnotherDatabase {A} : Outcome A :=
  Raise ERROR ERRCODE_FEATURE_NOT_SUPPORTED msg_another_database.
Definition NotFound {A} : Outcome A :=
  Raise ERROR ERRCODE_UNDEFINED_OBJECT msg_does_not_exist.
Definition CorruptRecord {A} : Outcome A :=
  Raise ERROR ERRCODE_DATA_CORRUPTED msg_xlog_record_invalid.

(** ** Field updates *)

Definition set_next (v : option nat) (d : GlobalTransactionData) :=
  {| next := v; pgprocno := pgprocno d; dummyBackendId := dummyBackendId d;
     prepared_at := prepared_at d; prepare_begin_lsn := prepare_begin_lsn d;
     prepare_lsn := prepare_lsn d; owner := owner d;
     locking_backend := locking_backend d; valid := valid d; gid := gid d |}.

Definition set_locking_backend (v : Z) (d : GlobalTransactionData) :=
  {| next := next d; pgprocno := pgprocno d; dummyBackendId := dummyBackendId d;
     prepared_at := prepared_at d; prepare_begin_lsn := prepare_begin_lsn d;
     prepare_lsn := prepare_lsn d; owner := owner d;
     locking_backend := v; valid := valid d; gid := gid d |}.

Definition set_valid (v : bool) (d : GlobalTransactionData) :=
  {| next := next d; pgprocno := pgprocno d; dummyBackendId := dummyBackendId d;
     prepared_at := prepared_at d; prepare_begin_lsn := prepare_begin_lsn d;
     prepare_lsn := prepare_lsn d; owner := owner d;
     locking_backend := locking_backend d; valid := v; gid := gid d |}.

Definition set_prepare_lsn (v : Z) (d : GlobalTransactionData) :=
  {| next := next d; pgprocno := pgprocno d; dummyBackendId := dummyBackendId d;
     prepared_at := prepared_at d; prepare_begin_lsn := prepare_begin_lsn d;
     prepare_lsn := v; owner := owner d;
     locking_backend := locking_backend d; valid := valid d; gid := gid d |}.

Definition set_prepare_begin_lsn (v : Z) (d : GlobalTransactionData) :=
  {| next := next d; pgprocno := pgprocno d; dummyBackendId := dummyBackendId d;
     prepared_at := prepared_at d; prepare_begin_lsn := v;
     prepare_lsn := prepare_lsn d; owner := owner d;
     locking_backend := locking_backend d; valid := valid d; gid := gid d |}.

Definition set_gxacts (v : list GlobalTransactionData) (s : TwoPhaseStateData) :=
  {| gxacts := v; freeGXacts := freeGXacts s; numPrepXacts := numPrepXacts s;
     prepXacts := prepXacts s |}.
Definition set_freeGXacts (v : option nat) (s : TwoPhaseStateData) :=
  {| gxacts := gxacts s; freeGXacts := v; numPrepXacts := numPrepXacts s;
     prepXacts := prepXacts s |}.
Definition set_numPrepXacts (v : nat) (s : TwoPhaseStateData) :=
  {| gxacts := gxacts s; freeGXacts := freeGXacts s; numPrepXacts := v;
     prepXacts := prepXacts s |}.
Definition set_prepXacts (v : list (option nat)) (s : TwoPhaseStateData) :=
  {| gxacts := gxacts s; freeGXacts := freeGXacts s; numPrepXacts := numPrepXacts s;
     prepXacts := v |}.

Definition set_TwoPhaseState (v : TwoPhaseStateData) (w : World) :=
  {| TwoPhaseState := v; allProcs := allProcs w; allPgXact := allPgXact w;
     nextXid := nextXid w; MyLockedGxact := MyLockedGxact w;
     twophaseExitRegistered := twophaseExitRegistered w; map_ht := map_ht w;
     records := records w; xlog := xlog w; clog := clog w;
     procArray := procArray w; events := events w |}.
Definition set_allProcs (v : list PGPROC) (w : World) :=
  {| TwoPhaseState := TwoPhaseState w; allProcs := v; allPgXact := allPgXact w;
     nextXid := nextXid w; MyLockedGxact := MyLockedGxact w;
     twophaseExitRegistered := twophaseExitRegistered w; map_ht := map_ht w;
     records := records w; xlog := xlog w; clog := clog w;
     procArray := procArray w; events := events w |}.
Definition set_allPgXact (v : list PGXACT) (w : World) :=
  {| TwoPhaseState := TwoPhaseState w; allProcs := allProcs w; allPgXact := v;
     nextXid := nextXid w; MyLockedGxact := MyLockedGxact w;
     twophaseExitRegistered := twophaseExitRegistered w; map_ht := map_ht w;
     records := records w; xlog := xlog w; clog := clog w;
     procArray := procArray w; events := events w |}.
Definition set_nextXid (v : Z) (w : World) :=
  {| TwoPhaseState := TwoPhaseState w; allProcs := allProcs w;
     allPgXact := allPgXact w; nextXid := v; MyLockedGxact := MyLockedGxact w;
     twophaseExitRegistered := twophaseExitRegistered w; map_ht := map_ht w;
     records := records w; xlog := xlog w; clog := clog w;
     procArray := procArray w; events := events w |}.
Definition set_MyLockedGxact (v : option nat) (w : World) :=
  {| TwoPhaseState := TwoPhaseState w; allProcs := allProcs w;
     allPgXact := allPgXact w; nextXid := nextXid w; MyLockedGxact := v;
     twophaseExitRegistered := twophaseExitRegistered w; map_ht := map_ht w;
     records := records w; xlog := xlog w; clog := clog w;
     procArray := procArray w; events := events w |}.
Definition set_twophaseExitRegistered (v : bool) (w : World) :=
  {| TwoPhaseState := TwoPhaseState w; allProcs := allProcs w;
     allPgXact := allPgXact w; nextXid := nextXid w;
     MyLockedGxact := MyLockedGxact w; twophaseExitRegistered := v;
     map_ht := map_ht w; records := records w; xlog := xlog w; clog := clog w;
     procArray := procArray w; events := events w |}.
Definition set_map_ht (v : option (list prpt_map)) (w : World) :=
  {| TwoPhaseState := TwoPhaseState w; allProcs := allProcs w;
     allPgXact := allPgXact w; nextXid := nextXid w;
     MyLockedGxact := MyLockedGxact w;
     twophaseExitRegistered := twophaseExitRegistered w; map_ht := v;
     records := records w; xlog := xlog w; clog := clog w;
     procArray := procArray w; events := events w |}.
Definition set_records (v : xllist) (w : World) :=
  {| TwoPhaseState := TwoPhaseState w; allProcs := allProcs w;
     allPgXact := allPgXact w; nextXid := nextXid w;
     MyLockedGxact := MyLockedGxact w;
     twophaseExitRegistered := twophaseExitRegistered w; map_ht := map_ht w;
     records := v; xlog := xlog w; clog := clog w;
     procArray := procArray w; events := events w |}.
Definition set_xlog (v : XLogState) (w : World) :=
  {| TwoPhaseState := TwoPhaseState w; allProcs := allProcs w;
     allPgXact := allPgXact w; nextXid := nextXid w;
     MyLockedGxact := MyLockedGxact w;
     twophaseExitRegistered := twophaseExitRegistered w; map_ht := map_ht w;
     records := records w; xlog := v; clog := clog w;
     procArray := procArray w; events := events w |}.
Definition set_clog (v : gmap Z XidStatus) (w : World) :=
  {| TwoPhaseState := TwoPhaseState w; allProcs := allProcs w;
     allPgXact := allPgXact w; nextXid := nextXid w;
     MyLockedGxact := MyLockedGxact w;
     twophaseExitRegistered := twophaseExitRegistered w; map_ht := map_ht w;
     records := records w; xlog := xlog w; clog := v;
     procArray := procArray w; events := events w |}.
Definition set_procArray (v : list nat) (w : World) :=
  {| TwoPhaseState := TwoPhaseState w; allProcs := allProcs w;
     allPgXact := allPgXact w; nextXid := nextXid w;
     MyLockedGxact := MyLockedGxact w;
     twophaseExitRegistered := twophaseExitRegistered w; map_ht := map_ht w;
     records := records w; xlog := xlog w; clog := clog w;
     procArray := v; events := events w |}.
Definition set_events (v : list Event) (w : World) :=
  {| TwoPhaseState := TwoPhaseState w; allProcs := allProcs w;
     allPgXact := allPgXact w; nextXid := nextXid w;
     MyLockedGxact := MyLockedGxact w;
     twophaseExitRegistered := twophaseExitRegistered w; map_ht := map_ht w;
     records := records w; xlog := xlog w; clog := clog w;
     procArray := procArray w; events := v |}.

(** ** Access to memory *)

Definition log (e : Event) : M unit :=
  modify (fun w => set_events (events w ++ [e]) w).

Definition deref {A} (p : option A) : M A :=
  match p with
  | Some a => ret a
  | None => memory_fault
  end.

(** Load and store through a [GlobalTransaction] pointer. *)
Definition gxact_load (g : nat) : M GlobalTransactionData :=
  fun w => deref (gxacts (TwoPhaseState w) !! g) w.

Definition gxact_store (g : nat) (f : GlobalTransactionData -> GlobalTransactionData) : M unit :=
  d <- gxact_load g ;;
  modify (fun w => set_TwoPhaseState
            (set_gxacts (<[g := f d]> (gxacts (TwoPhaseState w))) (TwoPhaseState w)) w).

(** [TwoPhaseState->prepXacts[i]]. *)
Definition prepXacts_load (i : nat) : M nat :=
  fun w =>
    match prepXacts (TwoPhaseState w) !! i with
    | Some (Some g) => (Done g, w)
    | _ => (MemoryFault, w)
    end.

Definition proc_load (procno : nat) : M PGPROC :=
  fun w => deref (allProcs w !! procno) w.
Definition proc_store (procno : nat) (p : PGPROC) : M unit :=
  proc_load procno ;;;
  modify (fun w => set_allProcs (<[procno := p]> (allProcs w)) w).
Definition pgxact_load (procno : nat) : M PGXACT :=
  fun w => deref (allPgXact w !! procno) w.
Definition pgxact_store (procno : nat) (p : PGXACT) : M unit :=
  pgxact_load procno ;;;
  modify (fun w => set_allPgXact (<[procno := p]> (allPgXact w)) w).

(** [for (i = ...; ...; i++) body], the body falling through. *)
Fixpoint for_each {A} (l : list A) (body : A -> M unit) : M unit :=
  match l with
  | [] => ret tt
  | i :: rest => body i ;;; for_each rest body
  end.

(** The same loop with a body that may [return] from the function. *)
Fixpoint for_first {A R} (l : list A) (body : A -> M (option R)) : M (option R) :=
  match l with
  | [] => ret None
  | i :: rest =>
      r <- body i ;;
      match r with
      | Some x => ret (Some x)
      | None => for_first rest body
      end
  end.

Section TwoPhase.
Context `{E : Env}.

(** ** The recovery hash table *)

(** [hash_search(..., HASH_ENTER, ...)] followed by the copy of the
    location over the entry; the table is created on first use.  The
    order of the list is the order in which [hash_seq_search] returns
    the entries. *)
Fixpoint hash_enter (xid m : Z) (l : list prpt_map) : list prpt_map :=
  match l with
  | [] => [mkprpt_map xid m]
  | e :: rest =>
      if pm_xid e =? xid then mkprpt_map xid m :: rest
      else e :: hash_enter xid m rest
  end.

Definition add_recover_post_checkpoint_prepared_transactions_map_entry
    (xid m : Z) : M unit :=
  modify (fun w => set_map_ht (Some (hash_enter xid m (default [] (map_ht w)))) w).

Definition remove_recover_post_checkpoint_prepared_transactions_map_entry
    (xid : Z) : M unit :=
  log (EvRemoveMapEntry xid) ;;;
  modify (fun w =>
    match map_ht w with
    | Some l => set_map_ht (Some (filter (fun e => pm_xid e ≠ xid) l)) w
    | None => w
    end).

(** ** Shared memory initialisation *)

(** The structs as the zeroed shared memory holds them; the dummy
    PGPROCs of the prepared transactions are slots [0 ..
    max_prepared_xacts) of the model's [allProcs]. *)
Definition zero_gxact : GlobalTransactionData :=
  {| next := None; pgprocno := 0%nat; dummyBackendId := 0; prepared_at := 0;
     prepare_begin_lsn := 0; prepare_lsn := 0; owner := 0; locking_backend := 0;
     valid := false; gid := "" |}.

Definition TwoPhaseShmemInit_step (st : TwoPhaseStateData) (i : nat) : TwoPhaseStateData :=
  {| gxacts :=
       alter (fun d =>
         {| next := freeGXacts st; pgprocno := i;
            dummyBackendId := MaxBackends + 1 + Z.of_nat i;
            prepared_at := prepared_at d;
            prepare_begin_lsn := prepare_begin_lsn d;
            prepare_lsn := prepare_lsn d; owner := owner d;
            locking_backend := locking_backend d; valid := valid d;
            gid := gid d |}) i (gxacts st);
     freeGXacts := Some i;
     numPrepXacts := numPrepXacts st;
     prepXacts := prepXacts st |}.

Definition TwoPhaseShmemInit : M unit :=
  modify (set_TwoPhaseState
    (fold_left TwoPhaseShmemInit_step (seq 0 max_prepared_xacts)
       {| gxacts := replicate max_prepared_xacts zero_gxact;
          freeGXacts := None;
          numPrepXacts := 0%nat;
          prepXacts := replicate max_prepared_xacts None |})).

(** ** The table of global transactions *)

Definition register_exit_hook (before : bool) : M unit :=
  w <- get ;;
  if twophaseExitRegistered w then ret tt
  else log (EvRegisterExitHook before) ;;;
       modify (set_twophaseExitRegistered true).

(** One turn of the loop of [RemoveGXact]; [Some tt] is its [return]. *)
Definition RemoveGXact_body (gxact : nat) (i : nat) : M (option unit) :=
  w <- get ;;
  if bool_decide (prepXacts (TwoPhaseState w) !! i = Some (Some gxact)) then
    (* remove from the active array *)
    modify (fun w =>
      let s := TwoPhaseState w in
      let n := pred (numPrepXacts s) in
      set_TwoPhaseState
        (set_prepXacts
           (<[i := default None (prepXacts s !! n)]> (prepXacts s))
           (set_numPrepXacts n s)) w) ;;;
    (* and put it back in the freelist *)
    w <- get ;;
    gxact_store gxact (set_next (freeGXacts (TwoPhaseState w))) ;;;
    modify (fun w => set_TwoPhaseState
                       (set_freeGXacts (Some gxact) (TwoPhaseState w)) w) ;;;
    log (EvRemoveGXact gxact) ;;;
    ret (Some tt)
  else ret None.

Definition RemoveGXact (gxact : nat) : M unit :=
  w <- get ;;
  r <- for_first (seq 0 (numPrepXacts (TwoPhaseState w))) (RemoveGXact_body gxact) ;;
  match r with
  | Some _ => ret tt
  | None => ereport ERROR ERRCODE_INTERNAL_ERROR msg_failed_to_find_gxact
  end.

Definition AtAbort_Twophase : M unit :=
  w <- get ;;
  match MyLockedGxact w with
  | None => ret tt
  | Some g =>
      d <- gxact_load g ;;
      (if negb (valid d) then RemoveGXact g
       else gxact_store g (set_locking_backend InvalidBackendId)) ;;;
      modify (set_MyLockedGxact None)
  end.

Definition AtProcExit_Twophase : M unit := AtAbort_Twophase.

Definition PostPrepare_Twophase : M unit :=
  w <- get ;;
  g <- deref (MyLockedGxact w) ;;
  gxact_store g (set_locking_backend InvalidBackendId) ;;;
  modify (set_MyLockedGxact None).

(** One turn of the loop that checks for a conflicting GID. *)
Definition MarkAsPreparing_check (gid0 : string) (i : nat) : M unit :=
  gxact <- prepXacts_load i ;;
  d <- gxact_load gxact ;;
  when (String.eqb (gid d) gid0)
    (ereport ERROR ERRCODE_DUPLICATE_OBJECT msg_identifier_in_use).

Definition MarkAsPreparing (xid : Z) (localDistribXactRef : LocalDistribXactData)
    (gid0 : string) (prepared_at0 owner0 databaseid xlogrecptr : Z) : M nat :=
  (* gid is a palloc'd C string, shorter than MaxAllocSize: the int holds strlen *)
  let idlen := Z.of_nat (String.length gid0) in
  register_exit_hook false ;;;
  when (GIDSIZE <=? idlen)
    (ereport ERROR ERRCODE_INVALID_PARAMETER_VALUE msg_identifier_too_long) ;;;
  (* fail immediately if feature is disabled *)
  when (Nat.eqb max_prepared_xacts 0)
    (ereport ERROR ERRCODE_OBJECT_NOT_IN_PREREQUISITE_STATE
       msg_prepared_transactions_disabled) ;;;
  register_exit_hook true ;;;
  (* Check for conflicting GID *)
  w <- get ;;
  for_each (seq 0 (numPrepXacts (TwoPhaseState w))) (MarkAsPreparing_check gid0) ;;;
  (* Get a free gxact from the freelist *)
  match freeGXacts (TwoPhaseState w) with
  | None => ereport ERROR ERRCODE_OUT_OF_MEMORY msg_maximum_reached
  | Some gxact =>
      d <- gxact_load gxact ;;
      modify (fun w => set_TwoPhaseState
                         (set_freeGXacts (next d) (TwoPhaseState w)) w) ;;;
      (* Initialize the PGPROC entry *)
      proc_store (pgprocno d)
        {| proc_pgprocno := pgprocno d; proc_lxid := xid; proc_pid := 0;
           proc_backendId := InvalidBackendId; proc_databaseId := databaseid;
           proc_roleId := owner0; proc_subxids := [];
           proc_localDistribXactData := localDistribXactRef |} ;;;
      pgxact_store (pgprocno d)
        {| pgxact_xid := xid; pgxact_xmin := InvalidTransactionId;
           pgxact_delayChkpt := false; pgxact_vacuumFlags := 0;
           pgxact_overflowed := false; pgxact_nxids := 0 |} ;;;
      gxact_store gxact (fun d =>
        {| next := next d; pgprocno := pgprocno d;
           dummyBackendId := dummyBackendId d;
           prepared_at := prepared_at0;
           prepare_begin_lsn := xlogrecptr;
           prepare_lsn := 0;
           owner := owner0;
           locking_backend := MyBackendId;
           valid := false;
           gid := gid0 |}) ;;;
      (* And insert it into the active array *)
      modify (fun w =>
        let s := TwoPhaseState w in
        set_TwoPhaseState
          (set_prepXacts (<[numPrepXacts s := Some gxact]> (prepXacts s))
             (set_numPrepXacts (S (numPrepXacts s)) s)) w) ;;;
      modify (set_MyLockedGxact (Some gxact)) ;;;
      ret gxact
  end.

Definition GXactLoadSubxactData (gxact : nat) (nsubxacts : Z) (children : list Z) : M unit :=
  d <- gxact_load gxact ;;
  let over := PGPROC_MAX_CACHED_SUBXIDS <? nsubxacts in
  let nsubxacts' := if over then PGPROC_MAX_CACHED_SUBXIDS else nsubxacts in
  when over
    (x <- pgxact_load (pgprocno d) ;;
     pgxact_store (pgprocno d)
       {| pgxact_xid := pgxact_xid x; pgxact_xmin := pgxact_xmin x;
          pgxact_delayChkpt := pgxact_delayChkpt x;
          pgxact_vacuumFlags := pgxact_vacuumFlags x;
          pgxact_overflowed := true; pgxact_nxids := pgxact_nxids x |}) ;;;
  when (0 <? nsubxacts')
    (p <- proc_load (pgprocno d) ;;
     proc_store (pgprocno d)
       {| proc_pgprocno := proc_pgprocno p; proc_lxid := proc_lxid p;
          proc_pid := proc_pid p; proc_backendId := proc_backendId p;
          proc_databaseId := proc_databaseId p; proc_roleId := proc_roleId p;
          proc_subxids := take (Z.to_nat nsubxacts') children;
          proc_localDistribXactData := proc_localDistribXactData p |} ;;;
     x <- pgxact_load (pgprocno d) ;;
     pgxact_store (pgprocno d)
       {| pgxact_xid := pgxact_xid x; pgxact_xmin := pgxact_xmin x;
          pgxact_delayChkpt := pgxact_delayChkpt x;
          pgxact_vacuumFlags := pgxact_vacuumFlags x;
          pgxact_overflowed := pgxact_overflowed x;
          pgxact_nxids := nsubxacts' |}).

Definition MarkAsPrepared (gxact : nat) : M unit :=
  gxact_store gxact (set_valid true) ;;;
  log (EvSetValid gxact true) ;;;
  d <- gxact_load gxact ;;
  log (EvLocalDistribXact_ChangeState (pgprocno d)) ;;;
  (* Put it into the global ProcArray *)
  modify (fun w => set_procArray (pgprocno d :: procArray w) w) ;;;
  log (EvProcArrayAdd (pgprocno d)).

Definition is_GP_ROLE_EXECUTE (r : GpRoleValue) : bool :=
  match r with GP_ROLE_EXECUTE => true | _ => false end.

(** The loop of [LockGXact] from "Found it" on, for the entry [d]
    that [gxact] points to. *)
Definition LockGXact_found (gid0 : string) (user : Z) (gxact : nat)
    (d : GlobalTransactionData) : M (option nat) :=
  (* Found it, but has someone else got it locked? *)
  when (negb (locking_backend d =? InvalidBackendId))
    (ereport ERROR ERRCODE_OBJECT_NOT_IN_PREREQUISITE_STATE msg_busy) ;;;
  when (negb (user =? owner d) && negb (superuser_arg user))
    (ereport ERROR ERRCODE_INSUFFICIENT_PRIVILEGE msg_permission_denied) ;;;
  proc <- proc_load (pgprocno d) ;;
  when (negb (MyDatabaseId =? proc_databaseId proc)
        && negb (is_GP_ROLE_EXECUTE Gp_role))
    (ereport ERROR ERRCODE_FEATURE_NOT_SUPPORTED msg_another_database) ;;;
  (* OK for me to lock it *)
  gxact_store gxact (set_locking_backend MyBackendId) ;;;
  modify (set_MyLockedGxact (Some gxact)) ;;;
  ret (Some gxact).

Definition LockGXact_body (gid0 : string) (user : Z) (i : nat) : M (option nat) :=
  gxact <- prepXacts_load i ;;
  d <- gxact_load gxact ;;
  (* Ignore not-yet-valid GIDs *)
  if negb (valid d) then ret None
  else if negb (String.eqb (gid d) gid0) then ret None
  else LockGXact_found gid0 user gxact d.

Definition LockGXact (gid0 : string) (user : Z) (raiseErrorIfNotFound : bool)
    : M (option nat) :=
  register_exit_hook true ;;;
  w <- get ;;
  r <- for_first (seq 0 (numPrepXacts (TwoPhaseState w))) (LockGXact_body gid0 user) ;;
  match r with
  | Some g => ret (Some g)
  | None =>
      when raiseErrorIfNotFound
        (ereport ERROR ERRCODE_UNDEFINED_OBJECT msg_does_not_exist) ;;;
      ret None
  end.

(** ** The state file (the prepare record)

    [TwoPhaseFileHeader] and [TwoPhaseRecordOnDisk] are written to the
    record as their memory images.  The images follow the struct
    declarations of the file with 4-byte [uint32], [int32],
    [TransactionId] and [Oid], an 8-byte integer [TimestampTz], a
    1-byte [bool], little-endian, each field at its natural
    alignment. *)

Record TwoPhaseFileHeader := mkTwoPhaseFileHeader {
  hdr_magic : Z;
  hdr_total_len : Z;
  hdr_xid : Z;
  hdr_database : Z;
  hdr_prepared_at : Z;
  hdr_owner : Z;
  hdr_nsubxacts : Z;
  hdr_ncommitrels : Z;
  hdr_nabortrels : Z;
  hdr_ninvalmsgs : Z;
  hdr_initfileinval : bool;
  hdr_gid : list byte }.       (* char gid[GIDSIZE] *)

Definition sizeof_TwoPhaseFileHeader : Z := 248.
Definition sizeof_TwoPhaseRecordOnDisk : Z := 8.
Definition sizeof_TransactionId : Z := 4.
Definition sizeof_pg_crc32 : Z := 4.

Definition to_int64 (z : Z) : Z :=
  if wrap64 z <? 2 ^ 63 then wrap64 z else wrap64 z - 2 ^ 64.

Definition bool_image (b : bool) : byte := if b then Byte.x01 else Byte.x00.

(** The struct in memory; its last three bytes are padding that no
    assignment writes. *)
Definition hdr_image (h : TwoPhaseFileHeader) : list byte :=
  le_encode 4 (hdr_magic h) ++ le_encode 4 (hdr_total_len h) ++
  le_encode 4 (hdr_xid h) ++ le_encode 4 (hdr_database h) ++
  le_encode 8 (hdr_prepared_at h) ++ le_encode 4 (hdr_owner h) ++
  le_encode 4 (hdr_nsubxacts h) ++ le_encode 4 (hdr_ncommitrels h) ++
  le_encode 4 (hdr_nabortrels h) ++ le_encode 4 (hdr_ninvalmsgs h) ++
  [bool_image (hdr_initfileinval h)] ++
  take 200 (hdr_gid h ++ replicate 200 Byte.x00) ++
  map uninit (seq 245 3).

(** The fields read through a pointer to the struct cast from [buf]. *)
Definition hdr_view (buf : list byte) : TwoPhaseFileHeader :=
  {| hdr_magic := read_le buf 0 4;
     hdr_total_len := read_le buf 4 4;
     hdr_xid := read_le buf 8 4;
     hdr_database := read_le buf 12 4;
     hdr_prepared_at := to_int64 (read_le buf 16 8);
     hdr_owner := read_le buf 24 4;
     hdr_nsubxacts := to_int32 (read_le buf 28 4);
     hdr_ncommitrels := to_int32 (read_le buf 32 4);
     hdr_nabortrels := to_int32 (read_le buf 36 4);
     hdr_ninvalmsgs := to_int32 (read_le buf 40 4);
     hdr_initfileinval := negb (read_le buf 44 1 =? 0);
     hdr_gid := bytes_at buf 45 200 |}.

(** [StrNCpy(dst, src, len)]: [strncpy] and a NUL in the last byte. *)
Definition StrNCpy (src : list byte) (len : nat) : list byte :=
  take (len - 1) src ++ replicate (len - length (take (len - 1) src)) Byte.x00.

(** The string a [char *] into the record denotes. *)
Definition gid_string (field : list byte) : string :=
  String.string_of_list_byte (cstring field).

(** The image of a [TwoPhaseRecordOnDisk]: [len] at 0, [rmid] (one
    byte) at 4, a byte of padding, [info] at 6. *)
Definition record_image (len rmid info : Z) : list byte :=
  le_encode 4 len ++ le_encode 1 rmid ++ [uninit 5] ++ le_encode 2 info.

Definition xids_image (xids : list Z) : list byte :=
  concat (map (le_encode 4) xids).

(** The [n] transaction ids of the array a pointer denotes. *)
Definition read_xids (ptr : list byte) (n : Z) : list Z :=
  map (fun i => read_le ptr (4 * i) 4) (seq 0 (Z.to_nat n)).

Definition palloc (n : Z) : list byte := map uninit (seq 0 (Z.to_nat n)).

Fixpoint unsnoc {A} (l : list A) : option (list A * A) :=
  match l with
  | [] => None
  | x :: rest =>
      match unsnoc rest with
      | None => Some ([], x)
      | Some (i, t) => Some (x :: i, t)
      end
  end.

Definition save_state_data (data : list byte) (len : Z) : M unit :=
  let padlen := wrap32 (MAXALIGN len) in
  w <- get ;;
  when (bytes_free (records w) <? padlen)
    (match xl_chain (records w) with
     | [] => memory_fault         (* records.tail->next = ... *)
     | _ :: _ =>
         modify (fun w =>
           set_records
             {| xl_chain := xl_chain (records w) ++
                  [ {| rd_data := palloc (Z.max padlen 512); rd_len := 0 |} ];
                bytes_free := Z.max padlen 512;
                total_len := total_len (records w) |} w)
     end) ;;;
  w <- get ;;
  match unsnoc (xl_chain (records w)) with
  | None => memory_fault
  | Some (before, tail) =>
      modify (set_records
        {| xl_chain := before ++
             [ {| rd_data := memcpy_at (rd_data tail) (Z.to_nat (rd_len tail))
                               (take (Z.to_nat len) data);
                  rd_len := wrap32 (rd_len tail + padlen) |} ];
           bytes_free := wrap32 (bytes_free (records w) - padlen);
           total_len := wrap32 (total_len (records w) + padlen) |})
  end.

Definition RegisterTwoPhaseRecord (rmid info : Z) (data : list byte) (len : Z) : M unit :=
  save_state_data (record_image len rmid info) sizeof_TwoPhaseRecordOnDisk ;;;
  when (0 <? len) (save_state_data data len).

(** [children], [commitrels], [abortrels], [invalmsgs] and
    [initfileinval] are what xactGetCommittedChildren,
    smgrGetPendingDeletes (for commit, for abort) and
    xactGetCommittedInvalidationMessages hand back: the elements of
    each array, those of the struct types as their images. *)
Definition StartPrepare (gxact : nat) (children : list Z)
    (commitrels abortrels invalmsgs : list (list byte)) (initfileinval : bool)
    : M unit :=
  d <- gxact_load gxact ;;
  proc <- proc_load (pgprocno d) ;;
  pgxact <- pgxact_load (pgprocno d) ;;
  let xid := pgxact_xid pgxact in
  (* Initialize linked list *)
  modify (set_records
    {| xl_chain := [ {| rd_data := palloc (Z.max sizeof_TwoPhaseFileHeader 512);
                        rd_len := 0 |} ];
       bytes_free := Z.max sizeof_TwoPhaseFileHeader 512;
       total_len := 0 |}) ;;;
  (* Create header *)
  let hdr :=
    {| hdr_magic := TWOPHASE_MAGIC;
       hdr_total_len := 0;
       hdr_xid := xid;
       hdr_database := proc_databaseId proc;
       hdr_prepared_at := prepared_at d;
       hdr_owner := owner d;
       hdr_nsubxacts := Z.of_nat (length children);
       hdr_ncommitrels := Z.of_nat (length commitrels);
       hdr_nabortrels := Z.of_nat (length abortrels);
       hdr_ninvalmsgs := Z.of_nat (length invalmsgs);
       hdr_initfileinval := initfileinval;
       hdr_gid := StrNCpy (String.list_byte_of_string (gid d)) (Z.to_nat GIDSIZE) |} in
  save_state_data (hdr_image hdr) sizeof_TwoPhaseFileHeader ;;;
  when (0 <? hdr_nsubxacts hdr)
    (save_state_data (xids_image children)
       (wrap32 (hdr_nsubxacts hdr * sizeof_TransactionId)) ;;;
     GXactLoadSubxactData gxact (hdr_nsubxacts hdr) children) ;;;
  when (0 <? hdr_ncommitrels hdr)
    (save_state_data (concat commitrels)
       (wrap32 (hdr_ncommitrels hdr * sizeof_RelFileNodePendingDelete))) ;;;
  when (0 <? hdr_nabortrels hdr)
    (save_state_data (concat abortrels)
       (wrap32 (hdr_nabortrels hdr * sizeof_RelFileNodePendingDelete))) ;;;
  when (0 <? hdr_ninvalmsgs hdr)
    (save_state_data (concat invalmsgs)
       (wrap32 (hdr_ninvalmsgs hdr * sizeof_SharedInvalidationMessage))).

(** ** The collaborators *)

Definition SizeOfXLogRecord : Z := 32.

Definition XLogInsert (main : XLogMain) (rdata : list (list byte)) : M Z :=
  w <- get ;;
  let x := xlog w in
  let begin_lsn := xlog_insert_pos x in
  let end_lsn := begin_lsn + SizeOfXLogRecord + Z.of_nat (length (concat rdata)) in
  modify (set_xlog
    {| xlog_records := <[begin_lsn := mkXLogRecord main rdata]> (xlog_records x);
       xlog_insert_pos := end_lsn;
       xlog_last_begin := begin_lsn;
       xlog_flushed := xlog_flushed x |}) ;;;
  log (EvXLogInsert main begin_lsn end_lsn) ;;;
  ret end_lsn.

Definition XLogLastInsertBeginLoc : M Z :=
  fun w => (Done (xlog_last_begin (xlog w)), w).

Definition XLogFlush (upto : Z) : M unit :=
  modify (fun w =>
    let x := xlog w in
    set_xlog {| xlog_records := xlog_records x;
                xlog_insert_pos := xlog_insert_pos x;
                xlog_last_begin := xlog_last_begin x;
                xlog_flushed := Z.max (xlog_flushed x) upto |} w) ;;;
  log (EvXLogFlush upto).

(** NULL when no valid record is found at the location. *)
Definition XLogReadRecord (lsn : Z) : M (option XLogRecord) :=
  fun w => (Done (xlog_records (xlog w) !! lsn), w).

Definition TransactionIdDidCommit (xid : Z) : M bool :=
  fun w => (Done match clog w !! xid with
                 | Some TRANSACTION_STATUS_COMMITTED => true
                 | _ => false
                 end, w).
Definition TransactionIdDidAbort (xid : Z) : M bool :=
  fun w => (Done match clog w !! xid with
                 | Some TRANSACTION_STATUS_ABORTED => true
                 | _ => false
                 end, w).

Definition set_status_tree (st : XidStatus) (xid : Z) (children : list Z)
    (c : gmap Z XidStatus) : gmap Z XidStatus :=
  foldr (fun x m => <[x := st]> m) c (xid :: children).

Definition TransactionIdCommitTree (xid : Z) (children : list Z) : M unit :=
  modify (fun w => set_clog
    (set_status_tree TRANSACTION_STATUS_COMMITTED xid children (clog w)) w) ;;;
  log (EvTransactionIdCommitTree xid children).

Definition TransactionIdAbortTree (xid : Z) (children : list Z) : M unit :=
  modify (fun w => set_clog
    (set_status_tree TRANSACTION_STATUS_ABORTED xid children (clog w)) w) ;;;
  log (EvTransactionIdAbortTree xid children).

Definition ProcArrayRemove (procno : nat) (latestXid : Z) : M unit :=
  modify (fun w => set_procArray (filter (fun p => p ≠ procno) (procArray w)) w) ;;;
  log (EvProcArrayRemove procno latestXid).

(** ** Writing the prepare record *)

(** The data of the chain as [XLogInsert] copies it into the record. *)
Definition chain_blocks (chain : list XLogRecData) : list (list byte) :=
  map (fun b => take (Z.to_nat (rd_len b)) (rd_data b)) chain.

Definition EndPrepare (gxact : nat) : M unit :=
  d <- gxact_load gxact ;;
  pgxact <- pgxact_load (pgprocno d) ;;
  let xid := pgxact_xid pgxact in
  (* Add the end sentinel to the list of 2PC records *)
  RegisterTwoPhaseRecord TWOPHASE_RM_END_ID 0 [] 0 ;;;
  (* Go back and fill in total_len in the file header record *)
  w <- get ;;
  match xl_chain (records w) with
  | [] => memory_fault
  | head :: rest =>
      let total := wrap32 (total_len (records w) + sizeof_pg_crc32) in
      modify (set_records
        {| xl_chain :=
             {| rd_data := memcpy_at (rd_data head) 4 (le_encode 4 total);
                rd_len := rd_len head |} :: rest;
           bytes_free := bytes_free (records w);
           total_len := total_len (records w) |}) ;;;
      when (MaxAllocSize <? total)
        (ereport ERROR ERRCODE_PROGRAM_LIMIT_EXCEEDED msg_length_exceeded) ;;;
      w <- get ;;
      lsn <- XLogInsert XLOG_XACT_PREPARE (chain_blocks (xl_chain (records w))) ;;
      gxact_store gxact (set_prepare_lsn lsn) ;;;
      begin_lsn <- XLogLastInsertBeginLoc ;;
      gxact_store gxact (set_prepare_begin_lsn begin_lsn) ;;;
      (* Add the prepared record to our global list *)
      add_recover_post_checkpoint_prepared_transactions_map_entry xid begin_lsn ;;;
      XLogFlush lsn ;;;
      MarkAsPrepared gxact ;;;
      modify (set_MyLockedGxact (Some gxact)) ;;;
      log (EvSyncRepWaitForLSN lsn) ;;;
      modify (set_records {| xl_chain := []; bytes_free := bytes_free (records w);
                             total_len := total_len (records w) |})
  end.

(** ** COMMIT PREPARED and ROLLBACK PREPARED *)

(** An array argument is the memory from the pointer on; [nbytes] of it
    go into the record. *)
Definition array_bytes (ptr : list byte) (nbytes : Z) : list byte :=
  bytes_at ptr 0 (Z.to_nat nbytes).

Definition RecordTransactionCommitPrepared (xid : Z) (gid0 : string)
    (nchildren : Z) (children : list byte) (nrels : Z) (rels : list byte)
    (ninvalmsgs : Z) (invalmsgs : list byte) (initfileinval : bool) : M unit :=
  let '(distribTimeStamp, distribXid) := dtxCrackOpenGid gid0 in
  let rdata :=
    (if 0 <? nrels
     then [array_bytes rels (wrap32 (nrels * sizeof_RelFileNodePendingDelete))]
     else []) ++
    (if 0 <? nchildren
     then [array_bytes children (wrap32 (nchildren * sizeof_TransactionId))]
     else []) ++
    (if 0 <? ninvalmsgs
     then [array_bytes invalmsgs (wrap32 (ninvalmsgs * sizeof_SharedInvalidationMessage))]
     else []) in
  (* Emit the XLOG commit record *)
  recptr <- XLogInsert
              (XLOG_XACT_COMMIT_PREPARED xid distribTimeStamp distribXid
                 MyDatabaseId MyDatabaseTableSpace nrels nchildren ninvalmsgs)
              rdata ;;
  (* Flush XLOG to disk *)
  XLogFlush recptr ;;;
  (* Mark the distributed transaction committed. *)
  log (EvDistributedLog_SetCommittedTree xid (read_xids children nchildren)) ;;;
  (* Mark the transaction committed in pg_clog *)
  TransactionIdCommitTree xid (read_xids children nchildren) ;;;
  log (EvSyncRepWaitForLSN recptr).

Definition RecordTransactionAbortPrepared (xid : Z)
    (nchildren : Z) (children : list byte) (nrels : Z) (rels : list byte) : M unit :=
  committed <- TransactionIdDidCommit xid ;;
  when committed (ereport PANIC ERRCODE_INTERNAL_ERROR msg_already_committed) ;;;
  let rdata :=
    (if 0 <? nrels
     then [array_bytes rels (wrap32 (nrels * sizeof_RelFileNodePendingDelete))]
     else []) ++
    (if 0 <? nchildren
     then [array_bytes children (wrap32 (nchildren * sizeof_TransactionId))]
     else []) in
  (* Emit the XLOG abort record *)
  recptr <- XLogInsert (XLOG_XACT_ABORT_PREPARED xid nrels nchildren) rdata ;;
  (* Always flush, since we're about to remove the 2PC state file *)
  XLogFlush recptr ;;;
  (* Mark the transaction aborted in clog. *)
  TransactionIdAbortTree xid (read_xids children nchildren) ;;;
  log (EvSyncRepWaitForLSN recptr).

(** [bufptr + n] for a pointer into the record. *)
Definition ptr_add (ptr : list byte) (n : Z) : list byte := drop (Z.to_nat n) ptr.

(** [for (;;)] over the 2PC records; every turn moves the pointer on by
    at least a record header, and [ProcessRecords] gives the loop more
    turns than the buffer has bytes. *)
Fixpoint ProcessRecords_loop (fuel : nat) (bufptr : list byte) (xid : Z)
    (phase : TwoPhasePhase) (callbacks : Z -> bool) : M unit :=
  match fuel with
  | O => fun w => (OutOfFuel, w)
  | S fuel' =>
      let record_len := read_le bufptr 0 4 in
      let record_rmid := read_le bufptr 4 1 in
      let record_info := read_le bufptr 6 2 in
      if record_rmid =? TWOPHASE_RM_END_ID then ret tt
      else
        let bufptr1 := ptr_add bufptr (MAXALIGN sizeof_TwoPhaseRecordOnDisk) in
        when (callbacks record_rmid)
          (log (EvTwoPhaseCallback phase record_rmid xid record_info
                  (array_bytes bufptr1 record_len) record_len)) ;;;
        ProcessRecords_loop fuel' (ptr_add bufptr1 (MAXALIGN record_len))
          xid phase callbacks
  end.

Definition ProcessRecords (bufptr : list byte) (xid : Z)
    (phase : TwoPhasePhase) (callbacks : Z -> bool) : M unit :=
  ProcessRecords_loop (S (S (length bufptr))) bufptr xid phase callbacks.

(** [FinishPreparedTransaction] from the point where [LockGXact] has
    returned the entry. *)
Definition FinishPreparedTransaction_locked (gid0 : string) (isCommit : bool)
    (gxact : nat) : M bool :=
  d <- gxact_load gxact ;;
  pgxact <- pgxact_load (pgprocno d) ;;
  let xid := pgxact_xid pgxact in
  let tfXLogRecPtr := prepare_begin_lsn d in
  (* get the two phase information from the xlog *)
  tfRecord <- XLogReadRecord tfXLogRecPtr ;;
  match tfRecord with
  | None =>
      (* after the WARNING asking for a failover *)
      ereport ERROR ERRCODE_DATA_CORRUPTED msg_xlog_record_invalid
  | Some rec =>
      let buf := XLogRecGetData rec in
      (* Disassemble the header area *)
      let hdr := hdr_view buf in
      let bufptr := ptr_add buf (MAXALIGN sizeof_TwoPhaseFileHeader) in
      let children := bufptr in
      let bufptr := ptr_add bufptr
        (MAXALIGN (wrap64 (hdr_nsubxacts hdr * sizeof_TransactionId))) in
      let commitrels := bufptr in
      let bufptr := ptr_add bufptr
        (MAXALIGN (wrap64 (hdr_ncommitrels hdr * sizeof_RelFileNodePendingDelete))) in
      let abortrels := bufptr in
      let bufptr := ptr_add bufptr
        (MAXALIGN (wrap64 (hdr_nabortrels hdr * sizeof_RelFileNodePendingDelete))) in
      let invalmsgs := bufptr in
      let bufptr := ptr_add bufptr
        (MAXALIGN (wrap64 (hdr_ninvalmsgs hdr * sizeof_SharedInvalidationMessage))) in
      (* compute latestXid among all children *)
      let latestXid :=
        TransactionIdLatest xid (read_xids children (hdr_nsubxacts hdr)) in
      (if isCommit then
         RecordTransactionCommitPrepared xid gid0
           (hdr_nsubxacts hdr) children
           (hdr_ncommitrels hdr) commitrels
           (hdr_ninvalmsgs hdr) invalmsgs
           (hdr_initfileinval hdr)
       else
         RecordTransactionAbortPrepared xid
           (hdr_nsubxacts hdr) children
           (hdr_nabortrels hdr) abortrels) ;;;
      ProcArrayRemove (pgprocno d) latestXid ;;;
      (* mark the gxact invalid so no one else will try to commit/rollback *)
      gxact_store gxact (set_valid false) ;;;
      log (EvSetValid gxact false) ;;;
      let delrels := if isCommit then commitrels else abortrels in
      let ndelrels :=
        if isCommit then hdr_ncommitrels hdr else hdr_nabortrels hdr in
      (* Make sure files supposed to be dropped are dropped *)
      log (EvDropRelationFiles
             (array_bytes delrels (wrap64 (ndelrels * sizeof_RelFileNodePendingDelete)))
             ndelrels) ;;;
      (* Handle cache invalidation messages. *)
      when (hdr_initfileinval hdr) (log EvRelationCacheInitFilePreInvalidate) ;;;
      log (EvSendSharedInvalidMessages
             (array_bytes invalmsgs
                (wrap64 (hdr_ninvalmsgs hdr * sizeof_SharedInvalidationMessage)))
             (hdr_ninvalmsgs hdr)) ;;;
      when (hdr_initfileinval hdr) (log EvRelationCacheInitFilePostInvalidate) ;;;
      (* And now do the callbacks *)
      (if isCommit then
         ProcessRecords bufptr xid PostCommitPhase twophase_postcommit_callbacks
       else
         ProcessRecords bufptr xid PostAbortPhase twophase_postabort_callbacks) ;;;
      log (EvPredicateLockTwoPhaseFinish xid isCommit) ;;;
      (* Count the prepared xact as committed or aborted *)
      log (EvAtEOXact_PgStat isCommit) ;;;
      (* And now we can clean up our mess. *)
      remove_recover_post_checkpoint_prepared_transactions_map_entry xid ;;;
      RemoveGXact gxact ;;;
      modify (set_MyLockedGxact None) ;;;
      ret true
  end.

Definition FinishPreparedTransaction (gid0 : string)
    (isCommit raiseErrorIfNotFound : bool) : M bool :=
  (* Validate the GID, and lock the GXACT *)
  og <- LockGXact gid0 GetUserId raiseErrorIfNotFound ;;
  match og with
  | None =>
      when isCommit (log EvWaitForMirror) ;;;
      ret false
  | Some gxact => FinishPreparedTransaction_locked gid0 isCommit gxact
  end.

(** The table of prepared transactions during WAL replay. *)
Definition RemoveTwoPhaseFile (xid : Z) (giveWarning : bool) : M unit :=
  remove_recover_post_checkpoint_prepared_transactions_map_entry xid.

Definition RecreateTwoPhaseFile (xid : Z) (content : list byte) (len : Z)
    (xlogrecptr : Z) : M unit :=
  add_recover_post_checkpoint_prepared_transactions_map_entry xid xlogrecptr.

(** ** Recovery *)

(** The body of the [while (tfXLogRecPtr != InvalidXLogRecPtr)] loop of
    PrescanPreparedTransactions for the entries [hash_seq_search] still
    has to return; [result] and [xids] are the locals of the function. *)
Fixpoint Prescan_loop (entries : list prpt_map) (want_xids : bool)
    (result : Z) (xids : list Z) : M (Z * list Z) :=
  match entries with
  | [] => ret (result, xids)
  | entry :: rest =>
      let tfXLogRecPtr := pm_xlogrecptr entry in
      if tfXLogRecPtr =? InvalidXLogRecPtr then ret (result, xids)
      else
        tfRecord <- XLogReadRecord tfXLogRecPtr ;;
        (* hdr = XLogRecGetData(tfRecord); xid = hdr->xid; *)
        hdr <- deref (XLogRecGetData <$> tfRecord) ;;
        let xid := hdr_xid (hdr_view hdr) in
        when (bool_decide (tfRecord = None :> option XLogRecord))
          (ereport ERROR ERRCODE_DATA_CORRUPTED msg_xlog_record_invalid) ;;;
        committed <- TransactionIdDidCommit xid ;;
        aborted <- TransactionIdDidAbort xid ;;
        r <- (if negb committed && negb aborted then
                (* Incorporate xid into the running-minimum result. *)
                let result' :=
                  if TransactionIdPrecedes xid result then xid else result in
                (* Examine subtransaction XIDs *)
                let subxids := ptr_add hdr (MAXALIGN sizeof_TwoPhaseFileHeader) in
                for_each (read_xids subxids (hdr_nsubxacts (hdr_view hdr)))
                  (fun subxid =>
                     w <- get ;;
                     when (TransactionIdFollowsOrEquals subxid (nextXid w))
                       (modify (set_nextXid (TransactionIdAdvance subxid)))) ;;;
                ret (result', if want_xids then xids ++ [xid] else xids)
              else ret (result, xids)) ;;
        Prescan_loop rest want_xids (fst r) (snd r)
  end.

(** [want_xids] tells whether [xids_p] is not NULL; the list returned
    is [*xids_p]. *)
Definition PrescanPreparedTransactions (want_xids : bool) : M (Z * option (list Z)) :=
  w <- get ;;
  let origNextXid := nextXid w in
  r <- Prescan_loop (default [] (map_ht w)) want_xids origNextXid [] ;;
  ret (fst r, if want_xids then Some (snd r) else None).

Fixpoint Recover_loop (entries : list prpt_map) (overwriteOK : bool) : M unit :=
  match entries with
  | [] => ret tt
  | entry :: rest =>
      let tfXLogRecPtr := pm_xlogrecptr entry in
      if tfXLogRecPtr =? InvalidXLogRecPtr then ret tt
      else
        tfRecord <- XLogReadRecord tfXLogRecPtr ;;
        match tfRecord with
        | None => ereport ERROR ERRCODE_DATA_CORRUPTED msg_xlog_record_invalid
        | Some rec =>
            let buf := XLogRecGetData rec in
            (* Deconstruct header *)
            let hdr := hdr_view buf in
            let xid := hdr_xid hdr in
            let bufptr := ptr_add buf (MAXALIGN sizeof_TwoPhaseFileHeader) in
            let subxids := bufptr in
            let bufptr := ptr_add bufptr
              (MAXALIGN (wrap64 (hdr_nsubxacts hdr * sizeof_TransactionId))) in
            let bufptr := ptr_add bufptr
              (MAXALIGN (wrap64 (hdr_ncommitrels hdr * sizeof_RelFileNodePendingDelete))) in
            let bufptr := ptr_add bufptr
              (MAXALIGN (wrap64 (hdr_nabortrels hdr * sizeof_RelFileNodePendingDelete))) in
            let bufptr := ptr_add bufptr
              (MAXALIGN (wrap64 (hdr_ninvalmsgs hdr * sizeof_SharedInvalidationMessage))) in
            let overwriteOK' :=
              if InHotStandby && (PGPROC_MAX_CACHED_SUBXIDS <=? hdr_nsubxacts hdr)
              then true else overwriteOK in
            (* Reconstruct subtrans state for the transaction *)
            for_each (read_xids subxids (hdr_nsubxacts hdr))
              (fun subxid => log (EvSubTransSetParent subxid xid overwriteOK')) ;;;
            (* Crack open the gid *)
            let '(distribTimeStamp, distribXid) :=
              dtxCrackOpenGid (gid_string (hdr_gid hdr)) in
            (* Recreate its GXACT and dummy PGPROC *)
            gxact <- MarkAsPreparing xid
                       {| ldx_state := LOCALDISTRIBXACT_STATE_ACTIVE;
                          ldx_distribTimeStamp := distribTimeStamp;
                          ldx_distribXid := distribXid |}
                       (gid_string (hdr_gid hdr))
                       (hdr_prepared_at hdr)
                       (hdr_owner hdr)
                       (hdr_database hdr)
                       tfXLogRecPtr ;;
            GXactLoadSubxactData gxact (hdr_nsubxacts hdr)
              (read_xids subxids (hdr_nsubxacts hdr)) ;;;
            MarkAsPrepared gxact ;;;
            (* Recover other state (notably locks) using resource managers *)
            ProcessRecords bufptr xid RecoverPhase twophase_recover_callbacks ;;;
            Recover_loop rest overwriteOK'
        end
  end.

Definition RecoverPreparedTransactions : M unit :=
  w <- get ;;
  Recover_loop (default [] (map_ht w)) false.

End TwoPhase.

(** * The other entry points of twophase.c

    The functions below only read the registry, or work on data of
    their own; they return a [Result].  Their [elog(ERROR, ...)] carry
    no error code, which makes them internal errors. *)

Inductive ErrMsgMore :=
  | msg_failed_to_find_xid          (* failed to find GlobalTransaction for xid *)
  | msg_hot_standby_not_supported
  | msg_invalid_relpersistence.

Inductive Result (A : Type) :=
  | Ok (a : A)
  | Failed (lvl : ErrLevel) (msg : ErrMsgMore)
  | Fault               (* a load or store through NULL or outside its object *)
  | NoFuel.
Arguments Ok {A} a.
Arguments Failed {A} lvl msg.
Arguments Fault {A}.
Arguments NoFuel {A}.

Definition rbind {A B} (r : Result A) (k : A -> Result B) : Result B :=
  match r with
  | Ok a => k a
  | Failed lvl msg => Failed lvl msg
  | Fault => Fault
  | NoFuel => NoFuel
  end.

Notation "x <~ c1 ;; c2" := (rbind c1 (fun x => c2))
  (at level 100, c1 at next level, right associativity).

Definition load {A} (p : option A) : Result A :=
  match p with
  | Some a => Ok a
  | None => Fault
  end.

(** [TwoPhaseState->prepXacts[i]] dereferenced: the struct the [i]th pointer of the
    array points to, with the pointer. *)
Definition prepXact_at (w : World) (i : nat) : Result (nat * GlobalTransactionData) :=
  g <~ load (mjoin (prepXacts (TwoPhaseState w) !! i)) ;;
  d <~ load (gxacts (TwoPhaseState w) !! g) ;;
  Ok (g, d).

Section TwoPhaseRest.
Context `{E : Env}.

(** ** The view pg_prepared_xacts *)

Fixpoint GetPreparedTransactionList_loop (w : World) (idxs : list nat)
    : Result (list GlobalTransactionData) :=
  match idxs with
  | [] => Ok []
  | i :: rest =>
      (* memcpy(array + i, TwoPhaseState->prepXacts[i], ...) *)
      gd <~ prepXact_at w i ;;
      array <~ GetPreparedTransactionList_loop w rest ;;
      Ok (snd gd :: array)
  end.

(** The number of entries and the array, [None] for NULL. *)
Definition GetPreparedTransactionList (w : World)
    : Result (Z * option (list GlobalTransactionData)) :=
  if Nat.eqb (numPrepXacts (TwoPhaseState w)) 0 then Ok (0, None)
  else
    let num := numPrepXacts (TwoPhaseState w) in
    array <~ GetPreparedTransactionList_loop w (seq 0 num) ;;
    Ok (Z.of_nat num, Some array).

(** Working status for pg_prepared_xact. *)
Record Working_State := mkWorking_State {
  ws_array : option (list GlobalTransactionData);
  ws_ngxacts : Z;
  ws_currIdx : Z }.

(** A row of the view: transaction, gid, prepared, ownerid, dbid. *)
Record PreparedXactRow := mkPreparedXactRow {
  row_transaction : Z;
  row_gid : string;
  row_prepared : Z;
  row_ownerid : Z;
  row_dbid : Z }.

(** The first call collects the status. *)
Definition pg_prepared_xact_firstcall (w : World) : Result Working_State :=
  r <~ GetPreparedTransactionList w ;;
  Ok {| ws_array := snd r; ws_ngxacts := fst r; ws_currIdx := 0 |}.

(** One call after the set-up: the [while] loop up to its
    [SRF_RETURN_NEXT], or [None] for [SRF_RETURN_DONE]. *)
Fixpoint pg_prepared_xact_percall (fuel : nat) (status : Working_State) (w : World)
    : Result (option PreparedXactRow * Working_State) :=
  match ws_array status with
  | None => Ok (None, status)
  | Some array =>
      if ws_currIdx status <? ws_ngxacts status then
        match fuel with
        | O => NoFuel
        | S fuel' =>
            (* gxact = &status->array[status->currIdx++] *)
            gxact <~ load (array !! Z.to_nat (ws_currIdx status)) ;;
            let status' :=
              {| ws_array := ws_array status; ws_ngxacts := ws_ngxacts status;
                 ws_currIdx := to_int32 (ws_currIdx status + 1) |} in
            if negb (valid gxact) then pg_prepared_xact_percall fuel' status' w
            else
              pgxact <~ load (allPgXact w !! pgprocno gxact) ;;
              proc <~ load (allProcs w !! pgprocno gxact) ;;
              Ok (Some {| row_transaction := pgxact_xid pgxact;
                          row_gid := gid gxact;
                          row_prepared := prepared_at gxact;
                          row_ownerid := owner gxact;
                          row_dbid := proc_databaseId proc |}, status')
        end
      else Ok (None, status)
  end.

(** The calls of one scan of the view, until the function says it is
    done: the rows it returns. *)
Fixpoint pg_prepared_xact_calls (calls : nat) (status : Working_State) (w : World)
    : Result (list PreparedXactRow) :=
  match calls with
  | O => NoFuel
  | S calls' =>
      r <~ pg_prepared_xact_percall (Z.to_nat (ws_ngxacts status)) status w ;;
      match fst r with
      | None => Ok []
      | Some row =>
          rows <~ pg_prepared_xact_calls calls' (snd r) w ;;
          Ok (row :: rows)
      end
  end.

Definition pg_prepared_xact (w : World) : Result (list PreparedXactRow) :=
  status <~ pg_prepared_xact_firstcall w ;;
  pg_prepared_xact_calls (S (Z.to_nat (ws_ngxacts status))) status w.

(** ** Looking up an entry by xid *)

(** The statics [cached_xid] and [cached_gxact] of TwoPhaseGetGXact. *)
Record GXactCache := mkGXactCache {
  cached_xid : Z;
  cached_gxact : option nat }.

Definition initial_cache : GXactCache :=
  {| cached_xid := InvalidTransactionId; cached_gxact := None |}.

Fixpoint TwoPhaseGetGXact_loop (w : World) (xid : Z) (idxs : list nat)
    : Result (option nat) :=
  match idxs with
  | [] => Ok None
  | i :: rest =>
      gd <~ prepXact_at w i ;;
      pgxact <~ load (allPgXact w !! pgprocno (snd gd)) ;;
      if pgxact_xid pgxact =? xid then Ok (Some (fst gd))
      else TwoPhaseGetGXact_loop w xid rest
  end.

(** The result is a pointer, NULL when the cache holds NULL. *)
Definition TwoPhaseGetGXact (cache : GXactCache) (xid : Z) (w : World)
    : Result (option nat) * GXactCache :=
  if xid =? cached_xid cache then (Ok (cached_gxact cache), cache)
  else
    match TwoPhaseGetGXact_loop w xid (seq 0 (numPrepXacts (TwoPhaseState w))) with
    | Ok (Some g) => (Ok (Some g), {| cached_xid := xid; cached_gxact := Some g |})
    | Ok None => (Failed ERROR msg_failed_to_find_xid, cache)
    | Failed lvl msg => (Failed lvl msg, cache)
    | Fault => (Fault, cache)
    | NoFuel => (NoFuel, cache)
    end.

Definition TwoPhaseGetDummyBackendId (cache : GXactCache) (xid : Z) (w : World)
    : Result Z * GXactCache :=
  let r := TwoPhaseGetGXact cache xid w in
  (gxact <~ fst r ;;
   d <~ load (gxact ≫= fun g => gxacts (TwoPhaseState w) !! g) ;;
   Ok (dummyBackendId d), snd r).

(** The dummy PGPROC as its index in [allProcs]. *)
Definition TwoPhaseGetDummyProc (cache : GXactCache) (xid : Z) (w : World)
    : Result nat * GXactCache :=
  let r := TwoPhaseGetGXact cache xid w in
  (gxact <~ fst r ;;
   d <~ load (gxact ≫= fun g => gxacts (TwoPhaseState w) !! g) ;;
   Ok (pgprocno d), snd r).

(** ** Hot standby and checkpoints *)

Definition StandbyTransactionIdIsPrepared (xid : Z) : Result bool :=
  Failed ERROR msg_hot_standby_not_supported.

Definition StandbyRecoverPreparedTransactions (overwriteOK : bool) : Result unit :=
  Failed ERROR msg_hot_standby_not_supported.

Definition CheckPointTwoPhase (redo_horizon : Z) : M unit := ret tt.

(** ** The prepared transactions of a checkpoint record *)

(** [prepared_transaction_agg_state]: the count and the array [maps], as
    long as the allocation has room for. *)
Record prepared_transaction_agg_state := mkprepared_transaction_agg_state {
  ptas_count : Z;
  ptas_maps : list prpt_map }.

(** [palloc0(PREPARED_TRANSACTION_CHECKPOINT_BYTES(maxCount))]. *)
Definition palloc0_agg_state (maxCount : Z) : prepared_transaction_agg_state :=
  {| ptas_count := 0;
     ptas_maps := replicate (Z.to_nat maxCount) (mkprpt_map 0 0) |}.

(** What [ptas] and [maxCount] point to after the call. *)
Definition TwoPhaseAddPreparedTransactionInit : prepared_transaction_agg_state * Z :=
  let maxCount := 10 in
  (palloc0_agg_state maxCount, maxCount).

Definition TwoPhaseAddPreparedTransaction (ptas : prepared_transaction_agg_state)
    (maxCount : Z) (xid : Z) (xlogPtr : Z)
    : Result (prepared_transaction_agg_state * Z) :=
  let count := ptas_count ptas in
  let grown :=
    if count =? maxCount then
      let oldPtas := ptas in
      let maxCount' := to_int32 (maxCount * 2) in        (* Double. *)
      (* memcpy of the first PREPARED_TRANSACTION_CHECKPOINT_BYTES(count) bytes *)
      ({| ptas_count := ptas_count oldPtas;
          ptas_maps :=
            take (Z.to_nat count) (ptas_maps oldPtas) ++
            drop (Z.to_nat count) (ptas_maps (palloc0_agg_state maxCount')) |},
       maxCount')
    else (ptas, maxCount) in
  let ptas1 := fst grown in
  (* m = the element maps[count]; m->xid = xid; m->xlogrecptr = the location *)
  if (0 <=? count) && (Z.to_nat count <? length (ptas_maps ptas1))%nat then
    Ok ({| ptas_count := to_int32 (ptas_count ptas1 + 1);
           ptas_maps := <[Z.to_nat count := mkprpt_map xid xlogPtr]> (ptas_maps ptas1) |},
        snd grown)
  else Fault.

Fixpoint getTwoPhasePreparedTransactionData_loop (w : World) (idxs : list nat)
    (ptas : prepared_transaction_agg_state) (maxCount : Z)
    : Result (prepared_transaction_agg_state * Z) :=
  match idxs with
  | [] => Ok (ptas, maxCount)
  | i :: rest =>
      gd <~ prepXact_at w i ;;
      let gxact := snd gd in
      if negb (valid gxact) then
        (* Skip any invalid prepared transacitons. *)
        getTwoPhasePreparedTransactionData_loop w rest ptas maxCount
      else
        pgxact <~ load (allPgXact w !! pgprocno gxact) ;;
        r <~ TwoPhaseAddPreparedTransaction ptas maxCount (pgxact_xid pgxact)
               (prepare_begin_lsn gxact) ;;
        getTwoPhasePreparedTransactionData_loop w rest (fst r) (snd r)
  end.

Definition getTwoPhasePreparedTransactionData (w : World)
    : Result prepared_transaction_agg_state :=
  let '(ptas, maxCount) := TwoPhaseAddPreparedTransactionInit in
  r <~ getTwoPhasePreparedTransactionData_loop w
         (seq 0 (numPrepXacts (TwoPhaseState w))) ptas maxCount ;;
  Ok (fst r).

Definition SetupCheckpointPreparedTransactionList
    (ptas : prepared_transaction_agg_state) : M unit :=
  for_each (seq 0 (Z.to_nat (ptas_count ptas)))
    (fun iPrep =>
       m <- deref (ptas_maps ptas !! iPrep) ;;
       add_recover_post_checkpoint_prepared_transactions_map_entry
         (pm_xid m) (pm_xlogrecptr m)).

(** The loop of getTwoPhaseOldestPreparedTransactionXLogRecPtr from
    [i] on; [oldest] is the index of the element the pointer is at. *)
Fixpoint getTwoPhaseOldest_loop (m : list prpt_map) (idxs : list nat) (oldest : nat)
    : Result nat :=
  match idxs with
  | [] => Ok oldest
  | i :: rest =>
      mi <~ load (m !! i) ;;
      mo <~ load (m !! oldest) ;;
      if pm_xlogrecptr mi <=? pm_xlogrecptr mo
      then getTwoPhaseOldest_loop m rest i
      else getTwoPhaseOldest_loop m rest oldest
  end.

(** The result points into [maps]: the index of the element, [None]
    for NULL.  [ptas] is what [rdata->data] points to. *)
Definition getTwoPhaseOldestPreparedTransactionXLogRecPtr
    (ptas : prepared_transaction_agg_state) : Result (option nat) :=
  let map_count := ptas_count ptas in
  if 0 <? map_count then
    oldest <~ getTwoPhaseOldest_loop (ptas_maps ptas)
                (seq 1 (Z.to_nat map_count - 1)) 0%nat ;;
    Ok (Some oldest)
  else Ok None.

End TwoPhaseRest.

(** * Pending relation deletes (storage.c)

    The list [pendingDeletes] of the backend, newest request first, and
    the calls into the storage manager in program order.  What
    GetCurrentTransactionNestLevel() returns is the argument
    [nestLevel] of the functions that ask for it.  The [Assert]s of the
    file are not part of a production build and are left out. *)

Record RelFileNode := mkRelFileNode {
  spcNode : Z;
  dbNode : Z;
  relNode : Z }.

Record RelFileNodePendingDelete := mkRelFileNodePendingDelete {
  rfn_node : RelFileNode;
  rfn_relstorage : Z;              (* char *)
  rfn_isTempRelation : bool }.

Record PendingRelDelete := mkPendingRelDelete {
  pd_relnode : RelFileNodePendingDelete;   (* relation that may need to be deleted *)
  pd_atCommit : bool;                      (* T=delete at commit; F=delete at abort *)
  pd_nestLevel : Z;                        (* xact nesting level of request *)
  pd_dbOperation : bool }.                 (* T=operate on database *)

(** What [smgropen] hands back: the relation and the backend. *)
Record SMgrRelation := mkSMgrRelation {
  smgr_rnode : RelFileNode;
  smgr_backend : Z }.

Inductive SmgrEvent :=
  | EvSmgrCreate (srel : SMgrRelation)              (* smgrcreate(srel, MAIN_FORKNUM, false) *)
  | EvLogSmgrCreate (rnode : RelFileNode)           (* log_smgrcreate(rnode, MAIN_FORKNUM) *)
  | EvRelationCloseSmgr (rnode : RelFileNode)
  | EvDropDatabaseDirectory (db_id tablespace_id : Z)
  | EvSmgrDoUnlinkAll (srels : list SMgrRelation) (relstorages : list Z)
  | EvSmgrClose (srel : SMgrRelation).

Record SmgrState := mkSmgrState {
  pendingDeletes : list PendingRelDelete;
  smgr_events : list SmgrEvent }.

Definition InvalidOid : Z := 0.
Definition TempRelBackendId : Z := -2.
(** The persistence codes of pg_class.h: 'p', 'u' and 't'. *)
Definition RELPERSISTENCE_PERMANENT : Z := 112.
Definition RELPERSISTENCE_UNLOGGED : Z := 117.
Definition RELPERSISTENCE_TEMP : Z := 116.

Definition RelFileNodeEquals (a b : RelFileNode) : bool :=
  (relNode a =? relNode b) && (dbNode a =? dbNode b) && (spcNode a =? spcNode b).

Definition smgropen (rnode : RelFileNode) (backend : Z) : SMgrRelation :=
  {| smgr_rnode := rnode; smgr_backend := backend |}.

Definition push_pending (p : PendingRelDelete) (evs : list SmgrEvent)
    (s : SmgrState) : SmgrState :=
  {| pendingDeletes := p :: pendingDeletes s;
     smgr_events := smgr_events s ++ evs |}.

Definition RelationCreateStorage (rnode : RelFileNode) (relpersistence relstorage : Z)
    (nestLevel : Z) (s : SmgrState) : Result unit * SmgrState :=
  let choice :=
    if relpersistence =? RELPERSISTENCE_TEMP then Some (TempRelBackendId, false)
    else if relpersistence =? RELPERSISTENCE_UNLOGGED then Some (InvalidBackendId, false)
    else if relpersistence =? RELPERSISTENCE_PERMANENT then Some (InvalidBackendId, true)
    else None in
  match choice with
  | None => (Failed ERROR msg_invalid_relpersistence, s)
  | Some (backend, needs_wal) =>
      let srel := smgropen rnode backend in
      (Ok tt,
       push_pending
         {| pd_relnode :=
              {| rfn_node := rnode; rfn_relstorage := relstorage;
                 rfn_isTempRelation := backend =? TempRelBackendId |};
            pd_atCommit := false;         (* delete if abort *)
            pd_nestLevel := nestLevel;
            pd_dbOperation := false |}
         (EvSmgrCreate srel ::
          if needs_wal then [EvLogSmgrCreate (smgr_rnode srel)] else [])
         s)
  end.

(** [rd_node], [rd_rel->relstorage] and [rd_backend] of the relation. *)
Definition RelationDropStorage (rd_node : RelFileNode) (relstorage rd_backend : Z)
    (nestLevel : Z) (s : SmgrState) : SmgrState :=
  push_pending
    {| pd_relnode :=
         {| rfn_node := rd_node; rfn_relstorage := relstorage;
            rfn_isTempRelation := rd_backend =? TempRelBackendId |};
       pd_atCommit := true;               (* delete if commit *)
       pd_nestLevel := nestLevel;
       pd_dbOperation := false |}
    [EvRelationCloseSmgr rd_node] s.

(** No assignment gives [relnode.relstorage] a value: [garbage] is what
    the allocator left there. *)
Definition DatabaseDropStorage (db_id tablespace_id : Z) (garbage : Z)
    (nestLevel : Z) (s : SmgrState) : SmgrState :=
  push_pending
    {| pd_relnode :=
         {| rfn_node := {| spcNode := tablespace_id; dbNode := db_id;
                           relNode := InvalidOid |};
            rfn_relstorage := garbage;
            rfn_isTempRelation := false |};
       pd_atCommit := true;
       pd_nestLevel := nestLevel;
       pd_dbOperation := true |}
    [] s.

(** The loop of RelationPreserveStorage: the list from [pending] on
    once the matching entries are unlinked. *)
Fixpoint RelationPreserveStorage_loop (rnode : RelFileNode) (atCommit : bool)
    (pending : list PendingRelDelete) : list PendingRelDelete :=
  match pending with
  | [] => []
  | p :: next =>
      if RelFileNodeEquals rnode (rfn_node (pd_relnode p))
         && Bool.eqb (pd_atCommit p) atCommit
      then (* unlink and delete list entry *)
        RelationPreserveStorage_loop rnode atCommit next
      else (* unrelated entry, don't touch it *)
        p :: RelationPreserveStorage_loop rnode atCommit next
  end.

Definition RelationPreserveStorage (rnode : RelFileNode) (atCommit : bool)
    (s : SmgrState) : SmgrState :=
  {| pendingDeletes := RelationPreserveStorage_loop rnode atCommit (pendingDeletes s);
     smgr_events := smgr_events s |}.

(** The locals of smgrDoPendingDeletes at the end of its loop: the list
    from the entry the loop started at, the arrays [srels] and
    [relstorages] up to [nrels] with their size [maxrels], and the
    database directory it dropped if it returned from inside the loop. *)
Record PendingDeletesLoop := mkPendingDeletesLoop {
  dl_pending : list PendingRelDelete;
  dl_srels : list SMgrRelation;
  dl_relstorages : list Z;
  dl_maxrels : Z;
  dl_dropped : option (Z * Z) }.

Fixpoint smgrDoPendingDeletes_loop (nestLevel : Z) (isCommit : bool)
    (pending : list PendingRelDelete) (srels : list SMgrRelation)
    (relstorages : list Z) (maxrels : Z) : Result PendingDeletesLoop :=
  match pending with
  | [] => Ok {| dl_pending := []; dl_srels := srels; dl_relstorages := relstorages;
                dl_maxrels := maxrels; dl_dropped := None |}
  | p :: next =>
      if pd_nestLevel p <? nestLevel then
        (* outer-level entries should not be processed yet *)
        r <~ smgrDoPendingDeletes_loop nestLevel isCommit next srels relstorages maxrels ;;
        Ok {| dl_pending := p :: dl_pending r; dl_srels := dl_srels r;
              dl_relstorages := dl_relstorages r; dl_maxrels := dl_maxrels r;
              dl_dropped := dl_dropped r |}
      else
        (* unlink list entry first, so we don't retry on failure *)
        if Bool.eqb (pd_atCommit p) isCommit then
          if pd_dbOperation p then
            (* DropDatabaseDirectory(...); pfree(pending); return; *)
            Ok {| dl_pending := next; dl_srels := srels; dl_relstorages := relstorages;
                  dl_maxrels := maxrels;
                  dl_dropped := Some (dbNode (rfn_node (pd_relnode p)),
                                      spcNode (rfn_node (pd_relnode p))) |}
          else
            let srel := smgropen (rfn_node (pd_relnode p))
                          (if rfn_isTempRelation (pd_relnode p)
                           then TempRelBackendId else InvalidBackendId) in
            let nrels := Z.of_nat (length srels) in
            (* allocate the initial array, or extend it, if needed *)
            let maxrels' :=
              if maxrels =? 0 then 8
              else if maxrels <=? nrels then to_int32 (maxrels * 2)
              else maxrels in
            (* relstorages[nrels] = ...; srels[nrels++] = srel; *)
            if nrels <? maxrels' then
              smgrDoPendingDeletes_loop nestLevel isCommit next
                (srels ++ [srel]) (relstorages ++ [rfn_relstorage (pd_relnode p)])
                maxrels'
            else Fault
        else
          smgrDoPendingDeletes_loop nestLevel isCommit next srels relstorages maxrels
  end.

Definition smgrDoPendingDeletes (isCommit : bool) (nestLevel : Z) (s : SmgrState)
    : Result unit * SmgrState :=
  match smgrDoPendingDeletes_loop nestLevel isCommit (pendingDeletes s) [] [] 0 with
  | Ok r =>
      (Ok tt,
       {| pendingDeletes := dl_pending r;
          smgr_events :=
            smgr_events s ++
            match dl_dropped r with
            | Some (db, spc) => [EvDropDatabaseDirectory db spc]
            | None =>
                if 0 <? Z.of_nat (length (dl_srels r)) then
                  EvSmgrDoUnlinkAll (dl_srels r) (dl_relstorages r)
                  :: (EvSmgrClose <$> dl_srels r)
                else []
            end |})
  | Failed lvl msg => (Failed lvl msg, s)
  | Fault => (Fault, s)
  | NoFuel => (NoFuel, s)
  end.

(** The test of both loops of smgrGetPendingDeletes. *)
Definition to_report (nestLevel : Z) (forCommit : bool) (p : PendingRelDelete) : bool :=
  (nestLevel <=? pd_nestLevel p) && Bool.eqb (pd_atCommit p) forCommit
  && negb (pd_dbOperation p).

Fixpoint smgrGetPendingDeletes_count (nestLevel : Z) (forCommit : bool)
    (pending : list PendingRelDelete) (nrels : Z) : Z :=
  match pending with
  | [] => nrels
  | p :: next =>
      smgrGetPendingDeletes_count nestLevel forCommit next
        (if to_report nestLevel forCommit p then to_int32 (nrels + 1) else nrels)
  end.

(** The second loop writes through [rptr] into the array of [nrels]
    elements; [rptr] is what it has written so far. *)
Fixpoint smgrGetPendingDeletes_fill (nestLevel : Z) (forCommit : bool)
    (pending : list PendingRelDelete) (nrels : Z)
    (rptr : list RelFileNodePendingDelete)
    : Result (list RelFileNodePendingDelete) :=
  match pending with
  | [] => Ok rptr
  | p :: next =>
      if to_report nestLevel forCommit p then
        (* the store through rptr, then rptr++ *)
        if Z.of_nat (length rptr) <? nrels then
          smgrGetPendingDeletes_fill nestLevel forCommit next nrels
            (rptr ++ [pd_relnode p])
        else Fault
      else smgrGetPendingDeletes_fill nestLevel forCommit next nrels rptr
  end.

(** The number of relations and the array, [None] for NULL. *)
Definition smgrGetPendingDeletes (forCommit : bool) (nestLevel : Z) (s : SmgrState)
    : Result (Z * option (list RelFileNodePendingDelete)) :=
  let nrels := smgrGetPendingDeletes_count nestLevel forCommit (pendingDeletes s) 0 in
  if nrels =? 0 then Ok (0, None)
  else
    rptr <~ smgrGetPendingDeletes_fill nestLevel forCommit (pendingDeletes s) nrels [] ;;
    Ok (nrels, Some rptr).

Fixpoint PostPrepare_smgr_loop (pending : list PendingRelDelete)
    : list PendingRelDelete :=
  match pending with
  | [] => []
  | _ :: next => PostPrepare_smgr_loop next     (* pendingDeletes = next *)
  end.

Definition PostPrepare_smgr (s : SmgrState) : SmgrState :=
  {| pendingDeletes := PostPrepare_smgr_loop (pendingDeletes s);
     smgr_events := smgr_events s |}.

Definition AtSubCommit_smgr (nestLevel : Z) (s : SmgrState) : SmgrState :=
  {| pendingDeletes :=
       map (fun p =>
              if nestLevel <=? pd_nestLevel p
              then {| pd_relnode := pd_relnode p; pd_atCommit := pd_atCommit p;
                      pd_nestLevel := to_int32 (nestLevel - 1);
                      pd_dbOperation := pd_dbOperation p |}
              else p) (pendingDeletes s);
     smgr_events := smgr_events s |}.

Definition AtSubAbort_smgr (nestLevel : Z) (s : SmgrState) : Result unit * SmgrState :=
  smgrDoPendingDeletes false nestLevel s.

(** ** Views of the pending deletes used to state their properties *)

(** The relation smgrDoPendingDeletes opens for an entry. *)
Definition pending_srel (p : PendingRelDelete) : SMgrRelation :=
  smgropen (rfn_node (pd_relnode p))
    (if rfn_isTempRelation (pd_relnode p) then TempRelBackendId else InvalidBackendId).

(** The entries that pass the test of smgrGetPendingDeletes, and the
    entries of the outer levels. *)
Definition reported (nestLevel : Z) (forCommit : bool) (s : SmgrState)
    : list PendingRelDelete :=
  List.filter (to_report nestLevel forCommit) (pendingDeletes s).

Definition outer_entries (nestLevel : Z) (pending : list PendingRelDelete)
    : list PendingRelDelete :=
  List.filter (fun p => pd_nestLevel p <? nestLevel) pending.

(** One smgrdounlinkall for the relations of [due], then the smgrclose
    of each. *)
Definition unlink_events (due : list PendingRelDelete) : list SmgrEvent :=
  match due with
  | [] => []
  | _ :: _ =>
      EvSmgrDoUnlinkAll (pending_srel <$> due)
        ((fun p => rfn_relstorage (pd_relnode p)) <$> due)
      :: (EvSmgrClose <$> (pending_srel <$> due))
  end.

(** A database operation that a call at [nestLevel] for [isCommit]
    would carry out. *)
Definition due_dbOperation (nestLevel : Z) (isCommit : bool) (p : PendingRelDelete)
    : bool :=
  (nestLevel <=? pd_nestLevel p) && Bool.eqb (pd_atCommit p) isCommit
  && pd_dbOperation p.

Definition valid_relpersistence (relpersistence : Z) : bool :=
  (relpersistence =? RELPERSISTENCE_TEMP)
  || (relpersistence =? RELPERSISTENCE_UNLOGGED)
  || (relpersistence =? RELPERSISTENCE_PERMANENT).

(** The relations a list of events unlinks. *)
Definition unlinked (evs : list SmgrEvent) : list SMgrRelation :=
  mjoin ((fun e => match e with
                   | EvSmgrDoUnlinkAll srels _ => srels
                   | _ => []
                   end) <$> evs).

(** What AtSubCommit_smgr does to one entry. *)
Definition reassign (nestLevel : Z) (p : PendingRelDelete) : PendingRelDelete :=
  if nestLevel <=? pd_nestLevel p
  then {| pd_relnode := pd_relnode p; pd_atCommit := pd_atCommit p;
          pd_nestLevel := to_int32 (nestLevel - 1);
          pd_dbOperation := pd_dbOperation p |}
  else p.

(** ** Views of the registry used to state its properties *)

(** The pointers in the active part of the array. *)
Definition live_ptrs (s : TwoPhaseStateData) : list nat :=
  omap id (take (numPrepXacts s) (prepXacts s)).

(** The structs of the live entries, in array order. *)
Definition live_entries (s : TwoPhaseStateData) : list GlobalTransactionData :=
  omap (fun g => gxacts s !! g) (live_ptrs s).

(** The free list starting at [p] visits exactly [fl]. *)
Fixpoint is_chain (gx : list GlobalTransactionData) (p : option nat)
    (fl : list nat) : Prop :=
  match fl with
  | [] => p = None
  | g :: rest => p = Some g ∧ ∃ d, gx !! g = Some d ∧ is_chain gx (next d) rest
  end.

(** A registry as [TwoPhaseShmemInit] sets it up and the operations
    keep it: [fl] is the free list, every live slot points to a struct,
    no struct is both live and free, and struct [g] owns the dummy
    PGPROC [g]. *)
Record registry_wf `{E : Env} (w : World) (fl : list nat) : Prop := mk_registry_wf {
  wf_free : is_chain (gxacts (TwoPhaseState w)) (freeGXacts (TwoPhaseState w)) fl;
  wf_live : take (numPrepXacts (TwoPhaseState w)) (prepXacts (TwoPhaseState w))
            = Some <$> live_ptrs (TwoPhaseState w);
  wf_room : (numPrepXacts (TwoPhaseState w) + length fl
             ≤ length (prepXacts (TwoPhaseState w)))%nat;
  wf_nodup : NoDup (live_ptrs (TwoPhaseState w) ++ fl);
  wf_range : Forall (fun g => (g < length (gxacts (TwoPhaseState w)))%nat)
               (live_ptrs (TwoPhaseState w) ++ fl);
  wf_procno : pgprocno <$> gxacts (TwoPhaseState w)
              = seq 0 (length (gxacts (TwoPhaseState w)));
  wf_procs : (length (gxacts (TwoPhaseState w)) ≤ length (allProcs w))%nat
             ∧ (length (gxacts (TwoPhaseState w)) ≤ length (allPgXact w))%nat;
  wf_cap : length (prepXacts (TwoPhaseState w)) = max_prepared_xacts;
  wf_gids : Forall (fun d => Z.of_nat (String.length (gid d)) < GIDSIZE)
              (gxacts (TwoPhaseState w)) }.

(** The same conditions as a test that computes. *)
Fixpoint is_chain_b (gx : list GlobalTransactionData) (p : option nat)
    (fl : list nat) : bool :=
  match fl with
  | [] => bool_decide (p = None)
  | g :: rest =>
      bool_decide (p = Some g) &&
      match gx !! g with
      | Some d => is_chain_b gx (next d) rest
      | None => false
      end
  end.

Definition registry_wf_b `{E : Env} (w : World) (fl : list nat) : bool :=
  let s := TwoPhaseState w in
  is_chain_b (gxacts s) (freeGXacts s) fl
  && bool_decide (take (numPrepXacts s) (prepXacts s) = Some <$> live_ptrs s)
  && (numPrepXacts s + length fl <=? length (prepXacts s))%nat
  && bool_decide (NoDup (live_ptrs s ++ fl))
  && forallb (fun g => g <? length (gxacts s))%nat (live_ptrs s ++ fl)
  && bool_decide (pgprocno <$> gxacts s = seq 0 (length (gxacts s)))
  && (length (gxacts s) <=? length (allProcs w))%nat
  && (length (gxacts s) <=? length (allPgXact w))%nat
  && (length (prepXacts s) =? max_prepared_xacts)%nat
  && forallb (fun d => Z.of_nat (String.length (gid d)) <? GIDSIZE) (gxacts s).

(** The world once [register_exit_hook] has run. *)
Definition exit_hook_registered (before : bool) (w : World) : World :=
  if twophaseExitRegistered w then w
  else set_twophaseExitRegistered true
         (set_events (events w ++ [EvRegisterExitHook before]) w).

(** A live entry as the view pg_prepared_xacts shows it, with its
    [valid] flag. *)
Record PreparedXact := mkPreparedXact {
  px_xid : Z;
  px_gid : string;
  px_prepared_at : Z;
  px_owner : Z;
  px_database : Z;
  px_valid : bool }.

Definition entry_view (w : World) (g : nat) : option PreparedXact :=
  d ← gxacts (TwoPhaseState w) !! g;
  p ← allProcs w !! pgprocno d;
  x ← allPgXact w !! pgprocno d;
  Some {| px_xid := pgxact_xid x; px_gid := gid d;
          px_prepared_at := prepared_at d; px_owner := owner d;
          px_database := proc_databaseId p; px_valid := valid d |}.

Definition registry_view (w : World) : list PreparedXact :=
  omap (entry_view w) (live_ptrs (TwoPhaseState w)).

(** The arguments of one call of [MarkAsPreparing], and a run of calls. *)
Record ReserveRequest := mkReserveRequest {
  rq_xid : Z;
  rq_ldx : LocalDistribXactData;
  rq_gid : string;
  rq_prepared_at : Z;
  rq_owner : Z;
  rq_database : Z;
  rq_xlogrecptr : Z }.

Definition Reserve `{E : Env} (r : ReserveRequest) : M nat :=
  MarkAsPreparing (rq_xid r) (rq_ldx r) (rq_gid r) (rq_prepared_at r)
    (rq_owner r) (rq_database r) (rq_xlogrecptr r).

Definition reserve_all `{E : Env} (reqs : list ReserveRequest) : M unit :=
  for_each reqs (fun r => Reserve r ;;; ret tt).

(** The struct, the dummy PGPROC and PGXACT, and the world that a
    successful [MarkAsPreparing] leaves when it takes [g] off the free
    list. *)
Definition reserved_gxact `{E : Env} (gid0 : string) (prepared_at0 owner0 xlogrecptr : Z)
    (d : GlobalTransactionData) : GlobalTransactionData :=
  {| next := next d; pgprocno := pgprocno d; dummyBackendId := dummyBackendId d;
     prepared_at := prepared_at0; prepare_begin_lsn := xlogrecptr;
     prepare_lsn := 0; owner := owner0; locking_backend := MyBackendId;
     valid := false; gid := gid0 |}.

Definition reserved_PGPROC (procno : nat) (xid : Z) (ldx : LocalDistribXactData)
    (owner0 databaseid : Z) : PGPROC :=
  {| proc_pgprocno := procno; proc_lxid := xid; proc_pid := 0;
     proc_backendId := InvalidBackendId; proc_databaseId := databaseid;
     proc_roleId := owner0; proc_subxids := [];
     proc_localDistribXactData := ldx |}.

Definition reserved_PGXACT (xid : Z) : PGXACT :=
  {| pgxact_xid := xid; pgxact_xmin := InvalidTransactionId;
     pgxact_delayChkpt := false; pgxact_vacuumFlags := 0;
     pgxact_overflowed := false; pgxact_nxids := 0 |}.

Definition reserved `{E : Env} (g : nat) (d : GlobalTransactionData) (xid : Z)
    (ldx : LocalDistribXactData) (gid0 : string)
    (prepared_at0 owner0 databaseid xlogrecptr : Z) (w : World) : World :=
  let w1 := exit_hook_registered false w in
  let s := TwoPhaseState w in
  set_MyLockedGxact (Some g)
    (set_TwoPhaseState
       {| gxacts := <[g := reserved_gxact gid0 prepared_at0 owner0 xlogrecptr d]>
                      (gxacts s);
          freeGXacts := next d;
          numPrepXacts := S (numPrepXacts s);
          prepXacts := <[numPrepXacts s := Some g]> (prepXacts s) |}
       (set_allPgXact (<[pgprocno d := reserved_PGXACT xid]> (allPgXact w))
          (set_allProcs
             (<[pgprocno d := reserved_PGPROC (pgprocno d) xid ldx owner0 databaseid]>
                (allProcs w)) w1))).

(** How the registry shows a request once it is reserved. *)
Definition request_view (r : ReserveRequest) : PreparedXact :=
  mkPreparedXact (rq_xid r) (rq_gid r) (rq_prepared_at r) (rq_owner r)
    (rq_database r) false.

(** The live entries with their pointers, and the entry the scan of
    [LockGXact] stops at: the first live entry that is valid and
    carries the GID. *)
Definition live_pairs (s : TwoPhaseStateData) : list (nat * GlobalTransactionData) :=
  omap (fun g => pair g <$> gxacts s !! g) (live_ptrs s).

Definition lock_candidate (gid0 : string) (gd : nat * GlobalTransactionData) : bool :=
  valid gd.2 && String.eqb (gid gd.2) gid0.

Definition find_prepared (s : TwoPhaseStateData) (gid0 : string)
    : option (nat * GlobalTransactionData) :=
  List.find (lock_candidate gid0) (live_pairs s).

(** The world in which the backend holds the lock on [g]. *)
Definition locked `{E : Env} (g : nat) (d : GlobalTransactionData) (w : World) : World :=
  set_MyLockedGxact (Some g)
    (set_TwoPhaseState
       (set_gxacts (<[g := set_locking_backend MyBackendId d]>
                      (gxacts (TwoPhaseState w))) (TwoPhaseState w)) w).

(** The outcome of the tests [LockGXact] makes on the entry it found,
    [p] being the entry's dummy PGPROC. *)
Definition lock_outcome `{E : Env} (user : Z) (g : nat) (d : GlobalTransactionData)
    (p : PGPROC) (w : World) : Outcome (option nat) * World :=
  if negb (locking_backend d =? InvalidBackendId) then (Busy, w)
  else if negb (user =? owner d) && negb (superuser_arg user)
  then (PermissionDenied, w)
  else if negb (MyDatabaseId =? proc_databaseId p)
          && negb (is_GP_ROLE_EXECUTE Gp_role)
  then (AnotherDatabase, w)
  else (Done (Some g), locked g d w).

(** The place of an event in the protocol of
    [FinishPreparedTransaction]: 1 the outcome record is inserted, 2 it
    is flushed, 3 the status store is updated, 4 the wait for
    synchronous replication, 5 the dummy PGPROC leaves the ProcArray,
    6 the entry is marked invalid, 7 the files are dropped, 8 cache
    invalidation, 9 the resource-manager callbacks, 10 predicate locks
    and statistics, 11 the entry leaves the table of prepared
    transactions, 12 the entry leaves the registry; 0 for what comes
    before the protocol. *)
Definition finish_step (e : Event) : nat :=
  match e with
  | EvXLogInsert _ _ _ => 1
  | EvXLogFlush _ => 2
  | EvDistributedLog_SetCommittedTree _ _ => 3
  | EvTransactionIdCommitTree _ _ => 3
  | EvTransactionIdAbortTree _ _ => 3
  | EvSyncRepWaitForLSN _ => 4
  | EvProcArrayRemove _ _ => 5
  | EvSetValid _ _ => 6
  | EvDropRelationFiles _ _ => 7
  | EvRelationCacheInitFilePreInvalidate => 8
  | EvSendSharedInvalidMessages _ _ => 8
  | EvRelationCacheInitFilePostInvalidate => 8
  | EvTwoPhaseCallback _ _ _ _ _ _ => 9
  | EvPredicateLockTwoPhaseFinish _ _ => 10
  | EvAtEOXact_PgStat _ => 10
  | EvRemoveMapEntry _ => 11
  | EvRemoveGXact _ => 12
  | EvWaitForMirror => 0
  | EvLocalDistribXact_ChangeState _ => 0
  | EvProcArrayAdd _ => 0
  | EvSubTransSetParent _ _ _ => 0
  | EvRegisterExitHook _ => 0
  end%nat.

(** No event comes after one of a later step. *)
Definition in_order (new : list Event) : Prop :=
  ∀ i j a b, (i < j)%nat → new !! i = Some a → new !! j = Some b →
             (finish_step a ≤ finish_step b)%nat.

(** The events contain one of each step of [must]. *)
Definition made {A} (must : list nat) (_ : A) (new : list Event) : Prop :=
  Forall (fun k => ∃ e, e ∈ new ∧ finish_step e = k) must.

(** Every run of [m] appends events of steps [lo] to [hi], in order,
    and a run that returns [a] has appended events that satisfy
    [Q a]. *)
Definition performs {A} (lo hi : nat) (Q : A -> list Event -> Prop) (m : M A) : Prop :=
  ∀ w r w', m w = (r, w') →
    ∃ new, events w' = events w ++ new
           ∧ in_order new
           ∧ Forall (fun e => (lo ≤ finish_step e ≤ hi)%nat) new
           ∧ (∀ a, r = Done a → Q a new).

(** What the loop of [PrescanPreparedTransactions] computes, as
    functions of the records: the data of the record an entry of the
    table points to, whether the status store knows its transaction
    neither as committed nor as aborted, its subtransaction ids, the
    running minimum and the advance of [nextXid]. *)
Definition record_data (w : World) (e : prpt_map) : list byte :=
  match xlog_records (xlog w) !! pm_xlogrecptr e with
  | Some r => XLogRecGetData r
  | None => []
  end.

(** The fields of a header hold values of their C types. *)
Record hdr_typed (h : TwoPhaseFileHeader) : Prop := mk_hdr_typed {
  ty_magic : 0 ≤ hdr_magic h < 2 ^ 32;
  ty_total_len : 0 ≤ hdr_total_len h < 2 ^ 32;
  ty_xid : 0 ≤ hdr_xid h < 2 ^ 32;
  ty_database : 0 ≤ hdr_database h < 2 ^ 32;
  ty_prepared_at : - 2 ^ 63 ≤ hdr_prepared_at h < 2 ^ 63;
  ty_owner : 0 ≤ hdr_owner h < 2 ^ 32;
  ty_nsubxacts : - 2 ^ 31 ≤ hdr_nsubxacts h < 2 ^ 31;
  ty_ncommitrels : - 2 ^ 31 ≤ hdr_ncommitrels h < 2 ^ 31;
  ty_nabortrels : - 2 ^ 31 ≤ hdr_nabortrels h < 2 ^ 31;
  ty_ninvalmsgs : - 2 ^ 31 ≤ hdr_ninvalmsgs h < 2 ^ 31;
  ty_gid : length (hdr_gid h) = 200%nat }.

Definition set_hdr_total_len (v : Z) (h : TwoPhaseFileHeader) : TwoPhaseFileHeader :=
  {| hdr_magic := hdr_magic h; hdr_total_len := v; hdr_xid := hdr_xid h;
     hdr_database := hdr_database h; hdr_prepared_at := hdr_prepared_at h;
     hdr_owner := hdr_owner h; hdr_nsubxacts := hdr_nsubxacts h;
     hdr_ncommitrels := hdr_ncommitrels h; hdr_nabortrels := hdr_nabortrels h;
     hdr_ninvalmsgs := hdr_ninvalmsgs h; hdr_initfileinval := hdr_initfileinval h;
     hdr_gid := hdr_gid h |}.

(** The bytes the chain of [records] holds so far, as [XLogInsert]
    will copy them, and those of its first chunk. *)
Definition chain_stream (xl : xllist) : list byte :=
  concat (chain_blocks (xl_chain xl)).

Definition head_block (xl : xllist) : list byte :=
  match xl_chain xl with
  | [] => []
  | h :: _ => take (Z.to_nat (rd_len h)) (rd_data h)
  end.

(** The chain as [StartPrepare] sets it up and [save_state_data] keeps
    it: the last chunk has [bytes_free] unused bytes after its [rd_len]
    used ones, and [total_len] counts the bytes of the chain. *)
Record chain_ok (xl : xllist) : Prop := mk_chain_ok {
  ck_tail : ∃ before tail,
      xl_chain xl = before ++ [tail]
      ∧ 0 ≤ rd_len tail
      ∧ Z.of_nat (length (rd_data tail)) = rd_len tail + bytes_free xl;
  ck_free : 0 ≤ bytes_free xl < 2 ^ 32;
  ck_total : total_len xl = Z.of_nat (length (chain_stream xl)) }.

(** [pad] fills [sec] up to the next alignment boundary. *)
Definition padded (sec pad : list byte) : Prop :=
  Z.of_nat (length pad) = MAXALIGN (Z.of_nat (length sec)) - Z.of_nat (length sec).

(** [stream] holds the sections in this order, each followed by its
    padding. *)
Definition laid_out (sections : list (list byte)) (stream : list byte) : Prop :=
  ∃ pads, Forall2 padded sections pads
          ∧ stream = concat (zip_with app sections pads).

(** The length of a stream that holds the sections, and the condition
    under which [EndPrepare] accepts it: with the checksum it is no
    longer than [MaxAllocSize]. *)
Definition aligned_size (sections : list (list byte)) : Z :=
  foldr (fun sec n => MAXALIGN (Z.of_nat (length sec)) + n) 0 sections.

Definition fits (sections : list (list byte)) : Prop :=
  Forall (fun sec => Z.of_nat (length sec) ≤ MaxAllocSize) sections
  ∧ aligned_size sections + sizeof_pg_crc32 ≤ MaxAllocSize.

(** [w'] differs from [w] at most in the chain of [records], in the
    trace, and in fields of the dummy processes other than the
    database and the transaction id. *)
Record kept (w w' : World) : Prop := mk_kept {
  k_state : TwoPhaseState w' = TwoPhaseState w;
  k_database : ∀ n, proc_databaseId <$> allProcs w' !! n
                    = proc_databaseId <$> allProcs w !! n;
  k_xid : ∀ n, pgxact_xid <$> allPgXact w' !! n = pgxact_xid <$> allPgXact w !! n;
  k_nextXid : nextXid w' = nextXid w;
  k_locked : MyLockedGxact w' = MyLockedGxact w;
  k_hook : twophaseExitRegistered w' = twophaseExitRegistered w;
  k_map : map_ht w' = map_ht w;
  k_xlog : xlog w' = xlog w;
  k_clog : clog w' = clog w;
  k_procArray : procArray w' = procArray w }.

(** The state file under construction: since [w0] only the chain has
    changed, it holds the sections [secs], and the header, whose
    [total_len] [EndPrepare] fills in, lies in the first chunk. *)
Record building (w0 : World) (secs : list (list byte)) (w : World) : Prop :=
  mk_building {
    b_kept : kept w0 w;
    b_events : events w = events w0;
    b_chain : chain_ok (records w);
    b_laid : laid_out secs (chain_stream (records w));
    b_head : (8 ≤ length (head_block (records w)))%nat }.

(** A 2PC record that a resource manager registers. *)
Record TwoPhaseRecord := mkTwoPhaseRecord {
  tp_rmid : Z;
  tp_info : Z;
  tp_data : list byte }.

Definition register_all `{E : Env} (parts : list TwoPhaseRecord) : M unit :=
  for_each parts (fun r =>
    RegisterTwoPhaseRecord (tp_rmid r) (tp_info r) (tp_data r)
      (Z.of_nat (length (tp_data r)))).

(** The builder of a state file: [StartPrepare], the records of the
    resource managers, [EndPrepare]. *)
Definition build_state_file `{E : Env} (gxact : nat) (children : list Z)
    (commitrels abortrels invalmsgs : list (list byte)) (initfileinval : bool)
    (parts : list TwoPhaseRecord) : M unit :=
  StartPrepare gxact children commitrels abortrels invalmsgs initfileinval ;;;
  register_all parts ;;;
  EndPrepare gxact.

(** The header of the state file of an entry that shows as [v]. *)
Definition prepare_header (v : PreparedXact) (nsubxacts ncommitrels nabortrels
    ninvalmsgs : Z) (initfileinval : bool) (total : Z) : TwoPhaseFileHeader :=
  {| hdr_magic := TWOPHASE_MAGIC;
     hdr_total_len := total;
     hdr_xid := px_xid v;
     hdr_database := px_database v;
     hdr_prepared_at := px_prepared_at v;
     hdr_owner := px_owner v;
     hdr_nsubxacts := nsubxacts;
     hdr_ncommitrels := ncommitrels;
     hdr_nabortrels := nabortrels;
     hdr_ninvalmsgs := ninvalmsgs;
     hdr_initfileinval := initfileinval;
     hdr_gid := StrNCpy (String.list_byte_of_string (px_gid v)) (Z.to_nat GIDSIZE) |}.

(** The sections of a state file, in the order of the file. *)
Definition part_sections `{E : Env} (r : TwoPhaseRecord) : list (list byte) :=
  [record_image (Z.of_nat (length (tp_data r))) (tp_rmid r) (tp_info r); tp_data r].

Definition state_sections `{E : Env} (hdr : TwoPhaseFileHeader) (children : list Z)
    (commitrels abortrels invalmsgs : list (list byte))
    (parts : list TwoPhaseRecord) : list (list byte) :=
  [hdr_image hdr; xids_image children; concat commitrels; concat abortrels;
   concat invalmsgs]
  ++ concat (part_sections <$> parts)
  ++ [record_image 0 TWOPHASE_RM_END_ID 0].

(** The header area of a state file as [FinishPreparedTransaction]
    disassembles it: the header, and the pointers to the four arrays
    and to the first 2PC record. *)
Record StateFileView := mkStateFileView {
  sv_hdr : TwoPhaseFileHeader;
  sv_children : list byte;
  sv_commitrels : list byte;
  sv_abortrels : list byte;
  sv_invalmsgs : list byte;
  sv_records : list byte }.

Definition disassemble `{E : Env} (buf : list byte) : StateFileView :=
  let hdr := hdr_view buf in
  let bufptr := ptr_add buf (MAXALIGN sizeof_TwoPhaseFileHeader) in
  let children := bufptr in
  let bufptr := ptr_add bufptr
    (MAXALIGN (wrap64 (hdr_nsubxacts hdr * sizeof_TransactionId))) in
  let commitrels := bufptr in
  let bufptr := ptr_add bufptr
    (MAXALIGN (wrap64 (hdr_ncommitrels hdr * sizeof_RelFileNodePendingDelete))) in
  let abortrels := bufptr in
  let bufptr := ptr_add bufptr
    (MAXALIGN (wrap64 (hdr_nabortrels hdr * sizeof_RelFileNodePendingDelete))) in
  let invalmsgs := bufptr in
  let bufptr := ptr_add bufptr
    (MAXALIGN (wrap64 (hdr_ninvalmsgs hdr * sizeof_SharedInvalidationMessage))) in
  {| sv_hdr := hdr; sv_children := children; sv_commitrels := commitrels;
     sv_abortrels := abortrels; sv_invalmsgs := invalmsgs; sv_records := bufptr |}.

(** The calls that [ProcessRecords] makes for the 2PC records [parts]. *)
Definition callback_events (phase : TwoPhasePhase) (xid : Z) (callbacks : Z -> bool)
    (parts : list TwoPhaseRecord) : list Event :=
  omap (fun r =>
          if callbacks (tp_rmid r)
          then Some (EvTwoPhaseCallback phase (tp_rmid r) xid (tp_info r) (tp_data r)
                       (Z.of_nat (length (tp_data r))))
          else None) parts.

(** The fields of a 2PC record hold values of their C types, and the
    resource manager is not the end marker. *)
Definition part_typed (r : TwoPhaseRecord) : Prop :=
  0 < tp_rmid r < 2 ^ 8 ∧ 0 ≤ tp_info r < 2 ^ 16.

(** The fields of an entry hold values of their C types. *)
Definition view_typed (v : PreparedXact) : Prop :=
  0 ≤ px_xid v < 2 ^ 32 ∧ 0 ≤ px_database v < 2 ^ 32
  ∧ 0 ≤ px_owner v < 2 ^ 32 ∧ - 2 ^ 63 ≤ px_prepared_at v < 2 ^ 63.

(** The entry once it is marked valid. *)
Definition marked_valid (v : PreparedXact) : PreparedXact :=
  mkPreparedXact (px_xid v) (px_gid v) (px_prepared_at v) (px_owner v)
    (px_database v) true.

(** The GID is a C string that fits the [gid] field of the entry. *)
Definition gid_typed (s : string) : Prop :=
  Z.of_nat (String.length s) < GIDSIZE
  ∧ Byte.x00 ∉ String.list_byte_of_string s.

(** One run of the builder: the world it starts in, the entry, and
    what the transaction hands to [StartPrepare] and to
    [RegisterTwoPhaseRecord]. *)
Record Preparation := mkPreparation {
  pr_world : World;
  pr_gxact : nat;
  pr_children : list Z;
  pr_commitrels : list (list byte);
  pr_abortrels : list (list byte);
  pr_invalmsgs : list (list byte);
  pr_initfileinval : bool;
  pr_parts : list TwoPhaseRecord }.

Definition prepare `{E : Env} (a : Preparation) : M unit :=
  build_state_file (pr_gxact a) (pr_children a) (pr_commitrels a)
    (pr_abortrels a) (pr_invalmsgs a) (pr_initfileinval a) (pr_parts a).

(** The run is for an entry that shows as [v]; the entry and the
    arrays hold values of their C types and the state file fits. *)
Record well_typed `{E : Env} (a : Preparation) (v : PreparedXact) : Prop :=
  mk_well_typed {
    wt_entry : entry_view (pr_world a) (pr_gxact a) = Some v;
    wt_view : view_typed v;
    wt_gid : gid_typed (px_gid v);
    wt_children : Forall (fun x => 0 ≤ x < 2 ^ 32) (pr_children a);
    wt_rel : 0 < sizeof_RelFileNodePendingDelete;
    wt_msg : 0 < sizeof_SharedInvalidationMessage;
    wt_commitrels :
      Forall (fun r => length r = Z.to_nat sizeof_RelFileNodePendingDelete)
        (pr_commitrels a);
    wt_abortrels :
      Forall (fun r => length r = Z.to_nat sizeof_RelFileNodePendingDelete)
        (pr_abortrels a);
    wt_invalmsgs :
      Forall (fun r => length r = Z.to_nat sizeof_SharedInvalidationMessage)
        (pr_invalmsgs a);
    wt_parts : Forall part_typed (pr_parts a);
    wt_fits :
      fits (state_sections
              (prepare_header v (Z.of_nat (length (pr_children a)))
                 (Z.of_nat (length (pr_commitrels a)))
                 (Z.of_nat (length (pr_abortrels a)))
                 (Z.of_nat (length (pr_invalmsgs a))) (pr_initfileinval a) 0)
              (pr_children a) (pr_commitrels a) (pr_abortrels a)
              (pr_invalmsgs a) (pr_parts a)) }.

(** The transaction that shows as [p] was prepared and marked valid,
    and the log of [w] still has its prepare record at [lsn]: some run
    of the builder wrote the record at [lsn] and left the entry
    showing as [p]. *)
Definition durable `{E : Env} (w : World) (lsn : Z) (p : PreparedXact) : Prop :=
  ∃ a v w1,
    well_typed a v
    ∧ prepare a (pr_world a) = (Done tt, w1)
    ∧ xlog_insert_pos (xlog (pr_world a)) = lsn
    ∧ entry_view w1 (pr_gxact a) = Some p
    ∧ xlog_records (xlog w) !! lsn = xlog_records (xlog w1) !! lsn.

(** The header of the record names the transaction that shows as [p]. *)
Record describes (buf : list byte) (p : PreparedXact) : Prop := mk_describes {
  ds_xid : hdr_xid (hdr_view buf) = px_xid p;
  ds_gid : gid_string (hdr_gid (hdr_view buf)) = px_gid p;
  ds_prepared_at : hdr_prepared_at (hdr_view buf) = px_prepared_at p;
  ds_owner : hdr_owner (hdr_view buf) = px_owner p;
  ds_database : hdr_database (hdr_view buf) = px_database p;
  ds_valid : px_valid p = true;
  ds_short : Z.of_nat (String.length (px_gid p)) < GIDSIZE }.

(** The entry points to a record that the log still has. *)
Definition readable (w : World) (e : prpt_map) : Prop :=
  pm_xlogrecptr e ≠ InvalidXLogRecPtr
  ∧ is_Some (xlog_records (xlog w) !! pm_xlogrecptr e).

Definition record_xid (buf : list byte) : Z := hdr_xid (hdr_view buf).

Definition unresolved (c : gmap Z XidStatus) (buf : list byte) : bool :=
  negb match c !! record_xid buf with
       | Some TRANSACTION_STATUS_COMMITTED => true
       | _ => false
       end
  && negb match c !! record_xid buf with
          | Some TRANSACTION_STATUS_ABORTED => true
          | _ => false
          end.

Definition record_subxids (buf : list byte) : list Z :=
  read_xids (ptr_add buf (MAXALIGN sizeof_TwoPhaseFileHeader))
    (hdr_nsubxacts (hdr_view buf)).

Definition running_minimum `{E : Env} (xids : list Z) (start : Z) : Z :=
  fold_left (fun r x => if TransactionIdPrecedes x r then x else r) xids start.

Definition advance_past `{E : Env} (subxids : list Z) (next0 : Z) : Z :=
  fold_left (fun n s => if TransactionIdFollowsOrEquals s n
                        then TransactionIdAdvance s else n) subxids next0.

(** [TransactionIdPrecedes] is irreflexive and transitive on the ids of
    [U]. *)
Definition strict_order_on `{E : Env} (U : list Z) : bool :=
  forallb (fun x => negb (TransactionIdPrecedes x x)) U
  && forallb (fun x => forallb (fun y => forallb (fun z =>
       implb (TransactionIdPrecedes x y && TransactionIdPrecedes y z)
             (TransactionIdPrecedes x z)) U) U) U.

(** ** Views of the registry for the functions that read it *)

(** A row of pg_prepared_xacts for an entry of the registry. *)
Definition view_row (v : PreparedXact) : PreparedXactRow :=
  {| row_transaction := px_xid v; row_gid := px_gid v;
     row_prepared := px_prepared_at v; row_ownerid := px_owner v;
     row_dbid := px_database v |}.

(** The xid that the dummy PGXACT of a live entry holds. *)
Definition live_xid (w : World) (gd : nat * GlobalTransactionData) : option Z :=
  pgxact_xid <$> allPgXact w !! pgprocno gd.2.

Definition has_xid (w : World) (xid : Z) (gd : nat * GlobalTransactionData) : bool :=
  bool_decide (live_xid w gd = Some xid).

(** What a checkpoint records of a live entry: the xid and the location
    where the prepare record begins, for the valid entries only. *)
Definition checkpoint_entry (w : World) (gd : nat * GlobalTransactionData)
    : option prpt_map :=
  if valid gd.2 then
    x ← allPgXact w !! pgprocno gd.2;
    Some (mkprpt_map (pgxact_xid x) (prepare_begin_lsn gd.2))
  else None.

Definition checkpoint_entries (w : World) : list prpt_map :=
  omap (checkpoint_entry w) (live_pairs (TwoPhaseState w)).

(** The array from its first valid struct on. *)
Fixpoint skip_invalid (l : list GlobalTransactionData) : list GlobalTransactionData :=
  match l with
  | [] => []
  | d :: rest => if valid d then l else skip_invalid rest
  end.

(** The row that a call of pg_prepared_xact forms for a struct of its
    array. *)
Definition row_of (w : World) (d : GlobalTransactionData) : option PreparedXactRow :=
  x ← allPgXact w !! pgprocno d;
  p ← allProcs w !! pgprocno d;
  Some {| row_transaction := pgxact_xid x; row_gid := gid d;
          row_prepared := prepared_at d; row_ownerid := owner d;
          row_dbid := proc_databaseId p |}.

(** ** The steps of FinishPreparedTransaction

    What [FinishPreparedTransaction] does for the entry [LockGXact]
    gave it once it has read the prepare record: the calls of its body
    and of RecordTransactionCommitPrepared and
    RecordTransactionAbortPrepared in program order, cut where one step
    of the protocol ends and the next begins. *)

(** The outcome record is inserted and the log is flushed up to its
    end. *)
Definition Finish_write_record (main : XLogMain) (rdata : list (list byte)) : M Z :=
  recptr <- XLogInsert main rdata ;;
  XLogFlush recptr ;;;
  ret recptr.

(** The status store is updated; a commit marks the distributed
    transaction committed first. *)
Definition Finish_update_status (isCommit : bool) (xid : Z) (children : list Z)
    : M unit :=
  if isCommit then
    log (EvDistributedLog_SetCommittedTree xid children) ;;;
    TransactionIdCommitTree xid children
  else TransactionIdAbortTree xid children.

(** After the wait for synchronous replication that ends both
    functions, the dummy PGPROC leaves the ProcArray. *)
Definition Finish_leave_ProcArray (recptr : Z) (procno : nat) (latestXid : Z)
    : M unit :=
  log (EvSyncRepWaitForLSN recptr) ;;;
  ProcArrayRemove procno latestXid.

(** The rest of [FinishPreparedTransaction], on the parts [sv] of the
    prepare record. *)
Definition Finish_clean_up `{E : Env} (isCommit : bool) (gxact : nat) (xid : Z)
    (sv : StateFileView) : M bool :=
  let hdr := sv_hdr sv in
  (* mark the gxact invalid so no one else will try to commit/rollback *)
  gxact_store gxact (set_valid false) ;;;
  log (EvSetValid gxact false) ;;;
  let delrels := if isCommit then sv_commitrels sv else sv_abortrels sv in
  let ndelrels :=
    if isCommit then hdr_ncommitrels hdr else hdr_nabortrels hdr in
  (* Make sure files supposed to be dropped are dropped *)
  log (EvDropRelationFiles
         (array_bytes delrels (wrap64 (ndelrels * sizeof_RelFileNodePendingDelete)))
         ndelrels) ;;;
  (* Handle cache invalidation messages. *)
  when (hdr_initfileinval hdr) (log EvRelationCacheInitFilePreInvalidate) ;;;
  log (EvSendSharedInvalidMessages
         (array_bytes (sv_invalmsgs sv)
            (wrap64 (hdr_ninvalmsgs hdr * sizeof_SharedInvalidationMessage)))
         (hdr_ninvalmsgs hdr)) ;;;
  when (hdr_initfileinval hdr) (log EvRelationCacheInitFilePostInvalidate) ;;;
  (* And now do the callbacks *)
  (if isCommit then
     ProcessRecords (sv_records sv) xid PostCommitPhase twophase_postcommit_callbacks
   else
     ProcessRecords (sv_records sv) xid PostAbortPhase twophase_postabort_callbacks) ;;;
  log (EvPredicateLockTwoPhaseFinish xid isCommit) ;;;
  (* Count the prepared xact as committed or aborted *)
  log (EvAtEOXact_PgStat isCommit) ;;;
  (* And now we can clean up our mess. *)
  remove_recover_post_checkpoint_prepared_transactions_map_entry xid ;;;
  RemoveGXact gxact ;;;
  modify (set_MyLockedGxact None) ;;;
  ret true.

(** The outcome an outcome record records, and the transaction it
    records it for. *)
Definition outcome_of (main : XLogMain) : option (bool * Z) :=
  match main with
  | XLOG_XACT_PREPARE => None
  | XLOG_XACT_COMMIT_PREPARED xid _ _ _ _ _ _ _ => Some (true, xid)
  | XLOG_XACT_ABORT_PREPARED xid _ _ => Some (false, xid)
  end.

(** The status an outcome leaves in the status store. *)
Definition outcome_status (isCommit : bool) : XidStatus :=
  if isCommit then TRANSACTION_STATUS_COMMITTED else TRANSACTION_STATUS_ABORTED.

(** The events of the steps up to the removal from the ProcArray, and
    those of cache invalidation. *)
Definition outcome_events (isCommit : bool) (main : XLogMain) (begin_lsn recptr : Z)
    (xid : Z) (children : list Z) (procno : nat) (latestXid : Z) : list Event :=
  [EvXLogInsert main begin_lsn recptr; EvXLogFlush recptr]
  ++ (if isCommit
      then [EvDistributedLog_SetCommittedTree xid children;
            EvTransactionIdCommitTree xid children]
      else [EvTransactionIdAbortTree xid children])
  ++ [EvSyncRepWaitForLSN recptr; EvProcArrayRemove procno latestXid].

Definition invalidation_events `{E : Env} (sv : StateFileView) : list Event :=
  (if hdr_initfileinval (sv_hdr sv) then [EvRelationCacheInitFilePreInvalidate] else [])
  ++ [EvSendSharedInvalidMessages
        (array_bytes (sv_invalmsgs sv)
           (wrap64 (hdr_ninvalmsgs (sv_hdr sv) * sizeof_SharedInvalidationMessage)))
        (hdr_ninvalmsgs (sv_hdr sv))]
  ++ (if hdr_initfileinval (sv_hdr sv) then [EvRelationCacheInitFilePostInvalidate] else []).

Definition cleanup_events `{E : Env} (isCommit : bool) (g : nat) (xid : Z)
    (sv : StateFileView) (callbacks : list Event) : list Event :=
  [EvSetValid g false;
   EvDropRelationFiles
     (array_bytes (if isCommit then sv_commitrels sv else sv_abortrels sv)
        (wrap64 ((if isCommit then hdr_ncommitrels (sv_hdr sv)
                  else hdr_nabortrels (sv_hdr sv))
                 * sizeof_RelFileNodePendingDelete)))
     (if isCommit then hdr_ncommitrels (sv_hdr sv) else hdr_nabortrels (sv_hdr sv))]
  ++ invalidation_events sv
  ++ callbacks
  ++ [EvPredicateLockTwoPhaseFinish xid isCommit; EvAtEOXact_PgStat isCommit;
      EvRemoveMapEntry xid; EvRemoveGXact g].

(** Calls of TwoPhaseGetGXact one after the other, each with its xid
    and the world of its time: the results, and the statics after the
    last call. *)
Fixpoint TwoPhaseGetGXact_calls (cache : GXactCache)
    (calls : list (Z * World)) : list (Result (option nat)) * GXactCache :=
  match calls with
  | [] => ([], cache)
  | (xid, w) :: rest =>
      let r := TwoPhaseGetGXact cache xid w in
      let rs := TwoPhaseGetGXact_calls (snd r) rest in
      (fst r :: fst rs, snd rs)
  end.

(** ** A small installation

    An environment and worlds on which the statements below are run:
    two slots for prepared transactions, the comparison of transaction
    ids modulo 2^32 as transam.c has it, and user 10 the superuser. *)

Definition TransactionIdPrecedes_pg (id1 id2 : Z) : bool :=
  if (id1 <? 3) || (id2 <? 3) then id1 <? id2
  else to_int32 (id1 - id2) <? 0.

Definition TransactionIdFollowsOrEquals_pg (id1 id2 : Z) : bool :=
  if (id1 <? 3) || (id2 <? 3) then id2 <=? id1
  else 0 <=? to_int32 (id1 - id2).

Definition TransactionIdAdvance_pg (x : Z) : Z :=
  let y := wrap32 (x + 1) in if y <? 3 then 3 else y.

Definition TransactionIdLatest_pg (mainxid : Z) (xids : list Z) : Z :=
  foldr (fun x r => if TransactionIdPrecedes_pg r x then x else r) mainxid xids.

(** A backend connected to database [db] that runs in role [role]. *)
Definition demo_env_at (db : Z) (role : GpRoleValue) : Env :=
  {| max_prepared_xacts := 2;
     MaxBackends := 10;
     MyBackendId := 3;
     MyDatabaseId := db;
     MyDatabaseTableSpace := 1663;
     Gp_role := role;
     GetUserId := 10;
     InHotStandby := false;
     superuser_arg := fun u => u =? 10;
     dtxCrackOpenGid := fun _ => (0, 0);
     TransactionIdPrecedes := TransactionIdPrecedes_pg;
     TransactionIdFollowsOrEquals := TransactionIdFollowsOrEquals_pg;
     TransactionIdAdvance := TransactionIdAdvance_pg;
     TransactionIdLatest := TransactionIdLatest_pg;
     sizeof_RelFileNodePendingDelete := 16;
     sizeof_SharedInvalidationMessage := 16;
     PGPROC_MAX_CACHED_SUBXIDS := 64;
     twophase_recover_callbacks := fun rmid => (0 <? rmid) && (rmid <? 5);
     twophase_postcommit_callbacks := fun rmid => (0 <? rmid) && (rmid <? 5);
     twophase_postabort_callbacks := fun rmid => (0 <? rmid) && (rmid <? 5);
     uninit := fun _ => Byte.x7f |}.

Definition demo_env : Env := demo_env_at 1 GP_ROLE_DISPATCH.
(** The same backend connected to database 2, on the dispatcher and
    inside a segment. *)
Definition demo_env_other_database : Env := demo_env_at 2 GP_ROLE_DISPATCH.
Definition demo_env_segment : Env := demo_env_at 2 GP_ROLE_EXECUTE.

Definition zero_PGPROC : PGPROC :=
  {| proc_pgprocno := 0%nat; proc_lxid := 0; proc_pid := 0; proc_backendId := 0;
     proc_databaseId := 0; proc_roleId := 0; proc_subxids := [];
     proc_localDistribXactData :=
       mkLocalDistribXactData LOCALDISTRIBXACT_STATE_NONE 0 0 |}.

Definition zero_PGXACT : PGXACT :=
  {| pgxact_xid := 0; pgxact_xmin := 0; pgxact_delayChkpt := false;
     pgxact_vacuumFlags := 0; pgxact_overflowed := false; pgxact_nxids := 0 |}.

(** The server before [TwoPhaseShmemInit]. *)
Definition boot_world : World :=
  {| TwoPhaseState :=
       {| gxacts := []; freeGXacts := None; numPrepXacts := 0%nat; prepXacts := [] |};
     allProcs := replicate 2 zero_PGPROC;
     allPgXact := replicate 2 zero_PGXACT;
     nextXid := 700;
     MyLockedGxact := None;
     twophaseExitRegistered := false;
     map_ht := None;
     records := {| xl_chain := []; bytes_free := 0; total_len := 0 |};
     xlog := {| xlog_records := ∅; xlog_insert_pos := 4096;
                xlog_last_begin := 0; xlog_flushed := 4096 |};
     clog := ∅;
     procArray := [];
     events := [] |}.

Definition demo_ldx : LocalDistribXactData :=
  mkLocalDistribXactData LOCALDISTRIBXACT_STATE_ACTIVE 0 0.

(** After start-up, and after the GID "t1" was reserved for
    transaction 601 of user 20 in database 1. *)
Definition fresh_world : World := snd (TwoPhaseShmemInit (E := demo_env) boot_world).

Definition reserved_world : World :=
  snd (MarkAsPreparing (E := demo_env) 601 demo_ldx "t1" 5000 20 1 0 fresh_world).

(** The transaction prepared (one subtransaction, 602; one lock record
    of resource manager 1), still locked by the preparing backend; and
    after [PostPrepare_Twophase] released it. *)
Definition prepared_world : World :=
  snd ((StartPrepare (E := demo_env) 1 [602] [] [] [] false ;;;
        RegisterTwoPhaseRecord (E := demo_env) 1 0
          [Byte.x01; Byte.x02; Byte.x03] 3 ;;;
        EndPrepare (E := demo_env) 1) reserved_world).

Definition idle_world : World :=
  snd (PostPrepare_Twophase prepared_world).

(** Two reservations with distinct GIDs. *)
Definition demo_requests : list ReserveRequest :=
  [ mkReserveRequest 601 demo_ldx "t1" 5000 20 1 0;
    mkReserveRequest 603 demo_ldx "t2" 5001 21 1 0 ].

(** A restart after which the log has lost the prepare record of
    transaction 601: the table of prepared transactions still names
    location 4096, where nothing can be read. *)
Definition lost_record_world : World :=
  set_xlog {| xlog_records := ∅; xlog_insert_pos := 4408;
              xlog_last_begin := 4096; xlog_flushed := 4408 |}
    (set_MyLockedGxact None idle_world).

(** A second transaction, 603 with the subtransactions 604 and 705,
    prepared under the GID "t2"; and the server restarted after that:
    the registry is empty again, the log and the table of prepared
    transactions that replay rebuilt from it are as they were. *)
Definition two_prepared_world : World :=
  snd ((g <- MarkAsPreparing (E := demo_env) 603 demo_ldx "t2" 5001 21 1 0 ;;
        StartPrepare (E := demo_env) g [604; 705] [] [] [] false ;;;
        EndPrepare (E := demo_env) g ;;;
        PostPrepare_Twophase) idle_world).

Definition restarted_world : World :=
  set_map_ht (map_ht two_prepared_world)
    (set_xlog (xlog two_prepared_world) fresh_world).

(** Pending deletes at nesting level 2: table 16384 dropped by the
    top-level transaction, then in a subtransaction the temporary table
    16385 created and table 16386 dropped; and a database drop
    scheduled on the empty list with the drop of table 16386 after
    it. *)
Definition demo_rnode (rel : Z) : RelFileNode :=
  {| spcNode := 1663; dbNode := 1; relNode := rel |}.

Definition empty_smgr : SmgrState := {| pendingDeletes := []; smgr_events := [] |}.

Definition demo_smgr : SmgrState :=
  RelationDropStorage (demo_rnode 16386) 104 InvalidBackendId 2
    (snd (RelationCreateStorage (demo_rnode 16385) RELPERSISTENCE_TEMP 104 2
            (RelationDropStorage (demo_rnode 16384) 104 InvalidBackendId 1 empty_smgr))).

Definition demo_database_drop : SmgrState :=
  RelationDropStorage (demo_rnode 16386) 104 InvalidBackendId 1
    (DatabaseDropStorage 5 1663 0 1 empty_smgr).

(** The array of a checkpoint record with two prepared transactions. *)
Definition demo_ptas : prepared_transaction_agg_state :=
  {| ptas_count := 2;
     ptas_maps := [mkprpt_map 603 4408; mkprpt_map 601 4096; mkprpt_map 0 0] |}.

(** The builder of [reserved_world] with a chain whose running total
    has reached [MaxAllocSize]. *)
Definition overlong_world : World :=
  set_records
    {| xl_chain := [ {| rd_data := palloc (E := demo_env) 512; rd_len := 248 |} ];
       bytes_free := 264; total_len := MaxAllocSize |} reserved_world.

(** * Properties *)

(** ** Running the monad *)

Lemma bind_get {B} (k : World -> M B) w : bind get k w = k w w.
Proof. reflexivity. Qed.
Lemma bind_modify {B} f (k : unit -> M B) w : bind (modify f) k w = k tt (f w).
Proof. reflexivity. Qed.
Lemma bind_ret {A B} (a : A) (k : A -> M B) w : bind (ret a) k w = k a w.
Proof. reflexivity. Qed.
Lemma bind_log {B} e (k : unit -> M B) w :
  bind (log e) k w = k tt (set_events (events w ++ [e]) w).
Proof. reflexivity. Qed.
Lemma bind_ereport {A B} lvl code msg (k : A -> M B) w :
  bind (ereport lvl code msg) k w = (Raise lvl code msg, w).
Proof. reflexivity. Qed.
Lemma bind_memory_fault {A B} (k : A -> M B) w :
  bind memory_fault k w = (MemoryFault, w).
Proof. reflexivity. Qed.
Lemma bind_assoc {A B C} (m : M A) (f : A -> M B) (k : B -> M C) w :
  bind (bind m f) k w = bind m (fun x => bind (f x) k) w.
Proof. unfold bind. destruct (m w) as [[] ?]; reflexivity. Qed.
Lemma bind_when_true {B} m (k : unit -> M B) w :
  bind (when true m) k w = bind m k w.
Proof. reflexivity. Qed.
Lemma bind_when_false {B} m (k : unit -> M B) w :
  bind (when false m) k w = k tt w.
Proof. reflexivity. Qed.
Lemma bind_done {A B} (m : M A) (k : A -> M B) w a w' :
  m w = (Done a, w') → bind m k w = k a w'.
Proof. unfold bind. by intros ->. Qed.

Lemma bind_gxact_load {B} g d (k : GlobalTransactionData -> M B) w :
  gxacts (TwoPhaseState w) !! g = Some d → bind (gxact_load g) k w = k d w.
Proof. intros H. unfold bind, gxact_load. by rewrite H. Qed.

Lemma bind_gxact_store {B} g d f (k : unit -> M B) w :
  gxacts (TwoPhaseState w) !! g = Some d →
  bind (gxact_store g f) k w =
  k tt (set_TwoPhaseState
          (set_gxacts (<[g := f d]> (gxacts (TwoPhaseState w))) (TwoPhaseState w)) w).
Proof.
  intros H. unfold gxact_store. rewrite bind_assoc, (bind_gxact_load _ d) by done.
  reflexivity.
Qed.

Create Rewrite HintDb monad.
#[global] Hint Rewrite @bind_get @bind_modify @bind_ret @bind_log @bind_ereport
  @bind_memory_fault @bind_assoc @bind_when_true @bind_when_false : monad.

Ltac wsimpl :=
  cbn [TwoPhaseState allProcs allPgXact nextXid MyLockedGxact
       twophaseExitRegistered map_ht records xlog clog procArray events
       set_TwoPhaseState set_allProcs set_allPgXact set_nextXid
       set_MyLockedGxact set_twophaseExitRegistered set_map_ht set_records
       set_xlog set_clog set_procArray set_events
       gxacts freeGXacts numPrepXacts prepXacts
       set_gxacts set_freeGXacts set_numPrepXacts set_prepXacts
       next pgprocno dummyBackendId prepared_at prepare_begin_lsn prepare_lsn
       owner locking_backend valid gid
       set_next set_locking_backend set_valid set_prepare_lsn
       set_prepare_begin_lsn negb andb orb fst snd].
Ltac msimpl := repeat (progress (autorewrite with monad; wsimpl)).

(** ** Lists *)

Lemma omap_id_fmap_Some {A} (l : list A) : omap id (Some <$> l) = l.
Proof. induction l; simpl; [done|]. by f_equal. Qed.

Lemma swap_remove_perm (L : list nat) i g last :
  L !! i = Some g → L !! pred (length L) = Some last →
  L ≡ₚ g :: take (pred (length L)) (<[i := last]> L).
Proof.
  induction L as [|x Li _] using rev_ind; [done|].
  rewrite length_app, Nat.add_1_r. cbn [pred].
  intros Hi Hl. rewrite lookup_app_r, Nat.sub_diag in Hl by lia.
  injection Hl as <-.
  destruct (decide (i = length Li)) as [->|Hne].
  - rewrite lookup_app_r, Nat.sub_diag in Hi by lia. injection Hi as <-.
    rewrite insert_app_r_alt, Nat.sub_diag by lia. simpl.
    rewrite take_app_length. by rewrite Permutation_app_comm.
  - pose proof (lookup_lt_Some _ _ _ Hi) as Hlt. rewrite length_app in Hlt.
    simpl in Hlt.
    rewrite lookup_app_l in Hi by lia.
    rewrite insert_app_l by lia.
    rewrite take_app_length' by (rewrite length_insert; lia).
    rewrite insert_take_drop by lia.
    rewrite <- (take_drop_middle Li _ _ Hi) at 1.
    solve_Permutation.
Qed.

Lemma seq_split_at (n i : nat) :
  (i < n)%nat → seq 0 n = seq 0 i ++ i :: seq (S i) (n - S i).
Proof.
  intros Hi. replace n with (i + S (n - S i))%nat at 1 by lia.
  by rewrite seq_app.
Qed.

(** ** Loops *)

Lemma for_first_skip {A R} (l1 l2 : list A) (body : A -> M (option R)) w :
  (∀ x, x ∈ l1 → body x w = (Done None, w)) →
  for_first (l1 ++ l2) body w = for_first l2 body w.
Proof.
  induction l1 as [|x l1 IH]; intros Hskip; [done|].
  simpl. unfold bind. rewrite Hskip by set_solver.
  apply IH. intros y Hy. apply Hskip. set_solver.
Qed.

Lemma for_first_none {A R} (l : list A) (body : A -> M (option R)) w :
  (∀ x, x ∈ l → body x w = (Done None, w)) →
  for_first l body w = (Done None, w).
Proof.
  intros H. rewrite <- (app_nil_r l). by rewrite for_first_skip.
Qed.

Lemma for_each_skip {A} (l1 l2 : list A) (body : A -> M unit) w :
  (∀ x, x ∈ l1 → body x w = (Done tt, w)) →
  for_each (l1 ++ l2) body w = for_each l2 body w.
Proof.
  induction l1 as [|x l1 IH]; intros Hskip; [done|].
  simpl. unfold bind. rewrite Hskip by set_solver.
  apply IH. intros y Hy. apply Hskip. set_solver.
Qed.

Lemma for_each_done {A} (l : list A) (body : A -> M unit) w :
  (∀ x, x ∈ l → body x w = (Done tt, w)) →
  for_each l body w = (Done tt, w).
Proof.
  intros H. rewrite <- (app_nil_r l). by rewrite for_each_skip.
Qed.

(** ** The well-formed registry *)

Lemma is_chain_b_sound gx p fl : is_chain_b gx p fl = true → is_chain gx p fl.
Proof.
  revert p. induction fl as [|g fl IH]; intros p; simpl.
  - intros H. by apply bool_decide_eq_true in H.
  - intros H. apply andb_true_iff in H as [Hp H].
    apply bool_decide_eq_true in Hp.
    destruct (gx !! g) as [d|]; [|done]. eauto.
Qed.

Lemma registry_wf_b_sound `{E : Env} w fl :
  registry_wf_b w fl = true → registry_wf w fl.
Proof.
  unfold registry_wf_b. intros H.
  repeat (apply andb_true_iff in H as [H ?]).
  constructor.
  - by apply is_chain_b_sound.
  - by eapply bool_decide_eq_true.
  - by apply Nat.leb_le.
  - by eapply bool_decide_eq_true.
  - apply Forall_forall. intros g Hg.
    apply list_elem_of_In in Hg.
    eapply forallb_forall in Hg; [|done]. by apply Nat.ltb_lt.
  - by eapply bool_decide_eq_true.
  - split; by apply Nat.leb_le.
  - by apply Nat.eqb_eq.
  - apply Forall_forall. intros d Hd. apply list_elem_of_In in Hd.
    eapply forallb_forall in Hd; [|done]. by apply Z.ltb_lt.
Qed.

Lemma is_chain_insert gx p fl g d :
  g ∉ fl → is_chain gx p fl → is_chain (<[g := d]> gx) p fl.
Proof.
  revert p. induction fl as [|h fl IH]; intros p Hn; simpl; [done|].
  intros (-> & d' & Hd' & Hc). split; [done|].
  exists d'. split.
  - rewrite list_lookup_insert_ne; [done|]. set_solver.
  - apply IH; [set_solver|done].
Qed.

Lemma wf_procno_lookup `{E : Env} w fl g d :
  registry_wf w fl → gxacts (TwoPhaseState w) !! g = Some d → pgprocno d = g.
Proof.
  intros Hwf Hd. pose proof (wf_procno _ _ Hwf) as Hp.
  assert ((pgprocno <$> gxacts (TwoPhaseState w)) !! g = Some (pgprocno d)) as H1
    by (by rewrite list_lookup_fmap, Hd).
  rewrite Hp in H1. apply lookup_seq in H1. lia.
Qed.

Lemma live_slot `{E : Env} w fl i :
  registry_wf w fl → (i < numPrepXacts (TwoPhaseState w))%nat →
  ∃ g, prepXacts (TwoPhaseState w) !! i = Some (Some g)
       ∧ live_ptrs (TwoPhaseState w) !! i = Some g.
Proof.
  intros Hwf Hi.
  pose proof (wf_live _ _ Hwf) as Hl. pose proof (wf_room _ _ Hwf) as Hr.
  assert (is_Some (take (numPrepXacts (TwoPhaseState w))
                        (prepXacts (TwoPhaseState w)) !! i)) as [x Hx].
  { apply lookup_lt_is_Some. rewrite length_take. lia. }
  pose proof Hx as Hx'. rewrite Hl, list_lookup_fmap in Hx'.
  destruct (live_ptrs (TwoPhaseState w) !! i) as [g|] eqn:Hg; [|done].
  simpl in Hx'. injection Hx' as <-.
  exists g. split; [|done]. by rewrite lookup_take_lt in Hx by lia.
Qed.

Lemma live_ptrs_length `{E : Env} w fl :
  registry_wf w fl →
  length (live_ptrs (TwoPhaseState w)) = numPrepXacts (TwoPhaseState w).
Proof.
  intros Hwf. pose proof (wf_live _ _ Hwf) as Hl. pose proof (wf_room _ _ Hwf).
  apply (f_equal length) in Hl. rewrite length_take, length_fmap in Hl. lia.
Qed.

Lemma live_gxact `{E : Env} w fl g :
  registry_wf w fl → g ∈ live_ptrs (TwoPhaseState w) ++ fl →
  ∃ d, gxacts (TwoPhaseState w) !! g = Some d.
Proof.
  intros Hwf Hg. pose proof (wf_range _ _ Hwf) as Hr.
  rewrite Forall_forall in Hr. apply Hr in Hg.
  by apply lookup_lt_is_Some in Hg.
Qed.

Section Proofs.
Context `{E : Env}.

Lemma RemoveGXact_exec w fl g i d :
  registry_wf w fl →
  live_ptrs (TwoPhaseState w) !! i = Some g →
  gxacts (TwoPhaseState w) !! g = Some d →
  RemoveGXact g w =
    (Done tt,
     set_events (events w ++ [EvRemoveGXact g])
       (set_TwoPhaseState
          {| gxacts := <[g := set_next (freeGXacts (TwoPhaseState w)) d]>
                         (gxacts (TwoPhaseState w));
             freeGXacts := Some g;
             numPrepXacts := pred (numPrepXacts (TwoPhaseState w));
             prepXacts :=
               <[i := default None (prepXacts (TwoPhaseState w)
                                      !! pred (numPrepXacts (TwoPhaseState w)))]>
                 (prepXacts (TwoPhaseState w)) |} w)).
Proof.
  intros Hwf Hi Hd.
  assert (i < numPrepXacts (TwoPhaseState w))%nat as Hlt.
  { rewrite <- (live_ptrs_length _ _ Hwf). by eapply lookup_lt_Some. }
  unfold RemoveGXact. rewrite bind_get.
  erewrite bind_done; cycle 1.
  rewrite (seq_split_at _ i Hlt).
  rewrite for_first_skip.
  2:{ intros j Hj. apply elem_of_seq in Hj.
      destruct (live_slot w fl j Hwf) as (h & Hp & Hl); [lia|].
      unfold RemoveGXact_body. rewrite bind_get, Hp.
      rewrite bool_decide_eq_false_2; [done|].
      intros [= ->].
      pose proof (wf_nodup _ _ Hwf) as Hnd. apply NoDup_app in Hnd as [Hnd _].
      pose proof (NoDup_lookup _ _ _ _ Hnd Hl Hi). lia. }
  destruct (live_slot w fl i Hwf Hlt) as (h & Hp & Hl).
  rewrite Hi in Hl. injection Hl as <-.
  cbn [for_first]. unfold RemoveGXact_body at 1.
  msimpl. rewrite Hp, bool_decide_eq_true_2 by done.
  msimpl. rewrite (bind_gxact_store _ d) by done.
  msimpl. reflexivity.
  reflexivity.
Qed.

Lemma RemoveGXact_wf w fl g i d :
  registry_wf w fl →
  live_ptrs (TwoPhaseState w) !! i = Some g →
  gxacts (TwoPhaseState w) !! g = Some d →
  ∃ w', RemoveGXact g w = (Done tt, w')
        ∧ registry_wf w' (g :: fl)
        ∧ (live_ptrs (TwoPhaseState w) ≡ₚ g :: live_ptrs (TwoPhaseState w'))
        ∧ numPrepXacts (TwoPhaseState w') = pred (numPrepXacts (TwoPhaseState w))
        ∧ freeGXacts (TwoPhaseState w') = Some g
        ∧ gxacts (TwoPhaseState w') !! g
          = Some (set_next (freeGXacts (TwoPhaseState w)) d)
        ∧ (∀ h, h ≠ g →
             gxacts (TwoPhaseState w') !! h = gxacts (TwoPhaseState w) !! h)
        ∧ allProcs w' = allProcs w ∧ allPgXact w' = allPgXact w
        ∧ MyLockedGxact w' = MyLockedGxact w
        ∧ events w' = events w ++ [EvRemoveGXact g].
Proof.
  intros Hwf Hi Hd. eexists. split; [by eapply RemoveGXact_exec|].
  set (s := TwoPhaseState w) in *.
  pose proof (live_ptrs_length _ _ Hwf) as Hlen. fold s in Hlen.
  pose proof (lookup_lt_Some _ _ _ Hi) as Hlt. rewrite Hlen in Hlt.
  pose proof (lookup_lt_Some _ _ _ Hd) as Hg.
  destruct (live_slot w fl (pred (numPrepXacts s)) Hwf) as (last & Hpl & Hll);
    [fold s; lia|]. fold s in Hpl, Hll.
  pose proof (wf_live _ _ Hwf) as Hlive. fold s in Hlive.
  pose proof (wf_room _ _ Hwf) as Hroom. fold s in Hroom.
  assert (live_ptrs
            {| gxacts := <[g := set_next (freeGXacts s) d]> (gxacts s);
               freeGXacts := Some g;
               numPrepXacts := pred (numPrepXacts s);
               prepXacts := <[i := default None (prepXacts s !! pred (numPrepXacts s))]>
                              (prepXacts s) |}
          = take (pred (numPrepXacts s)) (<[i := last]> (live_ptrs s))) as Hlp.
  { unfold live_ptrs at 1. wsimpl. rewrite Hpl. simpl.
    rewrite <- (omap_id_fmap_Some (take _ (<[i:=last]> (live_ptrs s)))).
    f_equal. rewrite fmap_take, list_fmap_insert, <- Hlive.
    rewrite <- take_insert_lt by lia.
    rewrite take_take. f_equal. lia. }
  assert (live_ptrs s ≡ₚ g :: take (pred (numPrepXacts s)) (<[i := last]> (live_ptrs s)))
    as Hperm.
  { rewrite <- Hlen. apply swap_remove_perm; [done|]. by rewrite Hlen. }
  pose proof (wf_nodup _ _ Hwf) as Hnd. fold s in Hnd.
  assert (g ∉ fl) as Hgfl.
  { apply NoDup_app in Hnd as (_ & Hdisj & _). apply Hdisj.
    by eapply list_elem_of_lookup_2. }
  split; [|wsimpl; rewrite ?Hlp; repeat split; try done].
  - constructor; wsimpl; fold s; rewrite ?Hlp.
    + simpl. split; [done|]. eexists. split.
      * by apply list_lookup_insert_eq.
      * wsimpl. apply is_chain_insert; [done|]. apply (wf_free _ _ Hwf).
    + rewrite fmap_take, list_fmap_insert, <- Hlive.
      rewrite <- take_insert_lt by lia. rewrite take_take.
      rewrite Hpl. simpl. f_equal. lia.
    + rewrite length_insert. simpl. lia.
    + rewrite <- Permutation_middle. rewrite app_comm_cons, <- Hperm. done.
    + rewrite length_insert. rewrite <- Permutation_middle.
      rewrite app_comm_cons, <- Hperm. apply (wf_range _ _ Hwf).
    + rewrite length_insert, list_fmap_insert. wsimpl.
      rewrite list_insert_id; [apply (wf_procno _ _ Hwf)|].
      by rewrite list_lookup_fmap, Hd.
    + rewrite length_insert. apply (wf_procs _ _ Hwf).
    + rewrite length_insert. apply (wf_cap _ _ Hwf).
    + apply Forall_insert; [apply (wf_gids _ _ Hwf)|].
      pose proof (wf_gids _ _ Hwf) as Hgids. rewrite Forall_forall in Hgids.
      apply (Hgids d). by eapply list_elem_of_lookup_2.
  - by apply list_lookup_insert_eq.
  - intros h Hh. by apply list_lookup_insert_ne.
Qed.

Lemma registry_wf_ext w w' fl :
  TwoPhaseState w' = TwoPhaseState w →
  length (allProcs w') = length (allProcs w) →
  length (allPgXact w') = length (allPgXact w) →
  registry_wf w fl → registry_wf w' fl.
Proof.
  intros Hs Hp Hx [H1 H2 H3 H4 H5 H6 H7 H8 H9].
  constructor; rewrite ?Hs, ?Hp, ?Hx; done.
Qed.

Lemma is_chain_insert_same_next gx p fl g d d' :
  gx !! g = Some d → next d' = next d →
  is_chain gx p fl → is_chain (<[g := d']> gx) p fl.
Proof.
  intros Hd Hn. revert p. induction fl as [|h fl IH]; intros p; simpl; [done|].
  intros (-> & d0 & Hd0 & Hc). split; [done|].
  destruct (decide (h = g)) as [->|Hne].
  - exists d'. split.
    + apply list_lookup_insert_eq. by eapply lookup_lt_Some.
    + rewrite Hn. rewrite Hd in Hd0. injection Hd0 as ->. by apply IH.
  - exists d0. split; [by rewrite list_lookup_insert_ne|by apply IH].
Qed.

(** A store to a struct that keeps its free-list link and its PGPROC
    number keeps the registry well formed. *)
Lemma registry_wf_store w fl g d d' :
  registry_wf w fl → gxacts (TwoPhaseState w) !! g = Some d →
  next d' = next d → pgprocno d' = pgprocno d →
  Z.of_nat (String.length (gid d')) < GIDSIZE →
  registry_wf
    (set_TwoPhaseState
       (set_gxacts (<[g := d']> (gxacts (TwoPhaseState w))) (TwoPhaseState w)) w) fl.
Proof.
  intros Hwf Hd Hn Hp Hgid. destruct Hwf as [H1 H2 H3 H4 H5 H6 H7 H8 H9].
  constructor; wsimpl; rewrite ?length_insert; try done.
  - by eapply is_chain_insert_same_next.
  - rewrite list_fmap_insert, Hp.
    rewrite list_insert_id; [done|]. by rewrite list_lookup_fmap, Hd.
  - by apply Forall_insert.
Qed.

(** C8.  A backend that aborts while it holds the lock on a live entry:
    an entry that is not yet valid is taken out of the active array
    and becomes the head of the free list (the registry is well formed
    with the entry on the free list), a valid entry stays where it is
    and only its [locking_backend] becomes [InvalidBackendId]; in both
    cases the backend no longer holds an entry. *)
Theorem AtAbort_Twophase_undoes_or_unlocks w fl g d :
  registry_wf w fl →
  MyLockedGxact w = Some g →
  g ∈ live_ptrs (TwoPhaseState w) →
  gxacts (TwoPhaseState w) !! g = Some d →
  ∃ w', AtAbort_Twophase w = (Done tt, w')
        ∧ MyLockedGxact w' = None
        ∧ (valid d = false →
             registry_wf w' (g :: fl)
             ∧ freeGXacts (TwoPhaseState w') = Some g
             ∧ gxacts (TwoPhaseState w') !! g
               = Some (set_next (freeGXacts (TwoPhaseState w)) d)
             ∧ (g ∉ live_ptrs (TwoPhaseState w'))
             ∧ (live_ptrs (TwoPhaseState w) ≡ₚ g :: live_ptrs (TwoPhaseState w'))
             ∧ numPrepXacts (TwoPhaseState w')
               = pred (numPrepXacts (TwoPhaseState w)))
        ∧ (valid d = true →
             registry_wf w' fl
             ∧ TwoPhaseState w'
               = set_gxacts (<[g := set_locking_backend InvalidBackendId d]>
                               (gxacts (TwoPhaseState w))) (TwoPhaseState w)
             ∧ g ∈ live_ptrs (TwoPhaseState w')).
Proof.
  intros Hwf Hlock Hlive Hd.
  unfold AtAbort_Twophase. rewrite bind_get, Hlock.
  rewrite (bind_gxact_load _ d) by done.
  destruct (valid d) eqn:Hv; wsimpl.
  - msimpl. rewrite (bind_gxact_store _ d) by done. msimpl.
    eexists. split; [reflexivity|]. wsimpl.
    split; [done|]. split; [done|]. intros _.
    split; [|done].
    eapply registry_wf_ext; [..|apply (registry_wf_store w fl g d
      (set_locking_backend InvalidBackendId d)); try done]; try done.
    pose proof (wf_gids _ _ Hwf) as Hgids. rewrite Forall_forall in Hgids.
    apply (Hgids d). by eapply list_elem_of_lookup_2.
  - apply list_elem_of_lookup in Hlive as [i Hi].
    destruct (RemoveGXact_wf w fl g i d Hwf Hi Hd)
      as (w1 & Hrun & Hwf1 & Hperm & Hnum & Hfree & Hg & _ & Hp & Hx & _ & _).
    msimpl. rewrite (bind_done _ _ _ _ _ Hrun). msimpl.
    eexists. split; [reflexivity|]. wsimpl.
    split; [done|]. split; [|done]. intros _.
    split; [by eapply registry_wf_ext; [..|exact Hwf1]|].
    repeat split; try done.
    pose proof (wf_nodup _ _ Hwf) as Hnd. apply NoDup_app in Hnd as [Hnd _].
    rewrite Hperm in Hnd. by apply NoDup_cons in Hnd as [? _].
Qed.

(** ** MarkAsPreparing *)

Lemma register_exit_hook_run b w :
  register_exit_hook b w = (Done tt, exit_hook_registered b w).
Proof.
  unfold register_exit_hook, exit_hook_registered. rewrite bind_get.
  by destruct (twophaseExitRegistered w).
Qed.

Lemma bind_register_exit_hook {B} b (k : unit -> M B) w :
  bind (register_exit_hook b) k w = k tt (exit_hook_registered b w).
Proof. by rewrite (bind_done _ _ _ _ _ (register_exit_hook_run b w)). Qed.

Lemma exit_hook_registered_twice b1 b2 w :
  exit_hook_registered b2 (exit_hook_registered b1 w) = exit_hook_registered b1 w.
Proof.
  unfold exit_hook_registered.
  destruct (twophaseExitRegistered w) eqn:Hr; [by rewrite Hr|done].
Qed.

Lemma exit_hook_registered_shared b w :
  TwoPhaseState (exit_hook_registered b w) = TwoPhaseState w
  ∧ allProcs (exit_hook_registered b w) = allProcs w
  ∧ allPgXact (exit_hook_registered b w) = allPgXact w
  ∧ MyLockedGxact (exit_hook_registered b w) = MyLockedGxact w
  ∧ nextXid (exit_hook_registered b w) = nextXid w
  ∧ map_ht (exit_hook_registered b w) = map_ht w
  ∧ xlog (exit_hook_registered b w) = xlog w
  ∧ clog (exit_hook_registered b w) = clog w
  ∧ procArray (exit_hook_registered b w) = procArray w
  ∧ records (exit_hook_registered b w) = records w.
Proof. unfold exit_hook_registered. by destruct (twophaseExitRegistered w). Qed.

Lemma exit_hook_registered_wf b w fl :
  registry_wf w fl → registry_wf (exit_hook_registered b w) fl.
Proof.
  pose proof (exit_hook_registered_shared b w) as (H1 & H2 & H3 & _).
  apply registry_wf_ext; by rewrite ?H1, ?H2, ?H3.
Qed.

Lemma bind_prepXacts_load {B} i g (k : nat -> M B) w :
  prepXacts (TwoPhaseState w) !! i = Some (Some g) →
  bind (prepXacts_load i) k w = k g w.
Proof. intros H. unfold bind, prepXacts_load. by rewrite H. Qed.

Lemma bind_proc_load {B} n p (k : PGPROC -> M B) w :
  allProcs w !! n = Some p → bind (proc_load n) k w = k p w.
Proof. intros H. unfold bind, proc_load. by rewrite H. Qed.

Lemma bind_proc_store {B} n p p' (k : unit -> M B) w :
  allProcs w !! n = Some p →
  bind (proc_store n p') k w = k tt (set_allProcs (<[n := p']> (allProcs w)) w).
Proof.
  intros H. unfold proc_store. by rewrite bind_assoc, (bind_proc_load _ p).
Qed.

Lemma bind_pgxact_load {B} n x (k : PGXACT -> M B) w :
  allPgXact w !! n = Some x → bind (pgxact_load n) k w = k x w.
Proof. intros H. unfold bind, pgxact_load. by rewrite H. Qed.

Lemma bind_pgxact_store {B} n x x' (k : unit -> M B) w :
  allPgXact w !! n = Some x →
  bind (pgxact_store n x') k w = k tt (set_allPgXact (<[n := x']> (allPgXact w)) w).
Proof.
  intros H. unfold pgxact_store. by rewrite bind_assoc, (bind_pgxact_load _ x).
Qed.

Lemma omap_lookup_total {A B} (f : A -> option B) (l : list A) i :
  Forall (fun x => is_Some (f x)) l → omap f l !! i = l !! i ≫= f.
Proof.
  intros H. revert i. induction H as [|x l [y Hy] Hl IH]; intros i; [done|].
  simpl. rewrite Hy. destruct i; simpl; [done|]. apply IH.
Qed.

Lemma live_entries_lookup w fl i g d :
  registry_wf w fl →
  live_ptrs (TwoPhaseState w) !! i = Some g →
  gxacts (TwoPhaseState w) !! g = Some d →
  live_entries (TwoPhaseState w) !! i = Some d.
Proof.
  intros Hwf Hi Hd. unfold live_entries. rewrite omap_lookup_total.
  - by rewrite Hi.
  - pose proof (wf_range _ _ Hwf) as Hr. apply Forall_app in Hr as [Hr _].
    eapply Forall_impl; [exact Hr|]. intros h Hh. by apply lookup_lt_is_Some.
Qed.

Lemma live_entries_inv w fl i d :
  registry_wf w fl →
  live_entries (TwoPhaseState w) !! i = Some d →
  ∃ g, live_ptrs (TwoPhaseState w) !! i = Some g
       ∧ prepXacts (TwoPhaseState w) !! i = Some (Some g)
       ∧ gxacts (TwoPhaseState w) !! g = Some d.
Proof.
  intros Hwf Hd. unfold live_entries in Hd. rewrite omap_lookup_total in Hd.
  - destruct (live_ptrs (TwoPhaseState w) !! i) as [g|] eqn:Hg; [|done].
    exists g. split; [done|]. split; [|done].
    destruct (live_slot w fl i Hwf) as (h & Hp & Hl).
    + rewrite <- (live_ptrs_length _ _ Hwf). by eapply lookup_lt_Some.
    + rewrite Hg in Hl. by injection Hl as <-.
  - pose proof (wf_range _ _ Hwf) as Hr. apply Forall_app in Hr as [Hr _].
    eapply Forall_impl; [exact Hr|]. intros h Hh. by apply lookup_lt_is_Some.
Qed.

Lemma MarkAsPreparing_check_at gid0 w i g d :
  prepXacts (TwoPhaseState w) !! i = Some (Some g) →
  gxacts (TwoPhaseState w) !! g = Some d →
  MarkAsPreparing_check gid0 i w =
    if String.eqb (gid d) gid0 then (DuplicateIdentifier, w) else (Done tt, w).
Proof.
  intros Hp Hd. unfold MarkAsPreparing_check.
  rewrite (bind_prepXacts_load _ g), (bind_gxact_load _ d) by done.
  by destruct (String.eqb (gid d) gid0).
Qed.

Lemma for_each_raise {A} (l : list A) (body : A -> M unit) w lvl code msg :
  (∀ x, x ∈ l → body x w = (Done tt, w) ∨ body x w = (Raise lvl code msg, w)) →
  (∃ x, x ∈ l ∧ body x w = (Raise lvl code msg, w)) →
  for_each l body w = (Raise lvl code msg, w).
Proof.
  induction l as [|x l IH]; intros Hall (y & Hy & Hr).
  { by apply elem_of_nil in Hy. }
  simpl. destruct (Hall x) as [Hx|Hx].
  - apply elem_of_cons. by left.
  - rewrite (bind_done _ _ _ _ _ Hx). apply IH.
    + intros z Hz. apply Hall. apply elem_of_cons. by right.
    + apply elem_of_cons in Hy as [Hy|Hy]; [congruence|eauto].
  - unfold bind. by rewrite Hx.
Qed.

Lemma gid_check_loop gid0 w fl :
  registry_wf w fl →
  for_each (seq 0 (numPrepXacts (TwoPhaseState w))) (MarkAsPreparing_check gid0) w =
    if bool_decide (gid0 ∈ gid <$> live_entries (TwoPhaseState w))
    then (DuplicateIdentifier, w) else (Done tt, w).
Proof.
  intros Hwf.
  assert (∀ i, i ∈ seq 0 (numPrepXacts (TwoPhaseState w)) →
            ∃ d, live_entries (TwoPhaseState w) !! i = Some d
                 ∧ MarkAsPreparing_check gid0 i w =
                   if String.eqb (gid d) gid0 then (DuplicateIdentifier, w)
                   else (Done tt, w)) as Hat.
  { intros i Hi. apply elem_of_seq in Hi.
    destruct (live_slot w fl i Hwf) as (g & Hp & Hl); [lia|].
    destruct (live_gxact w fl g Hwf) as [d Hd].
    { apply elem_of_app. left. by eapply list_elem_of_lookup_2. }
    exists d. split; [by eapply live_entries_lookup|].
    by apply MarkAsPreparing_check_at with g. }
  case_bool_decide as Hin.
  - apply for_each_raise.
    + intros i Hi. destruct (Hat i Hi) as (d & _ & ->).
      destruct (String.eqb (gid d) gid0); auto.
    + apply list_elem_of_fmap in Hin as (d & -> & Hd).
      apply list_elem_of_lookup in Hd as [i Hi].
      destruct (live_entries_inv w fl i d Hwf Hi) as (g & Hl & Hp & Hg).
      exists i. split.
      * apply elem_of_seq. apply lookup_lt_Some in Hl.
        rewrite (live_ptrs_length _ _ Hwf) in Hl. lia.
      * rewrite (MarkAsPreparing_check_at _ _ _ g d) by done.
        by rewrite String.eqb_refl.
  - apply for_each_done. intros i Hi. destruct (Hat i Hi) as (d & Hd & ->).
    destruct (String.eqb (gid d) gid0) eqn:Heq; [|done].
    apply String.eqb_eq in Heq. exfalso. apply Hin.
    apply list_elem_of_fmap. exists d. split; [done|].
    by eapply list_elem_of_lookup_2.
Qed.

(** What [MarkAsPreparing] does on a well-formed registry: the four
    failures in the order of their tests, each leaving the world of the
    hook registration, or the reservation of the head of the free list. *)
Lemma MarkAsPreparing_run xid ldx gid0 ts own db lsn w fl :
  registry_wf w fl →
  MarkAsPreparing xid ldx gid0 ts own db lsn w =
    if GIDSIZE <=? Z.of_nat (String.length gid0)
    then (IdentifierTooLong, exit_hook_registered false w)
    else if Nat.eqb max_prepared_xacts 0
    then (FeatureDisabled, exit_hook_registered false w)
    else if bool_decide (gid0 ∈ gid <$> live_entries (TwoPhaseState w))
    then (DuplicateIdentifier, exit_hook_registered false w)
    else match fl with
         | [] => (CapacityExhausted, exit_hook_registered false w)
         | g :: _ =>
             match gxacts (TwoPhaseState w) !! g with
             | Some d => (Done g, reserved g d xid ldx gid0 ts own db lsn w)
             | None => (MemoryFault, exit_hook_registered false w)
             end
         end.
Proof.
  intros Hwf. unfold MarkAsPreparing.
  rewrite bind_register_exit_hook.
  destruct (GIDSIZE <=? Z.of_nat (String.length gid0)); [done|].
  rewrite bind_when_false.
  destruct (Nat.eqb max_prepared_xacts 0); [done|].
  rewrite bind_when_false, bind_register_exit_hook, exit_hook_registered_twice.
  rewrite bind_get.
  pose proof (exit_hook_registered_shared false w)
    as (Hs & Hp & Hx & _).
  pose proof (exit_hook_registered_wf false w fl Hwf) as Hwf1.
  set (w1 := exit_hook_registered false w) in *.
  unfold bind at 1. rewrite (gid_check_loop gid0 w1 fl Hwf1), Hs.
  case_bool_decide; [done|].
  pose proof (wf_free _ _ Hwf) as Hchain.
  destruct fl as [|g fl]; simpl in Hchain.
  { by rewrite Hchain. }
  destruct Hchain as (Hfree & d & Hd & Hchain). rewrite Hfree, Hd.
  rewrite (bind_gxact_load _ d) by (by rewrite Hs).
  pose proof (wf_procno_lookup _ _ _ _ Hwf Hd) as Hpn.
  pose proof (lookup_lt_Some _ _ _ Hd) as Hlt.
  destruct (wf_procs _ _ Hwf) as [Hlp Hlx].
  destruct (lookup_lt_is_Some_2 (allProcs w) (pgprocno d)) as [p Hpp]; [lia|].
  destruct (lookup_lt_is_Some_2 (allPgXact w) (pgprocno d)) as [x Hxx]; [lia|].
  msimpl. rewrite (bind_proc_store _ p) by (wsimpl; by rewrite Hp).
  rewrite (bind_pgxact_store _ x) by (wsimpl; by rewrite Hx).
  rewrite (bind_gxact_store _ d) by (wsimpl; by rewrite Hs).
  msimpl. unfold ret, reserved, reserved_gxact, reserved_PGPROC, reserved_PGXACT.
  fold w1. rewrite Hs, Hp, Hx. reflexivity.
Qed.

Lemma omap_agree {A B} (f f' : A -> option B) (l : list A) :
  (∀ x, x ∈ l → f' x = f x) → omap f' l = omap f l.
Proof.
  induction l as [|x l IH]; intros H; [done|]. simpl.
  rewrite H by (apply elem_of_cons; by left).
  assert (omap f' l = omap f l) as Hl.
  { apply IH. intros y Hy. apply H. apply elem_of_cons. by right. }
  destruct (f x); [f_equal|]; exact Hl.
Qed.

Lemma take_S_insert {A} (l : list A) n x :
  (n < length l)%nat → take (S n) (<[n := x]> l) = take n l ++ [x].
Proof.
  intros Hn. rewrite (take_S_r _ _ x) by (by apply list_lookup_insert_eq).
  by rewrite take_insert_ge by lia.
Qed.

Lemma reserved_wf g d xid ldx gid0 ts own db lsn w fl :
  registry_wf w (g :: fl) →
  gxacts (TwoPhaseState w) !! g = Some d →
  Z.of_nat (String.length gid0) < GIDSIZE →
  let w' := reserved g d xid ldx gid0 ts own db lsn w in
  registry_wf w' fl
  ∧ numPrepXacts (TwoPhaseState w') = S (numPrepXacts (TwoPhaseState w))
  ∧ live_ptrs (TwoPhaseState w') = live_ptrs (TwoPhaseState w) ++ [g]
  ∧ live_entries (TwoPhaseState w')
    = live_entries (TwoPhaseState w) ++ [reserved_gxact gid0 ts own lsn d]
  ∧ registry_view w'
    = registry_view w ++ [mkPreparedXact xid gid0 ts own db false]
  ∧ MyLockedGxact w' = Some g.
Proof.
  intros Hwf Hd Hshort w'.
  pose proof (exit_hook_registered_shared false w) as (Hs & Hp & Hx & _).
  pose proof (live_ptrs_length _ _ Hwf) as Hlen.
  pose proof (wf_room _ _ Hwf) as Hroom. simpl in Hroom.
  pose proof (wf_live _ _ Hwf) as Hlive.
  pose proof (wf_nodup _ _ Hwf) as Hnd.
  pose proof (wf_procno_lookup _ _ _ _ Hwf Hd) as Hpn.
  pose proof (lookup_lt_Some _ _ _ Hd) as Hlt.
  destruct (wf_procs _ _ Hwf) as [Hlp Hlx].
  set (s := TwoPhaseState w) in *.
  assert (live_ptrs (TwoPhaseState w') = live_ptrs s ++ [g]) as Hptrs.
  { unfold w', reserved, live_ptrs. wsimpl. fold s.
    rewrite take_S_insert by lia. rewrite Hlive.
    change [Some g] with (Some <$> [g]). rewrite <- fmap_app.
    by rewrite !omap_id_fmap_Some. }
  assert (g ∉ live_ptrs s) as Hgl.
  { apply NoDup_app in Hnd as (_ & Hdisj & _). intros Hin.
    apply (Hdisj g Hin). apply elem_of_cons. by left. }
  assert (g ∉ fl) as Hgfl.
  { apply NoDup_app in Hnd as (_ & _ & Hnd). by apply NoDup_cons in Hnd as [? _]. }
  assert (∀ h, h ∈ live_ptrs s →
            gxacts (TwoPhaseState w') !! h = gxacts s !! h) as Hold.
  { intros h Hh. unfold w', reserved. wsimpl. fold s.
    apply list_lookup_insert_ne. intros ->. done. }
  split; [|split; [done|]; split; [done|]; split; [|split; [|done]]].
  - constructor; rewrite ?Hptrs; unfold w', reserved; wsimpl; fold s;
      rewrite ?length_insert.
    + apply is_chain_insert; [done|].
      pose proof (wf_free _ _ Hwf) as Hc. simpl in Hc.
      destruct Hc as (_ & d0 & Hd0 & Hc). fold s in Hd0. rewrite Hd in Hd0.
      by injection Hd0 as <-.
    + rewrite take_S_insert by lia. rewrite Hlive, fmap_app. done.
    + lia.
    + rewrite <- app_assoc. done.
    + rewrite <- app_assoc. apply (wf_range _ _ Hwf).
    + rewrite list_fmap_insert. simpl.
      rewrite list_insert_id; [apply (wf_procno _ _ Hwf)|].
      by rewrite list_lookup_fmap, Hd.
    + done.
    + apply (wf_cap _ _ Hwf).
    + apply Forall_insert; [apply (wf_gids _ _ Hwf)|done].
  - unfold live_entries. rewrite Hptrs, omap_app.
    rewrite (omap_agree (fun h => gxacts s !! h)) by done.
    simpl. unfold w', reserved. wsimpl. fold s.
    by rewrite list_lookup_insert_eq by lia.
  - unfold registry_view. rewrite Hptrs, omap_app. fold s.
    rewrite (omap_agree (entry_view w)).
    + f_equal. simpl. unfold entry_view, w', reserved. wsimpl. fold s.
      rewrite list_lookup_insert_eq by lia. simpl.
      rewrite !list_lookup_insert_eq by lia. done.
    + intros h Hh. unfold entry_view. rewrite (Hold h Hh). fold s.
      destruct (gxacts s !! h) as [dh|] eqn:Hdh; [|done]. simpl.
      pose proof (wf_procno_lookup _ _ _ _ Hwf Hdh) as Hph.
      unfold w', reserved. wsimpl.
      rewrite !list_lookup_insert_ne by (rewrite Hpn, Hph; intros ->; done).
      done.
Qed.

Lemma reserve_all_ok reqs : ∀ w fl,
  registry_wf w fl →
  (length reqs ≤ length fl)%nat →
  NoDup (rq_gid <$> reqs) →
  Forall (fun r => Z.of_nat (String.length (rq_gid r)) < GIDSIZE) reqs →
  (∀ r, r ∈ reqs → rq_gid r ∉ gid <$> live_entries (TwoPhaseState w)) →
  ∃ w', reserve_all reqs w = (Done tt, w')
        ∧ registry_wf w' (drop (length reqs) fl)
        ∧ numPrepXacts (TwoPhaseState w')
          = (numPrepXacts (TwoPhaseState w) + length reqs)%nat
        ∧ registry_view w' = registry_view w ++ (request_view <$> reqs).
Proof.
  induction reqs as [|r reqs IH]; intros w fl Hwf Hlen Hnd Hshort Hfresh.
  { exists w. rewrite drop_0, Nat.add_0_r, app_nil_r. done. }
  destruct fl as [|g fl]; [simpl in Hlen; lia|].
  apply NoDup_cons in Hnd as [Hr Hnd]. apply Forall_cons in Hshort as [Hsr Hshort].
  assert (max_prepared_xacts ≠ 0%nat) as Hmax.
  { pose proof (wf_room _ _ Hwf) as Hroom. rewrite (wf_cap _ _ Hwf) in Hroom.
    simpl in Hroom. lia. }
  pose proof (wf_free _ _ Hwf) as Hc. simpl in Hc. destruct Hc as (_ & d & Hd & _).
  assert (Reserve r w = (Done g, reserved g d (rq_xid r) (rq_ldx r) (rq_gid r)
                           (rq_prepared_at r) (rq_owner r) (rq_database r)
                           (rq_xlogrecptr r) w)) as Hrun.
  { unfold Reserve. rewrite (MarkAsPreparing_run _ _ _ _ _ _ _ _ _ Hwf).
    rewrite (proj2 (Z.leb_gt _ _)) by done.
    rewrite (proj2 (Nat.eqb_neq _ _)) by done.
    rewrite bool_decide_eq_false_2 by (apply Hfresh, elem_of_cons; by left).
    by rewrite Hd. }
  destruct (reserved_wf g d (rq_xid r) (rq_ldx r) (rq_gid r) (rq_prepared_at r)
              (rq_owner r) (rq_database r) (rq_xlogrecptr r) w fl Hwf Hd Hsr)
    as (Hwf' & Hnum & _ & Hent & Hview & _).
  destruct (IH _ fl Hwf') as (w' & Hrest & Hwf'' & Hnum' & Hview');
    [simpl in Hlen; lia|done|done| |].
  { intros r' Hr'. rewrite Hent, fmap_app. intros Hin.
    apply elem_of_app in Hin as [Hin|Hin].
    - apply (Hfresh r'); [apply elem_of_cons; by right|done].
    - apply list_elem_of_singleton in Hin. simpl in Hin.
      apply Hr. rewrite <- Hin. apply list_elem_of_fmap. eauto. }
  exists w'. split; [|split; [done|split]].
  - unfold reserve_all. simpl. rewrite bind_assoc, (bind_done _ _ _ _ _ Hrun).
    rewrite bind_ret. exact Hrest.
  - rewrite Hnum', Hnum. simpl. lia.
  - rewrite Hview', Hview, <- app_assoc. done.
Qed.

(** ** TwoPhaseShmemInit *)

Lemma alter_as_insert {A} (f : A -> A) (l : list A) i x :
  l !! i = Some x → alter f i l = <[i := f x]> l.
Proof.
  intros Hx. apply list_eq. intros j. destruct (decide (i = j)) as [<-|Hne].
  - rewrite list_lookup_alter_eq, Hx. simpl.
    by rewrite list_lookup_insert_eq by (by eapply lookup_lt_Some).
  - by rewrite list_lookup_alter_ne, list_lookup_insert_ne.
Qed.

Lemma TwoPhaseShmemInit_loop k :
  (k ≤ max_prepared_xacts)%nat →
  let st := fold_left TwoPhaseShmemInit_step (seq 0 k)
              {| gxacts := replicate max_prepared_xacts zero_gxact;
                 freeGXacts := None; numPrepXacts := 0%nat;
                 prepXacts := replicate max_prepared_xacts None |} in
  length (gxacts st) = max_prepared_xacts
  ∧ is_chain (gxacts st) (freeGXacts st) (reverse (seq 0 k))
  ∧ pgprocno <$> take k (gxacts st) = seq 0 k
  ∧ numPrepXacts st = 0%nat
  ∧ prepXacts st = replicate max_prepared_xacts None
  ∧ Forall (fun d => Z.of_nat (String.length (gid d)) < GIDSIZE) (gxacts st).
Proof.
  induction k as [|k IH]; intros Hk; cbv zeta.
  { simpl. rewrite length_replicate. repeat split; try done.
    apply Forall_replicate. done. }
  rewrite seq_S, fold_left_app. simpl.
  destruct IH as (Hlen & Hchain & Hproc & Hnum & Hprep & Hgids); [lia|].
  set (st := fold_left _ _ _) in *.
  destruct (lookup_lt_is_Some_2 (gxacts st) k) as [x Hx]; [lia|].
  unfold TwoPhaseShmemInit_step. wsimpl.
  rewrite (alter_as_insert _ _ _ x Hx).
  rewrite length_insert. repeat split; try done.
  - rewrite reverse_snoc. simpl. split; [done|]. eexists. split.
    + apply list_lookup_insert_eq. lia.
    + simpl. apply is_chain_insert; [|done].
      intros Hin. apply elem_of_reverse, elem_of_seq in Hin. lia.
  - rewrite take_S_insert by lia. rewrite fmap_app, Hproc. done.
  - apply Forall_insert; [done|]. simpl.
    rewrite Forall_forall in Hgids. apply Hgids. by eapply list_elem_of_lookup_2.
Qed.

Lemma TwoPhaseShmemInit_wf w :
  (max_prepared_xacts ≤ length (allProcs w))%nat →
  (max_prepared_xacts ≤ length (allPgXact w))%nat →
  ∃ w', TwoPhaseShmemInit w = (Done tt, w')
        ∧ registry_wf w' (reverse (seq 0 max_prepared_xacts))
        ∧ numPrepXacts (TwoPhaseState w') = 0%nat
        ∧ live_entries (TwoPhaseState w') = []
        ∧ registry_view w' = [].
Proof.
  intros Hp Hx. eexists. split; [reflexivity|].
  destruct (TwoPhaseShmemInit_loop max_prepared_xacts)
    as (Hlen & Hchain & Hproc & Hnum & Hprep & Hgids); [lia|].
  set (st := fold_left _ _ _) in *.
  assert (live_ptrs st = []) as Hlive.
  { unfold live_ptrs. by rewrite Hnum. }
  split; [|wsimpl; fold st; unfold registry_view, live_entries; wsimpl; fold st;
           by rewrite Hlive].
  constructor; wsimpl; fold st; rewrite ?Hlive, ?Hlen; simpl.
  - done.
  - by rewrite Hnum.
  - rewrite Hnum, Hprep, length_reverse, length_seq, length_replicate. lia.
  - rewrite reverse_Permutation. apply NoDup_seq.
  - apply Forall_forall. intros g Hg.
    apply elem_of_reverse, elem_of_seq in Hg. lia.
  - rewrite <- Hproc. f_equal. rewrite take_ge; [done|lia].
  - done.
  - by rewrite Hprep, length_replicate.
  - done.
Qed.

Lemma live_entries_in_gxacts w d :
  d ∈ live_entries (TwoPhaseState w) → d ∈ gxacts (TwoPhaseState w).
Proof.
  unfold live_entries. intros Hd.
  apply list_elem_of_omap in Hd as (g & _ & Hg).
  by eapply list_elem_of_lookup_2.
Qed.

Lemma omap_length_total {A B} (f : A -> option B) (l : list A) :
  Forall (fun x => is_Some (f x)) l → length (omap f l) = length l.
Proof.
  induction 1 as [|x l [y Hy] Hl IH]; [done|].
  cbn. rewrite Hy. cbn. f_equal. exact IH.
Qed.

Lemma live_entries_length w fl :
  registry_wf w fl →
  length (live_entries (TwoPhaseState w)) = numPrepXacts (TwoPhaseState w).
Proof.
  intros Hwf. rewrite <- (live_ptrs_length _ _ Hwf).
  unfold live_entries. apply omap_length_total.
  pose proof (wf_range _ _ Hwf) as Hr. apply Forall_app in Hr as [Hr _].
  eapply Forall_impl; [exact Hr|]. intros h Hh. by apply lookup_lt_is_Some.
Qed.

(** C3.  On a well-formed registry [MarkAsPreparing] fails with
    IdentifierTooLong for a gid of 200 bytes or more, then with
    FeatureDisabled when max_prepared_xacts is zero, with
    DuplicateIdentifier when a live entry, valid or not, carries the
    gid, and with CapacityExhausted when the free list is empty, the
    tests being made in this order; a call that fails leaves the
    registry, the dummy processes and the backend's locked entry as
    they were.  From the registry that TwoPhaseShmemInit sets up, any
    run of at most max_prepared_xacts reservations with distinct gids
    shorter than 200 bytes succeeds, and the number of live entries is
    the number of calls. *)
Theorem MarkAsPreparing_failures_and_capacity :
  (∀ w fl xid ldx gid0 ts own db lsn,
     registry_wf w fl →
     let r := MarkAsPreparing xid ldx gid0 ts own db lsn w in
     (GIDSIZE ≤ Z.of_nat (String.length gid0) → r.1 = IdentifierTooLong)
     ∧ (Z.of_nat (String.length gid0) < GIDSIZE → max_prepared_xacts = 0%nat →
        r.1 = FeatureDisabled)
     ∧ (∀ d, d ∈ live_entries (TwoPhaseState w) → gid d = gid0 →
        r.1 = DuplicateIdentifier)
     ∧ (Z.of_nat (String.length gid0) < GIDSIZE → max_prepared_xacts ≠ 0%nat →
        (∀ d, d ∈ live_entries (TwoPhaseState w) → gid d ≠ gid0) →
        freeGXacts (TwoPhaseState w) = None →
        r.1 = CapacityExhausted)
     ∧ ((∀ g, r.1 ≠ Done g) →
        TwoPhaseState r.2 = TwoPhaseState w
        ∧ allProcs r.2 = allProcs w ∧ allPgXact r.2 = allPgXact w
        ∧ MyLockedGxact r.2 = MyLockedGxact w))
  ∧ (∀ w reqs,
       (max_prepared_xacts ≤ length (allProcs w))%nat →
       (max_prepared_xacts ≤ length (allPgXact w))%nat →
       NoDup (rq_gid <$> reqs) →
       Forall (fun r => Z.of_nat (String.length (rq_gid r)) < GIDSIZE) reqs →
       (length reqs ≤ max_prepared_xacts)%nat →
       ∃ w', (TwoPhaseShmemInit ;;; reserve_all reqs) w = (Done tt, w')
             ∧ numPrepXacts (TwoPhaseState w') = length reqs
             ∧ length (live_entries (TwoPhaseState w')) = length reqs
             ∧ registry_view w' = request_view <$> reqs).
Proof.
  split.
  - intros w fl xid ldx gid0 ts own db lsn Hwf r.
    pose proof (MarkAsPreparing_run xid ldx gid0 ts own db lsn w fl Hwf) as Hrun.
    fold r in Hrun.
    pose proof (exit_hook_registered_shared false w) as (Hs & Hp & Hx & Hl & _).
    split; [|split; [|split; [|split]]].
    + intros Hlong. rewrite Hrun. by rewrite (proj2 (Z.leb_le _ _)).
    + intros Hshort Hzero. rewrite Hrun.
      rewrite (proj2 (Z.leb_gt _ _)) by done. by rewrite Hzero.
    + intros d Hd Hgid. rewrite Hrun.
      assert (Z.of_nat (String.length gid0) < GIDSIZE) as Hshort.
      { pose proof (wf_gids _ _ Hwf) as Hg. rewrite Forall_forall in Hg.
        rewrite <- Hgid. apply Hg. by apply live_entries_in_gxacts. }
      assert (max_prepared_xacts ≠ 0%nat) as Hmax.
      { pose proof (wf_room _ _ Hwf) as Hroom. rewrite (wf_cap _ _ Hwf) in Hroom.
        pose proof (live_entries_length _ _ Hwf) as Hlen.
        apply list_elem_of_lookup in Hd as [i Hi].
        apply lookup_lt_Some in Hi. lia. }
      rewrite (proj2 (Z.leb_gt _ _)) by done.
      rewrite (proj2 (Nat.eqb_neq _ _)) by done.
      rewrite bool_decide_eq_true_2; [done|].
      apply list_elem_of_fmap. eauto.
    + intros Hshort Hmax Hfresh Hfree. rewrite Hrun.
      rewrite (proj2 (Z.leb_gt _ _)) by done.
      rewrite (proj2 (Nat.eqb_neq _ _)) by done.
      rewrite bool_decide_eq_false_2.
      2:{ intros Hin. apply list_elem_of_fmap in Hin as (d & -> & Hd).
          by apply (Hfresh d). }
      pose proof (wf_free _ _ Hwf) as Hc.
      destruct fl as [|g fl]; [done|]. simpl in Hc. destruct Hc as [Hc _].
      congruence.
    + intros Hfail. rewrite Hrun in Hfail |- *.
      destruct (GIDSIZE <=? _); [done|].
      destruct (Nat.eqb _ _); [done|].
      case_bool_decide; [done|].
      destruct fl as [|g fl]; [done|].
      destruct (gxacts (TwoPhaseState w) !! g); [|done].
      by destruct (Hfail g).
  - intros w reqs Hp Hx Hnd Hshort Hlen.
    destruct (TwoPhaseShmemInit_wf w Hp Hx) as (w0 & Hinit & Hwf0 & Hn0 & He0 & Hv0).
    destruct (reserve_all_ok reqs w0 _ Hwf0)
      as (w' & Hrun & Hwf' & Hnum & Hview); try done.
    + by rewrite length_reverse, length_seq.
    + intros r _. rewrite He0. apply not_elem_of_nil.
    + exists w'. split; [by rewrite (bind_done _ _ _ _ _ Hinit)|].
      rewrite (live_entries_length _ _ Hwf'), Hnum, Hn0, Hview, Hv0. done.
Qed.

(** ** LockGXact *)

Lemma for_first_stop {A R} (x : A) (rest : list A) (body : A -> M (option R))
    w o w' :
  body x w = (o, w') → o ≠ Done None →
  for_first (x :: rest) body w =
    (match o with
     | Done (Some y) => Done (Some y)
     | Done None => Done None
     | Raise lvl code msg => Raise lvl code msg
     | MemoryFault => MemoryFault
     | OutOfFuel => OutOfFuel
     end, w').
Proof.
  intros Hb Ho. simpl. unfold bind. rewrite Hb.
  destruct o as [[y|]| | |]; done.
Qed.

Lemma outcome_eta {R} (o : Outcome (option R)) :
  match o with
  | Done (Some y) => Done (Some y)
  | Done None => Done None
  | Raise lvl code msg => Raise lvl code msg
  | MemoryFault => MemoryFault
  | OutOfFuel => OutOfFuel
  end = o.
Proof. by destruct o as [[?|]| | |]. Qed.

Lemma for_first_find {X R} (l : list X) (test : X -> bool)
    (found : X -> Outcome (option R) * World) (body : nat -> M (option R)) w :
  ∀ start,
  (∀ i x, l !! i = Some x →
     body (start + i)%nat w = if test x then found x else (Done None, w)) →
  (∀ x, test x = true → (found x).1 ≠ Done None) →
  for_first (seq start (length l)) body w =
    match List.find test l with
    | Some x => found x
    | None => (Done None, w)
    end.
Proof.
  induction l as [|x l IH]; intros start Hbody Hfound; [done|].
  cbn [length seq List.find].
  pose proof (Hbody 0%nat x eq_refl) as H0. rewrite Nat.add_0_r in H0.
  destruct (test x) eqn:Ht.
  - destruct (found x) as [o w'] eqn:Hf.
    rewrite (for_first_stop _ _ _ _ _ _ H0), outcome_eta; [done|].
    specialize (Hfound x Ht). by rewrite Hf in Hfound.
  - cbn [for_first]. rewrite (bind_done _ _ _ _ _ H0).
    apply IH; [|done]. intros i y Hy.
    replace (S start + i)%nat with (start + S i)%nat by lia.
    by apply Hbody.
Qed.

Lemma live_pairs_lookup w fl i :
  registry_wf w fl → (i < numPrepXacts (TwoPhaseState w))%nat →
  ∃ g d, prepXacts (TwoPhaseState w) !! i = Some (Some g)
         ∧ gxacts (TwoPhaseState w) !! g = Some d
         ∧ live_pairs (TwoPhaseState w) !! i = Some (g, d).
Proof.
  intros Hwf Hi. destruct (live_slot w fl i Hwf Hi) as (g & Hp & Hl).
  destruct (live_gxact w fl g Hwf) as [d Hd].
  { apply elem_of_app. left. by eapply list_elem_of_lookup_2. }
  exists g, d. split; [done|]. split; [done|].
  unfold live_pairs. rewrite omap_lookup_total.
  - rewrite Hl. simpl. by rewrite Hd.
  - pose proof (wf_range _ _ Hwf) as Hr. apply Forall_app in Hr as [Hr _].
    eapply Forall_impl; [exact Hr|]. intros h Hh.
    apply lookup_lt_is_Some in Hh as [dh ->]. by eexists.
Qed.

Lemma live_pairs_length w fl :
  registry_wf w fl →
  length (live_pairs (TwoPhaseState w)) = numPrepXacts (TwoPhaseState w).
Proof.
  intros Hwf. rewrite <- (live_ptrs_length _ _ Hwf).
  unfold live_pairs. apply omap_length_total.
  pose proof (wf_range _ _ Hwf) as Hr. apply Forall_app in Hr as [Hr _].
  eapply Forall_impl; [exact Hr|]. intros h Hh.
  apply lookup_lt_is_Some in Hh as [dh ->]. by eexists.
Qed.

Lemma live_pairs_elem s g d :
  (g, d) ∈ live_pairs s → g ∈ live_ptrs s ∧ gxacts s !! g = Some d.
Proof.
  unfold live_pairs. intros H. apply list_elem_of_omap in H as (h & Hh & Hd).
  destruct (gxacts s !! h) as [dh|] eqn:Hdh; [|done].
  simpl in Hd. by injection Hd as <- <-.
Qed.

Lemma find_prepared_Some s gid0 g d :
  find_prepared s gid0 = Some (g, d) →
  g ∈ live_ptrs s ∧ gxacts s !! g = Some d ∧ valid d = true ∧ gid d = gid0.
Proof.
  unfold find_prepared. intros H. apply find_some in H as [Hin Hc].
  apply list_elem_of_In, live_pairs_elem in Hin as [Hg Hd].
  unfold lock_candidate in Hc. apply andb_true_iff in Hc as [Hv Hgid].
  apply String.eqb_eq in Hgid. done.
Qed.

Lemma LockGXact_found_run gid0 user g d p w :
  gxacts (TwoPhaseState w) !! g = Some d →
  allProcs w !! pgprocno d = Some p →
  LockGXact_found gid0 user g d w = lock_outcome user g d p w.
Proof.
  intros Hd Hp. unfold LockGXact_found, lock_outcome.
  destruct (negb (locking_backend d =? InvalidBackendId)); [done|].
  rewrite bind_when_false.
  destruct (negb (user =? owner d) && negb (superuser_arg user)); [done|].
  rewrite bind_when_false, (bind_proc_load _ p) by done.
  destruct (negb (MyDatabaseId =? proc_databaseId p)
            && negb (is_GP_ROLE_EXECUTE Gp_role)); [done|].
  rewrite bind_when_false, (bind_gxact_store _ d) by done.
  reflexivity.
Qed.

(** What [LockGXact] does on a well-formed registry. *)
Lemma LockGXact_run gid0 user raise w fl :
  registry_wf w fl →
  LockGXact gid0 user raise w =
    let w1 := exit_hook_registered true w in
    match find_prepared (TwoPhaseState w) gid0 with
    | Some (g, d) =>
        match allProcs w !! pgprocno d with
        | Some p => lock_outcome user g d p w1
        | None => (MemoryFault, w1)
        end
    | None => (if raise then NotFound else Done None, w1)
    end.
Proof.
  intros Hwf. unfold LockGXact. rewrite bind_register_exit_hook, bind_get.
  pose proof (exit_hook_registered_shared true w) as (Hs & Hp & _).
  pose proof (exit_hook_registered_wf true w fl Hwf) as Hwf1.
  cbv zeta. set (w1 := exit_hook_registered true w) in *.
  rewrite <- Hs, <- Hp.
  set (found := fun gd : nat * GlobalTransactionData =>
         match allProcs w1 !! pgprocno gd.2 with
         | Some p => lock_outcome user gd.1 gd.2 p w1
         | None => (MemoryFault, w1)
         end).
  assert (for_first (seq 0 (numPrepXacts (TwoPhaseState w1)))
            (LockGXact_body gid0 user) w1
          = match find_prepared (TwoPhaseState w1) gid0 with
            | Some gd => found gd
            | None => (Done None, w1)
            end) as Hscan.
  { rewrite <- (live_pairs_length _ _ Hwf1). unfold find_prepared.
    apply for_first_find.
    - intros i [g d] Hi. simpl.
      destruct (live_pairs_lookup w1 fl i Hwf1) as (g' & d' & Hpx & Hd & Hl).
      { rewrite <- (live_pairs_length _ _ Hwf1). by eapply lookup_lt_Some. }
      rewrite Hi in Hl. injection Hl as <- <-.
      unfold LockGXact_body, lock_candidate, found. simpl.
      rewrite (bind_prepXacts_load _ g), (bind_gxact_load _ d) by done.
      destruct (valid d); [|done]. simpl.
      destruct (String.eqb (gid d) gid0); [|done]. simpl.
      destruct (allProcs w1 !! pgprocno d) as [p|] eqn:Hpp.
      + by apply LockGXact_found_run.
      + unfold LockGXact_found.
        destruct (negb (locking_backend d =? InvalidBackendId)).
        * exfalso. pose proof (wf_procno_lookup _ _ _ _ Hwf1 Hd) as Hpn.
          apply lookup_ge_None in Hpp. apply lookup_lt_Some in Hd.
          destruct (wf_procs _ _ Hwf1). lia.
        * exfalso. pose proof (wf_procno_lookup _ _ _ _ Hwf1 Hd) as Hpn.
          apply lookup_ge_None in Hpp. apply lookup_lt_Some in Hd.
          destruct (wf_procs _ _ Hwf1). lia.
    - intros [g d] _. unfold found, lock_outcome. simpl.
      destruct (allProcs w1 !! pgprocno d); [|done].
      repeat (match goal with |- context [if ?c then _ else _] => destruct c end;
              try done). }
  unfold bind at 1. rewrite Hscan.
  destruct (find_prepared (TwoPhaseState w1) gid0) as [[g d]|].
  - unfold found. simpl.
    destruct (allProcs w1 !! pgprocno d) as [p|]; [|done].
    unfold lock_outcome.
    repeat (match goal with |- context [if ?c then _ else _] => destruct c end;
            try done).
  - by destruct raise.
Qed.

Lemma lock_outcome_failed user g d p w :
  (lock_outcome user g d p w).1 ≠ Done (Some g) →
  (lock_outcome user g d p w).2 = w.
Proof.
  unfold lock_outcome.
  repeat (match goal with |- context [if ?c then _ else _] => destruct c end;
          try done).
Qed.

(** C4, as the code has it.  [LockGXact] stops at the first live entry
    that is valid and carries the GID, and such an entry is found
    whenever one exists.  For that entry it fails with Busy when
    [locking_backend] is set; else with PermissionDenied when the
    requester is neither the owner nor a superuser; else with
    "belongs to another database" when the entry's database is not the
    caller's and the process is not a segment executor; else it stores
    the caller's backend id in the entry and remembers it in
    [MyLockedGxact].  A call that does not lock leaves the registry as
    it was.  Without such an entry it fails with NotFound when asked to
    raise the error and returns NULL otherwise. *)
Theorem LockGXact_outcomes gid0 user raise w fl :
  registry_wf w fl →
  let r := LockGXact gid0 user raise w in
  (∀ g d, (g, d) ∈ live_pairs (TwoPhaseState w) → valid d = true → gid d = gid0 →
     is_Some (find_prepared (TwoPhaseState w) gid0))
  ∧ (∀ g d, find_prepared (TwoPhaseState w) gid0 = Some (g, d) →
       valid d = true ∧ gid d = gid0 ∧ g ∈ live_ptrs (TwoPhaseState w))
  ∧ (∀ g d p,
       find_prepared (TwoPhaseState w) gid0 = Some (g, d) →
       allProcs w !! pgprocno d = Some p →
       (locking_backend d ≠ InvalidBackendId → r.1 = Busy)
       ∧ (locking_backend d = InvalidBackendId →
          user ≠ owner d → superuser_arg user = false → r.1 = PermissionDenied)
       ∧ (locking_backend d = InvalidBackendId →
          user = owner d ∨ superuser_arg user = true →
          proc_databaseId p ≠ MyDatabaseId → Gp_role ≠ GP_ROLE_EXECUTE →
          r.1 = AnotherDatabase)
       ∧ (locking_backend d = InvalidBackendId →
          user = owner d ∨ superuser_arg user = true →
          proc_databaseId p = MyDatabaseId ∨ Gp_role = GP_ROLE_EXECUTE →
          r.1 = Done (Some g)
          ∧ gxacts (TwoPhaseState r.2) !! g
            = Some (set_locking_backend MyBackendId d)
          ∧ MyLockedGxact r.2 = Some g)
       ∧ (r.1 ≠ Done (Some g) →
          TwoPhaseState r.2 = TwoPhaseState w
          ∧ MyLockedGxact r.2 = MyLockedGxact w))
  ∧ (find_prepared (TwoPhaseState w) gid0 = None →
       r.1 = (if raise then NotFound else Done None)
       ∧ TwoPhaseState r.2 = TwoPhaseState w
       ∧ MyLockedGxact r.2 = MyLockedGxact w).
Proof.
  intros Hwf r.
  pose proof (LockGXact_run gid0 user raise w fl Hwf) as Hrun. fold r in Hrun.
  cbv zeta in Hrun.
  pose proof (exit_hook_registered_shared true w) as (Hs & _ & _ & Hl & _).
  split; [|split; [|split]].
  - intros g d Hin Hv Hgid.
    destruct (find_prepared (TwoPhaseState w) gid0) eqn:Hf; [by eexists|].
    unfold find_prepared in Hf.
    eapply find_none in Hf; [|by apply list_elem_of_In].
    unfold lock_candidate in Hf. simpl in Hf.
    rewrite Hv, Hgid, String.eqb_refl in Hf. done.
  - intros g d Hf. apply find_prepared_Some in Hf as (Hg & _ & Hv & Hgid).
    done.
  - intros g d p Hf Hp. rewrite Hf, Hp in Hrun.
    pose proof (find_prepared_Some _ _ _ _ Hf) as (Hg & Hd & _).
    split; [|split; [|split; [|split]]].
    + intros Hb. rewrite Hrun. unfold lock_outcome.
      by rewrite (proj2 (Z.eqb_neq _ _) Hb).
    + intros Hb Ho Hsu. rewrite Hrun. unfold lock_outcome.
      by rewrite Hb, (proj2 (Z.eqb_neq _ _) Ho), Hsu.
    + intros Hb Hok Hdb Hrole. rewrite Hrun. unfold lock_outcome.
      rewrite Hb. simpl.
      assert (negb (user =? owner d) && negb (superuser_arg user) = false) as ->.
      { destruct Hok as [->| ->]; [by rewrite Z.eqb_refl|].
        by rewrite andb_false_r. }
      rewrite (proj2 (Z.eqb_neq _ _)) by done.
      by destruct Gp_role.
    + intros Hb Hok Hdb. rewrite Hrun. unfold lock_outcome.
      rewrite Hb. simpl.
      assert (negb (user =? owner d) && negb (superuser_arg user) = false) as ->.
      { destruct Hok as [->| ->]; [by rewrite Z.eqb_refl|].
        by rewrite andb_false_r. }
      assert (negb (MyDatabaseId =? proc_databaseId p)
              && negb (is_GP_ROLE_EXECUTE Gp_role) = false) as ->.
      { destruct Hdb as [->| ->]; [by rewrite Z.eqb_refl|].
        by rewrite andb_false_r. }
      split; [done|]. unfold locked. wsimpl. split; [|done].
      apply list_lookup_insert_eq. rewrite Hs. by eapply lookup_lt_Some.
    + intros Hfail. rewrite Hrun in Hfail |- *.
      rewrite (lock_outcome_failed _ _ _ _ _ Hfail). done.
  - intros Hf. rewrite Hf in Hrun. rewrite Hrun. done.
Qed.

(** C10.  For the valid entry the scan of [LockGXact] finds: when the
    database of its dummy PGPROC is not the caller's and the process
    is not a segment executor, the call raises an error and leaves the
    entry and [MyLockedGxact] as they were, also for the owner and for
    a superuser, for whom the error is "belongs to another database";
    a segment executor locks the entry whatever its database. *)
Theorem LockGXact_refuses_another_database gid0 user raise w fl g d p :
  registry_wf w fl →
  find_prepared (TwoPhaseState w) gid0 = Some (g, d) →
  allProcs w !! pgprocno d = Some p →
  let r := LockGXact gid0 user raise w in
  (proc_databaseId p ≠ MyDatabaseId → Gp_role ≠ GP_ROLE_EXECUTE →
     (∃ code msg, r.1 = Raise ERROR code msg)
     ∧ TwoPhaseState r.2 = TwoPhaseState w
     ∧ MyLockedGxact r.2 = MyLockedGxact w
     ∧ (locking_backend d = InvalidBackendId →
        user = owner d ∨ superuser_arg user = true →
        r.1 = AnotherDatabase))
  ∧ (Gp_role = GP_ROLE_EXECUTE →
     locking_backend d = InvalidBackendId →
     user = owner d ∨ superuser_arg user = true →
     r.1 = Done (Some g)
     ∧ gxacts (TwoPhaseState r.2) !! g = Some (set_locking_backend MyBackendId d)
     ∧ MyLockedGxact r.2 = Some g).
Proof.
  intros Hwf Hf Hp r.
  pose proof (LockGXact_run gid0 user raise w fl Hwf) as Hrun. fold r in Hrun.
  cbv zeta in Hrun. rewrite Hf, Hp in Hrun.
  pose proof (exit_hook_registered_shared true w) as (Hs & _ & _ & Hl & _).
  pose proof (find_prepared_Some _ _ _ _ Hf) as (Hg & Hd & _).
  split.
  - intros Hdb Hrole.
    assert (negb (MyDatabaseId =? proc_databaseId p)
            && negb (is_GP_ROLE_EXECUTE Gp_role) = true) as Hother.
    { rewrite (proj2 (Z.eqb_neq _ _)) by done. by destruct Gp_role. }
    rewrite Hrun. unfold lock_outcome. rewrite Hother.
    split; [|split; [|split]].
    + destruct (negb (locking_backend d =? InvalidBackendId)); [by eexists _, _|].
      destruct (negb (user =? owner d) && negb (superuser_arg user));
        by eexists _, _.
    + destruct (negb (locking_backend d =? InvalidBackendId)); [done|].
      by destruct (negb (user =? owner d) && negb (superuser_arg user)).
    + destruct (negb (locking_backend d =? InvalidBackendId)); [done|].
      by destruct (negb (user =? owner d) && negb (superuser_arg user)).
    + intros Hb Hok. rewrite Hb. simpl.
      assert (negb (user =? owner d) && negb (superuser_arg user) = false) as ->.
      { destruct Hok as [->| ->]; [by rewrite Z.eqb_refl|].
        by rewrite andb_false_r. }
      done.
  - intros Hrole Hb Hok. rewrite Hrun. unfold lock_outcome.
    rewrite Hb, Hrole. simpl.
    assert (negb (user =? owner d) && negb (superuser_arg user) = false) as ->.
    { destruct Hok as [->| ->]; [by rewrite Z.eqb_refl|].
      by rewrite andb_false_r. }
    rewrite andb_false_r.
    split; [done|]. unfold locked. wsimpl. split; [|done].
    apply list_lookup_insert_eq. rewrite Hs. by eapply lookup_lt_Some.
Qed.

(** ** FinishPreparedTransaction without a matching entry *)

(** C7.  With [raiseErrorIfNotFound] false and no valid live entry
    carrying the GID, [FinishPreparedTransaction] returns false and
    raises nothing: a rollback does nothing more than the lookup, a
    commit calls wait_for_mirror before it returns, and in both cases
    the registry, the dummy processes, the log, the status store and
    the table of prepared transactions are as before. *)
Theorem FinishPreparedTransaction_missing gid0 isCommit w fl :
  registry_wf w fl →
  find_prepared (TwoPhaseState w) gid0 = None →
  let w1 := exit_hook_registered true w in
  let r := FinishPreparedTransaction gid0 isCommit false w in
  r = (Done false,
       if isCommit then set_events (events w1 ++ [EvWaitForMirror]) w1 else w1)
  ∧ TwoPhaseState r.2 = TwoPhaseState w
  ∧ allProcs r.2 = allProcs w ∧ allPgXact r.2 = allPgXact w
  ∧ MyLockedGxact r.2 = MyLockedGxact w
  ∧ xlog r.2 = xlog w ∧ clog r.2 = clog w ∧ map_ht r.2 = map_ht w
  ∧ procArray r.2 = procArray w.
Proof.
  intros Hwf Hnone w1 r.
  assert (r = (Done false,
               if isCommit then set_events (events w1 ++ [EvWaitForMirror]) w1
               else w1)) as Hrun.
  { unfold r, FinishPreparedTransaction.
    pose proof (LockGXact_run gid0 GetUserId false w fl Hwf) as Hlock.
    cbv zeta in Hlock. rewrite Hnone in Hlock.
    rewrite (bind_done _ _ _ _ _ Hlock). fold w1.
    by destruct isCommit. }
  split; [exact Hrun|]. rewrite Hrun. cbn [snd].
  pose proof (exit_hook_registered_shared true w)
    as (H1 & H2 & H3 & H4 & H5 & H6 & H7 & H8 & H9 & H10).
  fold w1 in H1, H2, H3, H4, H5, H6, H7, H8, H9, H10.
  destruct isCommit; wsimpl; by rewrite ?H1, ?H2, ?H3, ?H4, ?H6, ?H7, ?H8, ?H9.
Qed.

(** ** Reading back a prepare record *)

Lemma Prescan_loop_unreadable entry rest want result xids w :
  pm_xlogrecptr entry ≠ InvalidXLogRecPtr →
  xlog_records (xlog w) !! pm_xlogrecptr entry = None →
  Prescan_loop (entry :: rest) want result xids w = (MemoryFault, w).
Proof.
  intros Hlsn Hrec. cbn [Prescan_loop].
  rewrite (proj2 (Z.eqb_neq _ _) Hlsn).
  unfold XLogReadRecord, bind. by rewrite Hrec.
Qed.

Lemma Recover_loop_unreadable entry rest overwriteOK w :
  pm_xlogrecptr entry ≠ InvalidXLogRecPtr →
  xlog_records (xlog w) !! pm_xlogrecptr entry = None →
  Recover_loop (entry :: rest) overwriteOK w = (CorruptRecord, w).
Proof.
  intros Hlsn Hrec. cbn [Recover_loop].
  rewrite (proj2 (Z.eqb_neq _ _) Hlsn).
  unfold XLogReadRecord, bind. by rewrite Hrec.
Qed.

(** ** The order of the steps of FinishPreparedTransaction *)

Lemma in_order_app l1 l2 hi1 lo2 :
  in_order l1 → in_order l2 →
  Forall (fun e => (finish_step e ≤ hi1)%nat) l1 →
  Forall (fun e => (lo2 ≤ finish_step e)%nat) l2 →
  (hi1 ≤ lo2)%nat →
  in_order (l1 ++ l2).
Proof.
  unfold in_order. intros H1 H2 F1 F2 Hle i j a b Hij Ha Hb.
  rewrite Forall_forall in F1. rewrite Forall_forall in F2.
  destruct (decide (j < length l1)%nat) as [Hj|Hj].
  - rewrite lookup_app_l in Ha by lia. rewrite lookup_app_l in Hb by lia.
    eapply (H1 i j a b); [exact Hij|exact Ha|exact Hb].
  - rewrite lookup_app_r in Hb by lia.
    destruct (decide (i < length l1)%nat) as [Hi|Hi].
    + rewrite lookup_app_l in Ha by lia.
      apply list_elem_of_lookup_2 in Ha, Hb.
      specialize (F1 _ Ha). specialize (F2 _ Hb). simpl in *. lia.
    + rewrite lookup_app_r in Ha by lia.
      eapply (H2 (i - length l1)%nat (j - length l1)%nat); [lia|done..].
Qed.

Lemma in_order_nil : in_order [].
Proof. intros i j a b _ Ha. by rewrite lookup_nil in Ha. Qed.

Lemma in_order_singleton e : in_order [e].
Proof.
  intros i j a b Hij Ha Hb. apply lookup_lt_Some in Hb. simpl in Hb. lia.
Qed.

Lemma performs_silent {A} lo hi (Q : A -> list Event -> Prop) (m : M A) :
  (∀ w r w', m w = (r, w') → events w' = events w ∧ ∀ a, r = Done a → Q a []) →
  performs lo hi Q m.
Proof.
  intros H w r w' Hrun. destruct (H w r w' Hrun) as [He HQ].
  exists []. rewrite app_nil_r. split; [done|]. split; [apply in_order_nil|].
  split; [constructor|done].
Qed.

Lemma performs_log lo hi e :
  (lo ≤ finish_step e ≤ hi)%nat →
  performs lo hi (made [finish_step e]) (log e).
Proof.
  intros Hr w r w' Hrun. unfold log, modify in Hrun.
  injection Hrun as <- <-. exists (e :: nil). wsimpl.
  split; [done|]. split; [apply in_order_singleton|].
  split; [by constructor|]. intros a _. constructor; [|constructor].
  exists e. split; [apply list_elem_of_here|done].
Qed.

Lemma performs_consequence {A} lo hi lo' hi' (Q Q' : A -> list Event -> Prop) m :
  performs lo hi Q m →
  (lo' ≤ lo)%nat → (hi ≤ hi')%nat →
  (∀ a new, Q a new → Q' a new) →
  performs lo' hi' Q' m.
Proof.
  intros H Hlo Hhi HQ w r w' Hrun.
  destruct (H w r w' Hrun) as (new & He & Ho & Hf & Hq).
  exists new. split; [done|]. split; [done|]. split.
  - eapply Forall_impl; [exact Hf|]. simpl. intros. lia.
  - intros a Ha. by apply HQ, Hq.
Qed.

Lemma performs_bind {A B} lo1 hi1 lo2 hi2 (Q1 : A -> list Event -> Prop)
    (Q : B -> list Event -> Prop) (m : M A) (k : A -> M B) :
  performs lo1 hi1 Q1 m →
  (∀ a, performs lo2 hi2
          (fun b new2 => ∀ new1, Q1 a new1 → Q b (new1 ++ new2)) (k a)) →
  (hi1 ≤ lo2)%nat → (lo1 ≤ lo2)%nat → (hi1 ≤ hi2)%nat →
  performs lo1 hi2 Q (bind m k).
Proof.
  intros Hm Hk H12 Hlo Hhi w r w' Hrun. unfold bind in Hrun.
  destruct (m w) as [r1 w1] eqn:Hmw.
  destruct (Hm w r1 w1 Hmw) as (new1 & He1 & Ho1 & Hf1 & Hq1).
  destruct r1 as [a| | |].
  - destruct (Hk a w1 r w' Hrun) as (new2 & He2 & Ho2 & Hf2 & Hq2).
    exists (new1 ++ new2). split; [by rewrite He2, He1, app_assoc|].
    split; [|split].
    + apply (in_order_app _ _ hi1 lo2); try done.
      * eapply Forall_impl; [exact Hf1|]. simpl. intros. lia.
      * eapply Forall_impl; [exact Hf2|]. simpl. intros. lia.
    + apply Forall_app. split.
      * eapply Forall_impl; [exact Hf1|]. simpl. intros. lia.
      * eapply Forall_impl; [exact Hf2|]. simpl. intros. lia.
    + intros b Hb. by apply Hq2, Hq1.
  - injection Hrun as <- <-. exists new1. split; [done|]. split; [done|].
    split; [|done]. eapply Forall_impl; [exact Hf1|]. simpl. intros. lia.
  - injection Hrun as <- <-. exists new1. split; [done|]. split; [done|].
    split; [|done]. eapply Forall_impl; [exact Hf1|]. simpl. intros. lia.
  - injection Hrun as <- <-. exists new1. split; [done|]. split; [done|].
    split; [|done]. eapply Forall_impl; [exact Hf1|]. simpl. intros. lia.
Qed.

Lemma made_app {A B} must1 must2 (a : A) (b : B) new1 new2 :
  made must1 a new1 → made must2 b new2 → made (must1 ++ must2) b (new1 ++ new2).
Proof.
  unfold made. intros H1 H2. apply Forall_app. split.
  - eapply Forall_impl; [exact H1|]. intros k (e & He & Hk).
    exists e. split; [|done]. apply elem_of_app. by left.
  - eapply Forall_impl; [exact H2|]. intros k (e & He & Hk).
    exists e. split; [|done]. apply elem_of_app. by right.
Qed.

(** The rule for two commands in sequence. *)
Lemma performs_seq {A B} lo1 hi1 lo2 hi2 must1 must2 (m : M A) (k : A -> M B) :
  performs lo1 hi1 (made must1) m →
  (∀ a, performs lo2 hi2 (made must2) (k a)) →
  (hi1 ≤ lo2)%nat → (lo1 ≤ lo2)%nat → (hi1 ≤ hi2)%nat →
  performs lo1 hi2 (made (must1 ++ must2)) (bind m k).
Proof.
  intros Hm Hk ? ? ?.
  eapply (performs_bind lo1 hi1 lo2 hi2); [exact Hm| |lia..].
  intros a. eapply performs_consequence; [apply Hk|lia|lia|].
  intros b new2 Hb new1 Ha. by eapply made_app.
Qed.

Lemma made_nil {A} (a : A) new : made [] a new.
Proof. constructor. Qed.

Lemma performs_quiet {A} n (m : M A) :
  (∀ w r w', m w = (r, w') → events w' = events w) →
  performs n n (made []) m.
Proof.
  intros H. apply performs_silent. intros w r w' Hrun.
  split; [by eapply H|]. intros. apply made_nil.
Qed.

Lemma performs_forget {A} lo hi lo' hi' must (m : M A) :
  performs lo hi (made must) m → (lo' ≤ lo)%nat → (hi ≤ hi')%nat →
  performs lo' hi' (made []) m.
Proof.
  intros H ? ?. eapply performs_consequence; [exact H|lia|lia|].
  intros. apply made_nil.
Qed.

Lemma performs_when lo hi must c (m : M unit) :
  performs lo hi (made must) m → performs lo hi (made []) (when c m).
Proof.
  intros H. destruct c; simpl.
  - eapply performs_forget; [exact H|lia..].
  - apply performs_silent. intros w r w' Hrun. unfold ret in Hrun.
    injection Hrun as <- <-. split; [done|]. intros. apply made_nil.
Qed.

Ltac quiet :=
  apply performs_quiet;
  let w := fresh "w" in let r := fresh "r" in let w' := fresh "w'" in
  let H := fresh "H" in
  intros w r w' H;
  repeat match type of H with
         | context [match ?x with _ => _ end] => destruct x eqn:?
         end;
  inversion H; subst; done.

Lemma quiet_ret {A} n (a : A) : performs n n (made []) (ret a).
Proof. unfold ret. quiet. Qed.
Lemma quiet_get n : performs n n (made []) get.
Proof. unfold get. quiet. Qed.
Lemma quiet_ereport {A} n lvl code msg :
  performs n n (made []) (ereport lvl code msg : M A).
Proof. unfold ereport. quiet. Qed.
Lemma quiet_memory_fault {A} n : performs n n (made []) (memory_fault : M A).
Proof. unfold memory_fault. quiet. Qed.
Lemma quiet_modify n f :
  (∀ w, events (f w) = events w) → performs n n (made []) (modify f).
Proof.
  intros Hf. apply performs_quiet. intros w r w' Hrun. unfold modify in Hrun.
  injection Hrun as <- <-. apply Hf.
Qed.
Lemma quiet_gxact_load n g : performs n n (made []) (gxact_load g).
Proof. unfold gxact_load, deref, ret, memory_fault. quiet. Qed.
Lemma quiet_prepXacts_load n i : performs n n (made []) (prepXacts_load i).
Proof. unfold prepXacts_load. quiet. Qed.
Lemma quiet_proc_load n i : performs n n (made []) (proc_load i).
Proof. unfold proc_load, deref, ret, memory_fault. quiet. Qed.
Lemma quiet_pgxact_load n i : performs n n (made []) (pgxact_load i).
Proof. unfold pgxact_load, deref, ret, memory_fault. quiet. Qed.
Lemma quiet_XLogReadRecord n lsn : performs n n (made []) (XLogReadRecord lsn).
Proof. unfold XLogReadRecord. quiet. Qed.
Lemma quiet_TransactionIdDidCommit n xid :
  performs n n (made []) (TransactionIdDidCommit xid).
Proof.
  apply performs_quiet. intros w r w' Hrun. unfold TransactionIdDidCommit in Hrun.
  by injection Hrun as <- <-.
Qed.

Lemma quiet_seq {A B} n (m : M A) (k : A -> M B) :
  performs n n (made []) m → (∀ a, performs n n (made []) (k a)) →
  performs n n (made []) (bind m k).
Proof.
  intros Hm Hk. change (@nil nat) with (@nil nat ++ []).
  eapply (performs_seq n n n n); [exact Hm|exact Hk|lia..].
Qed.

Lemma quiet_gxact_store n g f : performs n n (made []) (gxact_store g f).
Proof.
  unfold gxact_store. apply quiet_seq; [apply quiet_gxact_load|].
  intros d. by apply quiet_modify.
Qed.

Lemma performs_step {A B} lo hi lo1 hi1 must1 must2 (m : M A) (k : A -> M B) :
  performs lo1 hi1 (made must1) m →
  (lo ≤ lo1)%nat → (lo1 ≤ hi1)%nat → (hi1 ≤ hi)%nat →
  (∀ a, performs hi1 hi (made must2) (k a)) →
  performs lo hi (made (must1 ++ must2)) (bind m k).
Proof.
  intros Hm ? ? ? Hk.
  eapply performs_consequence;
    [eapply (performs_seq lo1 hi1 hi1 hi); [exact Hm|exact Hk|lia..]|lia|lia|done].
Qed.

Lemma performs_quiet_step {A B} lo hi must (m : M A) (k : A -> M B) :
  performs lo lo (made []) m →
  (lo ≤ hi)%nat →
  (∀ a, performs lo hi (made must) (k a)) →
  performs lo hi (made must) (bind m k).
Proof.
  intros Hm ? Hk. change must with ([] ++ must).
  eapply (performs_step lo hi lo lo); [exact Hm|lia..|exact Hk].
Qed.

Lemma performs_last {A} lo hi lo1 hi1 must (m : M A) :
  performs lo1 hi1 (made must) m → (lo ≤ lo1)%nat → (hi1 ≤ hi)%nat →
  performs lo hi (made must) m.
Proof. intros H ? ?. eapply performs_consequence; [exact H|lia|lia|done]. Qed.

Lemma made_incl {A} must must' (a : A) new :
  must' ⊆ must → made must a new → made must' a new.
Proof.
  unfold made. rewrite !Forall_forall. intros Hsub H k Hk. apply H, Hsub, Hk.
Qed.

Lemma made_incl_b {A} must must' (a : A) new :
  forallb (fun k => existsb (Nat.eqb k) must) must' = true →
  made must a new → made must' a new.
Proof.
  intros Hb. apply made_incl. intros k Hk.
  apply list_elem_of_In in Hk. eapply forallb_forall in Hb; [|exact Hk].
  apply existsb_exists in Hb as (k' & Hk' & Heq).
  apply Nat.eqb_eq in Heq. subst. by apply list_elem_of_In.
Qed.

Lemma performs_log_n n e :
  finish_step e = n → performs n n (made [n]) (log e).
Proof. intros <-. apply performs_log. lia. Qed.

Lemma performs_when_log n c e :
  finish_step e = n → performs n n (made []) (when c (log e)).
Proof. intros <-. eapply performs_when. by apply performs_log_n. Qed.

Ltac pquiet lem lo hi :=
  apply (performs_quiet_step lo hi); [lem|lia|intros ?].
Ltac pstep lo hi lo1 hi1 must1 tac :=
  eapply (performs_step lo hi lo1 hi1 must1); [tac|lia|lia|lia|intros ?].
Ltac plog n := apply (performs_log_n n); reflexivity.

Lemma performs_register_exit_hook b :
  performs 0 0 (made []) (register_exit_hook b).
Proof.
  unfold register_exit_hook.
  apply quiet_seq; [apply quiet_get|]. intros w.
  destruct (twophaseExitRegistered w); [apply quiet_ret|].
  eapply (performs_forget 0 0 0 0 ([0%nat] ++ [])); [|lia..].
  pstep 0%nat 0%nat 0%nat 0%nat [0%nat] ltac:(plog 0%nat).
  by apply quiet_modify.
Qed.

Lemma performs_for_first {A R} n (l : list A) (body : A -> M (option R)) :
  (∀ i, performs n n (made []) (body i)) →
  performs n n (made []) (for_first l body).
Proof.
  intros Hb. induction l as [|i l IH]; simpl; [apply quiet_ret|].
  apply quiet_seq; [apply Hb|]. intros [x|]; [apply quiet_ret|apply IH].
Qed.

Lemma performs_LockGXact gid0 user raise :
  performs 0 0 (made []) (LockGXact gid0 user raise).
Proof.
  unfold LockGXact.
  apply quiet_seq; [apply performs_register_exit_hook|]. intros _.
  apply quiet_seq; [apply quiet_get|]. intros w.
  apply quiet_seq.
  - apply performs_for_first. intros i. unfold LockGXact_body.
    apply quiet_seq; [apply quiet_prepXacts_load|]. intros g.
    apply quiet_seq; [apply quiet_gxact_load|]. intros d.
    destruct (negb (valid d)); [apply quiet_ret|].
    destruct (negb (String.eqb (gid d) gid0)); [apply quiet_ret|].
    unfold LockGXact_found.
    apply quiet_seq; [destruct (negb _); [apply quiet_ereport|apply quiet_ret]|].
    intros _.
    apply quiet_seq; [destruct (_ && _); [apply quiet_ereport|apply quiet_ret]|].
    intros _.
    apply quiet_seq; [apply quiet_proc_load|]. intros p.
    apply quiet_seq; [destruct (_ && _); [apply quiet_ereport|apply quiet_ret]|].
    intros _.
    apply quiet_seq; [apply quiet_gxact_store|]. intros _.
    apply quiet_seq; [by apply quiet_modify|]. intros _. apply quiet_ret.
  - intros [g|]; [apply quiet_ret|].
    apply quiet_seq; [destruct raise; [apply quiet_ereport|apply quiet_ret]|].
    intros _. apply quiet_ret.
Qed.

Lemma performs_XLogInsert main rdata :
  performs 1 1 (made [1%nat]) (XLogInsert main rdata).
Proof.
  unfold XLogInsert.
  pquiet ltac:(apply quiet_get) 1%nat 1%nat.
  pquiet ltac:(by apply quiet_modify) 1%nat 1%nat.
  change [1%nat] with ([1%nat] ++ []).
  pstep 1%nat 1%nat 1%nat 1%nat [1%nat] ltac:(plog 1%nat).
  apply quiet_ret.
Qed.

Lemma performs_XLogFlush upto : performs 2 2 (made [2%nat]) (XLogFlush upto).
Proof.
  unfold XLogFlush.
  pquiet ltac:(by apply quiet_modify) 2%nat 2%nat.
  plog 2%nat.
Qed.

Lemma performs_RecordTransactionCommitPrepared xid gid0 nchildren children
    nrels rels ninvalmsgs invalmsgs initfileinval :
  performs 1 4 (made [1; 2; 3]%nat)
    (RecordTransactionCommitPrepared xid gid0 nchildren children nrels rels
       ninvalmsgs invalmsgs initfileinval).
Proof.
  unfold RecordTransactionCommitPrepared.
  destruct (dtxCrackOpenGid gid0) as [ts dxid].
  eapply (performs_consequence 1 4 1 4
            (made ([1] ++ [2] ++ [3] ++ [3] ++ [4])%nat));
    [|lia|lia|intros a new; by apply made_incl_b].
  pstep 1%nat 4%nat 1%nat 1%nat [1%nat] ltac:(apply performs_XLogInsert).
  pstep 1%nat 4%nat 2%nat 2%nat [2%nat] ltac:(apply performs_XLogFlush).
  pstep 2%nat 4%nat 3%nat 3%nat [3%nat] ltac:(plog 3%nat).
  pstep 3%nat 4%nat 3%nat 3%nat [3%nat]
    ltac:(unfold TransactionIdCommitTree;
          apply (performs_quiet_step 3 3); [by apply quiet_modify|lia|];
          intros _; plog 3%nat).
  eapply (performs_last 3 4 4 4); [plog 4%nat|lia..].
Qed.

Lemma performs_RecordTransactionAbortPrepared xid nchildren children nrels rels :
  performs 1 4 (made [1; 2; 3]%nat)
    (RecordTransactionAbortPrepared xid nchildren children nrels rels).
Proof.
  unfold RecordTransactionAbortPrepared.
  eapply (performs_consequence 1 4 1 4
            (made ([1] ++ [2] ++ [3] ++ [4])%nat));
    [|lia|lia|intros a new; by apply made_incl_b].
  pquiet ltac:(apply quiet_TransactionIdDidCommit) 1%nat 4%nat.
  pquiet ltac:(destruct a; [apply quiet_ereport|apply quiet_ret]) 1%nat 4%nat.
  pstep 1%nat 4%nat 1%nat 1%nat [1%nat] ltac:(apply performs_XLogInsert).
  pstep 1%nat 4%nat 2%nat 2%nat [2%nat] ltac:(apply performs_XLogFlush).
  pstep 2%nat 4%nat 3%nat 3%nat [3%nat]
    ltac:(unfold TransactionIdAbortTree;
          apply (performs_quiet_step 3 3); [by apply quiet_modify|lia|];
          intros _; plog 3%nat).
  eapply (performs_last 3 4 4 4); [plog 4%nat|lia..].
Qed.

Lemma performs_ProcessRecords_loop fuel : ∀ bufptr xid phase callbacks,
  performs 9 9 (made []) (ProcessRecords_loop fuel bufptr xid phase callbacks).
Proof.
  induction fuel as [|fuel IH]; intros bufptr xid phase callbacks; simpl.
  { apply performs_quiet. intros w r w' Hrun. by injection Hrun as <- <-. }
  destruct (_ =? TWOPHASE_RM_END_ID); [apply quiet_ret|].
  apply quiet_seq; [by apply performs_when_log|]. intros _. apply IH.
Qed.

Lemma made_after {A B} must (a : A) (b : B) new1 new2 :
  made must a new2 → made must b (new1 ++ new2).
Proof.
  unfold made. intros H. eapply Forall_impl; [exact H|].
  intros k (e & He & Hk). exists e. split; [|done]. apply elem_of_app. by right.
Qed.

Lemma performs_RemoveGXact_body gxact i :
  performs 12 12 (fun r new => r ≠ None → made [12%nat] tt new)
    (RemoveGXact_body gxact i).
Proof.
  unfold RemoveGXact_body.
  eapply (performs_bind 12 12 12 12 (made [])); [apply quiet_get| |lia..].
  intros w0. destruct (bool_decide _).
  - eapply (performs_consequence 12 12 12 12 (made ([12%nat] ++ [])));
      [|lia|lia|].
    + pquiet ltac:(by apply quiet_modify) 12%nat 12%nat.
      pquiet ltac:(apply quiet_get) 12%nat 12%nat.
      pquiet ltac:(apply quiet_gxact_store) 12%nat 12%nat.
      pquiet ltac:(by apply quiet_modify) 12%nat 12%nat.
      pstep 12%nat 12%nat 12%nat 12%nat [12%nat] ltac:(plog 12%nat).
      apply (quiet_ret _ (Some tt)).
    + intros r new Hm new1 _ _. by eapply made_after.
  - apply performs_silent. intros w1 r w' Hrun. unfold ret in Hrun.
    injection Hrun as <- <-. split; [done|]. intros a [= <-] new1 _ Hn. done.
Qed.

Lemma performs_RemoveGXact gxact :
  performs 12 12 (made [12%nat]) (RemoveGXact gxact).
Proof.
  unfold RemoveGXact.
  apply (performs_quiet_step 12 12); [apply quiet_get|lia|]. intros w.
  eapply (performs_bind 12 12 12 12
            (fun r new => r ≠ None → made [12%nat] tt new)); [| |lia..].
  - induction (seq 0 (numPrepXacts (TwoPhaseState w))) as [|i l IH]; simpl.
    { apply performs_silent. intros w0 r w' Hrun. unfold ret in Hrun.
      injection Hrun as <- <-. split; [done|]. by intros a [= <-]. }
    eapply (performs_bind 12 12 12 12
              (fun r new => r ≠ None → made [12%nat] tt new)); [| |lia..].
    + apply performs_RemoveGXact_body.
    + intros [x|].
      * apply performs_silent. intros w1 r w' Hrun. unfold ret in Hrun.
        injection Hrun as <- <-. split; [done|]. intros a [= <-] new1 Hq _.
        rewrite app_nil_r. by apply Hq.
      * eapply (performs_consequence 12 12 12 12); [exact IH|lia|lia|].
        intros r new Hq new1 _ Hr. eapply made_after. by apply Hq.
  - intros [x|].
    + apply performs_silent. intros w1 r w' Hrun. unfold ret in Hrun.
      injection Hrun as <- <-. split; [done|]. intros a _ new1 Hq.
      rewrite app_nil_r. by apply Hq.
    + apply performs_silent. intros w1 r w' Hrun. unfold ereport in Hrun.
      injection Hrun as <- <-. split; [done|]. intros a Ha. done.
Qed.

Lemma performs_remove_map_entry xid :
  performs 11 11 (made [11%nat])
    (remove_recover_post_checkpoint_prepared_transactions_map_entry xid).
Proof.
  unfold remove_recover_post_checkpoint_prepared_transactions_map_entry.
  change [11%nat] with ([11%nat] ++ []).
  pstep 11%nat 11%nat 11%nat 11%nat [11%nat] ltac:(plog 11%nat).
  apply quiet_modify. intros w. by destruct (map_ht w).
Qed.

Lemma performs_ProcArrayRemove procno latestXid :
  performs 5 5 (made [5%nat]) (ProcArrayRemove procno latestXid).
Proof.
  unfold ProcArrayRemove.
  pquiet ltac:(by apply quiet_modify) 5%nat 5%nat.
  plog 5%nat.
Qed.

Lemma performs_ProcessRecords bufptr xid phase callbacks :
  performs 9 9 (made []) (ProcessRecords bufptr xid phase callbacks).
Proof. apply performs_ProcessRecords_loop. Qed.

(** The steps of [FinishPreparedTransaction] once the entry is locked. *)
Lemma performs_Finish_locked gid0 isCommit gxact :
  performs 0 12 (made [1; 2; 3; 5; 6; 7; 8; 12]%nat)
    (FinishPreparedTransaction_locked gid0 isCommit gxact).
Proof.
  unfold FinishPreparedTransaction_locked.
  eapply (performs_consequence 0 12 0 12
            (made ([1; 2; 3] ++ [5] ++ [6] ++ [7] ++ [] ++ [8] ++ [] ++ []
                   ++ [10] ++ [10] ++ [11] ++ [12] ++ [])%nat));
    [|lia|lia|intros a new; by apply made_incl_b].
  pquiet ltac:(apply quiet_gxact_load) 0%nat 12%nat.
  pquiet ltac:(apply quiet_pgxact_load) 0%nat 12%nat.
  pquiet ltac:(apply quiet_XLogReadRecord) 0%nat 12%nat.
  destruct a1 as [rec|].
  2:{ apply performs_silent. intros w r w' Hrun. unfold ereport in Hrun.
      by injection Hrun as <- <-. }
  cbv zeta.
  pstep 0%nat 12%nat 1%nat 4%nat [1; 2; 3]%nat
    ltac:(destruct isCommit;
          [apply performs_RecordTransactionCommitPrepared
          |apply performs_RecordTransactionAbortPrepared]).
  pstep 4%nat 12%nat 5%nat 5%nat [5%nat] ltac:(apply performs_ProcArrayRemove).
  pquiet ltac:(apply quiet_gxact_store) 5%nat 12%nat.
  pstep 5%nat 12%nat 6%nat 6%nat [6%nat] ltac:(plog 6%nat).
  pstep 6%nat 12%nat 7%nat 7%nat [7%nat] ltac:(plog 7%nat).
  pstep 7%nat 12%nat 8%nat 8%nat (@nil nat) ltac:(by apply performs_when_log).
  pstep 8%nat 12%nat 8%nat 8%nat [8%nat] ltac:(plog 8%nat).
  pstep 8%nat 12%nat 8%nat 8%nat (@nil nat) ltac:(by apply performs_when_log).
  pstep 8%nat 12%nat 9%nat 9%nat (@nil nat)
    ltac:(destruct isCommit; apply performs_ProcessRecords).
  pstep 9%nat 12%nat 10%nat 10%nat [10%nat] ltac:(plog 10%nat).
  pstep 10%nat 12%nat 10%nat 10%nat [10%nat] ltac:(plog 10%nat).
  pstep 10%nat 12%nat 11%nat 11%nat [11%nat] ltac:(apply performs_remove_map_entry).
  pstep 11%nat 12%nat 12%nat 12%nat [12%nat] ltac:(apply performs_RemoveGXact).
  pquiet ltac:(by apply quiet_modify) 12%nat 12%nat.
  apply quiet_ret.
Qed.

Lemma performs_FinishPreparedTransaction gid0 isCommit raise :
  performs 0 12
    (fun b new => b = true → made [1; 2; 3; 5; 6; 7; 8; 12]%nat tt new)
    (FinishPreparedTransaction gid0 isCommit raise).
Proof.
  unfold FinishPreparedTransaction.
  eapply (performs_bind 0 0 0 12 (made [])); [apply performs_LockGXact| |lia..].
  intros [gxact|].
  - eapply (performs_consequence 0 12 0 12); [apply performs_Finish_locked|lia|lia|].
    intros b new Hm new1 _ _. by eapply made_after.
  - eapply (performs_bind 0 0 0 12 (made []));
      [eapply performs_forget; [by apply (performs_when_log 0)|lia..]| |lia..].
    intros u. apply performs_silent. intros w r w' Hrun. unfold ret in Hrun.
    injection Hrun as <- <-. split; [done|]. by intros a [= <-].
Qed.

(** ** PrescanPreparedTransactions *)

Lemma set_nextXid_same w : set_nextXid (nextXid w) w = w.
Proof. by destruct w. Qed.

Lemma Prescan_subxids_loop w subs : ∀ n,
  for_each subs
    (fun subxid =>
       w0 <- get ;;
       when (TransactionIdFollowsOrEquals subxid (nextXid w0))
         (modify (set_nextXid (TransactionIdAdvance subxid))))
    (set_nextXid n w)
  = (Done tt, set_nextXid (advance_past subs n) w).
Proof.
  induction subs as [|s subs IH]; intros n; [done|].
  cbn [for_each]. rewrite bind_assoc, bind_get. wsimpl.
  unfold advance_past. cbn [fold_left].
  destruct (TransactionIdFollowsOrEquals s n).
  - rewrite bind_when_true, bind_modify. apply IH.
  - rewrite bind_when_false. apply IH.
Qed.

Lemma Prescan_loop_run want w entries : ∀ result xs n,
  Forall (readable w) entries →
  let open := List.filter (unresolved (clog w)) (record_data w <$> entries) in
  Prescan_loop entries want result xs (set_nextXid n w) =
    (Done (running_minimum (record_xid <$> open) result,
           if want then xs ++ (record_xid <$> open) else xs),
     set_nextXid (advance_past (concat (record_subxids <$> open)) n) w).
Proof.
  induction entries as [|e entries IH]; intros result xs n Hr; cbv zeta.
  { simpl. unfold ret. destruct want; by rewrite ?app_nil_r. }
  apply Forall_cons in Hr as [[Hlsn [rec Hrec]] Hr].
  cbn [Prescan_loop]. rewrite (proj2 (Z.eqb_neq _ _) Hlsn).
  unfold XLogReadRecord at 1. unfold bind at 1. wsimpl. rewrite Hrec.
  cbn [fmap option_fmap option_map deref]. rewrite bind_ret.
  rewrite bool_decide_eq_false_2 by done. rewrite bind_when_false.
  unfold TransactionIdDidCommit, TransactionIdDidAbort.
  unfold bind at 1. unfold bind at 1. wsimpl.
  cbn [fmap list_fmap List.filter].
  assert (record_data w e = XLogRecGetData rec) as Hdata.
  { unfold record_data. by rewrite Hrec. }
  rewrite Hdata. fold (record_xid (XLogRecGetData rec)).
  fold (unresolved (clog w) (XLogRecGetData rec)).
  destruct (unresolved (clog w) (XLogRecGetData rec)) eqn:Hopen.
  - rewrite bind_assoc.
    fold (record_subxids (XLogRecGetData rec)).
    rewrite (bind_done _ _ _ _ _ (Prescan_subxids_loop w _ n)).
    rewrite bind_ret. cbn [fst snd].
    rewrite (IH _ _ _ Hr). cbv zeta.
    cbn [fmap list_fmap concat]. unfold running_minimum, advance_past.
    cbn [fold_left]. rewrite fold_left_app.
    destruct want; [by rewrite <- app_assoc|done].
  - rewrite bind_ret. cbn [fst snd]. by rewrite (IH _ _ _ Hr).
Qed.

Lemma strict_order_on_spec U :
  strict_order_on U = true →
  (∀ x, x ∈ U → TransactionIdPrecedes x x = false)
  ∧ (∀ x y z, x ∈ U → y ∈ U → z ∈ U →
       TransactionIdPrecedes x y = true → TransactionIdPrecedes y z = true →
       TransactionIdPrecedes x z = true).
Proof.
  unfold strict_order_on. intros H. apply andb_true_iff in H as [Hirr Htr].
  rewrite forallb_forall in Hirr. rewrite forallb_forall in Htr. split.
  - intros x Hx. apply list_elem_of_In in Hx. apply Hirr in Hx.
    by apply negb_true_iff.
  - intros x y z Hx Hy Hz Hxy Hyz.
    apply list_elem_of_In in Hx, Hy, Hz.
    specialize (Htr x Hx). rewrite forallb_forall in Htr.
    specialize (Htr y Hy). rewrite forallb_forall in Htr.
    specialize (Htr z Hz). by rewrite Hxy, Hyz in Htr.
Qed.

Lemma running_minimum_least U xs : ∀ start seen,
  strict_order_on U = true →
  start ∈ U → xs ⊆ U → seen ⊆ U →
  (∀ y, y ∈ seen → TransactionIdPrecedes y start = false) →
  let r := running_minimum xs start in
  r ∈ start :: xs
  ∧ TransactionIdPrecedes start r = false
  ∧ ∀ y, y ∈ seen ++ xs → TransactionIdPrecedes y r = false.
Proof.
  intros start seen Hord. destruct (strict_order_on_spec U Hord) as [Hirr Htr].
  revert start seen.
  induction xs as [|x xs IH]; intros start seen Hs Hxs Hseen Hmin; cbv zeta.
  { simpl. split; [apply list_elem_of_here|]. split; [by apply Hirr|].
    intros y Hy. rewrite app_nil_r in Hy. by apply Hmin. }
  assert (x ∈ U) as Hx by (apply Hxs, list_elem_of_here).
  assert (xs ⊆ U) as Hxs' by (intros y Hy; apply Hxs, elem_of_cons; by right).
  unfold running_minimum. cbn [fold_left].
  destruct (TransactionIdPrecedes x start) eqn:Hlt.
  - destruct (IH x (seen ++ [start]) Hx Hxs') as (Hin & Hxr & Hall).
    + intros y Hy. apply elem_of_app in Hy as [Hy|Hy]; [by apply Hseen|].
      apply list_elem_of_singleton in Hy. by subst.
    + intros y Hy. apply elem_of_app in Hy as [Hy|Hy].
      * destruct (TransactionIdPrecedes y x) eqn:Hyx; [|done].
        rewrite <- (Hmin y Hy). symmetry.
        apply (Htr y x start); try done. by apply Hseen.
      * apply list_elem_of_singleton in Hy. subst y.
        destruct (TransactionIdPrecedes start x) eqn:Hsx; [|done].
        rewrite <- (Hirr start Hs). symmetry. by apply (Htr start x start).
    + fold (running_minimum xs x). split; [apply elem_of_cons; by right|].
      split.
      * apply Hall. apply elem_of_app. left. apply elem_of_app. right.
        apply list_elem_of_here.
      * intros y Hy. apply elem_of_app in Hy as [Hy|Hy].
        -- apply Hall. apply elem_of_app. left. apply elem_of_app. by left.
        -- apply elem_of_cons in Hy as [->|Hy]; [done|].
           apply Hall. apply elem_of_app. by right.
  - destruct (IH start (seen ++ [x]) Hs Hxs') as (Hin & Hsr & Hall).
    + intros y Hy. apply elem_of_app in Hy as [Hy|Hy]; [by apply Hseen|].
      apply list_elem_of_singleton in Hy. by subst.
    + intros y Hy. apply elem_of_app in Hy as [Hy|Hy]; [by apply Hmin|].
      apply list_elem_of_singleton in Hy. by subst.
    + fold (running_minimum xs start). split.
      * apply elem_of_cons in Hin as [Hin|Hin];
          [rewrite Hin; apply list_elem_of_here|].
        apply elem_of_cons. right. apply elem_of_cons. by right.
      * split; [done|]. intros y Hy. apply elem_of_app in Hy as [Hy|Hy].
        -- apply Hall. apply elem_of_app. left. apply elem_of_app. by left.
        -- apply elem_of_cons in Hy as [->|Hy].
           ++ apply Hall. apply elem_of_app. left. apply elem_of_app. right.
              apply list_elem_of_here.
           ++ apply Hall. apply elem_of_app. by right.
Qed.

(** C6.  When every entry of the table points to a readable record,
    [PrescanPreparedTransactions] returns the running minimum, from
    [nextXid], of the ids of the records whose transaction the status
    store shows neither committed nor aborted, and leaves [nextXid]
    advanced, in the order of the scan, past every subtransaction id
    of those records that follows or equals it; nothing else changes.
    With no such record the result is [nextXid].  Where
    [TransactionIdPrecedes] orders the ids involved and every such id
    precedes [nextXid], the result is one of them and none of them
    precedes it. *)
Theorem PrescanPreparedTransactions_result want w :
  let entries := default [] (map_ht w) in
  let open := List.filter (unresolved (clog w)) (record_data w <$> entries) in
  let xids := record_xid <$> open in
  let subxids := concat (record_subxids <$> open) in
  let result := running_minimum xids (nextXid w) in
  Forall (readable w) entries →
  PrescanPreparedTransactions want w =
    (Done (result, if want then Some xids else None),
     set_nextXid (advance_past subxids (nextXid w)) w)
  ∧ (xids = [] → result = nextXid w)
  ∧ (xids ≠ [] →
     strict_order_on (nextXid w :: xids) = true →
     (∀ x, x ∈ xids → TransactionIdPrecedes x (nextXid w) = true) →
     result ∈ xids ∧ ∀ x, x ∈ xids → TransactionIdPrecedes x result = false).
Proof.
  intros entries open xids subxids result Hread.
  split; [|split].
  - unfold PrescanPreparedTransactions. rewrite bind_get. fold entries.
    pose proof (Prescan_loop_run want w entries (nextXid w) [] (nextXid w) Hread)
      as Hloop.
    cbv zeta in Hloop. rewrite set_nextXid_same in Hloop.
    rewrite (bind_done _ _ _ _ _ Hloop). unfold ret. cbn [fst snd].
    by destruct want.
  - intros Hnil. unfold result. by rewrite Hnil.
  - intros Hne Hord Hbelow.
    destruct (running_minimum_least (nextXid w :: xids) xids (nextXid w) [] Hord)
      as (Hin & _ & Hleast).
    + apply list_elem_of_here.
    + intros x Hx. apply elem_of_cons. by right.
    + intros x Hx. by apply elem_of_nil in Hx.
    + intros x Hx. by apply elem_of_nil in Hx.
    + fold result in Hin, Hleast. split; [|exact Hleast].
      apply elem_of_cons in Hin as [Heq|Hin]; [|done].
      destruct xids as [|x xids0] eqn:Hx; [done|].
      assert (x ∈ x :: xids0) as Hxin by apply list_elem_of_here.
      pose proof (Hleast x Hxin) as Hf. rewrite Heq in Hf.
      rewrite (Hbelow x Hxin) in Hf. done.
Qed.

(** ** Bytes and alignment *)

Lemma Z_of_byte_of_Z z : Z_of_byte (byte_of_Z z) = z mod 256.
Proof.
  unfold Z_of_byte, byte_of_Z.
  assert (0 ≤ z mod 256 < 256) as Hr by (apply Z.mod_pos_bound; lia).
  destruct (Byte.of_N (Z.to_N (z mod 256))) as [b|] eqn:Hb.
  - apply Byte.to_of_N in Hb. simpl. rewrite Hb. lia.
  - apply Byte.of_N_None_iff in Hb. lia.
Qed.

Lemma le_decode_encode n v : le_decode (le_encode n v) = v mod 256 ^ Z.of_nat n.
Proof.
  revert v. induction n as [|n IH]; intros v.
  - simpl. by rewrite Z.mod_1_r.
  - cbn [le_encode le_decode]. rewrite Z_of_byte_of_Z, IH.
    rewrite Nat2Z.inj_succ, Z.pow_succ_r by lia.
    rewrite Z.rem_mul_r; [done|lia|]. apply Z.pow_pos_nonneg; lia.
Qed.

Lemma length_le_encode n v : length (le_encode n v) = n.
Proof. revert v. induction n; intros v; simpl; [done|]. by rewrite IHn. Qed.

Lemma drop_app_plus {A} (p l : list A) k : drop (length p + k) (p ++ l) = drop k l.
Proof. induction p; simpl; [done|]. apply IHp. Qed.

Lemma bytes_at_app_skip p l off n :
  bytes_at (p ++ l) (length p + off) n = bytes_at l off n.
Proof. unfold bytes_at. by rewrite drop_app_plus. Qed.

Lemma bytes_at_here x q :
  bytes_at (x ++ q) 0 (length x) = x.
Proof.
  unfold bytes_at. rewrite drop_0, <- app_assoc. by rewrite take_app_length.
Qed.

Lemma bytes_at_mid p x q :
  bytes_at (p ++ x ++ q) (length p) (length x) = x.
Proof.
  rewrite <- (Nat.add_0_r (length p)), bytes_at_app_skip. apply bytes_at_here.
Qed.

Lemma length_bytes_at buf off n : length (bytes_at buf off n) = n.
Proof.
  unfold bytes_at. rewrite length_take, length_app, length_replicate. lia.
Qed.

Lemma MAXALIGN_round n :
  0 ≤ n < 2 ^ 63 → MAXALIGN n = 8 * ((n + 7) / 8).
Proof.
  intros Hn. unfold MAXALIGN, TYPEALIGN, MAXIMUM_ALIGNOF, wrap64.
  change (8 - 1) with 7.
  rewrite (Z.mod_small (n + 7)) by lia.
  rewrite <- (Z.land_ones (Z.lnot 7) 64) by lia.
  rewrite Z.land_assoc.
  change (Z.land (n + 7) (Z.lnot 7)) with (Z.ldiff (n + 7) (Z.ones 3)).
  rewrite Z.ldiff_ones_r by lia.
  rewrite Z.shiftl_mul_pow2, Z.shiftr_div_pow2 by lia.
  change (2 ^ 3) with 8. rewrite Z.land_ones by lia.
  pose proof (Z.div_mod (n + 7) 8 ltac:(lia)) as Hd.
  pose proof (Z.mod_pos_bound (n + 7) 8 ltac:(lia)) as Hm.
  rewrite Z.mod_small by lia. lia.
Qed.

Lemma MAXALIGN_bounds n :
  0 ≤ n < 2 ^ 63 → n ≤ MAXALIGN n < n + 8 ∧ MAXALIGN n mod 8 = 0.
Proof.
  intros Hn. rewrite MAXALIGN_round by done.
  pose proof (Z.div_mod (n + 7) 8 ltac:(lia)) as Hd.
  pose proof (Z.mod_pos_bound (n + 7) 8 ltac:(lia)) as Hm.
  split; [lia|]. rewrite Z.mul_comm. apply Z.mod_mul. lia.
Qed.

Lemma MAXALIGN_aligned n : 0 ≤ n < 2 ^ 63 → n mod 8 = 0 → MAXALIGN n = n.
Proof.
  intros Hn Hz. rewrite MAXALIGN_round by done.
  apply Z.mod_divide in Hz; [|lia]. destruct Hz as [k ->].
  replace (k * 8 + 7) with (7 + k * 8) by lia.
  rewrite Z.div_add by lia. change (7 / 8) with 0. lia.
Qed.

(** ** The header of the state file *)

Lemma to_int32_wrap v : - 2 ^ 31 ≤ v < 2 ^ 31 → to_int32 (v mod 2 ^ 32) = v.
Proof.
  intros Hv. unfold to_int32, wrap32. rewrite Z.mod_mod by lia.
  destruct (Z.ltb_spec (v mod 2 ^ 32) (2 ^ 31)) as [Hlt|Hge].
  - destruct (Z.lt_ge_cases v 0) as [Hneg|Hpos].
    + rewrite <- (Z.mod_add v 1) in Hlt by lia.
      rewrite Z.mod_small in Hlt by lia. lia.
    + apply Z.mod_small. lia.
  - destruct (Z.lt_ge_cases v 0) as [Hneg|Hpos].
    + rewrite <- (Z.mod_add v 1) by lia. rewrite Z.mod_small by lia. lia.
    + rewrite Z.mod_small in Hge by lia. lia.
Qed.

Lemma to_int64_wrap v : - 2 ^ 63 ≤ v < 2 ^ 63 → to_int64 (v mod 2 ^ 64) = v.
Proof.
  intros Hv. unfold to_int64, wrap64. rewrite Z.mod_mod by lia.
  destruct (Z.ltb_spec (v mod 2 ^ 64) (2 ^ 63)) as [Hlt|Hge].
  - destruct (Z.lt_ge_cases v 0) as [Hneg|Hpos].
    + rewrite <- (Z.mod_add v 1) in Hlt by lia.
      rewrite Z.mod_small in Hlt by lia. lia.
    + apply Z.mod_small. lia.
  - destruct (Z.lt_ge_cases v 0) as [Hneg|Hpos].
    + rewrite <- (Z.mod_add v 1) by lia. rewrite Z.mod_small by lia. lia.
    + rewrite Z.mod_small in Hge by lia. lia.
Qed.

Lemma length_hdr_image h :
  length (hdr_image h) = Z.to_nat sizeof_TwoPhaseFileHeader.
Proof.
  unfold hdr_image. rewrite !length_app, !length_le_encode.
  rewrite length_take, length_app, length_replicate, length_map, length_seq.
  simpl length. change (Z.to_nat sizeof_TwoPhaseFileHeader) with 248%nat. lia.
Qed.

(** A 4-byte, 8-byte or 1-byte field read at its offset. *)
Ltac read_field :=
  unfold hdr_image, read_le, bytes_at;
  cbn [le_encode app drop];
  match goal with
  | |- context [take ?n (?b :: ?l)] =>
      let t := eval cbn [take] in (take n (b :: l)) in
      change (take n (b :: l)) with t
  end.

Lemma hdr_view_image h rest :
  hdr_typed h → hdr_view (hdr_image h ++ rest) = h.
Proof.
  intros [Hmagic Htot Hxid Hdb Hat Hown Hns Hnc Hna Hni Hgid].
  destruct h as [magic tot xid db at_ own ns nc na ni ifi g].
  cbn [hdr_magic hdr_total_len hdr_xid hdr_database hdr_prepared_at hdr_owner
       hdr_nsubxacts hdr_ncommitrels hdr_nabortrels hdr_ninvalmsgs
       hdr_initfileinval hdr_gid] in *.
  unfold hdr_view.
  set (gidf := take 200 (g ++ replicate 200 Byte.x00)).
  assert (∀ v, le_decode (le_encode 4 v) = v mod 2 ^ 32) as H4
    by (intros v; apply (le_decode_encode 4)).
  assert (∀ v, le_decode (le_encode 8 v) = v mod 2 ^ 64) as H8
    by (intros v; apply (le_decode_encode 8)).
  cbn [le_encode] in H4, H8.
  f_equal.
  - read_field. rewrite H4. apply Z.mod_small. lia.
  - read_field. rewrite H4. apply Z.mod_small. lia.
  - read_field. rewrite H4. apply Z.mod_small. lia.
  - read_field. rewrite H4. apply Z.mod_small. lia.
  - read_field. rewrite H8. by apply to_int64_wrap.
  - read_field. rewrite H4. apply Z.mod_small. lia.
  - read_field. rewrite H4. by apply to_int32_wrap.
  - read_field. rewrite H4. by apply to_int32_wrap.
  - read_field. rewrite H4. by apply to_int32_wrap.
  - read_field. rewrite H4. by apply to_int32_wrap.
  - read_field. by destruct ifi.
  - unfold hdr_image, bytes_at. cbn [le_encode app drop hdr_gid].
    fold gidf. rewrite drop_0, <- !app_assoc.
    assert (length gidf = 200%nat) as Hlen.
    { unfold gidf. rewrite length_take, length_app, length_replicate. lia. }
    rewrite <- Hlen at 1. rewrite take_app_length.
    unfold gidf. rewrite take_app_ge by lia. rewrite Hgid, Nat.sub_diag.
    apply app_nil_r.
Qed.

(** ** The chain of [records] *)

Lemma unsnoc_snoc {A} (l : list A) x : unsnoc (l ++ [x]) = Some (l, x).
Proof. induction l as [|a l IH]; simpl; [done|]. by rewrite IH. Qed.

Lemma chain_blocks_snoc chain b :
  chain_blocks (chain ++ [b])
  = chain_blocks chain ++ [take (Z.to_nat (rd_len b)) (rd_data b)].
Proof. unfold chain_blocks. by rewrite map_app. Qed.

Lemma chain_stream_snoc chain b bf tl :
  chain_stream {| xl_chain := chain ++ [b]; bytes_free := bf; total_len := tl |}
  = concat (chain_blocks chain) ++ take (Z.to_nat (rd_len b)) (rd_data b).
Proof.
  unfold chain_stream. cbn [xl_chain]. rewrite chain_blocks_snoc, concat_app.
  simpl. by rewrite app_nil_r.
Qed.

Lemma length_palloc n : length (palloc n) = Z.to_nat n.
Proof. unfold palloc. by rewrite length_map, length_seq. Qed.

Lemma wrap32_small z : 0 ≤ z < 2 ^ 32 → wrap32 z = z.
Proof. intros. unfold wrap32. by apply Z.mod_small. Qed.

Lemma wrap64_small z : 0 ≤ z < 2 ^ 64 → wrap64 z = z.
Proof. intros. unfold wrap64. by apply Z.mod_small. Qed.

(** Copying [len] bytes behind the used part of the last chunk. *)
Lemma fill_tail before tail bf tl data len :
  0 ≤ len ≤ MaxAllocSize →
  length data = Z.to_nat len →
  0 ≤ rd_len tail →
  MAXALIGN len ≤ bf < 2 ^ 32 →
  Z.of_nat (length (rd_data tail)) = rd_len tail + bf →
  tl = Z.of_nat (length (concat (chain_blocks (before ++ [tail])))) →
  tl + MAXALIGN len ≤ MaxAllocSize →
  let xl' :=
    {| xl_chain := before ++
         [ {| rd_data := memcpy_at (rd_data tail) (Z.to_nat (rd_len tail))
                           (take (Z.to_nat len) data);
              rd_len := wrap32 (rd_len tail + wrap32 (MAXALIGN len)) |} ];
       bytes_free := wrap32 (bf - wrap32 (MAXALIGN len));
       total_len := wrap32 (tl + wrap32 (MAXALIGN len)) |} in
  chain_ok xl'
  ∧ ∃ pad, Z.of_nat (length pad) = MAXALIGN len - len
      ∧ chain_stream xl'
        = concat (chain_blocks (before ++ [tail])) ++ data ++ pad
      ∧ take (Z.to_nat (rd_len tail + MAXALIGN len))
          (memcpy_at (rd_data tail) (Z.to_nat (rd_len tail))
             (take (Z.to_nat len) data))
        = take (Z.to_nat (rd_len tail)) (rd_data tail) ++ data ++ pad.
Proof.
  intros Hlen Hdata Hrd Hbf Hsize Htl Hmax.
  assert (MaxAllocSize = 1073741823) as HM by reflexivity.
  destruct (MAXALIGN_bounds len ltac:(lia)) as [Hpad _].
  set (padlen := MAXALIGN len) in *.
  rewrite chain_blocks_snoc, concat_app in Htl. simpl in Htl.
  rewrite app_nil_r, length_app, length_take in Htl.
  rewrite (wrap32_small padlen) by lia.
  rewrite (wrap32_small (rd_len tail + padlen)) by lia.
  rewrite (wrap32_small (bf - padlen)) by lia.
  rewrite (wrap32_small (tl + padlen)) by lia.
  rewrite (take_ge data) by lia.
  set (dst := rd_data tail) in *. set (n := Z.to_nat (rd_len tail)) in *.
  set (pad := take (Z.to_nat (padlen - len)) (drop (n + length data) dst)).
  assert (Z.of_nat (length pad) = padlen - len) as Hpadlen.
  { unfold pad. rewrite length_take, length_drop. lia. }
  assert (take (Z.to_nat (rd_len tail + padlen)) (memcpy_at dst n data)
          = take n dst ++ data ++ pad) as Hblock.
  { unfold memcpy_at.
    assert (length (take n dst) = n) as Hn by (rewrite length_take; lia).
    replace (Z.to_nat (rd_len tail + padlen))
      with (length (take n dst) + (length data + Z.to_nat (padlen - len)))%nat
      by lia.
    rewrite take_app_add. f_equal. by rewrite take_app_add. }
  intros xl'. split.
  - split.
    + exists before, {| rd_data := memcpy_at dst n data; rd_len := rd_len tail + padlen |}.
      split; [done|]. cbn [rd_len rd_data bytes_free xl']. split; [lia|].
      unfold memcpy_at. rewrite !length_app, length_take, length_drop. lia.
    + cbn [bytes_free xl']. lia.
    + unfold xl'. rewrite chain_stream_snoc. cbn [total_len rd_len rd_data].
      rewrite Hblock, !length_app, length_take. lia.
  - exists pad. split; [done|]. split; [|done].
    unfold xl'. rewrite chain_stream_snoc. cbn [rd_len rd_data].
    rewrite Hblock, chain_blocks_snoc, concat_app. simpl.
    by rewrite app_nil_r, <- app_assoc.
Qed.

Lemma match_snoc {A B} (l : list A) x (a : B) (b : A → list A → B) :
  match l ++ [x] with [] => a | y :: k => b y k end
  = match l with [] => b x [] | y :: k => b y (k ++ [x]) end.
Proof. by destruct l. Qed.

Lemma head_block_snoc chain b bf tl bf' tl' :
  chain ≠ [] →
  head_block {| xl_chain := chain ++ [b]; bytes_free := bf; total_len := tl |}
  = head_block {| xl_chain := chain; bytes_free := bf'; total_len := tl' |}.
Proof. by destruct chain. Qed.

Lemma save_state_data_run data len w :
  chain_ok (records w) →
  0 ≤ len ≤ MaxAllocSize →
  length data = Z.to_nat len →
  total_len (records w) + MAXALIGN len ≤ MaxAllocSize →
  ∃ xl pad ext,
    save_state_data data len w = (Done tt, set_records xl w)
    ∧ chain_ok xl
    ∧ Z.of_nat (length pad) = MAXALIGN len - len
    ∧ chain_stream xl = chain_stream (records w) ++ data ++ pad
    ∧ head_block xl = head_block (records w) ++ ext.
Proof.
  intros [(before & tail & Hchain & Hrd & Hsz) Hfree Htot] Hlen Hdata Hmax.
  assert (MaxAllocSize = 1073741823) as HM by reflexivity.
  destruct (MAXALIGN_bounds len ltac:(lia)) as [Hpad _].
  assert (rd_len tail ≤ total_len (records w)) as Hused.
  { rewrite Htot. unfold chain_stream. rewrite Hchain, chain_blocks_snoc.
    rewrite concat_app, length_app. simpl. rewrite app_nil_r, length_take. lia. }
  unfold save_state_data. rewrite bind_get.
  rewrite (wrap32_small (MAXALIGN len)) by lia.
  destruct (Z.ltb_spec (bytes_free (records w)) (MAXALIGN len)) as [Hsmall|Hroom].
  - rewrite bind_when_true.
    destruct (xl_chain (records w)) as [|c0 chain'] eqn:Hc; [by destruct before|].
    rewrite bind_modify, bind_get. cbn [records set_records xl_chain bytes_free total_len].
    rewrite unsnoc_snoc. unfold modify.
    set (m := Z.max (MAXALIGN len) 512).
    destruct (fill_tail (xl_chain (records w))
                {| rd_data := palloc m; rd_len := 0 |} m (total_len (records w))
                data len)
      as (Hok & pad & Hpadlen & Hstream & _); try done.
    + unfold m. lia.
    + cbn [rd_data rd_len]. rewrite length_palloc. unfold m. lia.
    + rewrite chain_blocks_snoc, concat_app. cbn [rd_len rd_data].
      rewrite Htot. unfold chain_stream.
      change (Z.to_nat 0) with 0%nat. rewrite take_0. simpl.
      by rewrite !app_nil_r.
    + cbn [rd_data rd_len] in Hok, Hstream.
      rewrite (wrap32_small (MAXALIGN len)) in Hok, Hstream by lia.
      eexists _, pad, []. split; [reflexivity|].
      split; [exact Hok|]. split; [done|]. split.
      * etransitivity; [exact Hstream|].
        rewrite chain_blocks_snoc, concat_app.
        cbn [rd_len rd_data]. change (Z.to_nat 0) with 0%nat. rewrite take_0.
        simpl. by rewrite !app_nil_r.
      * rewrite app_nil_r. unfold head_block. cbn [xl_chain]. by rewrite Hc.
  - rewrite bind_when_false, bind_get. rewrite Hchain.
    rewrite unsnoc_snoc. unfold modify.
    destruct (fill_tail before tail (bytes_free (records w))
                (total_len (records w)) data len)
      as (Hok & pad & Hpadlen & Hstream & Hblock); try done.
    + lia.
    + rewrite Htot. unfold chain_stream. by rewrite Hchain.
    + rewrite (wrap32_small (MAXALIGN len)) in Hok, Hstream by lia.
      eexists _, pad, (match before with [] => data ++ pad | _ :: _ => [] end).
      split; [reflexivity|].
      split; [exact Hok|]. split; [done|]. split.
      { etransitivity; [exact Hstream|]. unfold chain_stream. by rewrite Hchain. }
      unfold head_block. cbn [xl_chain]. rewrite Hchain.
      destruct before as [|b0 before'].
      * cbn [app rd_len rd_data].
        rewrite (wrap32_small (rd_len tail + MAXALIGN len)) by lia.
        rewrite Hblock. reflexivity.
      * cbn [app]. symmetry. apply app_nil_r.
Qed.

(** ** Sections and their padding *)

Lemma padded_nil : padded [] [].
Proof. reflexivity. Qed.

Lemma laid_out_nil : laid_out [] [].
Proof. exists []. split; [constructor|done]. Qed.

Lemma laid_out_snoc secs s sec pad :
  laid_out secs s → padded sec pad → laid_out (secs ++ [sec]) (s ++ sec ++ pad).
Proof.
  intros (pads & Hpads & ->) Hpad. exists (pads ++ [pad]). split.
  - apply Forall2_app; [done|]. by constructor.
  - rewrite zip_with_app by (by eapply Forall2_length).
    rewrite concat_app. simpl. by rewrite app_nil_r.
Qed.

Lemma laid_out_skip secs s : laid_out secs s → laid_out (secs ++ [[]]) s.
Proof.
  intros H. pose proof (laid_out_snoc secs s [] [] H padded_nil) as H'.
  simpl in H'. by rewrite app_nil_r in H'.
Qed.

Lemma laid_out_cons sec secs s :
  laid_out (sec :: secs) s →
  ∃ pad rest, s = sec ++ pad ++ rest ∧ padded sec pad ∧ laid_out secs rest.
Proof.
  intros (pads & Hpads & ->).
  apply Forall2_cons_inv_l in Hpads as (pad & pads' & Hpad & Hpads & ->).
  exists pad, (concat (zip_with app secs pads')). split.
  - simpl. by rewrite <- app_assoc.
  - split; [done|]. by exists pads'.
Qed.

Lemma laid_out_length secs s :
  Forall (fun sec => Z.of_nat (length sec) ≤ MaxAllocSize) secs →
  laid_out secs s → Z.of_nat (length s) = aligned_size secs.
Proof.
  intros Hsmall (pads & Hpads & ->). revert Hsmall.
  induction Hpads as [|sec pad secs pads Hpad Hpads IH]; intros Hsmall; [done|].
  apply Forall_cons in Hsmall as [Hsec Hsmall]. simpl.
  rewrite !length_app. rewrite <- IH by done. unfold padded in Hpad. lia.
Qed.

Lemma aligned_size_app a b : aligned_size (a ++ b) = aligned_size a + aligned_size b.
Proof. induction a as [|x a IH]; simpl; [done|]. rewrite IH. lia. Qed.

Lemma aligned_size_nonneg secs :
  Forall (fun sec => Z.of_nat (length sec) ≤ MaxAllocSize) secs →
  0 ≤ aligned_size secs.
Proof.
  induction 1 as [|sec secs Hsec _ IH]; simpl; [done|].
  assert (MaxAllocSize = 1073741823) as HM by reflexivity.
  destruct (MAXALIGN_bounds (Z.of_nat (length sec)) ltac:(lia)). lia.
Qed.

Lemma ptr_add_padded sec pad rest n :
  padded sec pad → n = Z.of_nat (length sec) → n ≤ MaxAllocSize →
  ptr_add (sec ++ pad ++ rest) (MAXALIGN n) = rest.
Proof.
  intros Hpad -> Hn. unfold ptr_add, padded in *.
  assert (MaxAllocSize = 1073741823) as HM by reflexivity.
  destruct (MAXALIGN_bounds (Z.of_nat (length sec)) ltac:(lia)) as [Hb _].
  rewrite app_assoc.
  replace (Z.to_nat (MAXALIGN (Z.of_nat (length sec))))
    with (length (sec ++ pad) + 0)%nat by (rewrite length_app; lia).
  by rewrite drop_app_plus.
Qed.

Lemma array_bytes_here sec rest n :
  n = Z.of_nat (length sec) → array_bytes (sec ++ rest) n = sec.
Proof.
  intros ->. unfold array_bytes. rewrite Nat2Z.id. apply bytes_at_here.
Qed.

Lemma length_xids_image xs : length (xids_image xs) = (4 * length xs)%nat.
Proof.
  unfold xids_image. induction xs as [|x xs IH]; [done|].
  cbn [map concat]. rewrite length_app, length_le_encode, IH. simpl. lia.
Qed.

Lemma read_xids_image xs rest :
  Forall (fun x => 0 ≤ x < 2 ^ 32) xs →
  read_xids (xids_image xs ++ rest) (Z.of_nat (length xs)) = xs.
Proof.
  intros Hxs. unfold read_xids. rewrite Nat2Z.id.
  induction Hxs as [|x xs Hx Hxs IH]; [done|].
  cbn [length seq map]. f_equal.
  - unfold xids_image. cbn [map concat]. rewrite <- app_assoc.
    unfold read_le. rewrite Nat.mul_0_r.
    rewrite <- (length_le_encode 4 x) at 2. rewrite bytes_at_here.
    rewrite le_decode_encode. apply Z.mod_small. lia.
  - etransitivity; [|exact IH].
    rewrite <- seq_shift, map_map. apply map_ext. intros i.
    unfold read_le, xids_image. cbn [map concat]. rewrite <- app_assoc.
    replace (4 * S i)%nat with (length (le_encode 4 x) + 4 * i)%nat
      by (rewrite length_le_encode; lia).
    by rewrite bytes_at_app_skip.
Qed.

(** ** Worlds that show the same entries *)

Lemma kept_refl w : kept w w.
Proof. by split. Qed.

Lemma kept_trans w1 w2 w3 : kept w1 w2 → kept w2 w3 → kept w1 w3.
Proof.
  intros [] []. split; congruence.
Qed.

Lemma kept_set_records xl w : kept w (set_records xl w).
Proof. by split. Qed.

Lemma kept_set_events ev w : kept w (set_events ev w).
Proof. by split. Qed.

Lemma fmap_lookup_length {A B} (f : A → B) (l l' : list A) :
  (∀ n, f <$> l' !! n = f <$> l !! n) → length l' = length l.
Proof.
  intros H.
  assert (∀ n, (n < length l')%nat ↔ (n < length l)%nat) as Hlt.
  { intros n. rewrite <- !lookup_lt_is_Some.
    rewrite <- (fmap_is_Some f (l' !! n)), <- (fmap_is_Some f (l !! n)).
    by rewrite H. }
  destruct (Nat.lt_trichotomy (length l') (length l)) as [Hc|[Hc|Hc]]; [|done|].
  - apply Hlt in Hc. lia.
  - apply Hlt in Hc. lia.
Qed.

Lemma kept_wf w w' fl : kept w w' → registry_wf w fl → registry_wf w' fl.
Proof.
  intros Hk. apply registry_wf_ext.
  - apply Hk.
  - eapply fmap_lookup_length, Hk.
  - eapply fmap_lookup_length, Hk.
Qed.

Lemma kept_entry_view w w' g : kept w w' → entry_view w' g = entry_view w g.
Proof.
  intros Hk. unfold entry_view. rewrite (k_state _ _ Hk).
  destruct (gxacts (TwoPhaseState w) !! g) as [d|]; [|done]. simpl.
  pose proof (k_database _ _ Hk (pgprocno d)) as Hdb.
  pose proof (k_xid _ _ Hk (pgprocno d)) as Hxid.
  destruct (allProcs w' !! pgprocno d) as [p'|],
           (allProcs w !! pgprocno d) as [p|]; simplify_eq/=; [|done].
  destruct (allPgXact w' !! pgprocno d) as [x'|],
           (allPgXact w !! pgprocno d) as [x|]; simplify_eq/=; [|done].
  by rewrite Hdb, Hxid.
Qed.

Lemma kept_registry_view w w' : kept w w' → registry_view w' = registry_view w.
Proof.
  intros Hk. unfold registry_view. rewrite (k_state _ _ Hk).
  apply omap_agree. intros g _. by apply kept_entry_view.
Qed.

Lemma fmap_lookup_insert_same {A B} (f : A → B) (l : list A) i x x' :
  l !! i = Some x → f x' = f x →
  ∀ n, f <$> <[i := x']> l !! n = f <$> l !! n.
Proof.
  intros Hi Hf n. destruct (decide (n = i)) as [->|Hne].
  - rewrite list_lookup_insert_eq by (by eapply lookup_lt_Some).
    rewrite Hi. simpl. by f_equal.
  - by rewrite list_lookup_insert_ne.
Qed.

Lemma entry_view_Some w g v :
  entry_view w g = Some v →
  ∃ d p x, gxacts (TwoPhaseState w) !! g = Some d
           ∧ allProcs w !! pgprocno d = Some p
           ∧ allPgXact w !! pgprocno d = Some x
           ∧ v = {| px_xid := pgxact_xid x; px_gid := gid d;
                    px_prepared_at := prepared_at d; px_owner := owner d;
                    px_database := proc_databaseId p; px_valid := valid d |}.
Proof.
  unfold entry_view. intros H.
  destruct (gxacts (TwoPhaseState w) !! g) as [d|]; [|done]. cbn in H.
  destruct (allProcs w !! pgprocno d) as [p|] eqn:Hp; [|done]. cbn in H.
  destruct (allPgXact w !! pgprocno d) as [x|] eqn:Hx; [|done]. cbn in H.
  exists d, p, x. by injection H as <-.
Qed.

(** [GXactLoadSubxactData] touches the subtransaction cache of the
    dummy process only. *)
Lemma GXactLoadSubxactData_run g n children w :
  is_Some (entry_view w g) →
  ∃ w', GXactLoadSubxactData g n children w = (Done tt, w')
        ∧ kept w w' ∧ records w' = records w ∧ events w' = events w.
Proof.
  intros [v Hv]. apply entry_view_Some in Hv as (d & p & x & Hd & Hp & Hx & _).
  unfold GXactLoadSubxactData. rewrite (bind_gxact_load _ _ _ _ Hd). cbv zeta.
  destruct (PGPROC_MAX_CACHED_SUBXIDS <? n).
  - rewrite bind_when_true, bind_assoc, (bind_pgxact_load _ _ _ _ Hx).
    rewrite (bind_pgxact_store _ _ _ _ _ Hx).
    destruct (0 <? PGPROC_MAX_CACHED_SUBXIDS); unfold when.
    + rewrite (bind_proc_load _ p) by done.
      rewrite (bind_proc_store _ p) by done.
      erewrite bind_pgxact_load; cycle 1.
      { cbn [allPgXact set_allPgXact set_allProcs].
        apply list_lookup_insert_eq. by eapply lookup_lt_Some. }
      unfold pgxact_store. erewrite bind_pgxact_load; cycle 1.
      { cbn [allPgXact set_allPgXact set_allProcs].
        apply list_lookup_insert_eq. by eapply lookup_lt_Some. }
      unfold modify. eexists. split; [reflexivity|].
      split; [|done]. split; try done.
      * intros m. cbn [allProcs set_allPgXact set_allProcs].
        by apply (fmap_lookup_insert_same _ _ _ p).
      * intros m. cbn [allPgXact set_allPgXact set_allProcs].
        rewrite list_insert_insert_eq.
        by apply (fmap_lookup_insert_same _ _ _ x).
    + unfold ret. eexists. split; [reflexivity|].
      split; [|done]. split; try done.
      intros m. cbn [allPgXact set_allPgXact set_allProcs].
      by apply (fmap_lookup_insert_same _ _ _ x).
  - rewrite bind_when_false.
    destruct (0 <? n); unfold when.
    + rewrite (bind_proc_load _ p) by done.
      rewrite (bind_proc_store _ p) by done.
      rewrite (bind_pgxact_load _ x) by done.
      unfold pgxact_store. rewrite (bind_pgxact_load _ x) by done.
      unfold modify. eexists. split; [reflexivity|].
      split; [|done]. split; try done.
      * intros m. cbn [allProcs set_allPgXact set_allProcs].
        by apply (fmap_lookup_insert_same _ _ _ p).
      * intros m. cbn [allPgXact set_allPgXact set_allProcs].
        by apply (fmap_lookup_insert_same _ _ _ x).
    + unfold ret. eexists. split; [reflexivity|]. split; [apply kept_refl|done].
Qed.

(** ** Building the state file *)

Lemma set_records_same w : set_records (records w) w = w.
Proof. by destruct w. Qed.

Lemma fits_step secs sec todo s :
  fits (secs ++ sec :: todo) → laid_out secs s →
  Z.of_nat (length sec) ≤ MaxAllocSize
  ∧ Z.of_nat (length s) + MAXALIGN (Z.of_nat (length sec)) ≤ MaxAllocSize.
Proof.
  intros [Hsmall Hsize] Hlaid.
  apply Forall_app in Hsmall as [Hsecs Hrest].
  apply Forall_cons in Hrest as [Hsec Htodo].
  rewrite (laid_out_length secs s Hsecs Hlaid).
  rewrite aligned_size_app in Hsize. cbn [aligned_size foldr] in Hsize.
  fold (aligned_size todo) in Hsize.
  pose proof (aligned_size_nonneg todo Htodo).
  change sizeof_pg_crc32 with 4 in Hsize. lia.
Qed.

Lemma building_save w0 secs sec todo w :
  building w0 secs w → fits (secs ++ sec :: todo) →
  ∃ w', save_state_data sec (Z.of_nat (length sec)) w = (Done tt, w')
        ∧ building w0 (secs ++ [sec]) w'.
Proof.
  intros [Hk Hev Hok Hlaid Hhead] Hfits.
  destruct (fits_step _ _ _ _ Hfits Hlaid) as [Hsec Hsize].
  destruct (save_state_data_run sec (Z.of_nat (length sec)) w)
    as (xl & pad & ext & Hrun & Hok' & Hpad & Hstream & Hhd); try done.
  - lia.
  - by rewrite Nat2Z.id.
  - by rewrite (ck_total _ Hok).
  - exists (set_records xl w). split; [done|]. split.
    + eapply kept_trans; [done|apply kept_set_records].
    + done.
    + done.
    + cbn [records set_records]. rewrite Hstream. by apply laid_out_snoc.
    + cbn [records set_records]. rewrite Hhd, length_app. lia.
Qed.

Lemma building_skip w0 secs w :
  building w0 secs w → building w0 (secs ++ [[]]) w.
Proof. intros []. split; try done. by apply laid_out_skip. Qed.

Lemma building_kept w0 secs w w' :
  building w0 secs w → kept w w' → records w' = records w →
  events w' = events w → building w0 secs w'.
Proof.
  intros [] Hk Hr He. split; rewrite ?Hr; try done.
  - by eapply kept_trans.
  - congruence.
Qed.

Lemma building_save_when w0 secs sec todo n len w :
  building w0 secs w → fits (secs ++ sec :: todo) →
  (0 < n → len = Z.of_nat (length sec)) → (n ≤ 0 → sec = []) →
  ∃ w', when (0 <? n) (save_state_data sec len) w = (Done tt, w')
        ∧ building w0 (secs ++ [sec]) w'.
Proof.
  intros Hb Hfits Hpos Hzero. destruct (Z.ltb_spec 0 n) as [Hn|Hn].
  - rewrite (Hpos Hn). by eapply building_save.
  - rewrite (Hzero Hn). exists w. split; [done|]. by apply building_skip.
Qed.

(** The header goes into the chunk that [StartPrepare] allocates. *)
Lemma building_first w0 hdr :
  ∃ w',
    save_state_data (hdr_image hdr) sizeof_TwoPhaseFileHeader
      (set_records
         {| xl_chain := [ {| rd_data := palloc (Z.max sizeof_TwoPhaseFileHeader 512);
                             rd_len := 0 |} ];
            bytes_free := Z.max sizeof_TwoPhaseFileHeader 512;
            total_len := 0 |} w0)
    = (Done tt, w')
    ∧ building w0 [hdr_image hdr] w'.
Proof.
  unfold save_state_data. rewrite bind_get.
  cbn [records set_records bytes_free xl_chain total_len].
  change (wrap32 (MAXALIGN sizeof_TwoPhaseFileHeader)) with 248.
  change (Z.max sizeof_TwoPhaseFileHeader 512) with 512.
  change (512 <? 248) with false. rewrite bind_when_false, bind_get.
  cbn [records set_records bytes_free xl_chain total_len unsnoc].
  unfold modify. eexists. split; [reflexivity|].
  destruct (fill_tail [] {| rd_data := palloc 512; rd_len := 0 |} 512 0
              (hdr_image hdr) sizeof_TwoPhaseFileHeader)
    as (Hok & pad & Hpad & Hstream & _); try done.
  - by rewrite length_hdr_image.
  - assert (pad = []) as ->.
    { apply nil_length_inv.
      change (MAXALIGN sizeof_TwoPhaseFileHeader) with 248 in Hpad.
      change sizeof_TwoPhaseFileHeader with 248 in Hpad. lia. }
    assert (concat (chain_blocks ([] ++ [ {| rd_data := palloc 512; rd_len := 0 |} ]))
            ++ hdr_image hdr ++ [] = hdr_image hdr) as Hs.
    { cbn [app chain_blocks map concat rd_len rd_data Z.to_nat take].
      apply app_nil_r. }
    rewrite Hs in Hstream.
    split.
    + apply (kept_set_records _ w0).
    + done.
    + exact Hok.
    + refine (eq_ind_r (laid_out [hdr_image hdr]) _ Hstream).
      assert (padded (hdr_image hdr) []) as Hp
        by (unfold padded; rewrite length_hdr_image; reflexivity).
      pose proof (laid_out_snoc [] [] (hdr_image hdr) [] laid_out_nil Hp) as HL.
      cbn [app] in HL. by rewrite app_nil_r in HL.
    + assert (∀ xl, length (xl_chain xl) = 1%nat → head_block xl = chain_stream xl)
        as Hone.
      { intros [[|c [|? ?]] ? ?]; try done. intros _.
        unfold head_block, chain_stream. simpl. by rewrite app_nil_r. }
      cbn [records set_records]. rewrite Hone by done.
      refine (eq_ind_r (fun s => (8 ≤ length s)%nat) _ Hstream).
      rewrite length_hdr_image.
      change (Z.to_nat sizeof_TwoPhaseFileHeader) with 248%nat. lia.
Qed.

Lemma length_concat_uniform {A} (l : list (list A)) k :
  Forall (fun r => length r = k) l → length (concat l) = (length l * k)%nat.
Proof.
  induction 1 as [|r l Hr _ IH]; [done|].
  simpl. rewrite length_app, IH, Hr. lia.
Qed.

Lemma array_length n size (l : list (list byte)) :
  0 ≤ size →
  Forall (fun r => length r = Z.to_nat size) l →
  Z.of_nat (length (concat l)) ≤ MaxAllocSize →
  n = Z.of_nat (length l) →
  wrap32 (n * size) = Z.of_nat (length (concat l)).
Proof.
  intros Hsize Hl Hmax ->. rewrite (length_concat_uniform l _ Hl) in *.
  assert (MaxAllocSize = 1073741823) as HM by reflexivity.
  rewrite wrap32_small; lia.
Qed.

(** [StartPrepare] lays out the header and the four arrays. *)
Lemma StartPrepare_run g v children commitrels abortrels invalmsgs ifi todo w :
  entry_view w g = Some v →
  0 ≤ sizeof_RelFileNodePendingDelete →
  0 ≤ sizeof_SharedInvalidationMessage →
  Forall (fun r => length r = Z.to_nat sizeof_RelFileNodePendingDelete) commitrels →
  Forall (fun r => length r = Z.to_nat sizeof_RelFileNodePendingDelete) abortrels →
  Forall (fun r => length r = Z.to_nat sizeof_SharedInvalidationMessage) invalmsgs →
  let hdr := prepare_header v (Z.of_nat (length children))
               (Z.of_nat (length commitrels)) (Z.of_nat (length abortrels))
               (Z.of_nat (length invalmsgs)) ifi 0 in
  let secs := [hdr_image hdr; xids_image children; concat commitrels;
               concat abortrels; concat invalmsgs] in
  fits (secs ++ todo) →
  ∃ w', StartPrepare g children commitrels abortrels invalmsgs ifi w = (Done tt, w')
        ∧ building w secs w'.
Proof.
  intros Hv Hrel Hmsg Hc Ha Hi hdr secs Hfits.
  assert (Forall (fun sec => Z.of_nat (length sec) ≤ MaxAllocSize) secs) as Hsmall.
  { destruct Hfits as [Hs _]. by apply Forall_app in Hs as [Hs _]. }
  apply entry_view_Some in Hv as Hparts. destruct Hparts as (d & p & x & Hd & Hp & Hx & Hveq).
  unfold StartPrepare.
  rewrite (bind_gxact_load _ _ _ _ Hd), (bind_proc_load _ _ _ _ Hp).
  rewrite (bind_pgxact_load _ _ _ _ Hx), bind_modify. cbv zeta.
  cbn [hdr_nsubxacts hdr_ncommitrels hdr_nabortrels hdr_ninvalmsgs].
  change {| hdr_magic := TWOPHASE_MAGIC; hdr_total_len := 0;
            hdr_xid := pgxact_xid x; hdr_database := proc_databaseId p;
            hdr_prepared_at := prepared_at d; hdr_owner := owner d;
            hdr_nsubxacts := Z.of_nat (length children);
            hdr_ncommitrels := Z.of_nat (length commitrels);
            hdr_nabortrels := Z.of_nat (length abortrels);
            hdr_ninvalmsgs := Z.of_nat (length invalmsgs);
            hdr_initfileinval := ifi;
            hdr_gid := StrNCpy (String.list_byte_of_string (gid d))
                         (Z.to_nat GIDSIZE) |}
    with (prepare_header
            {| px_xid := pgxact_xid x; px_gid := gid d;
               px_prepared_at := prepared_at d; px_owner := owner d;
               px_database := proc_databaseId p; px_valid := valid d |}
            (Z.of_nat (length children)) (Z.of_nat (length commitrels))
            (Z.of_nat (length abortrels)) (Z.of_nat (length invalmsgs)) ifi 0).
  rewrite <- Hveq. fold hdr.
  destruct (building_first w hdr) as (w1 & Hrun1 & Hb1).
  rewrite (bind_done _ _ _ _ _ Hrun1).
  assert (∃ w2,
            when (0 <? Z.of_nat (length children))
              (save_state_data (xids_image children)
                 (wrap32 (Z.of_nat (length children) * sizeof_TransactionId)) ;;;
               GXactLoadSubxactData g (Z.of_nat (length children)) children) w1
            = (Done tt, w2)
            ∧ building w [hdr_image hdr; xids_image children] w2)
    as (w2 & Hrun2 & Hb2).
  { destruct (Z.ltb_spec 0 (Z.of_nat (length children))) as [Hn|Hn].
    - unfold when.
      assert (wrap32 (Z.of_nat (length children) * sizeof_TransactionId)
              = Z.of_nat (length (xids_image children))) as ->.
      { apply Forall_cons in Hsmall as [_ Hsmall].
        apply Forall_cons in Hsmall as [Hxs _].
        rewrite length_xids_image in *.
        assert (MaxAllocSize = 1073741823) as HM by reflexivity.
        change sizeof_TransactionId with 4. rewrite wrap32_small; lia. }
      destruct (building_save w [hdr_image hdr] (xids_image children)
                  ([concat commitrels; concat abortrels; concat invalmsgs] ++ todo)
                  w1 Hb1 Hfits) as (w2 & Hrun2 & Hb2).
      rewrite (bind_done _ _ _ _ _ Hrun2).
      destruct (GXactLoadSubxactData_run g (Z.of_nat (length children)) children w2)
        as (w3 & Hrun3 & Hk3 & Hr3 & He3).
      { rewrite (kept_entry_view w w2) by apply Hb2. by rewrite Hv. }
      exists w3. split; [done|]. by eapply building_kept.
    - assert (children = []) as -> by (apply nil_length_inv; lia).
      exists w1. split; [done|]. by apply (building_skip w [hdr_image hdr]). }
  rewrite (bind_done _ _ _ _ _ Hrun2).
  apply Forall_cons in Hsmall as [_ Hsmall].
  apply Forall_cons in Hsmall as [_ Hsmall].
  apply Forall_cons in Hsmall as [Hcs Hsmall].
  apply Forall_cons in Hsmall as [Has Hsmall].
  apply Forall_cons in Hsmall as [His _].
  destruct (building_save_when w [hdr_image hdr; xids_image children]
              (concat commitrels) ([concat abortrels; concat invalmsgs] ++ todo)
              (Z.of_nat (length commitrels))
              (wrap32 (Z.of_nat (length commitrels) * sizeof_RelFileNodePendingDelete))
              w2 Hb2 Hfits) as (w3 & Hrun3 & Hb3).
  { intros _. by apply array_length. }
  { intros Hn. assert (commitrels = []) as -> by (apply nil_length_inv; lia). done. }
  rewrite (bind_done _ _ _ _ _ Hrun3).
  destruct (building_save_when w
              [hdr_image hdr; xids_image children; concat commitrels]
              (concat abortrels) ([concat invalmsgs] ++ todo)
              (Z.of_nat (length abortrels))
              (wrap32 (Z.of_nat (length abortrels) * sizeof_RelFileNodePendingDelete))
              w3 Hb3 Hfits) as (w4 & Hrun4 & Hb4).
  { intros _. by apply array_length. }
  { intros Hn. assert (abortrels = []) as -> by (apply nil_length_inv; lia). done. }
  rewrite (bind_done _ _ _ _ _ Hrun4).
  destruct (building_save_when w
              [hdr_image hdr; xids_image children; concat commitrels; concat abortrels]
              (concat invalmsgs) todo
              (Z.of_nat (length invalmsgs))
              (wrap32 (Z.of_nat (length invalmsgs) * sizeof_SharedInvalidationMessage))
              w4 Hb4 Hfits) as (w5 & Hrun5 & Hb5).
  { intros _. by apply array_length. }
  { intros Hn. assert (invalmsgs = []) as -> by (apply nil_length_inv; lia). done. }
  exists w5. split; [exact Hrun5|exact Hb5].
Qed.

Lemma length_record_image len rmid info :
  length (record_image len rmid info) = Z.to_nat sizeof_TwoPhaseRecordOnDisk.
Proof. unfold record_image. by rewrite !length_app, !length_le_encode. Qed.

Lemma RegisterTwoPhaseRecord_run w0 secs r todo w :
  building w0 secs w → fits (secs ++ part_sections r ++ todo) →
  ∃ w', RegisterTwoPhaseRecord (tp_rmid r) (tp_info r) (tp_data r)
          (Z.of_nat (length (tp_data r))) w = (Done tt, w')
        ∧ building w0 (secs ++ part_sections r) w'.
Proof.
  intros Hb Hfits. unfold RegisterTwoPhaseRecord, part_sections in *.
  set (ri := record_image (Z.of_nat (length (tp_data r))) (tp_rmid r) (tp_info r)) in *.
  assert (sizeof_TwoPhaseRecordOnDisk = Z.of_nat (length ri)) as ->
    by (unfold ri; by rewrite length_record_image).
  destruct (building_save w0 secs ri (tp_data r :: todo) w Hb Hfits)
    as (w1 & Hrun1 & Hb1).
  rewrite (bind_done _ _ _ _ _ Hrun1).
  replace (secs ++ [ri; tp_data r]) with ((secs ++ [ri]) ++ [tp_data r])
    by (by rewrite <- app_assoc).
  apply (building_save_when w0 (secs ++ [ri]) (tp_data r) todo); try done.
  - by rewrite <- app_assoc.
  - intros Hn. apply nil_length_inv. lia.
Qed.

Lemma register_all_run w0 parts : ∀ secs todo w,
  building w0 secs w → fits (secs ++ concat (part_sections <$> parts) ++ todo) →
  ∃ w', register_all parts w = (Done tt, w')
        ∧ building w0 (secs ++ concat (part_sections <$> parts)) w'.
Proof.
  induction parts as [|r parts IH]; intros secs todo w Hb Hfits.
  - exists w. split; [done|]. simpl. by rewrite app_nil_r.
  - cbn [fmap list_fmap concat] in *. rewrite <- app_assoc in Hfits.
    destruct (RegisterTwoPhaseRecord_run w0 secs r _ w Hb Hfits)
      as (w1 & Hrun1 & Hb1).
    unfold register_all. cbn [for_each].
    rewrite (bind_done _ _ _ _ _ Hrun1).
    rewrite app_assoc in Hfits.
    destruct (IH _ todo w1 Hb1 Hfits) as (w2 & Hrun2 & Hb2).
    exists w2. split; [exact Hrun2|]. by rewrite app_assoc.
Qed.

(** ** Filling in [total_len] *)

Lemma memcpy_at_app a b off src :
  (off + length src ≤ length a)%nat →
  memcpy_at (a ++ b) off src = memcpy_at a off src ++ b.
Proof.
  intros H. unfold memcpy_at.
  rewrite take_app_le by lia. rewrite drop_app_le by lia.
  by rewrite <- !app_assoc.
Qed.

Lemma take_memcpy_at dst n off src :
  (off + length src ≤ n)%nat → (off + length src ≤ length dst)%nat →
  take n (memcpy_at dst off src) = memcpy_at (take n dst) off src.
Proof.
  intros H1 H2. destruct (Nat.le_gt_cases n (length dst)) as [Hn|Hn].
  - unfold memcpy_at.
    rewrite take_take, Nat.min_l by lia.
    assert (length (take off dst) = off) as Hoff by (rewrite length_take; lia).
    replace n with (length (take off dst) + (length src + (n - off - length src)))%nat
      at 1 by lia.
    rewrite take_app_add, take_app_add. f_equal. f_equal.
    rewrite take_drop_commute. f_equal. f_equal. lia.
  - rewrite (take_ge dst) by lia. apply take_ge.
    unfold memcpy_at. rewrite !length_app, length_take, length_drop. lia.
Qed.

Lemma backfill_hdr_image hdr rest total :
  memcpy_at (hdr_image hdr ++ rest) 4 (le_encode 4 total)
  = hdr_image (set_hdr_total_len total hdr) ++ rest.
Proof.
  unfold hdr_image, memcpy_at.
  cbn [hdr_magic hdr_total_len hdr_xid hdr_database hdr_prepared_at hdr_owner
       hdr_nsubxacts hdr_ncommitrels hdr_nabortrels hdr_ninvalmsgs
       hdr_initfileinval hdr_gid set_hdr_total_len].
  set (G := take 200 _).
  cbn [le_encode app length Nat.add].
  cbn [take drop app]. reflexivity.
Qed.

Lemma laid_out_cons_intro sec pad secs rest :
  padded sec pad → laid_out secs rest → laid_out (sec :: secs) (sec ++ pad ++ rest).
Proof.
  intros Hpad (pads & Hpads & ->). exists (pad :: pads).
  split; [by constructor|]. simpl. by rewrite <- app_assoc.
Qed.

Lemma chain_stream_head xl h rest :
  xl_chain xl = h :: rest →
  chain_stream xl = head_block xl ++ concat (chain_blocks rest).
Proof. intros H. unfold chain_stream, head_block. by rewrite H. Qed.

(** The stream once the header of the first chunk has its [total_len]. *)
Lemma backfill_stream hdr secs total h rest bf tl :
  laid_out (hdr_image hdr :: secs)
    (chain_stream {| xl_chain := h :: rest; bytes_free := bf; total_len := tl |}) →
  (8 ≤ length (head_block
                 {| xl_chain := h :: rest; bytes_free := bf; total_len := tl |}))%nat →
  laid_out (hdr_image (set_hdr_total_len total hdr) :: secs)
    (concat (chain_blocks
       ({| rd_data := memcpy_at (rd_data h) 4 (le_encode 4 total);
           rd_len := rd_len h |} :: rest))).
Proof.
  intros Hlaid Hhead.
  change (chain_stream {| xl_chain := h :: rest; bytes_free := bf; total_len := tl |})
    with (take (Z.to_nat (rd_len h)) (rd_data h) ++ concat (chain_blocks rest))
    in Hlaid.
  change (head_block {| xl_chain := h :: rest; bytes_free := bf; total_len := tl |})
    with (take (Z.to_nat (rd_len h)) (rd_data h)) in Hhead.
  change (concat (chain_blocks
            ({| rd_data := memcpy_at (rd_data h) 4 (le_encode 4 total);
                rd_len := rd_len h |} :: rest)))
    with (take (Z.to_nat (rd_len h)) (memcpy_at (rd_data h) 4 (le_encode 4 total))
          ++ concat (chain_blocks rest)).
  rewrite length_take in Hhead.
  rewrite take_memcpy_at by (rewrite ?length_le_encode; lia).
  rewrite <- memcpy_at_app
    by (rewrite ?length_le_encode, ?length_take; lia).
  apply laid_out_cons in Hlaid as (pad & rs & Heq & Hpad & Hrs).
  rewrite Heq, backfill_hdr_image. apply laid_out_cons_intro; [|done].
  unfold padded in *. by rewrite length_hdr_image in *.
Qed.

Lemma MarkAsPrepared_run g d w :
  gxacts (TwoPhaseState w) !! g = Some d →
  ∃ w', MarkAsPrepared g w = (Done tt, w')
        ∧ TwoPhaseState w'
          = set_gxacts (<[g := set_valid true d]> (gxacts (TwoPhaseState w)))
              (TwoPhaseState w)
        ∧ allProcs w' = allProcs w ∧ allPgXact w' = allPgXact w
        ∧ xlog w' = xlog w ∧ map_ht w' = map_ht w ∧ records w' = records w
        ∧ nextXid w' = nextXid w ∧ clog w' = clog w
        ∧ MyLockedGxact w' = MyLockedGxact w
        ∧ twophaseExitRegistered w' = twophaseExitRegistered w.
Proof.
  intros Hd. unfold MarkAsPrepared.
  rewrite (bind_gxact_store _ _ _ _ _ Hd), bind_log.
  erewrite bind_gxact_load; cycle 1.
  { cbn [TwoPhaseState set_TwoPhaseState set_events gxacts set_gxacts].
    apply list_lookup_insert_eq. by eapply lookup_lt_Some. }
  rewrite bind_log, bind_modify. unfold log, modify.
  eexists. split; [reflexivity|]. done.
Qed.

Lemma EndPrepare_finish g d xid lsn xl w :
  gxacts (TwoPhaseState w) !! g = Some d →
  ∃ w',
    (gxact_store g (set_prepare_lsn lsn) ;;;
     begin_lsn <- XLogLastInsertBeginLoc ;;
     gxact_store g (set_prepare_begin_lsn begin_lsn) ;;;
     add_recover_post_checkpoint_prepared_transactions_map_entry xid begin_lsn ;;;
     XLogFlush lsn ;;;
     MarkAsPrepared g ;;;
     modify (set_MyLockedGxact (Some g)) ;;;
     log (EvSyncRepWaitForLSN lsn) ;;;
     modify (set_records xl)) w = (Done tt, w')
    ∧ xlog_records (xlog w') = xlog_records (xlog w)
    ∧ TwoPhaseState w'
      = set_gxacts
          (<[g := set_valid true
                    (set_prepare_begin_lsn (xlog_last_begin (xlog w))
                       (set_prepare_lsn lsn d))]> (gxacts (TwoPhaseState w)))
          (TwoPhaseState w)
    ∧ allProcs w' = allProcs w ∧ allPgXact w' = allPgXact w
    ∧ map_ht w'
      = Some (hash_enter xid (xlog_last_begin (xlog w)) (default [] (map_ht w))).
Proof.
  intros Hd.
  rewrite (bind_gxact_store _ _ _ _ _ Hd).
  rewrite (bind_done XLogLastInsertBeginLoc _ _ _ _ eq_refl).
  cbn [xlog set_TwoPhaseState].
  erewrite bind_gxact_store; cycle 1.
  { cbn [TwoPhaseState set_TwoPhaseState gxacts set_gxacts].
    apply list_lookup_insert_eq. by eapply lookup_lt_Some. }
  unfold add_recover_post_checkpoint_prepared_transactions_map_entry.
  rewrite bind_modify. unfold XLogFlush. rewrite bind_assoc, bind_modify, bind_log.
  cbn [TwoPhaseState set_TwoPhaseState gxacts set_gxacts set_map_ht set_xlog
       set_events map_ht xlog].
  rewrite list_insert_insert_eq.
  match goal with
  | |- context [bind (MarkAsPrepared g) _ ?wa] =>
      destruct (MarkAsPrepared_run g
                  (set_prepare_begin_lsn (xlog_last_begin (xlog w))
                     (set_prepare_lsn lsn d)) wa)
        as (w1 & Hrun & Hst & Hprocs & Hpg & Hxlog & Hmap & _)
  end.
  { cbn [TwoPhaseState set_TwoPhaseState gxacts set_gxacts set_map_ht set_xlog
         set_events].
    apply list_lookup_insert_eq. by eapply lookup_lt_Some. }
  rewrite (bind_done _ _ _ _ _ Hrun), bind_modify, bind_log. unfold modify.
  eexists. split; [reflexivity|].
  cbn [xlog TwoPhaseState allProcs allPgXact map_ht set_records set_events
       set_MyLockedGxact].
  rewrite Hxlog, Hst, Hprocs, Hpg, Hmap.
  cbn [TwoPhaseState set_TwoPhaseState gxacts set_gxacts set_map_ht set_xlog
       set_events xlog xlog_records allProcs allPgXact map_ht].
  rewrite list_insert_insert_eq. done.
Qed.

Lemma EndPrepare_run g v hdr rest w0 w :
  building w0 (hdr_image hdr :: rest) w →
  entry_view w0 g = Some v →
  let secs := hdr_image hdr :: rest ++ [record_image 0 TWOPHASE_RM_END_ID 0] in
  fits secs →
  let total := aligned_size secs + sizeof_pg_crc32 in
  let begin_lsn := xlog_insert_pos (xlog w0) in
  ∃ w' blocks,
    EndPrepare g w = (Done tt, w')
    ∧ xlog_records (xlog w') !! begin_lsn
      = Some (mkXLogRecord XLOG_XACT_PREPARE blocks)
    ∧ laid_out (hdr_image (set_hdr_total_len total hdr)
                :: rest ++ [record_image 0 TWOPHASE_RM_END_ID 0]) (concat blocks)
    ∧ entry_view w' g
      = Some (mkPreparedXact (px_xid v) (px_gid v) (px_prepared_at v)
                (px_owner v) (px_database v) true)
    ∧ prepare_begin_lsn <$> gxacts (TwoPhaseState w') !! g = Some begin_lsn
    ∧ map_ht w'
      = Some (hash_enter (px_xid v) begin_lsn (default [] (map_ht w0))).
Proof.
  intros Hb Hv secs Hfits total begin_lsn.
  assert (entry_view w g = Some v) as Hvw
    by (rewrite (kept_entry_view w0 w) by apply Hb; done).
  apply entry_view_Some in Hvw as (d & p & x & Hd & Hp & Hx & Hveq).
  unfold EndPrepare.
  rewrite (bind_gxact_load _ _ _ _ Hd), (bind_pgxact_load _ _ _ _ Hx). cbv zeta.
  unfold RegisterTwoPhaseRecord. rewrite bind_assoc.
  change (0 <? 0) with false. 
  assert (sizeof_TwoPhaseRecordOnDisk
          = Z.of_nat (length (record_image 0 TWOPHASE_RM_END_ID 0))) as Hlen
    by (by rewrite length_record_image).
  rewrite Hlen.
  destruct (building_save w0 (hdr_image hdr :: rest)
              (record_image 0 TWOPHASE_RM_END_ID 0) [] w Hb Hfits)
    as (w1 & Hrun1 & Hb1).
  rewrite (bind_done _ _ _ _ _ Hrun1), bind_when_false, bind_get.
  assert (total_len (records w1) = aligned_size secs) as Htl.
  { rewrite (ck_total _ (b_chain _ _ _ Hb1)).
    apply laid_out_length; [apply Hfits|]. apply (b_laid _ _ _ Hb1). }
  assert (MaxAllocSize = 1073741823) as HM by reflexivity.
  assert (0 ≤ aligned_size secs) as Hnn by (apply aligned_size_nonneg, Hfits).
  assert (wrap32 (total_len (records w1) + sizeof_pg_crc32) = total) as Htotal.
  { rewrite Htl. unfold total. apply wrap32_small.
    destruct Hfits as [_ Hsz]. change sizeof_pg_crc32 with 4 in *. lia. }
  rewrite Htotal.
  destruct (xl_chain (records w1)) as [|h rc] eqn:Hc.
  { destruct (ck_tail _ (b_chain _ _ _ Hb1)) as (bf & tl & Hch & _).
    rewrite Hc in Hch. by destruct bf. }
  rewrite bind_modify.
  assert ((MaxAllocSize <? total) = false) as ->.
  { apply Z.ltb_ge. unfold total. apply Hfits. }
  rewrite bind_when_false, bind_get.
  cbn [records set_records xl_chain bytes_free total_len].
  unfold XLogInsert. rewrite !bind_assoc, bind_get, bind_assoc, bind_modify.
  rewrite bind_assoc, bind_log, bind_ret.
  cbn [xlog set_xlog set_events set_records xlog_insert_pos].
  set (blocks := chain_blocks
         ({| rd_data := memcpy_at (rd_data h) 4 (le_encode 4 total);
             rd_len := rd_len h |} :: rc)).
  set (lsn := xlog_insert_pos (xlog w1) + SizeOfXLogRecord
              + Z.of_nat (length (concat blocks))).
  assert (entry_view w1 g = Some v) as Hv1
    by (rewrite (kept_entry_view w0 w1) by apply Hb1; done).
  apply entry_view_Some in Hv1 as (d1 & p1 & x1 & Hd1 & Hp1 & Hx1 & Hveq1).
  assert (xlog w1 = xlog w0) as Hxl by apply Hb1.
  assert (map_ht w1 = map_ht w0) as Hmp by apply Hb1.
  assert (pgxact_xid x = px_xid v) as Hxid by (by rewrite Hveq).
  match goal with
  | |- context [bind (gxact_store g _) _ ?wa] =>
      destruct (EndPrepare_finish g d1 (pgxact_xid x) lsn
                  {| xl_chain := []; bytes_free := bytes_free (records w1);
                     total_len := total_len (records w1) |} wa)
        as (w' & Hrun & Hrecs & Hst & Hprocs & Hpg & Hmap)
  end.
  { exact Hd1. }
  cbn [xlog set_xlog set_events set_records xlog_records xlog_last_begin
       TwoPhaseState allProcs allPgXact map_ht] in Hrecs, Hst, Hprocs, Hpg, Hmap.
  exists w', blocks. split; [exact Hrun|].
  fold begin_lsn in Hst, Hmap. rewrite Hxl in *. fold begin_lsn in Hrecs, Hst, Hmap.
  split; [|split; [|split; [|split]]].
  - rewrite Hrecs. apply lookup_insert_eq.
  - apply backfill_stream with (bf := bytes_free (records w1))
                               (tl := total_len (records w1)).
    + pose proof (b_laid _ _ _ Hb1) as Hl. unfold chain_stream in *.
      rewrite Hc in Hl. exact Hl.
    + pose proof (b_head _ _ _ Hb1) as Hh. unfold head_block in *.
      rewrite Hc in Hh. exact Hh.
  - unfold entry_view. rewrite Hst, Hprocs, Hpg.
    cbn [gxacts set_gxacts].
    rewrite list_lookup_insert_eq by (by eapply lookup_lt_Some).
    cbn [mbind option_bind pgprocno set_valid set_prepare_begin_lsn set_prepare_lsn].
    rewrite Hp1, Hx1. cbn [mbind option_bind]. rewrite Hveq1. reflexivity.
  - rewrite Hst. cbn [gxacts set_gxacts].
    rewrite list_lookup_insert_eq by (by eapply lookup_lt_Some). done.
  - rewrite Hmap, Hmp, Hxid. reflexivity.
Qed.

(** ** Reading the state file back *)

(** [FinishPreparedTransaction] works on the view [disassemble] gives. *)
Lemma FinishPreparedTransaction_locked_disassemble gid0 isCommit gxact :
  FinishPreparedTransaction_locked gid0 isCommit gxact =
  (d <- gxact_load gxact ;;
   pgxact <- pgxact_load (pgprocno d) ;;
   let xid := pgxact_xid pgxact in
   tfRecord <- XLogReadRecord (prepare_begin_lsn d) ;;
   match tfRecord with
   | None => ereport ERROR ERRCODE_DATA_CORRUPTED msg_xlog_record_invalid
   | Some rec =>
       let sv := disassemble (XLogRecGetData rec) in
       let hdr := sv_hdr sv in
       let latestXid :=
         TransactionIdLatest xid (read_xids (sv_children sv) (hdr_nsubxacts hdr)) in
       (if isCommit then
          RecordTransactionCommitPrepared xid gid0
            (hdr_nsubxacts hdr) (sv_children sv)
            (hdr_ncommitrels hdr) (sv_commitrels sv)
            (hdr_ninvalmsgs hdr) (sv_invalmsgs sv)
            (hdr_initfileinval hdr)
        else
          RecordTransactionAbortPrepared xid
            (hdr_nsubxacts hdr) (sv_children sv)
            (hdr_nabortrels hdr) (sv_abortrels sv)) ;;;
       ProcArrayRemove (pgprocno d) latestXid ;;;
       gxact_store gxact (set_valid false) ;;;
       log (EvSetValid gxact false) ;;;
       let delrels := if isCommit then sv_commitrels sv else sv_abortrels sv in
       let ndelrels :=
         if isCommit then hdr_ncommitrels hdr else hdr_nabortrels hdr in
       log (EvDropRelationFiles
              (array_bytes delrels (wrap64 (ndelrels * sizeof_RelFileNodePendingDelete)))
              ndelrels) ;;;
       when (hdr_initfileinval hdr) (log EvRelationCacheInitFilePreInvalidate) ;;;
       log (EvSendSharedInvalidMessages
              (array_bytes (sv_invalmsgs sv)
                 (wrap64 (hdr_ninvalmsgs hdr * sizeof_SharedInvalidationMessage)))
              (hdr_ninvalmsgs hdr)) ;;;
       when (hdr_initfileinval hdr) (log EvRelationCacheInitFilePostInvalidate) ;;;
       (if isCommit then
          ProcessRecords (sv_records sv) xid PostCommitPhase twophase_postcommit_callbacks
        else
          ProcessRecords (sv_records sv) xid PostAbortPhase twophase_postabort_callbacks) ;;;
       log (EvPredicateLockTwoPhaseFinish xid isCommit) ;;;
       log (EvAtEOXact_PgStat isCommit) ;;;
       remove_recover_post_checkpoint_prepared_transactions_map_entry xid ;;;
       RemoveGXact gxact ;;;
       modify (set_MyLockedGxact None) ;;;
       ret true
   end).
Proof. reflexivity. Qed.

Lemma read_record_image len rmid info rest :
  0 ≤ len < 2 ^ 32 → 0 ≤ rmid < 2 ^ 8 → 0 ≤ info < 2 ^ 16 →
  read_le (record_image len rmid info ++ rest) 0 4 = len
  ∧ read_le (record_image len rmid info ++ rest) 4 1 = rmid
  ∧ read_le (record_image len rmid info ++ rest) 6 2 = info.
Proof.
  intros Hlen Hrmid Hinfo. unfold record_image, read_le, bytes_at.
  cbn [le_encode app drop take].
  pose proof (le_decode_encode 4 len) as H4.
  pose proof (le_decode_encode 1 rmid) as H1.
  pose proof (le_decode_encode 2 info) as H2.
  cbn [le_encode] in H4, H1, H2. rewrite ?take_0, H4, H1, H2.
  change (256 ^ Z.of_nat 4) with (2 ^ 32). change (256 ^ Z.of_nat 1) with (2 ^ 8).
  change (256 ^ Z.of_nat 2) with (2 ^ 16).
  rewrite !Z.mod_small by lia. done.
Qed.

Lemma padded_aligned sec pad :
  padded sec pad → Z.of_nat (length sec) ≤ MaxAllocSize →
  Z.of_nat (length sec) mod 8 = 0 → pad = [].
Proof.
  unfold padded. intros Hp Hs Hm.
  assert (MaxAllocSize = 1073741823) as HM by reflexivity.
  rewrite MAXALIGN_aligned in Hp by lia. apply nil_length_inv. lia.
Qed.

Lemma callback_events_cons phase xid callbacks r parts :
  callback_events phase xid callbacks (r :: parts)
  = (if callbacks (tp_rmid r)
     then [EvTwoPhaseCallback phase (tp_rmid r) xid (tp_info r) (tp_data r)
             (Z.of_nat (length (tp_data r)))]
     else [])
    ++ callback_events phase xid callbacks parts.
Proof. unfold callback_events. simpl. by destruct (callbacks (tp_rmid r)). Qed.

Lemma ProcessRecords_loop_decode phase xid callbacks parts : ∀ fuel buf w,
  Forall part_typed parts →
  Forall (fun r => Z.of_nat (length (tp_data r)) ≤ MaxAllocSize) parts →
  laid_out (concat (part_sections <$> parts)
            ++ [record_image 0 TWOPHASE_RM_END_ID 0]) buf →
  (length parts < fuel)%nat →
  ProcessRecords_loop fuel buf xid phase callbacks w
  = (Done tt, set_events (events w ++ callback_events phase xid callbacks parts) w).
Proof.
  assert (MaxAllocSize = 1073741823) as HM by reflexivity.
  induction parts as [|r parts IH]; intros fuel buf w Hty Hsz Hlaid Hfuel.
  - destruct fuel as [|fuel]; [simpl in Hfuel; lia|].
    cbn [fmap list_fmap concat app] in Hlaid.
    apply laid_out_cons in Hlaid as (pad & rest & -> & _ & _).
    cbn [ProcessRecords_loop callback_events omap].
    destruct (read_record_image 0 TWOPHASE_RM_END_ID 0 (pad ++ rest))
      as (_ & -> & _); try done.
    change (TWOPHASE_RM_END_ID =? TWOPHASE_RM_END_ID) with true.
    unfold ret. rewrite app_nil_r. by destruct w.
  - destruct fuel as [|fuel]; [simpl in Hfuel; lia|].
    apply Forall_cons in Hty as [[Hrmid Hinfo] Hty].
    apply Forall_cons in Hsz as [Hlen Hsz].
    cbn [fmap list_fmap concat app part_sections] in Hlaid.
    apply laid_out_cons in Hlaid as (pad0 & rest0 & -> & Hpad0 & Hlaid).
    apply laid_out_cons in Hlaid as (pad1 & rest1 & -> & Hpad1 & Hlaid).
    assert (pad0 = []) as ->.
    { apply (padded_aligned _ _ Hpad0); rewrite length_record_image.
      - change (Z.of_nat (Z.to_nat sizeof_TwoPhaseRecordOnDisk)) with 8. lia.
      - reflexivity. }
    cbn [app]. cbn [ProcessRecords_loop].
    destruct (read_record_image (Z.of_nat (length (tp_data r))) (tp_rmid r)
                (tp_info r) (tp_data r ++ pad1 ++ rest1))
      as (-> & -> & ->); try lia.
    destruct (Z.eqb_spec (tp_rmid r) TWOPHASE_RM_END_ID) as [Heq|_].
    { unfold TWOPHASE_RM_END_ID in Heq. lia. }
    assert (ptr_add (record_image (Z.of_nat (length (tp_data r))) (tp_rmid r)
                       (tp_info r) ++ tp_data r ++ pad1 ++ rest1)
              (MAXALIGN sizeof_TwoPhaseRecordOnDisk)
            = tp_data r ++ pad1 ++ rest1) as ->.
    { apply (ptr_add_padded _ [] _ sizeof_TwoPhaseRecordOnDisk);
        rewrite ?length_record_image; done. }
    rewrite (ptr_add_padded _ _ _ _ Hpad1 eq_refl Hlen).
    rewrite array_bytes_here by done.
    rewrite callback_events_cons.
    destruct (callbacks (tp_rmid r)).
    + rewrite bind_when_true, bind_log.
      rewrite (IH fuel rest1) by (try done; simpl in Hfuel; lia).
      wsimpl. unfold set_events. cbn. by rewrite <- app_assoc.
    + rewrite bind_when_false. apply IH; try done. simpl in Hfuel. lia.
Qed.

Lemma array_length64 n size (l : list (list byte)) :
  0 ≤ size →
  Forall (fun r => length r = Z.to_nat size) l →
  Z.of_nat (length (concat l)) ≤ MaxAllocSize →
  n = Z.of_nat (length l) →
  wrap64 (n * size) = Z.of_nat (length (concat l)).
Proof.
  intros Hsize Hl Hmax ->. rewrite (length_concat_uniform l _ Hl) in *.
  assert (MaxAllocSize = 1073741823) as HM by reflexivity.
  rewrite wrap64_small; lia.
Qed.

Lemma laid_out_parts_length parts : ∀ buf,
  laid_out (concat (part_sections <$> parts)
            ++ [record_image 0 TWOPHASE_RM_END_ID 0]) buf →
  (length parts ≤ length buf)%nat.
Proof.
  induction parts as [|r parts IH]; intros buf Hlaid; [simpl; lia|].
  cbn [fmap list_fmap concat app part_sections] in Hlaid.
  apply laid_out_cons in Hlaid as (pad0 & rest0 & -> & _ & Hlaid).
  apply laid_out_cons in Hlaid as (pad1 & rest1 & -> & _ & Hlaid).
  apply IH in Hlaid. rewrite !length_app, length_record_image.
  change (Z.to_nat sizeof_TwoPhaseRecordOnDisk) with 8%nat. simpl. lia.
Qed.

(** The view [disassemble] gives of a stream that holds the sections
    of a state file. *)
Lemma disassemble_state_file hdr children commitrels abortrels invalmsgs parts buf :
  laid_out (state_sections hdr children commitrels abortrels invalmsgs parts) buf →
  hdr_typed hdr →
  Forall (fun x => 0 ≤ x < 2 ^ 32) children →
  0 ≤ sizeof_RelFileNodePendingDelete →
  0 ≤ sizeof_SharedInvalidationMessage →
  Forall (fun r => length r = Z.to_nat sizeof_RelFileNodePendingDelete) commitrels →
  Forall (fun r => length r = Z.to_nat sizeof_RelFileNodePendingDelete) abortrels →
  Forall (fun r => length r = Z.to_nat sizeof_SharedInvalidationMessage) invalmsgs →
  hdr_nsubxacts hdr = Z.of_nat (length children) →
  hdr_ncommitrels hdr = Z.of_nat (length commitrels) →
  hdr_nabortrels hdr = Z.of_nat (length abortrels) →
  hdr_ninvalmsgs hdr = Z.of_nat (length invalmsgs) →
  Forall (fun sec => Z.of_nat (length sec) ≤ MaxAllocSize)
    (state_sections hdr children commitrels abortrels invalmsgs parts) →
  let sv := disassemble buf in
  sv_hdr sv = hdr
  ∧ read_xids (sv_children sv) (hdr_nsubxacts hdr) = children
  ∧ array_bytes (sv_commitrels sv)
      (wrap64 (hdr_ncommitrels hdr * sizeof_RelFileNodePendingDelete))
    = concat commitrels
  ∧ array_bytes (sv_abortrels sv)
      (wrap64 (hdr_nabortrels hdr * sizeof_RelFileNodePendingDelete))
    = concat abortrels
  ∧ array_bytes (sv_invalmsgs sv)
      (wrap64 (hdr_ninvalmsgs hdr * sizeof_SharedInvalidationMessage))
    = concat invalmsgs
  ∧ laid_out (concat (part_sections <$> parts)
              ++ [record_image 0 TWOPHASE_RM_END_ID 0]) (sv_records sv).
Proof.
  intros Hlaid Hty Hxs Hrel Hmsg Hc Ha Hi Hns Hnc Hna Hni Hsmall.
  assert (MaxAllocSize = 1073741823) as HM by reflexivity.
  unfold state_sections in *. cbn [app] in Hlaid, Hsmall.
  apply Forall_cons in Hsmall as [Hs0 Hsmall].
  apply Forall_cons in Hsmall as [Hs1 Hsmall].
  apply Forall_cons in Hsmall as [Hs2 Hsmall].
  apply Forall_cons in Hsmall as [Hs3 Hsmall].
  apply Forall_cons in Hsmall as [Hs4 Hsmall].
  apply laid_out_cons in Hlaid as (p0 & r0 & -> & Hp0 & Hlaid).
  apply laid_out_cons in Hlaid as (p1 & r1 & -> & Hp1 & Hlaid).
  apply laid_out_cons in Hlaid as (p2 & r2 & -> & Hp2 & Hlaid).
  apply laid_out_cons in Hlaid as (p3 & r3 & -> & Hp3 & Hlaid).
  apply laid_out_cons in Hlaid as (p4 & r4 & -> & Hp4 & Hlaid).
  unfold disassemble. cbv zeta.
  cbn [sv_hdr sv_children sv_commitrels sv_abortrels sv_invalmsgs sv_records].
  rewrite !hdr_view_image by done.
  rewrite (ptr_add_padded _ _ _ _ Hp0)
    by (rewrite ?length_hdr_image; done).
  rewrite Hns, Hnc, Hna, Hni.
  assert (wrap64 (Z.of_nat (length children) * sizeof_TransactionId)
          = Z.of_nat (length (xids_image children))) as ->.
  { rewrite length_xids_image in *. change sizeof_TransactionId with 4.
    rewrite wrap64_small; lia. }
  rewrite (array_length64 _ _ commitrels) by done.
  rewrite (array_length64 _ _ abortrels) by done.
  rewrite (array_length64 _ _ invalmsgs) by done.
  rewrite (ptr_add_padded _ _ _ _ Hp1 eq_refl Hs1).
  rewrite (ptr_add_padded _ _ _ _ Hp2 eq_refl Hs2).
  rewrite (ptr_add_padded _ _ _ _ Hp3 eq_refl Hs3).
  rewrite (ptr_add_padded _ _ _ _ Hp4 eq_refl Hs4).
  split; [done|]. split; [by apply read_xids_image|].
  split; [by apply array_bytes_here|].
  split; [by apply array_bytes_here|].
  split; [by apply array_bytes_here|done].
Qed.

(** ** The builder and the reader together *)

Lemma build_state_file_run g v children commitrels abortrels invalmsgs ifi parts w :
  entry_view w g = Some v →
  0 ≤ sizeof_RelFileNodePendingDelete →
  0 ≤ sizeof_SharedInvalidationMessage →
  Forall (fun r => length r = Z.to_nat sizeof_RelFileNodePendingDelete) commitrels →
  Forall (fun r => length r = Z.to_nat sizeof_RelFileNodePendingDelete) abortrels →
  Forall (fun r => length r = Z.to_nat sizeof_SharedInvalidationMessage) invalmsgs →
  let header := prepare_header v (Z.of_nat (length children))
                  (Z.of_nat (length commitrels)) (Z.of_nat (length abortrels))
                  (Z.of_nat (length invalmsgs)) ifi in
  let sections hdr :=
    state_sections hdr children commitrels abortrels invalmsgs parts in
  fits (sections (header 0)) →
  let total := aligned_size (sections (header 0)) + sizeof_pg_crc32 in
  ∃ w' blocks,
    build_state_file g children commitrels abortrels invalmsgs ifi parts w
      = (Done tt, w')
    ∧ xlog_records (xlog w') !! xlog_insert_pos (xlog w)
      = Some (mkXLogRecord XLOG_XACT_PREPARE blocks)
    ∧ laid_out (sections (header total)) (concat blocks)
    ∧ entry_view w' g = Some (marked_valid v)
    ∧ prepare_begin_lsn <$> gxacts (TwoPhaseState w') !! g
      = Some (xlog_insert_pos (xlog w))
    ∧ map_ht w'
      = Some (hash_enter (px_xid v) (xlog_insert_pos (xlog w))
                (default [] (map_ht w))).
Proof.
  intros Hv Hrel Hmsg Hc Ha Hi header sections Hfits total.
  unfold build_state_file.
  destruct (StartPrepare_run g v children commitrels abortrels invalmsgs ifi
              (concat (part_sections <$> parts)
               ++ [record_image 0 TWOPHASE_RM_END_ID 0]) w)
    as (w1 & Hrun1 & Hb1); try done.
  rewrite (bind_done _ _ _ _ _ Hrun1).
  destruct (register_all_run w parts
              [hdr_image (header 0); xids_image children; concat commitrels;
               concat abortrels; concat invalmsgs]
              [record_image 0 TWOPHASE_RM_END_ID 0] w1 Hb1 Hfits)
    as (w2 & Hrun2 & Hb2).
  rewrite (bind_done _ _ _ _ _ Hrun2).
  destruct (EndPrepare_run g v (header 0)
              ([xids_image children; concat commitrels; concat abortrels;
                concat invalmsgs] ++ concat (part_sections <$> parts)) w w2)
    as (w' & blocks & Hrun & Hrec & Hlaid & Hview & Hlsn & Hmap); try done.
  exists w', blocks. split; [exact Hrun|]. split; [exact Hrec|].
  split; [exact Hlaid|]. done.
Qed.

Lemma length_StrNCpy src n : (0 < n)%nat → length (StrNCpy src n) = n.
Proof.
  intros Hn. unfold StrNCpy. rewrite length_app, length_replicate, length_take. lia.
Qed.

Lemma prepare_header_typed v children commitrels abortrels invalmsgs ifi parts total :
  view_typed v →
  0 < sizeof_RelFileNodePendingDelete →
  0 < sizeof_SharedInvalidationMessage →
  Forall (fun r => length r = Z.to_nat sizeof_RelFileNodePendingDelete) commitrels →
  Forall (fun r => length r = Z.to_nat sizeof_RelFileNodePendingDelete) abortrels →
  Forall (fun r => length r = Z.to_nat sizeof_SharedInvalidationMessage) invalmsgs →
  0 ≤ total ≤ MaxAllocSize →
  let hdr := prepare_header v (Z.of_nat (length children))
               (Z.of_nat (length commitrels)) (Z.of_nat (length abortrels))
               (Z.of_nat (length invalmsgs)) ifi total in
  Forall (fun sec => Z.of_nat (length sec) ≤ MaxAllocSize)
    (state_sections hdr children commitrels abortrels invalmsgs parts) →
  hdr_typed hdr.
Proof.
  intros (Hxid & Hdb & Hown & Hat) Hrel Hmsg Hc Ha Hi Htot hdr Hsmall.
  assert (MaxAllocSize = 1073741823) as HM by reflexivity.
  unfold state_sections in Hsmall. cbn [app] in Hsmall.
  apply Forall_cons in Hsmall as [_ Hsmall].
  apply Forall_cons in Hsmall as [Hs1 Hsmall].
  apply Forall_cons in Hsmall as [Hs2 Hsmall].
  apply Forall_cons in Hsmall as [Hs3 Hsmall].
  apply Forall_cons in Hsmall as [Hs4 _].
  rewrite length_xids_image in Hs1.
  rewrite (length_concat_uniform _ _ Hc) in Hs2.
  rewrite (length_concat_uniform _ _ Ha) in Hs3.
  rewrite (length_concat_uniform _ _ Hi) in Hs4.
  split; cbn [hdr prepare_header hdr_magic hdr_total_len hdr_xid hdr_database
              hdr_prepared_at hdr_owner hdr_nsubxacts hdr_ncommitrels
              hdr_nabortrels hdr_ninvalmsgs hdr_gid]; try done; try lia; try nia.
  change (Z.to_nat GIDSIZE) with 200%nat. apply length_StrNCpy. lia.
Qed.

Lemma parts_small parts :
  Forall (fun sec => Z.of_nat (length sec) ≤ MaxAllocSize)
    (concat (part_sections <$> parts)) →
  Forall (fun r => Z.of_nat (length (tp_data r)) ≤ MaxAllocSize) parts.
Proof.
  induction parts as [|r parts IH]; intros H; [constructor|].
  cbn [fmap list_fmap concat part_sections app] in H.
  apply Forall_cons in H as [_ H]. apply Forall_cons in H as [Hr H].
  constructor; [done|]. by apply IH.
Qed.

Lemma sections_small hdr hdr' children commitrels abortrels invalmsgs parts :
  Forall (fun sec => Z.of_nat (length sec) ≤ MaxAllocSize)
    (state_sections hdr children commitrels abortrels invalmsgs parts) →
  Forall (fun sec => Z.of_nat (length sec) ≤ MaxAllocSize)
    (state_sections hdr' children commitrels abortrels invalmsgs parts).
Proof.
  unfold state_sections. cbn [app]. intros H.
  apply Forall_cons in H as [H0 H]. constructor; [|done].
  by rewrite length_hdr_image in *.
Qed.

(** C5.  The builder ([StartPrepare], the 2PC records of the resource
    managers, [EndPrepare]) run for an entry whose fields and arrays
    hold values of their C types, with a state file that fits in
    [MaxAllocSize], writes a prepare record at the insert position of
    the log.  Its data hold, in this order, the header (with
    [total_len] filled in), the subtransaction ids, the commit-time
    and the abort-time delete lists, the invalidation messages, for
    every 2PC record its header and its data, and the end record, each
    followed by the padding up to the next MAXALIGN boundary.  The
    view that [FinishPreparedTransaction] takes of these data gives
    back the header field by field, the ids and the bytes of the three
    arrays, and [ProcessRecords] from the pointer behind them calls
    the callbacks with the recorded resource manager, info and data of
    every 2PC record, in order. *)
Theorem build_state_file_round_trip g v children commitrels abortrels invalmsgs
    ifi parts w :
  entry_view w g = Some v →
  view_typed v →
  Forall (fun x => 0 ≤ x < 2 ^ 32) children →
  0 < sizeof_RelFileNodePendingDelete →
  0 < sizeof_SharedInvalidationMessage →
  Forall (fun r => length r = Z.to_nat sizeof_RelFileNodePendingDelete) commitrels →
  Forall (fun r => length r = Z.to_nat sizeof_RelFileNodePendingDelete) abortrels →
  Forall (fun r => length r = Z.to_nat sizeof_SharedInvalidationMessage) invalmsgs →
  Forall part_typed parts →
  let header := prepare_header v (Z.of_nat (length children))
                  (Z.of_nat (length commitrels)) (Z.of_nat (length abortrels))
                  (Z.of_nat (length invalmsgs)) ifi in
  let sections hdr :=
    state_sections hdr children commitrels abortrels invalmsgs parts in
  fits (sections (header 0)) →
  let hdr := header (aligned_size (sections (header 0)) + sizeof_pg_crc32) in
  ∃ w' blocks,
    build_state_file g children commitrels abortrels invalmsgs ifi parts w
      = (Done tt, w')
    ∧ xlog_records (xlog w') !! xlog_insert_pos (xlog w)
      = Some (mkXLogRecord XLOG_XACT_PREPARE blocks)
    ∧ laid_out (sections hdr) (concat blocks)
    ∧ let sv := disassemble (concat blocks) in
      sv_hdr sv = hdr
      ∧ read_xids (sv_children sv) (hdr_nsubxacts (sv_hdr sv)) = children
      ∧ array_bytes (sv_commitrels sv)
          (wrap64 (hdr_ncommitrels (sv_hdr sv) * sizeof_RelFileNodePendingDelete))
        = concat commitrels
      ∧ array_bytes (sv_abortrels sv)
          (wrap64 (hdr_nabortrels (sv_hdr sv) * sizeof_RelFileNodePendingDelete))
        = concat abortrels
      ∧ array_bytes (sv_invalmsgs sv)
          (wrap64 (hdr_ninvalmsgs (sv_hdr sv) * sizeof_SharedInvalidationMessage))
        = concat invalmsgs
      ∧ ∀ phase callbacks w1,
          ProcessRecords (sv_records sv) (hdr_xid (sv_hdr sv)) phase callbacks w1
          = (Done tt,
             set_events
               (events w1 ++ callback_events phase (px_xid v) callbacks parts) w1).
Proof.
  intros Hv Hvty Hxs Hrel Hmsg Hc Ha Hi Hparts header sections Hfits hdr.
  assert (MaxAllocSize = 1073741823) as HM by reflexivity.
  destruct (build_state_file_run g v children commitrels abortrels invalmsgs ifi
              parts w) as (w' & blocks & Hrun & Hrec & Hlaid & _); try done; try lia.
  exists w', blocks. split; [exact Hrun|]. split; [exact Hrec|].
  split; [exact Hlaid|].
  assert (Forall (fun sec => Z.of_nat (length sec) ≤ MaxAllocSize) (sections hdr))
    as Hsmall by (eapply sections_small, Hfits).
  assert (hdr_typed hdr) as Hty.
  { apply (prepare_header_typed v children commitrels abortrels invalmsgs ifi parts);
      try done.
    destruct Hfits as [Hs Hsz]. pose proof (aligned_size_nonneg _ Hs).
    change sizeof_pg_crc32 with 4 in *. fold (sections (header 0)). lia. }
  destruct (disassemble_state_file hdr children commitrels abortrels invalmsgs
              parts (concat blocks))
    as (Hhdr & Hchildren & Hcr & Har & Him & Hrecs); try done; try lia.
  cbv zeta. rewrite Hhdr.
  split; [done|]. split; [done|]. split; [done|]. split; [done|]. split; [done|].
  intros phase callbacks w1. unfold ProcessRecords.
  apply ProcessRecords_loop_decode; try done.
  - apply parts_small. unfold sections, state_sections in Hsmall.
    apply Forall_app in Hsmall as [_ Hsmall].
    by apply Forall_app in Hsmall as [Hsmall _].
  - apply laid_out_parts_length in Hrecs. lia.
Qed.

(** ** Recovery *)

Lemma length_list_byte_of_string s :
  length (String.list_byte_of_string s) = String.length s.
Proof.
  unfold String.list_byte_of_string.
  induction s as [|a s IH]; [done|]. simpl. by rewrite IH.
Qed.

Lemma cstring_padded bs k :
  Byte.x00 ∉ bs → cstring (bs ++ replicate k Byte.x00) = bs.
Proof.
  induction bs as [|b bs IH]; intros Hnul.
  - by destruct k.
  - cbn [app cstring]. destruct (Byte.eqb b Byte.x00) eqn:Hb.
    + apply Byte.byte_dec_bl in Hb. subst b. exfalso. apply Hnul, list_elem_of_here.
    + f_equal. apply IH. intros Hin. apply Hnul. apply elem_of_cons. by right.
Qed.

Lemma gid_string_StrNCpy s :
  gid_typed s →
  gid_string (StrNCpy (String.list_byte_of_string s) (Z.to_nat GIDSIZE)) = s.
Proof.
  intros [Hlen Hnul]. unfold gid_string, StrNCpy.
  change (Z.to_nat GIDSIZE) with 200%nat. unfold GIDSIZE in Hlen.
  rewrite take_ge by (rewrite length_list_byte_of_string; lia).
  rewrite cstring_padded by done.
  apply String.string_of_list_byte_of_string.
Qed.

(** The record of a prepared transaction describes it. *)
Lemma durable_record w lsn p :
  durable w lsn p →
  ∃ rec, xlog_records (xlog w) !! lsn = Some rec
         ∧ describes (XLogRecGetData rec) p.
Proof.
  intros (a & v & w1 & Hty & Hrun & Hlsn & Hview & Hrec).
  destruct Hty as [Hv Hvty Hgid Hxs Hrel Hmsg Hc Ha Hi Hparts Hfits].
  assert (MaxAllocSize = 1073741823) as HM by reflexivity.
  destruct (build_state_file_run (pr_gxact a) v (pr_children a) (pr_commitrels a)
              (pr_abortrels a) (pr_invalmsgs a) (pr_initfileinval a) (pr_parts a)
              (pr_world a))
    as (w' & blocks & Hrun' & Hrec' & Hlaid & Hview' & _); try done; try lia.
  unfold prepare in Hrun. rewrite Hrun in Hrun'. injection Hrun' as <-.
  rewrite Hview' in Hview. injection Hview as <-.
  rewrite Hlsn in Hrec'. rewrite Hrec' in Hrec.
  exists (mkXLogRecord XLOG_XACT_PREPARE blocks). split; [done|].
  unfold XLogRecGetData. cbn [xl_blocks].
  set (header := prepare_header v (Z.of_nat (length (pr_children a)))
                   (Z.of_nat (length (pr_commitrels a)))
                   (Z.of_nat (length (pr_abortrels a)))
                   (Z.of_nat (length (pr_invalmsgs a))) (pr_initfileinval a)) in *.
  set (total := aligned_size _ + sizeof_pg_crc32) in *.
  assert (hdr_typed (header total)) as Htyped.
  { apply (prepare_header_typed v (pr_children a) (pr_commitrels a) (pr_abortrels a)
             (pr_invalmsgs a) (pr_initfileinval a) (pr_parts a)); try done.
    - destruct Hfits as [Hs Hsz]. pose proof (aligned_size_nonneg _ Hs).
      unfold total. change sizeof_pg_crc32 with 4 in *. lia.
    - eapply sections_small, Hfits. }
  unfold state_sections in Hlaid. cbn [app] in Hlaid.
  apply laid_out_cons in Hlaid as (p0 & r0 & Hbuf & _).
  rewrite Hbuf.
  destruct Hvty as (? & ? & ? & ?).
  split; rewrite ?hdr_view_image by done;
    cbn [header prepare_header hdr_xid hdr_gid hdr_prepared_at hdr_owner
              hdr_database marked_valid px_xid px_gid px_prepared_at px_owner
              px_database px_valid]; try done.
  - by apply gid_string_StrNCpy.
  - apply Hgid.
Qed.

Lemma for_each_log {A} (l : list A) (f : A → Event) : ∀ w,
  for_each l (fun x => log (f x)) w
  = (Done tt, set_events (events w ++ (f <$> l)) w).
Proof.
  induction l as [|x l IH]; intros w.
  - simpl. unfold ret. rewrite app_nil_r. by destruct w.
  - cbn [for_each]. rewrite bind_log, IH. cbn [events set_events fmap list_fmap].
    unfold set_events. cbn. by rewrite <- app_assoc.
Qed.

(** [ProcessRecords] comes to the end of every buffer: a turn of the
    loop either meets the end marker, which a pointer past the end
    reads, or moves the pointer on. *)
Lemma ProcessRecords_loop_total xid phase callbacks fuel : ∀ buf w,
  (length buf < fuel)%nat →
  ∃ evs, ProcessRecords_loop fuel buf xid phase callbacks w
         = (Done tt, set_events (events w ++ evs) w).
Proof.
  induction fuel as [|fuel IH]; intros buf w Hfuel; [lia|].
  cbn [ProcessRecords_loop].
  destruct (read_le buf 4 1 =? TWOPHASE_RM_END_ID) eqn:Hend.
  { exists []. unfold ret. rewrite app_nil_r. by destruct w. }
  destruct buf as [|b buf]; [done|].
  assert (length (ptr_add (ptr_add (b :: buf) (MAXALIGN sizeof_TwoPhaseRecordOnDisk))
                    (MAXALIGN (read_le (b :: buf) 0 4))) < fuel)%nat as Hnext.
  { unfold ptr_add. rewrite !length_drop.
    change (Z.to_nat (MAXALIGN sizeof_TwoPhaseRecordOnDisk)) with 8%nat.
    simpl in *. lia. }
  destruct (callbacks (read_le (b :: buf) 4 1)).
  - rewrite bind_when_true, bind_log.
    edestruct (IH _ (set_events
                       (events w ++ [EvTwoPhaseCallback phase (read_le (b :: buf) 4 1)
                                       xid (read_le (b :: buf) 6 2)
                                       (array_bytes
                                          (ptr_add (b :: buf)
                                             (MAXALIGN sizeof_TwoPhaseRecordOnDisk))
                                          (read_le (b :: buf) 0 4))
                                       (read_le (b :: buf) 0 4)]) w) Hnext)
      as (evs & Hrun).
    rewrite Hrun. eexists (_ :: evs). cbn [events set_events].
    unfold set_events. cbn. by rewrite <- app_assoc.
  - rewrite bind_when_false. by apply IH.
Qed.

Lemma ProcessRecords_total buf xid phase callbacks w :
  ∃ evs, ProcessRecords buf xid phase callbacks w
         = (Done tt, set_events (events w ++ evs) w).
Proof. unfold ProcessRecords. apply ProcessRecords_loop_total. lia. Qed.

Lemma entry_view_live w fl g :
  registry_wf w fl → g ∈ live_ptrs (TwoPhaseState w) ++ fl →
  is_Some (entry_view w g).
Proof.
  intros Hwf Hg. destruct (live_gxact w fl g Hwf Hg) as [d Hd].
  pose proof (wf_procno_lookup _ _ _ _ Hwf Hd) as Hpn.
  pose proof (lookup_lt_Some _ _ _ Hd) as Hlt.
  destruct (wf_procs _ _ Hwf) as [Hlp Hlx].
  destruct (lookup_lt_is_Some_2 (allProcs w) g) as [p Hp]; [lia|].
  destruct (lookup_lt_is_Some_2 (allPgXact w) g) as [x Hx]; [lia|].
  unfold entry_view. rewrite Hd. cbn. rewrite Hpn, Hp. cbn. rewrite Hx. cbn. eauto.
Qed.

Lemma gids_insert (gx : list GlobalTransactionData) g d d' (l : list nat) :
  gx !! g = Some d → gid d' = gid d →
  gid <$> omap (fun h => <[g := d']> gx !! h) l
  = gid <$> omap (fun h => gx !! h) l.
Proof.
  intros Hd Hgid. induction l as [|h l IH]; [done|]. simpl.
  destruct (decide (h = g)) as [->|Hne].
  - rewrite list_lookup_insert_eq by (by eapply lookup_lt_Some). rewrite Hd.
    simpl. rewrite Hgid. f_equal. exact IH.
  - rewrite list_lookup_insert_ne by done.
    destruct (gx !! h); simpl; [f_equal|]; exact IH.
Qed.

(** [MarkAsPrepared] on the entry that was reserved last. *)
Lemma MarkAsPrepared_last g w fl ptrs views v :
  registry_wf w fl →
  live_ptrs (TwoPhaseState w) = ptrs ++ [g] →
  registry_view w = views ++ [v] →
  ∃ w', MarkAsPrepared g w = (Done tt, w')
        ∧ registry_wf w' fl
        ∧ registry_view w' = views ++ [marked_valid v]
        ∧ gid <$> live_entries (TwoPhaseState w')
          = gid <$> live_entries (TwoPhaseState w)
        ∧ xlog w' = xlog w ∧ nextXid w' = nextXid w.
Proof.
  intros Hwf Hptrs Hview.
  assert (g ∈ live_ptrs (TwoPhaseState w) ++ fl) as Hg.
  { rewrite Hptrs. apply elem_of_app. left. apply elem_of_app. right.
    apply list_elem_of_here. }
  destruct (live_gxact w fl g Hwf Hg) as [d Hd].
  destruct (entry_view_live w fl g Hwf Hg) as [vg Hvg].
  destruct (MarkAsPrepared_run g d w Hd)
    as (w' & Hrun & Hst & Hprocs & Hpg & Hxlog & _ & _ & Hnext & _).
  assert (registry_view w = omap (entry_view w) ptrs ++ [vg]) as Hview'.
  { unfold registry_view. rewrite Hptrs, omap_app. simpl omap. by rewrite Hvg. }
  rewrite Hview in Hview'. apply app_inj_tail in Hview' as [Hviews ->].
  assert (NoDup (ptrs ++ [g])) as Hnd.
  { pose proof (wf_nodup _ _ Hwf) as Hnd. rewrite Hptrs in Hnd.
    by apply NoDup_app in Hnd as [Hnd _]. }
  assert (live_ptrs (TwoPhaseState w') = ptrs ++ [g]) as Hptrs'
    by (rewrite Hst; exact Hptrs).
  exists w'. split; [done|]. split; [|split; [|split; [|done]]].
  - eapply (registry_wf_ext
              (set_TwoPhaseState
                 (set_gxacts (<[g := set_valid true d]> (gxacts (TwoPhaseState w)))
                    (TwoPhaseState w)) w)).
    + by rewrite Hst.
    + by rewrite Hprocs.
    + by rewrite Hpg.
    + apply (registry_wf_store w fl g d); try done.
      pose proof (wf_gids _ _ Hwf) as Hg'.
      rewrite Forall_lookup in Hg'. apply (Hg' g d Hd).
  - unfold registry_view. rewrite Hptrs', omap_app. f_equal.
    + rewrite Hviews. apply omap_agree. intros h Hh.
      assert (h ≠ g) as Hne.
      { intros ->. apply NoDup_app in Hnd as (_ & Hdisj & _).
        apply (Hdisj g Hh). apply list_elem_of_here. }
      unfold entry_view. rewrite Hst, Hprocs, Hpg. cbn [gxacts set_gxacts].
      by rewrite list_lookup_insert_ne.
    + simpl omap. unfold entry_view in *. rewrite Hst, Hprocs, Hpg.
      cbn [gxacts set_gxacts].
      rewrite list_lookup_insert_eq by (by eapply lookup_lt_Some).
      rewrite Hd in Hvg. cbn in *.
      destruct (allProcs w !! pgprocno d) as [p|]; [|done]. cbn in *.
      destruct (allPgXact w !! pgprocno d) as [x|]; [|done]. cbn in *.
      injection Hvg as <-. done.
  - unfold live_entries. rewrite Hptrs', <- Hptrs, Hst. cbn [gxacts set_gxacts].
    by apply (gids_insert _ g d).
Qed.

(** The loop of [RecoverPreparedTransactions] over records that
    describe the transactions [pre]. *)
Lemma Recover_loop_run entries : ∀ pre w fl overwriteOK,
  registry_wf w fl →
  Forall2 (fun e p =>
             pm_xlogrecptr e ≠ InvalidXLogRecPtr
             ∧ ∃ rec, xlog_records (xlog w) !! pm_xlogrecptr e = Some rec
                      ∧ describes (XLogRecGetData rec) p) entries pre →
  NoDup (px_gid <$> pre) →
  (∀ p, p ∈ pre → px_gid p ∉ gid <$> live_entries (TwoPhaseState w)) →
  (length pre ≤ length fl)%nat →
  ∃ w', Recover_loop entries overwriteOK w = (Done tt, w')
        ∧ registry_wf w' (drop (length pre) fl)
        ∧ registry_view w' = registry_view w ++ pre
        ∧ xlog w' = xlog w ∧ nextXid w' = nextXid w.
Proof.
  induction entries as [|e entries IH];
    intros pre w fl ow Hwf Hall Hnd Hfresh Hlen.
  { apply Forall2_nil_inv_l in Hall as ->. exists w.
    rewrite drop_0, app_nil_r. done. }
  apply Forall2_cons_inv_l in Hall
    as (p & pre' & (Hlsn & rec & Hrec & Hdesc) & Hall & ->).
  destruct fl as [|g fl]; [simpl in Hlen; lia|].
  apply NoDup_cons in Hnd as [Hp Hnd].
  cbn [Recover_loop]. rewrite (proj2 (Z.eqb_neq _ _) Hlsn).
  rewrite (bind_done (XLogReadRecord _) _ _ _ _ eq_refl), Hrec. cbv zeta.
  rewrite (bind_done _ _ _ _ _ (for_each_log _ _ _)).
  destruct (dtxCrackOpenGid _) as [ts dx].
  destruct Hdesc as [-> -> -> -> -> Hvalid Hshort].
  match goal with
  | |- context [bind (MarkAsPreparing _ _ _ _ _ _ _) _ ?w0] => set (wa := w0)
  end.
  set (ow' := if InHotStandby && _ then true else ow).
  assert (kept w wa) as Hka by apply kept_set_events.
  assert (registry_wf wa (g :: fl)) as Hwfa by (by eapply kept_wf).
  assert (max_prepared_xacts ≠ 0%nat) as Hmax.
  { pose proof (wf_room _ _ Hwf) as Hroom. rewrite (wf_cap _ _ Hwf) in Hroom.
    simpl in Hroom. lia. }
  destruct (wf_free _ _ Hwfa) as (_ & d & Hd & _).
  set (ldx := {| ldx_state := LOCALDISTRIBXACT_STATE_ACTIVE;
                 ldx_distribTimeStamp := ts; ldx_distribXid := dx |}).
  assert (MarkAsPreparing (px_xid p) ldx (px_gid p) (px_prepared_at p) (px_owner p)
            (px_database p) (pm_xlogrecptr e) wa
          = (Done g, reserved g d (px_xid p) ldx (px_gid p) (px_prepared_at p)
                       (px_owner p) (px_database p) (pm_xlogrecptr e) wa)) as Hrun.
  { rewrite (MarkAsPreparing_run _ _ _ _ _ _ _ _ _ Hwfa).
    rewrite (proj2 (Z.leb_gt _ _)) by done.
    rewrite (proj2 (Nat.eqb_neq _ _)) by done.
    rewrite bool_decide_eq_false_2 by (apply Hfresh, list_elem_of_here).
    by rewrite Hd. }
  rewrite (bind_done _ _ _ _ _ Hrun).
  destruct (reserved_wf g d (px_xid p) ldx (px_gid p) (px_prepared_at p)
              (px_owner p) (px_database p) (pm_xlogrecptr e) wa fl Hwfa Hd Hshort)
    as (Hwfb & _ & Hptrsb & Hentb & Hviewb & _).
  set (wb := reserved g d (px_xid p) ldx (px_gid p) (px_prepared_at p)
               (px_owner p) (px_database p) (pm_xlogrecptr e) wa) in *.
  destruct (GXactLoadSubxactData_run g
              (hdr_nsubxacts (hdr_view (XLogRecGetData rec)))
              (read_xids
                 (ptr_add (XLogRecGetData rec) (MAXALIGN sizeof_TwoPhaseFileHeader))
                 (hdr_nsubxacts (hdr_view (XLogRecGetData rec)))) wb)
    as (wc & Hrunc & Hkc & _ & _).
  { apply (entry_view_live wb fl); [done|]. rewrite Hptrsb.
    apply elem_of_app. left. apply elem_of_app. right. apply list_elem_of_here. }
  rewrite (bind_done _ _ _ _ _ Hrunc).
  destruct (MarkAsPrepared_last g wc fl (live_ptrs (TwoPhaseState wa))
              (registry_view wa)
              (mkPreparedXact (px_xid p) (px_gid p) (px_prepared_at p) (px_owner p)
                 (px_database p) false))
    as (wd & Hrund & Hwfd & Hviewd & Hgidsd & Hxlogd & Hnextd).
  { by eapply kept_wf. }
  { by rewrite (k_state _ _ Hkc). }
  { by rewrite (kept_registry_view wb wc). }
  rewrite (bind_done _ _ _ _ _ Hrund).
  match goal with
  | |- context [bind (ProcessRecords ?b ?x ?ph ?cb) _ wd] =>
      destruct (ProcessRecords_total b x ph cb wd) as (evs & Hrune)
  end.
  rewrite (bind_done _ _ _ _ _ Hrune).
  set (we := set_events (events wd ++ evs) wd) in *.
  assert (xlog we = xlog w) as Hxlog.
  { change (xlog we) with (xlog wd). rewrite Hxlogd, (k_xlog _ _ Hkc).
    unfold wb, reserved. wsimpl. unfold wa, exit_hook_registered.
    by destruct (twophaseExitRegistered _). }
  assert (nextXid we = nextXid w) as Hnext.
  { change (nextXid we) with (nextXid wd). rewrite Hnextd, (k_nextXid _ _ Hkc).
    unfold wb, reserved. wsimpl. unfold wa, exit_hook_registered.
    by destruct (twophaseExitRegistered _). }
  destruct (IH pre' we fl ow') as (w' & Hrun' & Hwf' & Hview' & Hxlog' & Hnext').
  - apply (kept_wf wd); [apply kept_set_events|done].
  - rewrite Hxlog. exact Hall.
  - done.
  - intros q Hq.
    change (live_entries (TwoPhaseState we)) with (live_entries (TwoPhaseState wd)).
    rewrite Hgidsd, (k_state _ _ Hkc), Hentb, fmap_app. intros Hin.
    apply elem_of_app in Hin as [Hin|Hin].
    + apply (Hfresh q); [apply elem_of_cons; by right|done].
    + apply list_elem_of_singleton in Hin. simpl in Hin.
      apply Hp. rewrite <- Hin. apply list_elem_of_fmap. eauto.
  - simpl in Hlen. lia.
  - exists w'. split; [exact Hrun'|]. split; [exact Hwf'|].
    split; [|split; congruence].
    rewrite Hview'.
    change (registry_view we) with (registry_view wd).
    rewrite Hviewd, (kept_registry_view w wa Hka), <- app_assoc. f_equal.
    simpl. f_equal. destruct p. unfold marked_valid. simpl in *. by rewrite Hvalid.
Qed.

Lemma PrescanPreparedTransactions_run want w :
  Forall (readable w) (default [] (map_ht w)) →
  ∃ r n, PrescanPreparedTransactions want w = (Done r, set_nextXid n w).
Proof.
  intros Hread. unfold PrescanPreparedTransactions. rewrite bind_get.
  pose proof (Prescan_loop_run want w _ (nextXid w) [] (nextXid w) Hread) as Hloop.
  cbv zeta in Hloop. rewrite set_nextXid_same in Hloop.
  rewrite (bind_done _ _ _ _ _ Hloop). unfold ret. eauto.
Qed.

(** C2.  The table of prepared transactions names, for every
    transaction of [pre], the location of its prepare record: the
    record that the builder wrote when the transaction was prepared
    and marked valid, and that the log still has.  Then
    [PrescanPreparedTransactions] followed by
    [RecoverPreparedTransactions] ends without an error and adds to
    the registry, in the order of the table, one entry for each of
    them, which shows the transaction id, the GID, the time of
    preparation, the owner and the database that the entry showed
    before, and is valid. *)
Theorem recovery_recreates_prepared w fl entries pre want_xids :
  registry_wf w fl →
  map_ht w = Some entries →
  Forall2 (fun e p => pm_xlogrecptr e ≠ InvalidXLogRecPtr
                      ∧ durable w (pm_xlogrecptr e) p) entries pre →
  NoDup (px_gid <$> pre) →
  (∀ p, p ∈ pre → px_gid p ∉ gid <$> live_entries (TwoPhaseState w)) →
  (length pre ≤ length fl)%nat →
  ∃ w', (PrescanPreparedTransactions want_xids ;;; RecoverPreparedTransactions) w
        = (Done tt, w')
        ∧ registry_view w' = registry_view w ++ pre
        ∧ Forall (fun p => px_valid p = true) pre.
Proof.
  intros Hwf Hmap Hall Hnd Hfresh Hlen.
  assert (Forall2 (fun e p =>
                     pm_xlogrecptr e ≠ InvalidXLogRecPtr
                     ∧ ∃ rec, xlog_records (xlog w) !! pm_xlogrecptr e = Some rec
                              ∧ describes (XLogRecGetData rec) p) entries pre)
    as Hrecs.
  { eapply Forall2_impl; [exact Hall|]. intros e p [Hlsn Hdur].
    split; [done|]. by apply durable_record. }
  destruct (PrescanPreparedTransactions_run want_xids w) as (r & n & Hscan).
  { rewrite Hmap. simpl. clear -Hrecs. induction Hrecs as [|e p es ps He _ IH].
    - constructor.
    - constructor; [|exact IH]. destruct He as (Hlsn & rec & Hrec & _).
      split; [done|]. by exists rec. }
  rewrite (bind_done _ _ _ _ _ Hscan).
  unfold RecoverPreparedTransactions. rewrite bind_get.
  change (map_ht (set_nextXid n w)) with (map_ht w). rewrite Hmap. simpl default.
  destruct (Recover_loop_run entries pre (set_nextXid n w) fl false)
    as (w' & Hrun & _ & Hview & _); try done.
  { by apply (registry_wf_ext w). }
  exists w'. split; [exact Hrun|]. split; [exact Hview|].
  clear -Hrecs. induction Hrecs as [|e p es ps He _ IH]; constructor; [|exact IH].
  destruct He as (_ & rec & _ & Hdesc). apply Hdesc.
Qed.

End Proofs.

(** * The statements at the small installation *)

Lemma AtAbort_Twophase_witness :
  (∃ w', AtAbort_Twophase reserved_world = (Done tt, w')
         ∧ freeGXacts (TwoPhaseState w') = Some 1%nat
         ∧ numPrepXacts (TwoPhaseState w') = 0%nat)
  ∧ (∃ w', AtAbort_Twophase prepared_world = (Done tt, w')
           ∧ live_ptrs (TwoPhaseState w') = [1%nat]
           ∧ locking_backend <$> gxacts (TwoPhaseState w') !! 1%nat
             = Some InvalidBackendId).
Proof.
  split.
  - destruct (AtAbort_Twophase_undoes_or_unlocks (E := demo_env)
                reserved_world [0%nat] 1%nat
                (mkGlobalTransactionData (Some 0%nat) 1 12 5000 0 0 20 3 false "t1"))
      as (w' & Hrun & _ & Hundo & _).
    + apply (registry_wf_b_sound (E := demo_env)). vm_compute. reflexivity.
    + reflexivity.
    + vm_compute. apply list_elem_of_here.
    + reflexivity.
    + destruct (Hundo eq_refl) as (_ & Hfree & _ & _ & _ & Hnum).
      exists w'. split; [exact Hrun|]. split; [exact Hfree|exact Hnum].
  - destruct (AtAbort_Twophase_undoes_or_unlocks (E := demo_env)
                prepared_world [0%nat] 1%nat
                (mkGlobalTransactionData (Some 0%nat) 1 12 5000 4096 4408 20 3 true "t1"))
      as (w' & Hrun & _ & _ & Hunlock).
    + apply (registry_wf_b_sound (E := demo_env)). vm_compute. reflexivity.
    + reflexivity.
    + vm_compute. apply list_elem_of_here.
    + reflexivity.
    + destruct (Hunlock eq_refl) as (_ & Hs & _).
      exists w'. split; [exact Hrun|]. rewrite Hs. split; reflexivity.
Defined.

Lemma MarkAsPreparing_failures_and_capacity_witness :
  (MarkAsPreparing (E := demo_env) 603 demo_ldx "t1" 5001 21 1 0 reserved_world).1
    = DuplicateIdentifier
  ∧ ∃ w', (TwoPhaseShmemInit (E := demo_env) ;;;
           reserve_all (E := demo_env) demo_requests) boot_world = (Done tt, w')
          ∧ numPrepXacts (TwoPhaseState w') = 2%nat.
Proof.
  destruct (MarkAsPreparing_failures_and_capacity (E := demo_env)) as [Hfail Hseq].
  split.
  - destruct (Hfail reserved_world [0%nat] 603 demo_ldx "t1" 5001 21 1 0)
      as (_ & _ & Hdup & _).
    + apply (registry_wf_b_sound (E := demo_env)). vm_compute. reflexivity.
    + apply (Hdup (mkGlobalTransactionData (Some 0%nat) 1 12 5000 0 0 20 3 false "t1")).
      * vm_compute. apply list_elem_of_here.
      * reflexivity.
  - destruct (Hseq boot_world demo_requests) as (w' & Hrun & Hnum & _).
    + vm_compute. lia.
    + vm_compute. lia.
    + apply (bool_decide_unpack _). vm_compute. exact I.
    + repeat constructor.
    + vm_compute. lia.
    + exists w'. split; [exact Hrun|exact Hnum].
Defined.

Lemma LockGXact_outcomes_witness :
  (LockGXact (E := demo_env) "t1" 20 true idle_world).1 = Done (Some 1%nat)
  ∧ (LockGXact (E := demo_env) "t1" 20 true prepared_world).1 = Busy
  ∧ (LockGXact (E := demo_env) "t9" 20 false idle_world).1 = Done None.
Proof.
  assert (registry_wf (E := demo_env) idle_world [0%nat]) as Hidle.
  { apply (registry_wf_b_sound (E := demo_env)). vm_compute. reflexivity. }
  assert (registry_wf (E := demo_env) prepared_world [0%nat]) as Hprep.
  { apply (registry_wf_b_sound (E := demo_env)). vm_compute. reflexivity. }
  split; [|split].
  - destruct (LockGXact_outcomes (E := demo_env) "t1" 20 true idle_world [0%nat] Hidle)
      as (_ & _ & Hfound & _).
    edestruct Hfound as (_ & _ & _ & Hlock & _).
    + vm_compute. reflexivity.
    + vm_compute. reflexivity.
    + apply Hlock; [reflexivity|left; reflexivity|left; reflexivity].
  - destruct (LockGXact_outcomes (E := demo_env) "t1" 20 true prepared_world [0%nat] Hprep)
      as (_ & _ & Hfound & _).
    edestruct Hfound as (Hbusy & _).
    + vm_compute. reflexivity.
    + vm_compute. reflexivity.
    + apply Hbusy. vm_compute. discriminate.
  - destruct (LockGXact_outcomes (E := demo_env) "t9" 20 false idle_world [0%nat] Hidle)
      as (_ & _ & _ & Hnone).
    apply Hnone. vm_compute. reflexivity.
Defined.

(** The owner of a valid, unlocked entry of database 1 asks for it from
    a dispatcher backend connected to database 2: the call fails and
    the entry stays unlocked. *)
Lemma LockGXact_locks_otherwise_counterexample :
  let r := LockGXact (E := demo_env_other_database) "t1" 20 true idle_world in
  find_prepared (TwoPhaseState idle_world) "t1"
    = Some (1%nat, mkGlobalTransactionData (Some 0%nat) 1 12 5000 4096 4408 20
                     InvalidBackendId true "t1")
  ∧ r.1 = AnotherDatabase
  ∧ r.1 ≠ Done (Some 1%nat)
  ∧ MyLockedGxact r.2 = None
  ∧ locking_backend <$> gxacts (TwoPhaseState r.2) !! 1%nat = Some InvalidBackendId.
Proof. vm_compute. repeat split; discriminate. Qed.

Lemma LockGXact_refuses_another_database_witness :
  (LockGXact (E := demo_env_other_database) "t1" 10 true idle_world).1
    = AnotherDatabase
  ∧ (LockGXact (E := demo_env_segment) "t1" 10 true idle_world).1
    = Done (Some 1%nat).
Proof.
  split.
  - edestruct (LockGXact_refuses_another_database (E := demo_env_other_database)
                 "t1" 10 true idle_world [0%nat]) as [Hrefuse _].
    + apply (registry_wf_b_sound (E := demo_env_other_database)).
      vm_compute. reflexivity.
    + vm_compute. reflexivity.
    + vm_compute. reflexivity.
    + apply Hrefuse.
      * vm_compute. discriminate.
      * vm_compute. discriminate.
      * reflexivity.
      * right. reflexivity.
  - edestruct (LockGXact_refuses_another_database (E := demo_env_segment)
                 "t1" 10 true idle_world [0%nat]) as [_ Hlock].
    + apply (registry_wf_b_sound (E := demo_env_segment)).
      vm_compute. reflexivity.
    + vm_compute. reflexivity.
    + vm_compute. reflexivity.
    + apply Hlock; [reflexivity|reflexivity|right; reflexivity].
Defined.

Lemma FinishPreparedTransaction_missing_witness :
  (FinishPreparedTransaction (E := demo_env) "t9" true false idle_world).1
    = Done false
  ∧ (FinishPreparedTransaction (E := demo_env) "t9" false false idle_world).1
    = Done false
  ∧ TwoPhaseState
      (FinishPreparedTransaction (E := demo_env) "t9" true false idle_world).2
    = TwoPhaseState idle_world.
Proof.
  assert (registry_wf (E := demo_env) idle_world [0%nat]) as Hidle.
  { apply (registry_wf_b_sound (E := demo_env)). vm_compute. reflexivity. }
  assert (find_prepared (TwoPhaseState idle_world) "t9" = None) as Hnone.
  { vm_compute. reflexivity. }
  destruct (FinishPreparedTransaction_missing (E := demo_env) "t9" true
              idle_world [0%nat] Hidle Hnone) as (Hrun & Hs & _).
  destruct (FinishPreparedTransaction_missing (E := demo_env) "t9" false
              idle_world [0%nat] Hidle Hnone) as (Hrun' & _).
  split; [|split].
  - rewrite Hrun. reflexivity.
  - rewrite Hrun'. reflexivity.
  - exact Hs.
Defined.

(** C9.  The prepare record of the only entry of the table cannot be
    read.  [PrescanPreparedTransactions] loads [hdr->xid] through the
    NULL record before it tests the record: it ends in a memory fault,
    not in the error.  [RecoverPreparedTransactions], which tests
    first, raises the error for the same table, and so does
    [FinishPreparedTransaction] for the entry, after [LockGXact] has
    locked it. *)
Theorem PrescanPreparedTransactions_reads_before_test :
  map_ht lost_record_world = Some [mkprpt_map 601 4096]
  ∧ xlog_records (xlog lost_record_world) !! 4096 = None
  ∧ PrescanPreparedTransactions (E := demo_env) false lost_record_world
    = (MemoryFault, lost_record_world)
  ∧ (PrescanPreparedTransactions (E := demo_env) false lost_record_world).1
    ≠ CorruptRecord
  ∧ RecoverPreparedTransactions (E := demo_env) lost_record_world
    = (CorruptRecord, lost_record_world)
  ∧ (FinishPreparedTransaction (E := demo_env) "t1" true true lost_record_world).1
    = CorruptRecord
  ∧ MyLockedGxact
      (FinishPreparedTransaction (E := demo_env) "t1" true true lost_record_world).2
    = Some 1%nat.
Proof.
  split; [reflexivity|]. split; [reflexivity|]. split.
  { unfold PrescanPreparedTransactions. rewrite bind_get.
    change (default [] (map_ht lost_record_world)) with [mkprpt_map 601 4096].
    unfold bind at 1. by rewrite Prescan_loop_unreadable. }
  split.
  { unfold PrescanPreparedTransactions. rewrite bind_get.
    change (default [] (map_ht lost_record_world)) with [mkprpt_map 601 4096].
    unfold bind at 1. by rewrite Prescan_loop_unreadable. }
  split.
  { unfold RecoverPreparedTransactions. rewrite bind_get.
    change (default [] (map_ht lost_record_world)) with [mkprpt_map 601 4096].
    by rewrite Recover_loop_unreadable. }
  split; vm_compute; reflexivity.
Qed.

Lemma PrescanPreparedTransactions_result_witness :
  PrescanPreparedTransactions (E := demo_env) true restarted_world =
    (Done (601, Some [601; 603]), set_nextXid 706 restarted_world)
  ∧ 601 ∈ [601; 603]
  ∧ ∀ x, x ∈ [601; 603] → @TransactionIdPrecedes demo_env x 601 = false.
Proof.
  assert (default [] (map_ht restarted_world) =
          [ {| pm_xid := 601; pm_xlogrecptr := 4096 |};
            {| pm_xid := 603; pm_xlogrecptr := 4408 |} ]) as Hentries
    by (vm_compute; reflexivity).
  assert (Forall (readable restarted_world) (default [] (map_ht restarted_world)))
    as Hread.
  { rewrite Hentries.
    repeat constructor; try (intros H; discriminate H);
      eexists; vm_compute; reflexivity. }
  destruct (PrescanPreparedTransactions_result (E := demo_env) true
              restarted_world Hread) as (Hrun & _ & Hmin).
  assert (record_xid <$>
            List.filter (unresolved (clog restarted_world))
              (record_data restarted_world <$> default [] (map_ht restarted_world))
          = [601; 603]) as Hxids by (vm_compute; reflexivity).
  rewrite Hxids in Hrun, Hmin.
  assert (running_minimum (E := demo_env) [601; 603] (nextXid restarted_world) = 601)
    as Hres by (vm_compute; reflexivity).
  rewrite Hres in Hrun, Hmin.
  split.
  - rewrite Hrun. vm_compute. reflexivity.
  - apply Hmin.
    + discriminate.
    + vm_compute. reflexivity.
    + intros x Hx. apply elem_of_cons in Hx as [->|Hx]; [vm_compute; reflexivity|].
      apply list_elem_of_singleton in Hx. subst x. vm_compute. reflexivity.
Defined.

Lemma build_state_file_round_trip_witness :
  ∃ blocks,
    xlog_records
      (xlog (build_state_file (E := demo_env) 1 [602]
               [replicate 16 Byte.x2a] [] [] false
               [mkTwoPhaseRecord 1 0 [Byte.x01; Byte.x02; Byte.x03]]
               reserved_world).2) !! 4096
    = Some (mkXLogRecord XLOG_XACT_PREPARE blocks)
    ∧ (let sv := disassemble (E := demo_env) (concat blocks) in
       hdr_xid (sv_hdr sv) = 601
       ∧ gid_string (hdr_gid (sv_hdr sv)) = "t1"
       ∧ hdr_total_len (sv_hdr sv) = 300
       ∧ read_xids (sv_children sv) (hdr_nsubxacts (sv_hdr sv)) = [602]
       ∧ array_bytes (sv_commitrels sv)
           (wrap64 (hdr_ncommitrels (sv_hdr sv) * 16))
         = replicate 16 Byte.x2a).
Proof.
  destruct (build_state_file_round_trip (E := demo_env) 1
              (mkPreparedXact 601 "t1" 5000 20 1 false) [602]
              [replicate 16 Byte.x2a] [] [] false
              [mkTwoPhaseRecord 1 0 [Byte.x01; Byte.x02; Byte.x03]]
              reserved_world)
    as (w' & blocks & Hrun & Hrec & _ & Hhdr & Hxids & Hcr & _).
  - vm_compute. reflexivity.
  - unfold view_typed. cbn. lia.
  - repeat constructor; lia.
  - reflexivity.
  - reflexivity.
  - repeat constructor.
  - constructor.
  - constructor.
  - repeat constructor; cbn; lia.
  - split.
    + repeat constructor; vm_compute; discriminate.
    + vm_compute. discriminate.
  - exists blocks. rewrite Hrun. split; [exact Hrec|].
    cbv zeta. rewrite Hhdr in *. split; [reflexivity|].
    split; [vm_compute; reflexivity|]. split; [vm_compute; reflexivity|].
    split; [exact Hxids|exact Hcr].
Defined.

Lemma recovery_recreates_prepared_witness :
  registry_view
    ((PrescanPreparedTransactions (E := demo_env) false ;;;
      RecoverPreparedTransactions (E := demo_env)) restarted_world).2
  = [ mkPreparedXact 601 "t1" 5000 20 1 true;
      mkPreparedXact 603 "t2" 5001 21 1 true ]
  ∧ registry_view two_prepared_world
    = [ mkPreparedXact 601 "t1" 5000 20 1 true;
        mkPreparedXact 603 "t2" 5001 21 1 true ].
Proof.
  split; [|vm_compute; reflexivity].
  pose (a1 := mkPreparation reserved_world 1 [602] [] [] [] false
                [mkTwoPhaseRecord 1 0 [Byte.x01; Byte.x02; Byte.x03]]).
  pose (a2 := mkPreparation
                (MarkAsPreparing (E := demo_env) 603 demo_ldx "t2" 5001 21 1 0
                   idle_world).2
                0 [604; 705] [] [] [] false []).
  assert (∀ s, Z.of_nat (String.length s) < GIDSIZE →
               String.list_byte_of_string s = [Byte.x74; Byte.x31]
               ∨ String.list_byte_of_string s = [Byte.x74; Byte.x32] →
               gid_typed s) as Hgid.
  { intros s Hlen Hs. split; [done|]. intros H.
    destruct Hs as [Hs|Hs]; rewrite Hs in H;
      inversion H as [|? ? ? H1]; subst;
      inversion H1 as [|? ? ? H2]; subst; inversion H2. }
  destruct (recovery_recreates_prepared (E := demo_env) restarted_world [1; 0]%nat
              [mkprpt_map 601 4096; mkprpt_map 603 4408]
              [ mkPreparedXact 601 "t1" 5000 20 1 true;
                mkPreparedXact 603 "t2" 5001 21 1 true ] false)
    as (w' & Hrun & Hview & _).
  - apply registry_wf_b_sound. vm_compute. reflexivity.
  - vm_compute. reflexivity.
  - constructor; [|constructor; [|constructor]].
    + split; [discriminate|].
      exists a1, (mkPreparedXact 601 "t1" 5000 20 1 false),
             (prepare (E := demo_env) a1 (pr_world a1)).2.
      split; [|split; [|split; [|split]]].
      * split.
        -- vm_compute. reflexivity.
        -- unfold view_typed. cbn. lia.
        -- apply Hgid; [vm_compute; reflexivity|left; vm_compute; reflexivity].
        -- repeat constructor; lia.
        -- reflexivity.
        -- reflexivity.
        -- constructor.
        -- constructor.
        -- constructor.
        -- repeat constructor; cbn; lia.
        -- split; [repeat constructor; vm_compute; discriminate|].
           vm_compute. discriminate.
      * vm_compute. reflexivity.
      * vm_compute. reflexivity.
      * vm_compute. reflexivity.
      * vm_compute. reflexivity.
    + split; [discriminate|].
      exists a2, (mkPreparedXact 603 "t2" 5001 21 1 false),
             (prepare (E := demo_env) a2 (pr_world a2)).2.
      split; [|split; [|split; [|split]]].
      * split.
        -- vm_compute. reflexivity.
        -- unfold view_typed. cbn. lia.
        -- apply Hgid; [vm_compute; reflexivity|right; vm_compute; reflexivity].
        -- repeat constructor; lia.
        -- reflexivity.
        -- reflexivity.
        -- constructor.
        -- constructor.
        -- constructor.
        -- constructor.
        -- split; [repeat constructor; vm_compute; discriminate|].
           vm_compute. discriminate.
      * vm_compute. reflexivity.
      * vm_compute. reflexivity.
      * vm_compute. reflexivity.
      * vm_compute. reflexivity.
  - apply (bool_decide_unpack _). vm_compute. exact I.
  - intros p _ Hin. vm_compute in Hin. inversion Hin.
  - simpl. lia.
  - rewrite Hrun. exact Hview.
Defined.

(** * Further properties

    What the other functions of twophase.c and the pending deletes of
    storage.c do, beyond the statements above, and the steps of
    FinishPreparedTransaction with the state between them. *)

Lemma to_int32_id v : - 2 ^ 31 ≤ v < 2 ^ 31 → to_int32 v = v.
Proof.
  intros Hv. unfold to_int32, wrap32.
  destruct (Z.ltb_spec (v mod 2 ^ 32) (2 ^ 31)) as [Hlt | Hge].
  - destruct (Z.le_gt_cases 0 v) as [Hpos | Hneg].
    + apply Z.mod_small. lia.
    + exfalso. assert (v mod 2 ^ 32 = v + 2 ^ 32); [|lia].
      symmetry. apply Z.mod_unique with (-1); lia.
  - destruct (Z.le_gt_cases 0 v) as [Hpos | Hneg].
    + exfalso. rewrite Z.mod_small in Hge; lia.
    + assert (v mod 2 ^ 32 = v + 2 ^ 32); [|lia].
      symmetry. apply Z.mod_unique with (-1); lia.
Qed.

Section More.
Context `{E : Env}.

(** ** Reading the registry *)

Lemma prepXact_at_live w fl i :
  registry_wf w fl → (i < numPrepXacts (TwoPhaseState w))%nat →
  ∃ g d, prepXact_at w i = Ok (g, d)
         ∧ live_pairs (TwoPhaseState w) !! i = Some (g, d)
         ∧ pgprocno d = g
         ∧ is_Some (allProcs w !! g) ∧ is_Some (allPgXact w !! g).
Proof.
  intros Hwf Hi.
  destruct (live_pairs_lookup w fl i Hwf Hi) as (g & d & Hp & Hd & Hl).
  exists g, d. unfold prepXact_at. rewrite Hp. cbn. rewrite Hd. cbn.
  split; [done|]. split; [done|].
  pose proof (wf_procno_lookup _ _ _ _ Hwf Hd) as Hpn.
  pose proof (lookup_lt_Some _ _ _ Hd) as Hlt.
  destruct (wf_procs _ _ Hwf) as [Hlp Hlx].
  split; [done|]. split; apply lookup_lt_is_Some_2; lia.
Qed.

(** The pointers of the active array read in order are the live pairs. *)
Lemma prepXact_at_scan w fl :
  registry_wf w fl →
  Forall2 (fun i gd => prepXact_at w i = Ok gd
                       ∧ pgprocno gd.2 = gd.1
                       ∧ is_Some (allProcs w !! gd.1) ∧ is_Some (allPgXact w !! gd.1))
    (seq 0 (numPrepXacts (TwoPhaseState w))) (live_pairs (TwoPhaseState w)).
Proof.
  intros Hwf. apply Forall2_same_length_lookup. split.
  - by rewrite length_seq, (live_pairs_length w fl).
  - intros i j gd Hj Hgd. apply lookup_seq in Hj as [-> Hlt]. cbn.
    destruct (prepXact_at_live w fl i Hwf Hlt) as (g & d & H1 & H2 & H3 & H4 & H5).
    rewrite H2 in Hgd. injection Hgd as <-. done.
Qed.

Lemma TwoPhaseGetGXact_loop_run w xid idxs pairs :
  Forall2 (fun i gd => prepXact_at w i = Ok gd
                       ∧ pgprocno gd.2 = gd.1
                       ∧ is_Some (allProcs w !! gd.1) ∧ is_Some (allPgXact w !! gd.1))
    idxs pairs →
  TwoPhaseGetGXact_loop w xid idxs = Ok (fst <$> List.find (has_xid w xid) pairs).
Proof.
  induction 1 as [|i gd idxs pairs (Hat & Hpn & _ & [x Hx]) _ IH];
    cbn [TwoPhaseGetGXact_loop List.find]; [done|].
  rewrite Hat. cbn [rbind]. rewrite Hpn, Hx. cbn [load rbind].
  unfold has_xid at 1, live_xid. rewrite Hpn, Hx. cbn [fmap option_fmap option_map].
  destruct (Z.eqb_spec (pgxact_xid x) xid) as [->|Hne].
  - by rewrite bool_decide_eq_true_2.
  - rewrite bool_decide_eq_false_2; [done|]. by intros [=].
Qed.

(** X8.  On a cache miss TwoPhaseGetGXact returns the first entry
    of the active array, valid or not, whose dummy PGXACT holds the
    xid, and remembers it; TwoPhaseGetDummyBackendId and
    TwoPhaseGetDummyProc then give the dummy backend id and the dummy
    PGPROC of that entry.  When no live entry has the xid it raises
    "failed to find GlobalTransaction for xid" and the cache keeps its
    content. *)
Theorem TwoPhaseGetGXact_finds_the_first cache xid w fl :
  registry_wf w fl →
  xid ≠ cached_xid cache →
  match List.find (has_xid w xid) (live_pairs (TwoPhaseState w)) with
  | Some (g, d) =>
      TwoPhaseGetGXact cache xid w
      = (Ok (Some g), {| cached_xid := xid; cached_gxact := Some g |})
      ∧ TwoPhaseGetDummyBackendId cache xid w
        = (Ok (dummyBackendId d), {| cached_xid := xid; cached_gxact := Some g |})
      ∧ TwoPhaseGetDummyProc cache xid w
        = (Ok g, {| cached_xid := xid; cached_gxact := Some g |})
      ∧ pgxact_xid <$> allPgXact w !! g = Some xid
  | None =>
      TwoPhaseGetGXact cache xid w = (Failed ERROR msg_failed_to_find_xid, cache)
  end.
Proof.
  intros Hwf Hne.
  pose proof (TwoPhaseGetGXact_loop_run w xid _ _ (prepXact_at_scan w fl Hwf)) as Hrun.
  assert (Hmiss : (xid =? cached_xid cache) = false) by by apply Z.eqb_neq.
  destruct (List.find (has_xid w xid) (live_pairs (TwoPhaseState w)))
    as [[g d]|] eqn:Hfind.
  - apply find_some in Hfind as [Hin Hx].
    apply list_elem_of_In, live_pairs_elem in Hin as [Hg Hd].
    pose proof (wf_procno_lookup _ _ _ _ Hwf Hd) as Hpn.
    unfold has_xid, live_xid in Hx. apply bool_decide_eq_true_1 in Hx.
    cbn [snd] in Hx. rewrite Hpn in Hx.
    unfold TwoPhaseGetDummyBackendId, TwoPhaseGetDummyProc, TwoPhaseGetGXact.
    rewrite Hmiss, Hrun. cbn [fmap option_fmap option_map fst snd rbind].
    cbn [mbind option_bind]. rewrite Hd. cbn [load rbind]. rewrite Hpn. done.
  - unfold TwoPhaseGetGXact. rewrite Hmiss, Hrun. reflexivity.
Qed.

(** X9.  The statics of TwoPhaseGetGXact hold one pair.  Once the
    function has answered for an xid, the calls for the same xid that
    follow one another get the same answer whatever the registry holds
    by then: the function does not look at the registry again.  A
    call for another xid that finds its entry takes the place in the
    cache, and the next call for the first xid searches the registry
    again: it raises "failed to find GlobalTransaction for xid" when
    the entry has left the registry.  A call that fails leaves the
    cache as it was. *)
Theorem TwoPhaseGetGXact_answers_from_its_cache cache xid w g cache' :
  TwoPhaseGetGXact cache xid w = (Ok g, cache') →
  (∀ calls, Forall (fun c => fst c = xid) calls →
     TwoPhaseGetGXact_calls cache' calls = ((fun _ => Ok g) <$> calls, cache'))
  ∧ (∀ xid2 w2 g2 cache2,
       xid2 ≠ xid →
       TwoPhaseGetGXact cache' xid2 w2 = (Ok g2, cache2) →
       cache2 = {| cached_xid := xid2; cached_gxact := g2 |}
       ∧ ∀ w3 fl,
           registry_wf w3 fl →
           List.find (has_xid w3 xid) (live_pairs (TwoPhaseState w3)) = None →
           TwoPhaseGetGXact cache2 xid w3
           = (Failed ERROR msg_failed_to_find_xid, cache2))
  ∧ (∀ xid2 w2 r cache2,
       TwoPhaseGetGXact cache' xid2 w2 = (r, cache2) →
       (∀ g2, r ≠ Ok g2) → cache2 = cache').
Proof.
  intros Hrun.
  assert (Hcache : cached_xid cache' = xid ∧ cached_gxact cache' = g).
  { unfold TwoPhaseGetGXact in Hrun.
    destruct (Z.eqb_spec xid (cached_xid cache)) as [Hhit | Hmiss].
    - by injection Hrun as <- <-.
    - destruct (TwoPhaseGetGXact_loop w xid _) as [[g'|]| | |]; try discriminate.
      by injection Hrun as <- <-. }
  destruct Hcache as [Hxid Hg].
  split; [|split].
  - intros calls Hcalls.
    induction Hcalls as [|[xid1 w1] calls Hc _ IH]; [reflexivity|].
    cbn [fst] in Hc. subst xid1. cbn [TwoPhaseGetGXact_calls]. cbv zeta.
    assert (TwoPhaseGetGXact cache' xid w1 = (Ok g, cache')) as ->.
    { unfold TwoPhaseGetGXact. by rewrite Hxid, Z.eqb_refl, Hg. }
    cbn [fst snd]. by rewrite IH.
  - intros xid2 w2 g2 cache2 Hne Hrun2.
    assert (cache2 = {| cached_xid := xid2; cached_gxact := g2 |}) as ->.
    { unfold TwoPhaseGetGXact in Hrun2. rewrite Hxid in Hrun2.
      destruct (Z.eqb_spec xid2 xid) as [|_]; [done|].
      destruct (TwoPhaseGetGXact_loop w2 xid2 _) as [[g'|]| | |]; try discriminate.
      by injection Hrun2 as <- <-. }
    split; [reflexivity|]. intros w3 fl Hwf Hnone.
    unfold TwoPhaseGetGXact. cbn [cached_xid].
    destruct (Z.eqb_spec xid xid2) as [->|_]; [done|].
    rewrite (TwoPhaseGetGXact_loop_run w3 xid _ _ (prepXact_at_scan w3 fl Hwf)).
    by rewrite Hnone.
  - intros xid2 w2 r cache2 Hrun2 Hfail.
    unfold TwoPhaseGetGXact in Hrun2.
    destruct (xid2 =? cached_xid cache').
    + injection Hrun2 as <- <-. by destruct (Hfail (cached_gxact cache')).
    + destruct (TwoPhaseGetGXact_loop w2 xid2 _) as [[g'|]| | |];
        injection Hrun2 as <- <-; try reflexivity.
      by destruct (Hfail (Some g')).
Qed.

Lemma GetPreparedTransactionList_loop_run w idxs pairs :
  Forall2 (fun i gd => prepXact_at w i = Ok gd
                       ∧ pgprocno gd.2 = gd.1
                       ∧ is_Some (allProcs w !! gd.1) ∧ is_Some (allPgXact w !! gd.1))
    idxs pairs →
  GetPreparedTransactionList_loop w idxs = Ok (snd <$> pairs).
Proof.
  induction 1 as [|i gd idxs pairs (Hat & _) _ IH];
    cbn [GetPreparedTransactionList_loop]; [done|].
  rewrite Hat. cbn [rbind]. rewrite IH. reflexivity.
Qed.

Lemma pg_prepared_xact_percall_run w array n : ∀ rest0 k fuel,
  (length rest0 ≤ fuel)%nat →
  0 ≤ k → k + Z.of_nat (length rest0) = n → n < 2 ^ 31 →
  drop (Z.to_nat k) array = rest0 →
  Forall (fun d => is_Some (row_of w d)) rest0 →
  pg_prepared_xact_percall fuel
    {| ws_array := Some array; ws_ngxacts := n; ws_currIdx := k |} w
  = match skip_invalid rest0 with
    | [] => Ok (None, {| ws_array := Some array; ws_ngxacts := n; ws_currIdx := n |})
    | d :: rest =>
        match row_of w d with
        | Some row =>
            Ok (Some row, {| ws_array := Some array; ws_ngxacts := n;
                             ws_currIdx := n - Z.of_nat (length rest) |})
        | None => Fault
        end
    end.
Proof.
  induction rest0 as [|d rest IH]; intros k fuel Hfuel Hk Hn Hb Hdrop Hrows.
  - cbn [length] in Hn. cbn [skip_invalid].
    destruct fuel; cbn [pg_prepared_xact_percall ws_array ws_currIdx ws_ngxacts];
      (destruct (Z.ltb_spec k n) as [|_]; [lia|]); by replace k with n by lia.
  - cbn [length] in Hn, Hfuel. destruct fuel as [|fuel]; [lia|].
    cbn [pg_prepared_xact_percall ws_array ws_currIdx ws_ngxacts].
    destruct (Z.ltb_spec k n) as [_|]; [|lia].
    assert (Hd : array !! Z.to_nat k = Some d).
    { rewrite <- (Nat.add_0_r (Z.to_nat k)), <- lookup_drop, Hdrop. done. }
    rewrite Hd. cbn [load rbind].
    rewrite to_int32_id by lia.
    inversion Hrows as [|? ? [row Hrow] Hrest]; subst.
    cbn [skip_invalid]. destruct (valid d) eqn:Hv; cbn [negb].
    + rewrite Hrow. unfold row_of in Hrow.
      destruct (allPgXact w !! pgprocno d) as [x|]; [|done].
      destruct (allProcs w !! pgprocno d) as [p|]; [|done].
      cbn in Hrow. injection Hrow as <-. cbn [load rbind].
      do 3 f_equal. lia.
    + apply IH; [lia|lia|lia|lia| |done].
      replace (Z.to_nat (k + 1)) with (S (Z.to_nat k)) by lia.
      rewrite (drop_S _ _ _ Hd) in Hdrop. by injection Hdrop.
Qed.

Lemma pg_prepared_xact_calls_run w array n : ∀ rest0 k calls,
  0 ≤ k → k + Z.of_nat (length rest0) = n → n < 2 ^ 31 →
  drop (Z.to_nat k) array = rest0 →
  Forall (fun d => is_Some (row_of w d)) rest0 →
  (length (List.filter valid rest0) < calls)%nat →
  pg_prepared_xact_calls calls
    {| ws_array := Some array; ws_ngxacts := n; ws_currIdx := k |} w
  = Ok (omap (row_of w) (List.filter valid rest0)).
Proof.
  induction rest0 as [|d rest IH]; intros k calls Hk Hn Hb Hdrop Hrows Hcalls.
  - destruct calls as [|calls]; [cbn in Hcalls; lia|].
    cbn [pg_prepared_xact_calls ws_ngxacts].
    rewrite (pg_prepared_xact_percall_run w array n [] k); try done.
    cbn [length]. lia.
  - assert (Hd : array !! Z.to_nat k = Some d).
    { rewrite <- (Nat.add_0_r (Z.to_nat k)), <- lookup_drop, Hdrop. done. }
    assert (Hdrop' : drop (Z.to_nat (k + 1)) array = rest).
    { replace (Z.to_nat (k + 1)) with (S (Z.to_nat k)) by lia.
      rewrite (drop_S _ _ _ Hd) in Hdrop. by injection Hdrop. }
    pose proof Hrows as Hrows0.
    apply Forall_cons in Hrows as [[row Hrow] Hrest].
    cbn [length] in Hn.
    assert (Hhere : pg_prepared_xact_percall (Z.to_nat n)
                      {| ws_array := Some array; ws_ngxacts := n; ws_currIdx := k |} w
                    = match skip_invalid (d :: rest) with
                      | [] => Ok (None, {| ws_array := Some array; ws_ngxacts := n;
                                           ws_currIdx := n |})
                      | d :: rest =>
                          match row_of w d with
                          | Some row =>
                              Ok (Some row, {| ws_array := Some array; ws_ngxacts := n;
                                   ws_currIdx := n - Z.of_nat (length rest) |})
                          | None => Fault
                          end
                      end).
    { apply pg_prepared_xact_percall_run; try done; cbn [length]; lia. }
    assert (Hnext : pg_prepared_xact_percall (Z.to_nat n)
                      {| ws_array := Some array; ws_ngxacts := n; ws_currIdx := k + 1 |} w
                    = match skip_invalid rest with
                      | [] => Ok (None, {| ws_array := Some array; ws_ngxacts := n;
                                           ws_currIdx := n |})
                      | d :: rest =>
                          match row_of w d with
                          | Some row =>
                              Ok (Some row, {| ws_array := Some array; ws_ngxacts := n;
                                   ws_currIdx := n - Z.of_nat (length rest) |})
                          | None => Fault
                          end
                      end).
    { apply pg_prepared_xact_percall_run; try done; lia. }
    destruct calls as [|calls]; [lia|].
    cbn [List.filter] in Hcalls |- *.
    destruct (valid d) eqn:Hv.
    + cbn [pg_prepared_xact_calls ws_ngxacts]. rewrite Hhere.
      cbn [skip_invalid]. rewrite Hv, Hrow. cbn [rbind fst snd].
      replace (n - Z.of_nat (length rest)) with (k + 1) by lia.
      rewrite (IH (k + 1) calls); try done; [|lia|lia|cbn [length] in Hcalls; lia].
      cbn [omap list_omap]. rewrite Hrow. reflexivity.
    + rewrite <- (IH (k + 1) (S calls)); try done; [|lia|lia].
      cbn [pg_prepared_xact_calls ws_ngxacts]. rewrite Hhere, Hnext.
      cbn [skip_invalid]. by rewrite Hv.
Qed.

Lemma live_ptrs_backed w fl :
  registry_wf w fl →
  Forall (fun g => ∃ d p x, gxacts (TwoPhaseState w) !! g = Some d
                            ∧ allProcs w !! pgprocno d = Some p
                            ∧ allPgXact w !! pgprocno d = Some x)
    (live_ptrs (TwoPhaseState w)).
Proof.
  intros Hwf. apply Forall_forall. intros g Hg.
  destruct (live_gxact w fl g Hwf) as [d Hd]; [apply elem_of_app; by left|].
  pose proof (wf_procno_lookup _ _ _ _ Hwf Hd) as Hpn.
  pose proof (lookup_lt_Some _ _ _ Hd) as Hlt.
  destruct (wf_procs _ _ Hwf) as [Hlp Hlx].
  destruct (lookup_lt_is_Some_2 (allProcs w) g) as [p Hp]; [lia|].
  destruct (lookup_lt_is_Some_2 (allPgXact w) g) as [x Hx]; [lia|].
  exists d, p, x. by rewrite Hpn.
Qed.

Lemma rows_of_view w (l : list nat) :
  Forall (fun g => ∃ d p x, gxacts (TwoPhaseState w) !! g = Some d
                            ∧ allProcs w !! pgprocno d = Some p
                            ∧ allPgXact w !! pgprocno d = Some x) l →
  Forall (fun d => is_Some (row_of w d))
    (snd <$> omap (fun g => pair g <$> gxacts (TwoPhaseState w) !! g) l)
  ∧ omap (row_of w)
      (List.filter valid (snd <$> omap (fun g => pair g <$> gxacts (TwoPhaseState w) !! g) l))
    = view_row <$> List.filter px_valid (omap (entry_view w) l).
Proof.
  induction 1 as [|g l (d & p & x & Hd & Hp & Hx) _ [IH1 IH2]]; [by split|].
  assert (Hrow : row_of w d
                 = Some {| row_transaction := pgxact_xid x; row_gid := gid d;
                           row_prepared := prepared_at d; row_ownerid := owner d;
                           row_dbid := proc_databaseId p |}).
  { unfold row_of. rewrite Hx. cbn. rewrite Hp. reflexivity. }
  assert (Hview : entry_view w g
                  = Some {| px_xid := pgxact_xid x; px_gid := gid d;
                            px_prepared_at := prepared_at d; px_owner := owner d;
                            px_database := proc_databaseId p; px_valid := valid d |}).
  { unfold entry_view. rewrite Hd. cbn. rewrite Hp. cbn. rewrite Hx. reflexivity. }
  simpl. rewrite Hd, Hview. simpl. split.
  - constructor; [by rewrite Hrow|exact IH1].
  - destruct (valid d); simpl; [|exact IH2].
    rewrite Hrow. f_equal. exact IH2.
Qed.

Lemma pg_prepared_xact_run w fl :
  registry_wf w fl →
  Z.of_nat max_prepared_xacts < 2 ^ 31 →
  pg_prepared_xact w = Ok (view_row <$> List.filter px_valid (registry_view w)).
Proof.
  intros Hwf Hmax.
  pose proof (live_ptrs_length w fl Hwf) as Hlen.
  pose proof (wf_room _ _ Hwf) as Hroom. pose proof (wf_cap _ _ Hwf) as Hcap.
  destruct (rows_of_view w _ (live_ptrs_backed w fl Hwf)) as [Hrows Hview].
  fold (live_pairs (TwoPhaseState w)) in Hrows, Hview.
  fold (registry_view w) in Hview.
  unfold pg_prepared_xact, pg_prepared_xact_firstcall, GetPreparedTransactionList.
  destruct (Nat.eqb_spec (numPrepXacts (TwoPhaseState w)) 0) as [H0 | Hpos].
  - cbn. unfold registry_view.
    destruct (live_ptrs (TwoPhaseState w)); [reflexivity|]. cbn in Hlen. lia.
  - rewrite (GetPreparedTransactionList_loop_run w _ _ (prepXact_at_scan w fl Hwf)).
    cbn [rbind fst snd ws_ngxacts].
    assert (Hal : length (snd <$> live_pairs (TwoPhaseState w))
                  = numPrepXacts (TwoPhaseState w)).
    { by rewrite length_fmap, (live_pairs_length w fl). }
    rewrite (pg_prepared_xact_calls_run w _ _ (snd <$> live_pairs (TwoPhaseState w)) 0);
      try done.
    + by rewrite Hview.
    + lia.
    + lia.
    + pose proof (filter_length_le valid (snd <$> live_pairs (TwoPhaseState w))). lia.
Qed.

(** X6.  One scan of pg_prepared_xact over a well-formed registry
    returns a row for each live entry that is valid, in the order of
    the active array, with the xid, GID, time, owner and database of
    the entry; entries that are not yet valid give no row, an empty
    registry gives none. *)
Theorem pg_prepared_xact_shows_the_valid_entries w fl :
  registry_wf w fl →
  Z.of_nat max_prepared_xacts < 2 ^ 31 →
  pg_prepared_xact w = Ok (view_row <$> List.filter px_valid (registry_view w)).
Proof. apply pg_prepared_xact_run. Qed.

(** ** The prepared transactions of a checkpoint *)

Lemma TwoPhaseAddPreparedTransaction_run ptas maxCount xid xlogPtr acc :
  0 ≤ ptas_count ptas ≤ maxCount →
  ptas_count ptas < 2 ^ 30 →
  10 ≤ maxCount < 2 ^ 31 →
  length (ptas_maps ptas) = Z.to_nat maxCount →
  take (Z.to_nat (ptas_count ptas)) (ptas_maps ptas) = acc →
  ∃ ptas' maxCount',
    TwoPhaseAddPreparedTransaction ptas maxCount xid xlogPtr = Ok (ptas', maxCount')
    ∧ ptas_count ptas' = ptas_count ptas + 1
    ∧ ptas_count ptas' ≤ maxCount'
    ∧ 10 ≤ maxCount' < 2 ^ 31
    ∧ length (ptas_maps ptas') = Z.to_nat maxCount'
    ∧ take (Z.to_nat (ptas_count ptas')) (ptas_maps ptas') = acc ++ [mkprpt_map xid xlogPtr].
Proof.
  intros Hc Hb HM Hlen Hacc. unfold TwoPhaseAddPreparedTransaction. cbv zeta.
  set (c := ptas_count ptas) in *.
  destruct (Z.eqb_spec c maxCount) as [Heq | Hne]; cbn [fst snd ptas_count ptas_maps].
  - rewrite to_int32_id by lia.
    set (maps1 := take (Z.to_nat c) (ptas_maps ptas) ++
                  drop (Z.to_nat c) (ptas_maps (palloc0_agg_state (maxCount * 2)))).
    assert (Hl1 : length maps1 = Z.to_nat (maxCount * 2)).
    { subst maps1. rewrite length_app, length_take, length_drop. cbn [palloc0_agg_state ptas_maps].
      rewrite length_replicate. lia. }
    assert (Ht1 : take (Z.to_nat c) maps1 = acc).
    { subst maps1. rewrite take_app_le by (rewrite length_take; lia).
      rewrite take_take. replace (Z.to_nat c `min` Z.to_nat c)%nat with (Z.to_nat c) by lia.
      exact Hacc. }
    destruct (Z.leb_spec 0 c) as [_|]; [|lia].
    destruct (Nat.ltb_spec (Z.to_nat c) (length maps1)) as [Hlt|]; [|lia].
    cbn [andb]. eexists _, _. split; [reflexivity|]. cbn [ptas_count ptas_maps].
    rewrite to_int32_id by lia. rewrite length_insert.
    repeat split; try lia.
    replace (Z.to_nat (c + 1)) with (S (Z.to_nat c)) by lia.
    rewrite take_S_insert by done. by rewrite Ht1.
  - destruct (Z.leb_spec 0 c) as [_|]; [|lia].
    destruct (Nat.ltb_spec (Z.to_nat c) (length (ptas_maps ptas))) as [Hlt|]; [|lia].
    cbn [andb]. eexists _, _. split; [reflexivity|]. cbn [ptas_count ptas_maps].
    fold c. rewrite to_int32_id by lia. rewrite length_insert.
    repeat split; try lia.
    replace (Z.to_nat (c + 1)) with (S (Z.to_nat c)) by lia.
    rewrite take_S_insert by done. by rewrite Hacc.
Qed.

Lemma getTwoPhasePreparedTransactionData_loop_run w idxs pairs :
  Forall2 (fun i gd => prepXact_at w i = Ok gd
                       ∧ pgprocno gd.2 = gd.1
                       ∧ is_Some (allProcs w !! gd.1) ∧ is_Some (allPgXact w !! gd.1))
    idxs pairs →
  ∀ ptas maxCount acc,
  0 ≤ ptas_count ptas ≤ maxCount →
  ptas_count ptas + Z.of_nat (length pairs) < 2 ^ 30 →
  10 ≤ maxCount < 2 ^ 31 →
  length (ptas_maps ptas) = Z.to_nat maxCount →
  take (Z.to_nat (ptas_count ptas)) (ptas_maps ptas) = acc →
  ∃ ptas' maxCount',
    getTwoPhasePreparedTransactionData_loop w idxs ptas maxCount = Ok (ptas', maxCount')
    ∧ ptas_count ptas'
      = ptas_count ptas + Z.of_nat (length (omap (checkpoint_entry w) pairs))
    ∧ ptas_count ptas' ≤ maxCount'
    ∧ length (ptas_maps ptas') = Z.to_nat maxCount'
    ∧ take (Z.to_nat (ptas_count ptas')) (ptas_maps ptas')
      = acc ++ omap (checkpoint_entry w) pairs.
Proof.
  induction 1 as [|i gd idxs pairs (Hat & Hpn & _ & [x Hx]) _ IH];
    intros ptas maxCount acc Hc Hb HM Hlen Hacc;
    cbn [getTwoPhasePreparedTransactionData_loop].
  - exists ptas, maxCount. split; [done|]. cbn. rewrite app_nil_r.
    repeat split; try done; lia.
  - rewrite Hat. cbn [rbind]. cbv zeta. cbn [length] in Hb.
    assert (Hce : checkpoint_entry w gd
                  = if valid gd.2
                    then Some (mkprpt_map (pgxact_xid x) (prepare_begin_lsn gd.2))
                    else None).
    { unfold checkpoint_entry. by rewrite Hpn, Hx. }
    change (omap (checkpoint_entry w) (gd :: pairs))
      with (match checkpoint_entry w gd with
            | Some y => y :: omap (checkpoint_entry w) pairs
            | None => omap (checkpoint_entry w) pairs
            end).
    rewrite Hce.
    destruct (valid gd.2) eqn:Hv; cbn [negb].
    + rewrite Hpn, Hx. cbn [load rbind].
      destruct (TwoPhaseAddPreparedTransaction_run ptas maxCount (pgxact_xid x)
                  (prepare_begin_lsn gd.2) acc)
        as (ptas1 & M1 & -> & Hc1 & Hle1 & HM1 & Hlen1 & Hacc1); try done; [lia|].
      cbn [rbind fst snd].
      destruct (IH ptas1 M1 (acc ++ [mkprpt_map (pgxact_xid x) (prepare_begin_lsn gd.2)]))
        as (ptas' & M' & -> & Hc' & Hle' & Hlen' & Hacc'); try done; [lia|lia|].
      exists ptas', M'. split; [done|]. cbn [length].
      rewrite Hacc', <- app_assoc. repeat split; try done; lia.
    + destruct (IH ptas maxCount acc)
        as (ptas' & M' & -> & Hc' & Hle' & Hlen' & Hacc'); try done; [lia|].
      by exists ptas', M'.
Qed.

(** X15.  getTwoPhasePreparedTransactionData returns, for a
    well-formed registry, an array whose [count] first elements are the
    xid and the begin location of the prepare record of each live
    entry that is valid, in the order of the active array; [count] is
    their number, entries that are not valid are left out, and the
    array is grown in time: no store falls outside it. *)
Theorem getTwoPhasePreparedTransactionData_gathers_the_valid_entries w fl :
  registry_wf w fl →
  Z.of_nat max_prepared_xacts < 2 ^ 30 →
  ∃ ptas,
    getTwoPhasePreparedTransactionData w = Ok ptas
    ∧ ptas_count ptas = Z.of_nat (length (checkpoint_entries w))
    ∧ (length (checkpoint_entries w) ≤ length (ptas_maps ptas))%nat
    ∧ take (length (checkpoint_entries w)) (ptas_maps ptas) = checkpoint_entries w.
Proof.
  intros Hwf Hmax.
  pose proof (live_pairs_length w fl Hwf) as Hlen.
  pose proof (wf_room _ _ Hwf) as Hroom. pose proof (wf_cap _ _ Hwf) as Hcap.
  unfold getTwoPhasePreparedTransactionData, TwoPhaseAddPreparedTransactionInit.
  destruct (getTwoPhasePreparedTransactionData_loop_run w _ _ (prepXact_at_scan w fl Hwf)
              (palloc0_agg_state 10) 10 [])
    as (ptas & M & -> & Hc & Hle & Hl & Hacc); try done; cbn [ptas_count palloc0_agg_state].
  - lia.
  - exists ptas. split; [done|]. fold (checkpoint_entries w) in Hc, Hacc.
    cbn [ptas_count palloc0_agg_state] in Hc. rewrite Z.add_0_l in Hc.
    rewrite Hc, Nat2Z.id in Hacc. cbn [app] in Hacc.
    repeat split; try done. lia.
Qed.

Lemma hash_enter_new xid m l :
  xid ∉ pm_xid <$> l → hash_enter xid m l = l ++ [mkprpt_map xid m].
Proof.
  induction l as [|e l IH]; intros Hnew; cbn [hash_enter]; [done|].
  cbn [fmap list_fmap] in Hnew. apply not_elem_of_cons in Hnew as [Hne Hl].
  destruct (Z.eqb_spec (pm_xid e) xid) as [Heq|_]; [by subst|].
  cbn [app]. f_equal. by apply IH.
Qed.

Lemma SetupCheckpoint_loop_run (maps : list prpt_map) idxs entries :
  Forall2 (fun i e => maps !! i = Some e) idxs entries →
  ∀ w,
  NoDup (pm_xid <$> (default [] (map_ht w) ++ entries)) →
  for_each idxs
    (fun iPrep =>
       m <- deref (maps !! iPrep) ;;
       add_recover_post_checkpoint_prepared_transactions_map_entry
         (pm_xid m) (pm_xlogrecptr m)) w
  = (Done tt,
     match entries with
     | [] => w
     | _ :: _ => set_map_ht (Some (default [] (map_ht w) ++ entries)) w
     end).
Proof.
  induction 1 as [|i e idxs entries He _ IH]; intros w Hnd; cbn [for_each]; [done|].
  unfold bind at 1. unfold bind at 1. rewrite He. cbn [deref]. unfold ret.
  unfold add_recover_post_checkpoint_prepared_transactions_map_entry, modify.
  assert (Hnew : pm_xid e ∉ pm_xid <$> default [] (map_ht w)).
  { rewrite fmap_app in Hnd. apply NoDup_app in Hnd as (_ & Hdis & _).
    intros Hin. apply (Hdis _ Hin). cbn. apply list_elem_of_here. }
  rewrite hash_enter_new by done.
  assert (He' : mkprpt_map (pm_xid e) (pm_xlogrecptr e) = e) by by destruct e.
  rewrite He'. rewrite IH.
  - f_equal. cbn [map_ht set_map_ht default].
    destruct entries as [|e' entries]; [reflexivity|].
    unfold id. rewrite <- app_assoc. reflexivity.
  - cbn [map_ht set_map_ht default]. unfold id. by rewrite <- app_assoc.
Qed.

(** X16.  SetupCheckpointPreparedTransactionList adds the first
    [count] elements of the array to the table of prepared
    transactions and reads no element beyond them; with xids that are
    distinct from each other and from those of the table, the table
    then holds its former entries and these.  With a count of zero the
    table is not even created. *)
Theorem SetupCheckpointPreparedTransactionList_loads_the_table ptas w :
  0 ≤ ptas_count ptas ≤ Z.of_nat (length (ptas_maps ptas)) →
  NoDup (pm_xid <$> (default [] (map_ht w)
                     ++ take (Z.to_nat (ptas_count ptas)) (ptas_maps ptas))) →
  SetupCheckpointPreparedTransactionList ptas w
  = (Done tt,
     if ptas_count ptas =? 0 then w
     else set_map_ht
            (Some (default [] (map_ht w)
                   ++ take (Z.to_nat (ptas_count ptas)) (ptas_maps ptas))) w).
Proof.
  intros Hc Hnd. unfold SetupCheckpointPreparedTransactionList.
  rewrite (SetupCheckpoint_loop_run (ptas_maps ptas) _
             (take (Z.to_nat (ptas_count ptas)) (ptas_maps ptas))); [|
    |done].
  - f_equal. destruct (Z.eqb_spec (ptas_count ptas) 0) as [->|Hne]; [done|].
    destruct (take (Z.to_nat (ptas_count ptas)) (ptas_maps ptas)) eqn:Ht; [|done].
    apply (f_equal length) in Ht. rewrite length_take in Ht. cbn in Ht. lia.
  - apply Forall2_same_length_lookup. split.
    + rewrite length_seq, length_take. lia.
    + intros i j e Hj He. apply lookup_seq in Hj as [-> Hlt]. cbn.
      by rewrite lookup_take_lt in He by lia.
Qed.

(** ** The oldest prepared transaction of a checkpoint *)

Lemma getTwoPhaseOldest_loop_run (m : list prpt_map) n : ∀ k oldest eo,
  (k + n ≤ length m)%nat →
  (oldest < k)%nat →
  m !! oldest = Some eo →
  (∀ j e, (j < k)%nat → m !! j = Some e →
          pm_xlogrecptr eo ≤ pm_xlogrecptr e
          ∧ ((oldest < j)%nat → pm_xlogrecptr eo < pm_xlogrecptr e)) →
  ∃ i ei,
    getTwoPhaseOldest_loop m (seq k n) oldest = Ok i
    ∧ (i < k + n)%nat ∧ m !! i = Some ei
    ∧ ∀ j e, (j < k + n)%nat → m !! j = Some e →
             pm_xlogrecptr ei ≤ pm_xlogrecptr e
             ∧ ((i < j)%nat → pm_xlogrecptr ei < pm_xlogrecptr e).
Proof.
  induction n as [|n IH]; intros k oldest eo Hlen Ho Heo Hmin;
    cbn [seq getTwoPhaseOldest_loop].
  - exists oldest, eo. rewrite Nat.add_0_r. split; [done|]. split; [lia|]. done.
  - destruct (lookup_lt_is_Some_2 m k) as [ek Hek]; [lia|].
    rewrite Hek, Heo. cbn [load rbind].
    destruct (Z.leb_spec (pm_xlogrecptr ek) (pm_xlogrecptr eo)) as [Hle | Hgt].
    + destruct (IH (S k) k ek) as (i & ei & -> & Hi & Hei & Hall); try done; try lia.
      { intros j e Hj He. destruct (decide (j = k)) as [->|Hne].
        - rewrite Hek in He. injection He as <-. split; [lia|lia].
        - destruct (Hmin j e) as [H1 H2]; [lia|done|]. split; [lia|lia]. }
      exists i, ei. split; [done|]. split; [lia|]. split; [done|].
      intros j e Hj. apply Hall. lia.
    + destruct (IH (S k) oldest eo) as (i & ei & -> & Hi & Hei & Hall); try done; try lia.
      { intros j e Hj He. destruct (decide (j = k)) as [->|Hne].
        - rewrite Hek in He. injection He as <-. split; [lia|lia].
        - apply Hmin; [lia|done]. }
      exists i, ei. split; [done|]. split; [lia|]. split; [done|].
      intros j e Hj. apply Hall. lia.
Qed.

(** X17.  getTwoPhaseOldestPreparedTransactionXLogRecPtr returns
    NULL when the count is not positive; otherwise it points at an
    element among the first [count] whose location is the least, and
    at the last such element when several share it. *)
Theorem getTwoPhaseOldestPreparedTransactionXLogRecPtr_is_the_minimum ptas :
  ptas_count ptas ≤ Z.of_nat (length (ptas_maps ptas)) →
  if 0 <? ptas_count ptas then
    ∃ i ei,
      getTwoPhaseOldestPreparedTransactionXLogRecPtr ptas = Ok (Some i)
      ∧ Z.of_nat i < ptas_count ptas
      ∧ ptas_maps ptas !! i = Some ei
      ∧ ∀ j e, Z.of_nat j < ptas_count ptas → ptas_maps ptas !! j = Some e →
               pm_xlogrecptr ei ≤ pm_xlogrecptr e
               ∧ ((i < j)%nat → pm_xlogrecptr ei < pm_xlogrecptr e)
  else getTwoPhaseOldestPreparedTransactionXLogRecPtr ptas = Ok None.
Proof.
  intros Hc. unfold getTwoPhaseOldestPreparedTransactionXLogRecPtr. cbv zeta.
  destruct (Z.ltb_spec 0 (ptas_count ptas)) as [Hpos | Hneg]; [|done].
  destruct (lookup_lt_is_Some_2 (ptas_maps ptas) 0) as [e0 He0]; [lia|].
  destruct (getTwoPhaseOldest_loop_run (ptas_maps ptas)
              (Z.to_nat (ptas_count ptas) - 1) 1 0 e0)
    as (i & ei & -> & Hi & Hei & Hall); try done; try lia.
  { intros j e Hj He. assert (j = 0%nat) as -> by lia.
    rewrite He0 in He. injection He as <-. split; lia. }
  exists i, ei. split; [done|]. split; [lia|]. split; [done|].
  intros j e Hj. apply Hall. lia.
Qed.

(** ** The table of prepared transactions seen in the log *)

Lemma hash_enter_elem xid m l e :
  NoDup (pm_xid <$> l) →
  e ∈ hash_enter xid m l ↔ e = mkprpt_map xid m ∨ (e ∈ l ∧ pm_xid e ≠ xid).
Proof.
  induction l as [|a l IH]; intros Hnd; cbn [hash_enter].
  - rewrite list_elem_of_singleton. split; [by left|]. intros [?|[Hin _]]; [done|].
    by apply elem_of_nil in Hin.
  - cbn [fmap list_fmap] in Hnd. apply NoDup_cons in Hnd as [Hfresh Hnd].
    destruct (Z.eqb_spec (pm_xid a) xid) as [Heq | Hne].
    + rewrite !elem_of_cons. split.
      * intros [->|Hin]; [by left|]. right. split; [by right|].
        intros Hx. apply Hfresh. rewrite Heq, <- Hx.
        apply list_elem_of_fmap. by exists e.
      * intros [->|[[->|Hin] Hx]]; [by left|done|by right].
    + rewrite !elem_of_cons, (IH Hnd). split.
      * intros [->|[->|[Hin Hx]]]; [right; split; [by left|done]|by left|].
        right. split; [by right|done].
      * intros [->|[[->|Hin] Hx]]; [right; by left|by left|].
        right. right. done.
Qed.

Lemma hash_enter_keys xid m l :
  NoDup (pm_xid <$> l) → NoDup (pm_xid <$> hash_enter xid m l).
Proof.
  induction l as [|a l IH]; intros Hnd; cbn [hash_enter].
  - cbn. apply NoDup_singleton.
  - cbn [fmap list_fmap] in Hnd. apply NoDup_cons in Hnd as [Hfresh Hnd].
    destruct (Z.eqb_spec (pm_xid a) xid) as [Heq | Hne]; cbn [fmap list_fmap].
    + apply NoDup_cons. split; [by rewrite <- Heq|done].
    + apply NoDup_cons. split; [|by apply IH].
      intros Hin. apply list_elem_of_fmap in Hin as (e & He & Hin).
      apply (hash_enter_elem _ _ _ _ Hnd) in Hin as [->|[Hin _]].
      * cbn in He. done.
      * apply Hfresh. rewrite He. apply list_elem_of_fmap. by exists e.
Qed.

(** X13.  Adding an xid to the table of prepared transactions
    (also through RecreateTwoPhaseFile) creates the table when there
    is none, replaces the location of an xid the table already holds
    and keeps the entries of the other xids: the table never holds two
    entries for one xid. *)
Theorem add_recover_map_entry_keeps_one_entry_per_xid xid m w :
  NoDup (pm_xid <$> default [] (map_ht w)) →
  ∃ l,
    add_recover_post_checkpoint_prepared_transactions_map_entry xid m w
    = (Done tt, set_map_ht (Some l) w)
    ∧ RecreateTwoPhaseFile xid [] 0 m w = (Done tt, set_map_ht (Some l) w)
    ∧ NoDup (pm_xid <$> l)
    ∧ ∀ e, e ∈ l ↔ e = mkprpt_map xid m
                   ∨ (e ∈ default [] (map_ht w) ∧ pm_xid e ≠ xid).
Proof.
  intros Hnd. exists (hash_enter xid m (default [] (map_ht w))).
  split; [reflexivity|]. split; [reflexivity|].
  split; [by apply hash_enter_keys|]. intros e. by apply hash_enter_elem.
Qed.

Lemma filter_hash_enter xid m l :
  filter (fun e => pm_xid e ≠ xid) (hash_enter xid m l)
  = filter (fun e => pm_xid e ≠ xid) l.
Proof.
  induction l as [|a l IH]; cbn [hash_enter].
  - rewrite filter_cons_False; [done|]. cbn. by intros H.
  - destruct (Z.eqb_spec (pm_xid a) xid) as [Heq | Hne].
    + rewrite filter_cons_False by (cbn; by intros H).
      rewrite filter_cons_False; [done|]. by intros H.
    + rewrite !filter_cons_True by done. by rewrite IH.
Qed.

(** X14.  Removing an xid right after adding it leaves the table
    with the entries it had for the other xids and none for this one;
    removing from a table that was never created leaves it
    uncreated. *)
Theorem remove_recover_map_entry_undoes_add xid m w :
  (add_recover_post_checkpoint_prepared_transactions_map_entry xid m ;;;
   remove_recover_post_checkpoint_prepared_transactions_map_entry xid) w
  = (Done tt,
     set_map_ht (Some (filter (fun e => pm_xid e ≠ xid) (default [] (map_ht w))))
       (set_events (events w ++ [EvRemoveMapEntry xid]) w))
  ∧ (map_ht w = None →
     remove_recover_post_checkpoint_prepared_transactions_map_entry xid w
     = (Done tt, set_events (events w ++ [EvRemoveMapEntry xid]) w)).
Proof.
  split.
  - unfold add_recover_post_checkpoint_prepared_transactions_map_entry,
      remove_recover_post_checkpoint_prepared_transactions_map_entry.
    rewrite bind_modify, bind_log. unfold modify. wsimpl.
    by rewrite filter_hash_enter.
  - intros Hnone.
    unfold remove_recover_post_checkpoint_prepared_transactions_map_entry.
    rewrite bind_log. unfold modify. wsimpl. by rewrite Hnone.
Qed.

(** ** The outcome records *)

Lemma set_status_tree_all st xid children c :
  Forall (fun x => set_status_tree st xid children c !! x = Some st) (xid :: children).
Proof.
  unfold set_status_tree. induction (xid :: children) as [|a l IH]; [constructor|].
  cbn [foldr]. constructor.
  - apply lookup_insert_eq.
  - eapply Forall_impl; [exact IH|]. intros x Hx. cbn beta in Hx |- *.
    destruct (decide (a = x)) as [->|Hne].
    + apply lookup_insert_eq.
    + by rewrite lookup_insert_ne.
Qed.

(** X12.  RecordTransactionAbortPrepared stops with PANIC "cannot
    abort transaction, it was already committed" when the status store
    shows the xid committed, before anything is written.  Otherwise it
    inserts the abort record at the insert position of the log,
    flushes the log up to the end of that record and marks the xid and
    its subtransactions aborted; the registry does not change. *)
Theorem RecordTransactionAbortPrepared_refuses_a_committed_xid
    xid nchildren children nrels rels w :
  match clog w !! xid with
  | Some TRANSACTION_STATUS_COMMITTED =>
      RecordTransactionAbortPrepared xid nchildren children nrels rels w
      = (Raise PANIC ERRCODE_INTERNAL_ERROR msg_already_committed, w)
  | _ =>
      ∃ w' rdata,
        RecordTransactionAbortPrepared xid nchildren children nrels rels w
        = (Done tt, w')
        ∧ xlog_records (xlog w') !! xlog_insert_pos (xlog w)
          = Some (mkXLogRecord (XLOG_XACT_ABORT_PREPARED xid nrels nchildren) rdata)
        ∧ xlog_insert_pos (xlog w') ≤ xlog_flushed (xlog w')
        ∧ Forall (fun x => clog w' !! x = Some TRANSACTION_STATUS_ABORTED)
            (xid :: read_xids children nchildren)
        ∧ TwoPhaseState w' = TwoPhaseState w
  end.
Proof.
  unfold RecordTransactionAbortPrepared.
  assert (Hdid : ∀ B (k : bool → M B),
            bind (TransactionIdDidCommit xid) k w
            = k match clog w !! xid with
                | Some TRANSACTION_STATUS_COMMITTED => true
                | _ => false
                end w) by done.
  rewrite Hdid.
  assert (Hrun : ∃ w' rdata,
     (when false (ereport PANIC ERRCODE_INTERNAL_ERROR msg_already_committed) ;;;
      let rdata :=
        (if 0 <? nrels
         then [array_bytes rels (wrap32 (nrels * sizeof_RelFileNodePendingDelete))]
         else []) ++
        (if 0 <? nchildren
         then [array_bytes children (wrap32 (nchildren * sizeof_TransactionId))]
         else []) in
      recptr <- XLogInsert (XLOG_XACT_ABORT_PREPARED xid nrels nchildren) rdata ;;
      XLogFlush recptr ;;;
      TransactionIdAbortTree xid (read_xids children nchildren) ;;;
      log (EvSyncRepWaitForLSN recptr)) w = (Done tt, w')
     ∧ xlog_records (xlog w') !! xlog_insert_pos (xlog w)
       = Some (mkXLogRecord (XLOG_XACT_ABORT_PREPARED xid nrels nchildren) rdata)
     ∧ xlog_insert_pos (xlog w') ≤ xlog_flushed (xlog w')
     ∧ Forall (fun x => clog w' !! x = Some TRANSACTION_STATUS_ABORTED)
         (xid :: read_xids children nchildren)
     ∧ TwoPhaseState w' = TwoPhaseState w).
  { rewrite bind_when_false. cbv zeta. unfold XLogInsert.
    rewrite bind_assoc, bind_get. cbv zeta. rewrite bind_assoc, bind_modify.
    rewrite bind_assoc, bind_log, bind_ret.
    unfold XLogFlush. rewrite bind_assoc, bind_modify, bind_log.
    unfold TransactionIdAbortTree. rewrite bind_assoc, bind_modify, bind_log.
    unfold log, modify. eexists _, _. split; [reflexivity|].
    wsimpl. cbn [xlog_records xlog_insert_pos xlog_flushed].
    split; [apply lookup_insert_eq|]. split; [lia|].
    split; [apply set_status_tree_all|done]. }
  destruct (clog w !! xid) as [[]|]; [|exact Hrun|exact Hrun].
  rewrite bind_when_true, bind_ereport. reflexivity.
Qed.

(** X27.  RecordTransactionCommitPrepared always returns.  It inserts
    at the insert position of the log a commit record that carries the
    xid, the distributed timestamp and xid cracked out of the GID, the
    database and tablespace of the backend and the three counts,
    flushes the log up to the end of that record and marks the xid and
    its subtransactions committed; the registry does not change. *)
Theorem RecordTransactionCommitPrepared_marks_the_tree_committed
    xid gid0 nchildren children nrels rels ninvalmsgs invalmsgs initfileinval w :
  ∃ w' rdata,
    RecordTransactionCommitPrepared xid gid0 nchildren children nrels rels
      ninvalmsgs invalmsgs initfileinval w = (Done tt, w')
    ∧ xlog_records (xlog w') !! xlog_insert_pos (xlog w)
      = Some (mkXLogRecord
                (XLOG_XACT_COMMIT_PREPARED xid (dtxCrackOpenGid gid0).1
                   (dtxCrackOpenGid gid0).2 MyDatabaseId MyDatabaseTableSpace
                   nrels nchildren ninvalmsgs) rdata)
    ∧ xlog_insert_pos (xlog w') ≤ xlog_flushed (xlog w')
    ∧ Forall (fun x => clog w' !! x = Some TRANSACTION_STATUS_COMMITTED)
        (xid :: read_xids children nchildren)
    ∧ TwoPhaseState w' = TwoPhaseState w.
Proof.
  unfold RecordTransactionCommitPrepared.
  destruct (dtxCrackOpenGid gid0) as [distribTimeStamp distribXid]. cbv zeta.
  unfold XLogInsert.
  rewrite bind_assoc, bind_get. cbv zeta. rewrite bind_assoc, bind_modify.
  rewrite bind_assoc, bind_log, bind_ret.
  unfold XLogFlush. rewrite bind_assoc, bind_modify, bind_log, bind_log.
  unfold TransactionIdCommitTree. rewrite bind_assoc, bind_modify, bind_log.
  unfold log, modify. eexists _, _. split; [reflexivity|].
  wsimpl. cbn [xlog_records xlog_insert_pos xlog_flushed].
  split; [apply lookup_insert_eq|]. split; [lia|].
  split; [apply set_status_tree_all|done].
Qed.

(** ** Entries leaving the registry *)

(** X2.  RemoveGXact of a pointer that is in the active array
    takes it out of the array and puts its struct at the head of the
    free list; the registry stays well-formed and every other entry is
    as it was.  For a pointer that is not in the active array it
    raises the internal error "failed to find ... in GlobalTransaction
    array" and changes nothing. *)
Theorem RemoveGXact_frees_a_live_entry_only w fl g :
  registry_wf w fl →
  if bool_decide (g ∈ live_ptrs (TwoPhaseState w)) then
    ∃ w', RemoveGXact g w = (Done tt, w')
          ∧ registry_wf w' (g :: fl)
          ∧ live_ptrs (TwoPhaseState w) ≡ₚ g :: live_ptrs (TwoPhaseState w')
          ∧ (∀ g', g' ≠ g → entry_view w' g' = entry_view w g')
  else
    RemoveGXact g w = (Raise ERROR ERRCODE_INTERNAL_ERROR msg_failed_to_find_gxact, w).
Proof.
  intros Hwf. destruct (bool_decide_reflect (g ∈ live_ptrs (TwoPhaseState w))) as [Hin|Hout].
  - apply list_elem_of_lookup in Hin as [i Hi].
    destruct (live_gxact w fl g Hwf) as [d Hd].
    { apply elem_of_app. left. by eapply list_elem_of_lookup_2. }
    destruct (RemoveGXact_wf w fl g i d Hwf Hi Hd) as (w' & Hrun & Hwf' & Hperm & _).
    exists w'. split; [exact Hrun|]. split; [exact Hwf'|]. split; [exact Hperm|].
    intros g' Hne. rewrite (RemoveGXact_exec w fl g i d Hwf Hi Hd) in Hrun.
    injection Hrun as <-. unfold entry_view. wsimpl.
    by rewrite list_lookup_insert_ne.
  - unfold RemoveGXact. rewrite bind_get.
    unfold bind. rewrite for_first_none; [reflexivity|].
    intros i Hi. apply elem_of_seq in Hi as [_ Hi]. cbn in Hi.
    unfold RemoveGXact_body. rewrite bind_get.
    destruct (live_slot w fl i Hwf Hi) as (g' & Hp & Hl).
    rewrite bool_decide_eq_false_2; [reflexivity|].
    rewrite Hp. intros [= ->]. apply Hout. by eapply list_elem_of_lookup_2.
Qed.

(** X3.  The struct that RemoveGXact has freed is the one the
    next MarkAsPreparing takes: the call returns the same pointer, and
    the entry then shows the new transaction, not yet valid. *)
Theorem RemoveGXact_then_MarkAsPreparing_reuses_the_struct
    w fl g xid ldx gid0 ts own db lsn :
  registry_wf w fl →
  g ∈ live_ptrs (TwoPhaseState w) →
  Z.of_nat (String.length gid0) < GIDSIZE →
  (∀ g' v, g' ∈ live_ptrs (TwoPhaseState w) → g' ≠ g →
           entry_view w g' = Some v → px_gid v ≠ gid0) →
  ∃ w1 w2,
    RemoveGXact g w = (Done tt, w1)
    ∧ MarkAsPreparing xid ldx gid0 ts own db lsn w1 = (Done g, w2)
    ∧ entry_view w2 g = Some (mkPreparedXact xid gid0 ts own db false).
Proof.
  intros Hwf Hin Hshort Hfree.
  pose proof Hin as Hin0.
  apply list_elem_of_lookup in Hin as [i Hi].
  destruct (live_gxact w fl g Hwf) as [d Hd].
  { apply elem_of_app. by left. }
  destruct (RemoveGXact_wf w fl g i d Hwf Hi Hd) as (w1 & Hrun & Hwf1 & Hperm & _).
  pose proof Hrun as Hexec. rewrite (RemoveGXact_exec w fl g i d Hwf Hi Hd) in Hexec.
  exists w1. rewrite (MarkAsPreparing_run xid ldx gid0 ts own db lsn w1 (g :: fl) Hwf1).
  destruct (Z.leb_spec GIDSIZE (Z.of_nat (String.length gid0))) as [|_]; [lia|].
  assert (Hcap : max_prepared_xacts ≠ 0%nat).
  { pose proof (wf_room _ _ Hwf) as Hroom. pose proof (wf_cap _ _ Hwf) as Hcap.
    pose proof (live_ptrs_length w fl Hwf) as Hlen.
    apply lookup_lt_Some in Hi. lia. }
  destruct (Nat.eqb_spec max_prepared_xacts 0) as [|_]; [done|].
  assert (Hd1 : gxacts (TwoPhaseState w1) !! g
                = Some (set_next (freeGXacts (TwoPhaseState w)) d)).
  { injection Hexec as <-. wsimpl. apply list_lookup_insert_eq.
    by eapply lookup_lt_Some. }
  rewrite bool_decide_eq_false_2.
  - rewrite Hd1. eexists. split; [exact Hrun|]. split; [reflexivity|].
    pose proof (wf_procno_lookup _ _ _ _ Hwf Hd) as Hpn.
    pose proof (lookup_lt_Some _ _ _ Hd) as Hlt.
    destruct (wf_procs _ _ Hwf) as [Hlp Hlx].
    assert (Hp1 : allProcs w1 = allProcs w) by (by injection Hexec as <-).
    assert (Hx1 : allPgXact w1 = allPgXact w) by (by injection Hexec as <-).
    assert (Hl1 : length (gxacts (TwoPhaseState w1)) = length (gxacts (TwoPhaseState w))).
    { injection Hexec as <-. wsimpl. by rewrite length_insert. }
    unfold entry_view, reserved, exit_hook_registered. wsimpl.
    rewrite list_lookup_insert_eq by lia. cbn [mbind option_bind].
    unfold reserved_gxact. wsimpl. rewrite Hpn.
    destruct (twophaseExitRegistered w1); wsimpl;
      rewrite !list_lookup_insert_eq by (rewrite ?Hp1, ?Hx1; lia); reflexivity.
  - intros Hdup. apply list_elem_of_fmap in Hdup as (d' & Hgid & Hd').
    apply list_elem_of_lookup in Hd' as [j Hj].
    destruct (live_entries_inv w1 (g :: fl) j d' Hwf1 Hj) as (g' & Hg' & _ & Hgd').
    assert (Hne : g' ≠ g).
    { intros ->. pose proof (wf_nodup _ _ Hwf1) as Hnd.
      apply NoDup_app in Hnd as (_ & Hdis & _).
      apply (Hdis g); [by eapply list_elem_of_lookup_2|apply list_elem_of_here]. }
    assert (Hin' : g' ∈ live_ptrs (TwoPhaseState w)).
    { rewrite Hperm. apply elem_of_cons. right. by eapply list_elem_of_lookup_2. }
    assert (Hgd : gxacts (TwoPhaseState w) !! g' = Some d').
    { injection Hexec as <-. revert Hgd'. wsimpl. by rewrite list_lookup_insert_ne. }
    destruct (entry_view_live w fl g' Hwf) as [v Hv]; [apply elem_of_app; by left|].
    apply (Hfree g' v Hin' Hne Hv).
    apply entry_view_Some in Hv as (d0 & p & x & Hd0 & _ & _ & ->).
    rewrite Hgd in Hd0. injection Hd0 as <-. cbn. done.
Qed.

(** ** The dummy backends *)

Lemma TwoPhaseShmemInit_ids k :
  (k ≤ max_prepared_xacts)%nat →
  let st := fold_left TwoPhaseShmemInit_step (seq 0 k)
              {| gxacts := replicate max_prepared_xacts zero_gxact;
                 freeGXacts := None; numPrepXacts := 0%nat;
                 prepXacts := replicate max_prepared_xacts None |} in
  ∀ i, (i < k)%nat →
       ∃ d, gxacts st !! i = Some d ∧ pgprocno d = i
            ∧ dummyBackendId d = MaxBackends + 1 + Z.of_nat i.
Proof.
  induction k as [|k IH]; intros Hk; cbv zeta; intros i Hi; [lia|].
  rewrite seq_S, fold_left_app. cbn [fold_left plus].
  destruct (TwoPhaseShmemInit_loop k) as (Hlen & _); [lia|].
  specialize (IH ltac:(lia)). cbv zeta in IH.
  set (st := fold_left _ _ _) in *.
  destruct (lookup_lt_is_Some_2 (gxacts st) k) as [x Hx]; [lia|].
  unfold TwoPhaseShmemInit_step. wsimpl.
  rewrite (alter_as_insert _ _ _ x Hx).
  destruct (decide (i = k)) as [->|Hne].
  - eexists. split; [apply list_lookup_insert_eq; lia|]. done.
  - rewrite list_lookup_insert_ne by done. apply IH. lia.
Qed.

(** X1.  TwoPhaseShmemInit, where it sets the table up, leaves a
    well-formed registry with no prepared transaction and every struct
    on the free list, the last struct first; struct [i] is tied to the
    dummy PGPROC [i] and has the dummy backend id
    [MaxBackends + 1 + i]. *)
Theorem TwoPhaseShmemInit_numbers_the_dummy_backends w :
  (max_prepared_xacts ≤ length (allProcs w))%nat →
  (max_prepared_xacts ≤ length (allPgXact w))%nat →
  ∃ w', TwoPhaseShmemInit w = (Done tt, w')
        ∧ registry_wf w' (reverse (seq 0 max_prepared_xacts))
        ∧ registry_view w' = []
        ∧ ∀ i, (i < max_prepared_xacts)%nat →
               ∃ d, gxacts (TwoPhaseState w') !! i = Some d
                    ∧ pgprocno d = i
                    ∧ dummyBackendId d = MaxBackends + 1 + Z.of_nat i.
Proof.
  intros Hp Hx.
  destruct (TwoPhaseShmemInit_wf w Hp Hx) as (w' & Hrun & Hwf & _ & _ & Hview).
  exists w'. split; [exact Hrun|]. split; [exact Hwf|]. split; [exact Hview|].
  unfold TwoPhaseShmemInit, modify in Hrun. injection Hrun as <-. wsimpl.
  by apply TwoPhaseShmemInit_ids.
Qed.

(** ** The end of PREPARE *)

(** X4.  PostPrepare_Twophase clears [locking_backend] of the
    entry the backend has locked and forgets the entry: no other field
    and no other entry changes, and AtAbort_Twophase and
    AtProcExit_Twophase of this backend then leave everything as it
    is.  It dereferences [MyLockedGxact] without a test: with no entry
    locked the store faults. *)
Theorem PostPrepare_Twophase_lets_go_of_the_entry w :
  (MyLockedGxact w = None → PostPrepare_Twophase w = (MemoryFault, w))
  ∧ ∀ g d,
      MyLockedGxact w = Some g →
      gxacts (TwoPhaseState w) !! g = Some d →
      ∃ w', PostPrepare_Twophase w = (Done tt, w')
            ∧ gxacts (TwoPhaseState w') !! g
              = Some (set_locking_backend InvalidBackendId d)
            ∧ (∀ g', g' ≠ g →
                 gxacts (TwoPhaseState w') !! g' = gxacts (TwoPhaseState w) !! g')
            ∧ MyLockedGxact w' = None
            ∧ AtAbort_Twophase w' = (Done tt, w')
            ∧ AtProcExit_Twophase w' = (Done tt, w').
Proof.
  unfold PostPrepare_Twophase. split.
  - intros Hnone. rewrite bind_get, Hnone. reflexivity.
  - intros g d Hg Hd. rewrite bind_get, Hg. cbn [deref]. rewrite bind_ret.
    rewrite (bind_gxact_store _ _ _ _ _ Hd). unfold modify.
    eexists. split; [reflexivity|]. wsimpl.
    split; [apply list_lookup_insert_eq; by eapply lookup_lt_Some|].
    split; [intros g' Hne; by rewrite list_lookup_insert_ne|].
    split; [reflexivity|]. split; reflexivity.
Qed.

(** X5.  GXactLoadSubxactData copies at most
    PGPROC_MAX_CACHED_SUBXIDS subtransaction ids into the dummy PGPROC
    and sets [nxids] to their number; it sets [overflowed] when there
    are more, and never clears it.  With no subtransaction it leaves
    the ids and their count as they were.  The xid of the dummy PGXACT
    is kept. *)
Theorem GXactLoadSubxactData_caches_up_to_the_limit g d p x nsubxacts children w :
  gxacts (TwoPhaseState w) !! g = Some d →
  allProcs w !! pgprocno d = Some p →
  allPgXact w !! pgprocno d = Some x →
  0 < PGPROC_MAX_CACHED_SUBXIDS →
  ∃ w' p' x',
    GXactLoadSubxactData g nsubxacts children w = (Done tt, w')
    ∧ allProcs w' !! pgprocno d = Some p'
    ∧ allPgXact w' !! pgprocno d = Some x'
    ∧ pgxact_xid x' = pgxact_xid x
    ∧ pgxact_overflowed x'
      = pgxact_overflowed x || (PGPROC_MAX_CACHED_SUBXIDS <? nsubxacts)
    ∧ (if 0 <? nsubxacts
       then pgxact_nxids x' = Z.min nsubxacts PGPROC_MAX_CACHED_SUBXIDS
            ∧ proc_subxids p'
              = take (Z.to_nat (Z.min nsubxacts PGPROC_MAX_CACHED_SUBXIDS)) children
       else pgxact_nxids x' = pgxact_nxids x ∧ proc_subxids p' = proc_subxids p).
Proof.
  intros Hd Hp Hx Hmax.
  pose proof (lookup_lt_Some _ _ _ Hp) as Hlp.
  pose proof (lookup_lt_Some _ _ _ Hx) as Hlx.
  unfold GXactLoadSubxactData. rewrite (bind_gxact_load _ _ _ _ Hd). cbv zeta.
  destruct (Z.ltb_spec PGPROC_MAX_CACHED_SUBXIDS nsubxacts) as [Hover | Hfit].
  - rewrite bind_when_true, bind_assoc, (bind_pgxact_load _ _ _ _ Hx).
    rewrite (bind_pgxact_store _ _ _ _ _ Hx).
    destruct (Z.ltb_spec 0 PGPROC_MAX_CACHED_SUBXIDS) as [_|]; [|lia].
    destruct (Z.ltb_spec 0 nsubxacts) as [_|]; [|lia].
    unfold when.
    rewrite (bind_proc_load _ p) by done.
    rewrite (bind_proc_store _ p) by done.
    erewrite bind_pgxact_load; cycle 1.
    { cbn [allPgXact set_allPgXact set_allProcs]. by apply list_lookup_insert_eq. }
    unfold pgxact_store. erewrite bind_pgxact_load; cycle 1.
    { cbn [allPgXact set_allPgXact set_allProcs]. by apply list_lookup_insert_eq. }
    unfold modify. eexists _, _, _. split; [reflexivity|].
    cbn [allProcs allPgXact set_allPgXact set_allProcs].
    split; [by apply list_lookup_insert_eq|].
    split; [apply list_lookup_insert_eq; by rewrite length_insert|].
    cbn. rewrite orb_true_r. rewrite Z.min_r by lia. done.
  - rewrite bind_when_false.
    rewrite orb_false_r.
    destruct (Z.ltb_spec 0 nsubxacts) as [Hpos | Hneg]; unfold when.
    + rewrite (bind_proc_load _ p) by done.
      rewrite (bind_proc_store _ p) by done.
      rewrite (bind_pgxact_load _ x) by done.
      unfold pgxact_store. rewrite (bind_pgxact_load _ x) by done.
      unfold modify. eexists _, _, _. split; [reflexivity|].
      cbn [allProcs allPgXact set_allPgXact set_allProcs].
      split; [by apply list_lookup_insert_eq|].
      split; [by apply list_lookup_insert_eq|].
      cbn. rewrite Z.min_l by lia. done.
    + unfold ret. exists w, p, x. done.
Qed.

(** ** COMMIT PREPARED and ROLLBACK PREPARED carried through *)

Lemma RecordTransactionCommitPrepared_run xid gid0 nchildren children nrels rels
    ninvalmsgs invalmsgs initfileinval w :
  ∃ w', RecordTransactionCommitPrepared xid gid0 nchildren children nrels rels
          ninvalmsgs invalmsgs initfileinval w = (Done tt, w')
        ∧ TwoPhaseState w' = TwoPhaseState w
        ∧ allProcs w' = allProcs w ∧ allPgXact w' = allPgXact w
        ∧ MyLockedGxact w' = MyLockedGxact w ∧ map_ht w' = map_ht w
        ∧ procArray w' = procArray w
        ∧ clog w' !! xid = Some TRANSACTION_STATUS_COMMITTED.
Proof.
  unfold RecordTransactionCommitPrepared.
  destruct (dtxCrackOpenGid gid0) as [distribTimeStamp distribXid]. cbv zeta.
  unfold XLogInsert.
  rewrite bind_assoc, bind_get. cbv zeta. rewrite bind_assoc, bind_modify.
  rewrite bind_assoc, bind_log, bind_ret.
  unfold XLogFlush. rewrite bind_assoc, bind_modify, bind_log, bind_log.
  unfold TransactionIdCommitTree. rewrite bind_assoc, bind_modify, bind_log.
  unfold log, modify. eexists. split; [reflexivity|]. wsimpl.
  repeat (split; [reflexivity|]).
  pose proof (set_status_tree_all TRANSACTION_STATUS_COMMITTED xid
                (read_xids children nchildren) (clog w)) as Hall.
  by apply Forall_cons in Hall as [Hx _].
Qed.

Lemma RecordTransactionAbortPrepared_run xid nchildren children nrels rels w :
  clog w !! xid ≠ Some TRANSACTION_STATUS_COMMITTED →
  ∃ w', RecordTransactionAbortPrepared xid nchildren children nrels rels w
        = (Done tt, w')
        ∧ TwoPhaseState w' = TwoPhaseState w
        ∧ allProcs w' = allProcs w ∧ allPgXact w' = allPgXact w
        ∧ MyLockedGxact w' = MyLockedGxact w ∧ map_ht w' = map_ht w
        ∧ procArray w' = procArray w
        ∧ clog w' !! xid = Some TRANSACTION_STATUS_ABORTED.
Proof.
  intros Hnot. unfold RecordTransactionAbortPrepared.
  assert (Hdid : ∀ B (k : bool → M B),
            bind (TransactionIdDidCommit xid) k w
            = k match clog w !! xid with
                | Some TRANSACTION_STATUS_COMMITTED => true
                | _ => false
                end w) by done.
  rewrite Hdid.
  assert (match clog w !! xid with
          | Some TRANSACTION_STATUS_COMMITTED => true
          | _ => false
          end = false) as ->.
  { by destruct (clog w !! xid) as [[]|]. }
  rewrite bind_when_false. cbv zeta. unfold XLogInsert.
  rewrite bind_assoc, bind_get. cbv zeta. rewrite bind_assoc, bind_modify.
  rewrite bind_assoc, bind_log, bind_ret.
  unfold XLogFlush. rewrite bind_assoc, bind_modify, bind_log.
  unfold TransactionIdAbortTree. rewrite bind_assoc, bind_modify, bind_log.
  unfold log, modify. eexists. split; [reflexivity|]. wsimpl.
  repeat (split; [reflexivity|]).
  pose proof (set_status_tree_all TRANSACTION_STATUS_ABORTED xid
                (read_xids children nchildren) (clog w)) as Hall.
  by apply Forall_cons in Hall as [Hx _].
Qed.

(** [FinishPreparedTransaction] once the outcome is recorded. *)
Lemma FinishPreparedTransaction_cleanup w fl g d i procno latestXid xid isCommit
    delbytes ndelrels ifi invbytes ninv recs :
  registry_wf w fl →
  live_ptrs (TwoPhaseState w) !! i = Some g →
  gxacts (TwoPhaseState w) !! g = Some d →
  ∃ w',
    (ProcArrayRemove procno latestXid ;;;
     gxact_store g (set_valid false) ;;;
     log (EvSetValid g false) ;;;
     log (EvDropRelationFiles delbytes ndelrels) ;;;
     when ifi (log EvRelationCacheInitFilePreInvalidate) ;;;
     log (EvSendSharedInvalidMessages invbytes ninv) ;;;
     when ifi (log EvRelationCacheInitFilePostInvalidate) ;;;
     (if isCommit : bool then
        ProcessRecords recs xid PostCommitPhase twophase_postcommit_callbacks
      else
        ProcessRecords recs xid PostAbortPhase twophase_postabort_callbacks) ;;;
     log (EvPredicateLockTwoPhaseFinish xid isCommit) ;;;
     log (EvAtEOXact_PgStat isCommit) ;;;
     remove_recover_post_checkpoint_prepared_transactions_map_entry xid ;;;
     RemoveGXact g ;;;
     modify (set_MyLockedGxact None) ;;;
     ret true) w = (Done true, w')
    ∧ registry_wf w' (g :: fl)
    ∧ live_ptrs (TwoPhaseState w) ≡ₚ g :: live_ptrs (TwoPhaseState w')
    ∧ MyLockedGxact w' = None
    ∧ clog w' = clog w
    ∧ default [] (map_ht w') = filter (fun e => pm_xid e ≠ xid) (default [] (map_ht w))
    ∧ procArray w' = filter (fun q => q ≠ procno) (procArray w).
Proof.
  intros Hwf Hi Hd.
  unfold ProcArrayRemove. rewrite bind_assoc, bind_modify, bind_log.
  erewrite bind_gxact_store; [|wsimpl; exact Hd].
  rewrite !bind_log.
  assert (Hwhen : ∀ B e (k : unit → M B) w0,
            bind (when ifi (log e)) k w0
            = k tt (if ifi then set_events (events w0 ++ [e]) w0 else w0)).
  { intros B e k w0. destruct ifi; [by rewrite bind_when_true, bind_log|].
    by rewrite bind_when_false. }
  rewrite Hwhen, bind_log, Hwhen.
  set (w1 := if ifi then _ else _).
  assert (Hw1 : TwoPhaseState w1
                = set_gxacts (<[g := set_valid false d]> (gxacts (TwoPhaseState w)))
                    (TwoPhaseState w)
                ∧ allProcs w1 = allProcs w ∧ allPgXact w1 = allPgXact w
                ∧ clog w1 = clog w ∧ map_ht w1 = map_ht w
                ∧ procArray w1 = filter (fun q => q ≠ procno) (procArray w)).
  { subst w1. by destruct ifi. }
  clearbody w1. destruct Hw1 as (Hs1 & Hp1 & Hx1 & Hc1 & Hm1 & Ha1).
  assert (Hproc : ∃ evs,
     (if isCommit
      then ProcessRecords recs xid PostCommitPhase twophase_postcommit_callbacks
      else ProcessRecords recs xid PostAbortPhase twophase_postabort_callbacks) w1
     = (Done tt, set_events (events w1 ++ evs) w1)).
  { destruct isCommit; apply ProcessRecords_total. }
  destruct Hproc as [evs Hproc]. rewrite (bind_done _ _ _ _ _ Hproc).
  rewrite !bind_log.
  unfold remove_recover_post_checkpoint_prepared_transactions_map_entry.
  rewrite bind_assoc, bind_log, bind_modify.
  set (w2 := match map_ht _ with Some _ => _ | None => _ end).
  assert (Hw2 : TwoPhaseState w2 = TwoPhaseState w1
                ∧ allProcs w2 = allProcs w1 ∧ allPgXact w2 = allPgXact w1
                ∧ clog w2 = clog w1
                ∧ default [] (map_ht w2)
                  = filter (fun e => pm_xid e ≠ xid) (default [] (map_ht w1))
                ∧ procArray w2 = procArray w1).
  { subst w2. wsimpl. destruct (map_ht w1) eqn:Hm; repeat split; try reflexivity.
    wsimpl. rewrite Hm. cbn [default]. by rewrite filter_nil. }
  clearbody w2. destruct Hw2 as (Hs2 & Hp2 & Hx2 & Hc2 & Hm2 & Ha2).
  assert (Hwf2 : registry_wf w2 fl).
  { eapply (registry_wf_ext
              (set_TwoPhaseState
                 (set_gxacts (<[g := set_valid false d]> (gxacts (TwoPhaseState w)))
                    (TwoPhaseState w)) w)).
    - by rewrite Hs2, Hs1.
    - by rewrite Hp2, Hp1.
    - by rewrite Hx2, Hx1.
    - apply (registry_wf_store w fl g d); try done.
      pose proof (wf_gids _ _ Hwf) as Hg. rewrite Forall_forall in Hg.
      apply (Hg d). by eapply list_elem_of_lookup_2. }
  assert (Hl2 : live_ptrs (TwoPhaseState w2) = live_ptrs (TwoPhaseState w)).
  { by rewrite Hs2, Hs1. }
  destruct (RemoveGXact_wf w2 fl g i (set_valid false d)) as (w3 & Hrun & Hwf3 & Hperm & _).
  { done. }
  { by rewrite Hl2. }
  { rewrite Hs2, Hs1. wsimpl. apply list_lookup_insert_eq. by eapply lookup_lt_Some. }
  rewrite (bind_done _ _ _ _ _ Hrun), bind_modify. unfold ret.
  eexists. split; [reflexivity|]. wsimpl.
  assert (Hkeep : allProcs w3 = allProcs w2 ∧ allPgXact w3 = allPgXact w2
                  ∧ clog w3 = clog w2 ∧ map_ht w3 = map_ht w2
                  ∧ procArray w3 = procArray w2).
  { rewrite (RemoveGXact_exec w2 fl g i (set_valid false d)) in Hrun; try done.
    - by injection Hrun as <-.
    - by rewrite Hl2.
    - rewrite Hs2, Hs1. wsimpl. apply list_lookup_insert_eq. by eapply lookup_lt_Some. }
  destruct Hkeep as (Hp3 & Hx3 & Hc3 & Hm3 & Ha3).
  split.
  { eapply registry_wf_ext; [| | |exact Hwf3]; done. }
  split; [by rewrite <- Hl2|].
  split; [done|].
  split; [by rewrite Hc3, Hc2, Hc1|].
  split; [by rewrite Hm3, Hm2, Hm1|].
  by rewrite Ha3, Ha2, Ha1.
Qed.

(** X11.  FinishPreparedTransaction on the GID of a valid entry
    that nobody has locked, asked for by its owner or a superuser from
    the entry's database (or from a segment), with a prepare record
    that can be read, returns true, for a commit always and for a
    rollback unless the status store shows the xid committed.  After
    it the entry has left the active array and its struct heads the
    free list, the registry is well-formed, the backend holds no lock,
    the status store shows the xid committed or aborted, the table of
    prepared transactions has no entry for the xid and the dummy
    PGPROC has left the ProcArray. *)
Theorem FinishPreparedTransaction_finishes_the_entry
    gid0 isCommit raise w fl g d p x rec :
  registry_wf w fl →
  find_prepared (TwoPhaseState w) gid0 = Some (g, d) →
  allProcs w !! pgprocno d = Some p →
  allPgXact w !! pgprocno d = Some x →
  locking_backend d = InvalidBackendId →
  GetUserId = owner d ∨ superuser_arg GetUserId = true →
  MyDatabaseId = proc_databaseId p ∨ Gp_role = GP_ROLE_EXECUTE →
  xlog_records (xlog w) !! prepare_begin_lsn d = Some rec →
  (isCommit = false → clog w !! pgxact_xid x ≠ Some TRANSACTION_STATUS_COMMITTED) →
  ∃ w', FinishPreparedTransaction gid0 isCommit raise w = (Done true, w')
        ∧ registry_wf w' (g :: fl)
        ∧ live_ptrs (TwoPhaseState w) ≡ₚ g :: live_ptrs (TwoPhaseState w')
        ∧ MyLockedGxact w' = None
        ∧ clog w' !! pgxact_xid x
          = Some (if isCommit then TRANSACTION_STATUS_COMMITTED
                  else TRANSACTION_STATUS_ABORTED)
        ∧ default [] (map_ht w')
          = filter (fun e => pm_xid e ≠ pgxact_xid x) (default [] (map_ht w))
        ∧ procArray w' = filter (fun q => q ≠ pgprocno d) (procArray w).
Proof.
  intros Hwf Hfind Hp Hx Hfree Huser Hdb Hrec Hclog.
  pose proof (find_prepared_Some _ _ _ _ Hfind) as (Hlive & Hd & Hvalid & Hgid).
  apply list_elem_of_lookup in Hlive as [i Hi].
  pose proof (exit_hook_registered_shared true w)
    as (Hs1 & Hp1 & Hx1 & _ & _ & Hm1 & Hxl1 & Hc1 & Ha1 & _).
  pose proof (exit_hook_registered_wf true w fl Hwf) as Hwf1.
  assert (Hlock : LockGXact gid0 GetUserId raise w
                  = (Done (Some g), locked g d (exit_hook_registered true w))).
  { rewrite (LockGXact_run _ _ _ _ fl Hwf). cbv zeta. rewrite Hfind, Hp.
    unfold lock_outcome. rewrite Hfree, Z.eqb_refl. cbn [negb].
    assert (negb (GetUserId =? owner d) && negb (superuser_arg GetUserId) = false) as ->.
    { destruct Huser as [-> | ->]; [by rewrite Z.eqb_refl|by rewrite andb_false_r]. }
    assert (negb (MyDatabaseId =? proc_databaseId p)
            && negb (is_GP_ROLE_EXECUTE Gp_role) = false) as ->.
    { destruct Hdb as [-> | ->]; [by rewrite Z.eqb_refl|by rewrite andb_false_r]. }
    reflexivity. }
  unfold FinishPreparedTransaction. rewrite (bind_done _ _ _ _ _ Hlock).
  set (w1 := exit_hook_registered true w) in *.
  set (d2 := set_locking_backend MyBackendId d).
  assert (Hd1 : gxacts (TwoPhaseState w1) !! g = Some d) by by rewrite Hs1.
  assert (Hwf2 : registry_wf (locked g d w1) fl).
  { unfold locked.
    eapply (registry_wf_ext
              (set_TwoPhaseState
                 (set_gxacts (<[g := d2]> (gxacts (TwoPhaseState w1)))
                    (TwoPhaseState w1)) w1)); try done.
    apply (registry_wf_store w1 fl g d); try done.
    pose proof (wf_gids _ _ Hwf) as Hg. rewrite Forall_forall in Hg.
    apply (Hg d). by eapply list_elem_of_lookup_2. }
  set (w2 := locked g d w1) in *.
  assert (Hw2 : TwoPhaseState w2
                = set_gxacts (<[g := d2]> (gxacts (TwoPhaseState w))) (TwoPhaseState w)
                ∧ allProcs w2 = allProcs w ∧ allPgXact w2 = allPgXact w
                ∧ xlog w2 = xlog w ∧ clog w2 = clog w ∧ map_ht w2 = map_ht w
                ∧ procArray w2 = procArray w).
  { subst w2. unfold locked. wsimpl. by rewrite Hs1. }
  destruct Hw2 as (Hs2 & Hp2 & Hx2 & Hxl2 & Hc2 & Hm2 & Ha2).
  assert (Hd2 : gxacts (TwoPhaseState w2) !! g = Some d2).
  { rewrite Hs2. wsimpl. apply list_lookup_insert_eq. by eapply lookup_lt_Some. }
  assert (Hi2 : live_ptrs (TwoPhaseState w2) !! i = Some g) by by rewrite Hs2.
  clearbody w2.
  unfold FinishPreparedTransaction_locked.
  rewrite (bind_gxact_load _ _ _ _ Hd2).
  rewrite (bind_pgxact_load _ x) by (by rewrite Hx2).
  cbv zeta.
  assert (Hread : XLogReadRecord (prepare_begin_lsn d2) w2 = (Done (Some rec), w2)).
  { unfold XLogReadRecord. rewrite Hxl2.
    change (prepare_begin_lsn d2) with (prepare_begin_lsn d). by rewrite Hrec. }
  rewrite (bind_done _ _ _ _ _ Hread).
  assert (Hout : ∀ nch ch ncr cr nar ar ninv inv ifi,
     ∃ w3,
       (if isCommit
        then RecordTransactionCommitPrepared (pgxact_xid x) gid0 nch ch ncr cr ninv inv ifi
        else RecordTransactionAbortPrepared (pgxact_xid x) nch ch nar ar) w2
       = (Done tt, w3)
       ∧ TwoPhaseState w3 = TwoPhaseState w2
       ∧ allProcs w3 = allProcs w2 ∧ allPgXact w3 = allPgXact w2
       ∧ MyLockedGxact w3 = MyLockedGxact w2 ∧ map_ht w3 = map_ht w2
       ∧ procArray w3 = procArray w2
       ∧ clog w3 !! pgxact_xid x
         = Some (if isCommit then TRANSACTION_STATUS_COMMITTED
                 else TRANSACTION_STATUS_ABORTED)).
  { intros. destruct isCommit.
    - apply RecordTransactionCommitPrepared_run.
    - apply RecordTransactionAbortPrepared_run. rewrite Hc2. by apply Hclog. }
  match goal with
  | |- context [RecordTransactionCommitPrepared _ _ ?nch ?ch ?ncr ?cr ?ninv ?inv ?ifi] =>
      match goal with
      | |- context [RecordTransactionAbortPrepared _ _ _ ?nar ?ar] =>
          destruct (Hout nch ch ncr cr nar ar ninv inv ifi)
            as (w3 & Hrun3 & Hs3 & Hp3 & Hx3 & _ & Hm3 & Ha3 & Hc3)
      end
  end.
  rewrite (bind_done _ _ _ _ _ Hrun3).
  assert (Hwf3 : registry_wf w3 fl).
  { eapply registry_wf_ext; [| | |exact Hwf2]; by rewrite ?Hs3, ?Hp3, ?Hx3. }
  assert (Hi3 : live_ptrs (TwoPhaseState w3) !! i = Some g) by by rewrite Hs3.
  assert (Hd3 : gxacts (TwoPhaseState w3) !! g = Some d2) by by rewrite Hs3.
  epose proof (FinishPreparedTransaction_cleanup w3 fl g d2 i (pgprocno d2)
                 _ (pgxact_xid x) isCommit _ _ _ _ _ _ Hwf3 Hi3 Hd3)
    as (w' & Hrun & Hwf' & Hperm & Hlocked & Hclog' & Hmap & Hprocs).
  exists w'. split; [exact Hrun|]. split; [exact Hwf'|].
  split; [by rewrite Hs3, Hs2 in Hperm|]. split; [exact Hlocked|].
  split; [by rewrite Hclog'|].
  split; [by rewrite Hmap, Hm3, Hm2|]. by rewrite Hprocs, Ha3, Ha2.
Qed.

(** ** The steps of FinishPreparedTransaction and the state between them *)

Lemma Finish_write_record_run main rdata w :
  let begin_lsn := xlog_insert_pos (xlog w) in
  let recptr := begin_lsn + SizeOfXLogRecord + Z.of_nat (length (concat rdata)) in
  ∃ w1, Finish_write_record main rdata w = (Done recptr, w1)
        ∧ xlog_records (xlog w1) !! begin_lsn = Some (mkXLogRecord main rdata)
        ∧ recptr ≤ xlog_flushed (xlog w1)
        ∧ TwoPhaseState w1 = TwoPhaseState w
        ∧ allProcs w1 = allProcs w ∧ allPgXact w1 = allPgXact w
        ∧ clog w1 = clog w ∧ procArray w1 = procArray w
        ∧ events w1 = events w ++ [EvXLogInsert main begin_lsn recptr; EvXLogFlush recptr].
Proof.
  intros begin_lsn recptr. unfold Finish_write_record, XLogInsert, XLogFlush.
  msimpl. unfold ret. eexists. split; [reflexivity|]. wsimpl.
  split; [apply lookup_insert_eq|]. split; [cbn; lia|].
  repeat (split; [reflexivity|]). by rewrite <- app_assoc.
Qed.

Lemma Finish_update_status_run isCommit xid children w :
  ∃ w2, Finish_update_status isCommit xid children w = (Done tt, w2)
        ∧ clog w2 = set_status_tree (outcome_status isCommit) xid children (clog w)
        ∧ TwoPhaseState w2 = TwoPhaseState w
        ∧ allProcs w2 = allProcs w ∧ allPgXact w2 = allPgXact w
        ∧ xlog w2 = xlog w ∧ procArray w2 = procArray w
        ∧ events w2
          = events w ++
            (if isCommit
             then [EvDistributedLog_SetCommittedTree xid children;
                   EvTransactionIdCommitTree xid children]
             else [EvTransactionIdAbortTree xid children]).
Proof.
  unfold Finish_update_status, TransactionIdCommitTree, TransactionIdAbortTree.
  destruct isCommit; msimpl; unfold log, modify; (eexists; split; [reflexivity|]);
    wsimpl; repeat (split; [reflexivity|]); [by rewrite <- app_assoc|reflexivity].
Qed.

Lemma Finish_leave_ProcArray_run recptr procno latestXid w :
  ∃ w3, Finish_leave_ProcArray recptr procno latestXid w = (Done tt, w3)
        ∧ procArray w3 = filter (fun q => q ≠ procno) (procArray w)
        ∧ TwoPhaseState w3 = TwoPhaseState w
        ∧ allProcs w3 = allProcs w ∧ allPgXact w3 = allPgXact w
        ∧ xlog w3 = xlog w ∧ clog w3 = clog w
        ∧ events w3
          = events w ++ [EvSyncRepWaitForLSN recptr; EvProcArrayRemove procno latestXid].
Proof.
  unfold Finish_leave_ProcArray, ProcArrayRemove. msimpl. unfold log, modify.
  eexists. split; [reflexivity|]. wsimpl.
  repeat (split; [reflexivity|]). by rewrite <- app_assoc.
Qed.

(** RecordTransactionCommitPrepared and RecordTransactionAbortPrepared
    are the first two steps and the wait for synchronous replication. *)
Lemma RecordTransaction_steps isCommit xid gid0 nchildren children
    ncommitrels commitrels nabortrels abortrels ninvalmsgs invalmsgs initfileinval w :
  (isCommit = false → clog w !! xid ≠ Some TRANSACTION_STATUS_COMMITTED) →
  ∃ main rdata,
    outcome_of main = Some (isCommit, xid)
    ∧ (if isCommit then
         RecordTransactionCommitPrepared xid gid0 nchildren children
           ncommitrels commitrels ninvalmsgs invalmsgs initfileinval
       else
         RecordTransactionAbortPrepared xid nchildren children nabortrels abortrels) w
      = (recptr <- Finish_write_record main rdata ;;
         Finish_update_status isCommit xid (read_xids children nchildren) ;;;
         log (EvSyncRepWaitForLSN recptr)) w.
Proof.
  intros Hclog. destruct isCommit.
  - unfold RecordTransactionCommitPrepared.
    destruct (dtxCrackOpenGid gid0) as [distribTimeStamp distribXid]. cbv zeta.
    eexists (XLOG_XACT_COMMIT_PREPARED xid _ _ _ _ _ _ _), _.
    split; [reflexivity|]. reflexivity.
  - unfold RecordTransactionAbortPrepared.
    assert (TransactionIdDidCommit xid w = (Done false, w)) as Hdid.
    { unfold TransactionIdDidCommit. specialize (Hclog eq_refl).
      by destruct (clog w !! xid) as [[]|]. }
    rewrite (bind_done _ _ _ _ _ Hdid), bind_when_false. cbv zeta.
    eexists (XLOG_XACT_ABORT_PREPARED xid _ _), _.
    split; [reflexivity|]. reflexivity.
Qed.

Lemma ProcessRecords_callbacks buf xid phase callbacks w :
  ∃ evs, ProcessRecords buf xid phase callbacks w
         = (Done tt, set_events (events w ++ evs) w)
         ∧ Forall (fun e => finish_step e = 9%nat) evs.
Proof.
  destruct (ProcessRecords_total buf xid phase callbacks w) as [evs Hrun].
  exists evs. split; [exact Hrun|].
  destruct (performs_ProcessRecords buf xid phase callbacks w _ _ Hrun)
    as (new & Hev & _ & Hsteps & _).
  cbn [events set_events] in Hev. apply app_inv_head in Hev as ->.
  eapply Forall_impl; [exact Hsteps|]. cbn beta. intros e He. lia.
Qed.

Lemma Finish_clean_up_run isCommit g xid sv w fl i d :
  registry_wf w fl →
  live_ptrs (TwoPhaseState w) !! i = Some g →
  gxacts (TwoPhaseState w) !! g = Some d →
  ∃ w' callbacks,
    Finish_clean_up isCommit g xid sv w = (Done true, w')
    ∧ registry_wf w' (g :: fl)
    ∧ live_ptrs (TwoPhaseState w) ≡ₚ g :: live_ptrs (TwoPhaseState w')
    ∧ gxacts (TwoPhaseState w') !! g
      = Some (set_next (freeGXacts (TwoPhaseState w)) (set_valid false d))
    ∧ xlog w' = xlog w ∧ clog w' = clog w ∧ procArray w' = procArray w
    ∧ Forall (fun e => finish_step e = 9%nat) callbacks
    ∧ events w' = events w ++ cleanup_events isCommit g xid sv callbacks.
Proof.
  intros Hwf Hi Hd. unfold Finish_clean_up. cbv zeta.
  erewrite bind_gxact_store; [|exact Hd].
  rewrite !bind_log.
  set (ifi := hdr_initfileinval (sv_hdr sv)).
  assert (Hwhen : ∀ B e (k : unit → M B) w0,
            bind (when ifi (log e)) k w0
            = k tt (if ifi then set_events (events w0 ++ [e]) w0 else w0)).
  { intros B e k w0. destruct ifi; [by rewrite bind_when_true, bind_log|].
    by rewrite bind_when_false. }
  rewrite Hwhen, bind_log, Hwhen.
  set (w1 := if ifi then _ else _).
  assert (Hw1 : TwoPhaseState w1
                = set_gxacts (<[g := set_valid false d]> (gxacts (TwoPhaseState w)))
                    (TwoPhaseState w)
                ∧ allProcs w1 = allProcs w ∧ allPgXact w1 = allPgXact w
                ∧ xlog w1 = xlog w ∧ clog w1 = clog w
                ∧ procArray w1 = procArray w
                ∧ events w1
                  = events w ++
                    [EvSetValid g false;
                     EvDropRelationFiles
                       (array_bytes (if isCommit then sv_commitrels sv else sv_abortrels sv)
                          (wrap64 ((if isCommit then hdr_ncommitrels (sv_hdr sv)
                                    else hdr_nabortrels (sv_hdr sv))
                                   * sizeof_RelFileNodePendingDelete)))
                       (if isCommit then hdr_ncommitrels (sv_hdr sv)
                        else hdr_nabortrels (sv_hdr sv))]
                    ++ invalidation_events sv).
  { subst w1. unfold invalidation_events. fold ifi.
    destruct ifi; wsimpl; repeat (split; [reflexivity|]);
      by rewrite <- ?app_assoc. }
  clearbody w1. destruct Hw1 as (Hs1 & Hp1 & Hx1 & Hxl1 & Hc1 & Ha1 & He1).
  assert (Hproc : ∃ evs,
     (if isCommit
      then ProcessRecords (sv_records sv) xid PostCommitPhase twophase_postcommit_callbacks
      else ProcessRecords (sv_records sv) xid PostAbortPhase twophase_postabort_callbacks) w1
     = (Done tt, set_events (events w1 ++ evs) w1)
     ∧ Forall (fun e => finish_step e = 9%nat) evs).
  { destruct isCommit; apply ProcessRecords_callbacks. }
  destruct Hproc as (evs & Hproc & Hevs). rewrite (bind_done _ _ _ _ _ Hproc).
  rewrite !bind_log.
  unfold remove_recover_post_checkpoint_prepared_transactions_map_entry.
  rewrite bind_assoc, bind_log, bind_modify.
  set (w2 := match map_ht _ with Some _ => _ | None => _ end).
  assert (Hw2 : TwoPhaseState w2 = TwoPhaseState w1
                ∧ allProcs w2 = allProcs w1 ∧ allPgXact w2 = allPgXact w1
                ∧ xlog w2 = xlog w1 ∧ clog w2 = clog w1
                ∧ procArray w2 = procArray w1
                ∧ events w2
                  = events w1 ++ evs ++
                    [EvPredicateLockTwoPhaseFinish xid isCommit;
                     EvAtEOXact_PgStat isCommit; EvRemoveMapEntry xid]).
  { subst w2. wsimpl.
    destruct (map_ht w1); wsimpl; repeat (split; [reflexivity|]);
      by rewrite <- !app_assoc. }
  clearbody w2. destruct Hw2 as (Hs2 & Hp2 & Hx2 & Hxl2 & Hc2 & Ha2 & He2).
  assert (Hgid : Z.of_nat (String.length (gid d)) < GIDSIZE).
  { pose proof (wf_gids _ _ Hwf) as Hg. rewrite Forall_forall in Hg.
    apply (Hg d). by eapply list_elem_of_lookup_2. }
  assert (Hwf2 : registry_wf w2 fl).
  { eapply (registry_wf_ext
              (set_TwoPhaseState
                 (set_gxacts (<[g := set_valid false d]> (gxacts (TwoPhaseState w)))
                    (TwoPhaseState w)) w)).
    - by rewrite Hs2, Hs1.
    - by rewrite Hp2, Hp1.
    - by rewrite Hx2, Hx1.
    - by apply (registry_wf_store w fl g d). }
  assert (Hl2 : live_ptrs (TwoPhaseState w2) = live_ptrs (TwoPhaseState w)).
  { by rewrite Hs2, Hs1. }
  assert (Hd2 : gxacts (TwoPhaseState w2) !! g = Some (set_valid false d)).
  { rewrite Hs2, Hs1. wsimpl. apply list_lookup_insert_eq. by eapply lookup_lt_Some. }
  assert (Hi2 : live_ptrs (TwoPhaseState w2) !! i = Some g) by by rewrite Hl2.
  destruct (RemoveGXact_wf w2 fl g i (set_valid false d) Hwf2 Hi2 Hd2)
    as (w3 & Hrun & Hwf3 & Hperm & _ & _ & Hg3 & _ & Hp3 & Hx3 & _ & He3).
  assert (Hkeep : xlog w3 = xlog w2 ∧ clog w3 = clog w2 ∧ procArray w3 = procArray w2).
  { rewrite (RemoveGXact_exec w2 fl g i (set_valid false d) Hwf2 Hi2 Hd2) in Hrun.
    by injection Hrun as <-. }
  destruct Hkeep as (Hxl3 & Hc3 & Ha3).
  rewrite (bind_done _ _ _ _ _ Hrun), bind_modify. unfold ret.
  eexists _, evs. split; [reflexivity|]. wsimpl.
  split. { eapply registry_wf_ext; [| | |exact Hwf3]; done. }
  split; [by rewrite <- Hl2|].
  split. { rewrite Hg3, Hs2, Hs1. reflexivity. }
  split; [by rewrite Hxl3, Hxl2, Hxl1|].
  split; [by rewrite Hc3, Hc2, Hc1|].
  split; [by rewrite Ha3, Ha2, Ha1|].
  split; [exact Hevs|].
  rewrite He3, He2, He1. unfold cleanup_events. by rewrite <- !app_assoc.
Qed.

(** [FinishPreparedTransaction] on the entry it has locked is the four
    steps, in this order. *)
Lemma FinishPreparedTransaction_locked_steps gid0 isCommit g d x rec w :
  gxacts (TwoPhaseState w) !! g = Some d →
  allPgXact w !! pgprocno d = Some x →
  xlog_records (xlog w) !! prepare_begin_lsn d = Some rec →
  (isCommit = false → clog w !! pgxact_xid x ≠ Some TRANSACTION_STATUS_COMMITTED) →
  let xid := pgxact_xid x in
  let sv := disassemble (XLogRecGetData rec) in
  let children := read_xids (sv_children sv) (hdr_nsubxacts (sv_hdr sv)) in
  ∃ main rdata,
    outcome_of main = Some (isCommit, xid)
    ∧ FinishPreparedTransaction_locked gid0 isCommit g w
      = (recptr <- Finish_write_record main rdata ;;
         Finish_update_status isCommit xid children ;;;
         Finish_leave_ProcArray recptr (pgprocno d) (TransactionIdLatest xid children) ;;;
         Finish_clean_up isCommit g xid sv) w.
Proof.
  intros Hd Hx Hrec Hclog xid sv children.
  destruct (RecordTransaction_steps isCommit xid gid0
              (hdr_nsubxacts (sv_hdr sv)) (sv_children sv)
              (hdr_ncommitrels (sv_hdr sv)) (sv_commitrels sv)
              (hdr_nabortrels (sv_hdr sv)) (sv_abortrels sv)
              (hdr_ninvalmsgs (sv_hdr sv)) (sv_invalmsgs sv)
              (hdr_initfileinval (sv_hdr sv)) w Hclog)
    as (main & rdata & Hout & Hsteps).
  exists main, rdata. split; [exact Hout|].
  rewrite FinishPreparedTransaction_locked_disassemble.
  rewrite (bind_gxact_load _ _ _ _ Hd), (bind_pgxact_load _ x) by exact Hx.
  cbv zeta.
  assert (Hread : XLogReadRecord (prepare_begin_lsn d) w = (Done (Some rec), w)).
  { unfold XLogReadRecord. by rewrite Hrec. }
  rewrite (bind_done _ _ _ _ _ Hread).
  fold xid sv children.
  unfold bind at 1. rewrite Hsteps.
  destruct (Finish_write_record_run main rdata w) as (w1 & Hr1 & _).
  rewrite (bind_done _ _ _ _ _ Hr1), (bind_done _ _ _ _ _ Hr1).
  destruct (Finish_update_status_run isCommit xid children w1) as (w2 & Hr2 & _).
  rewrite (bind_done _ _ _ _ _ Hr2), (bind_done _ _ _ _ _ Hr2).
  unfold Finish_leave_ProcArray. rewrite bind_assoc. reflexivity.
Qed.

(** A run that returns true has found a valid entry with the GID, has
    locked it and has read its prepare record; a rollback has found the
    transaction not committed. *)
Lemma FinishPreparedTransaction_true_inv gid0 isCommit raise w fl w' :
  registry_wf w fl →
  FinishPreparedTransaction gid0 isCommit raise w = (Done true, w') →
  ∃ g d0 x rec,
    find_prepared (TwoPhaseState w) gid0 = Some (g, d0)
    ∧ LockGXact gid0 GetUserId raise w
      = (Done (Some g), locked g d0 (exit_hook_registered true w))
    ∧ allPgXact w !! pgprocno d0 = Some x
    ∧ xlog_records (xlog w) !! prepare_begin_lsn d0 = Some rec
    ∧ (isCommit = false → clog w !! pgxact_xid x ≠ Some TRANSACTION_STATUS_COMMITTED).
Proof.
  intros Hwf Hrun. unfold FinishPreparedTransaction in Hrun.
  pose proof (LockGXact_run gid0 GetUserId raise w fl Hwf) as Hlock.
  cbv zeta in Hlock.
  pose proof (exit_hook_registered_shared true w)
    as (Hs1 & Hp1 & Hx1 & _ & _ & Hm1 & Hxl1 & Hc1 & Ha1 & _).
  set (w1 := exit_hook_registered true w) in *.
  destruct (find_prepared (TwoPhaseState w) gid0) as [[g d0]|] eqn:Hfind; cycle 1.
  { unfold bind at 1 in Hrun. rewrite Hlock in Hrun.
    destruct raise; [discriminate|]. by destruct isCommit. }
  pose proof (find_prepared_Some _ _ _ _ Hfind) as (Hlive & Hd & Hvalid & Hgid).
  destruct (allProcs w !! pgprocno d0) as [p|] eqn:Hp; cycle 1.
  { unfold bind at 1 in Hrun. rewrite Hlock in Hrun. discriminate. }
  assert (Hlocked : lock_outcome GetUserId g d0 p w1 = (Done (Some g), locked g d0 w1)).
  { unfold bind at 1 in Hrun. rewrite Hlock in Hrun. unfold lock_outcome in Hrun |- *.
    destruct (negb (locking_backend d0 =? InvalidBackendId)); [discriminate|].
    destruct (negb (GetUserId =? owner d0) && negb (superuser_arg GetUserId));
      [discriminate|].
    destruct (negb (MyDatabaseId =? proc_databaseId p)
              && negb (is_GP_ROLE_EXECUTE Gp_role)); [discriminate|].
    reflexivity. }
  rewrite Hlocked in Hlock. rewrite (bind_done _ _ _ _ _ Hlock) in Hrun.
  set (d := set_locking_backend MyBackendId d0) in *.
  set (w0 := locked g d0 w1) in *.
  assert (Hw0 : gxacts (TwoPhaseState w0) !! g = Some d
                ∧ allPgXact w0 = allPgXact w ∧ xlog w0 = xlog w ∧ clog w0 = clog w).
  { subst w0. unfold locked. wsimpl. rewrite Hs1. split; [|done].
    apply list_lookup_insert_eq. by eapply lookup_lt_Some. }
  destruct Hw0 as (Hd0 & Hx0 & Hxl0 & Hc0).
  exists g, d0.
  unfold FinishPreparedTransaction_locked in Hrun.
  rewrite (bind_gxact_load _ _ _ _ Hd0) in Hrun.
  change (pgprocno d) with (pgprocno d0) in Hrun.
  change (prepare_begin_lsn d) with (prepare_begin_lsn d0) in Hrun.
  destruct (allPgXact w !! pgprocno d0) as [x|] eqn:Hx; cycle 1.
  { unfold bind at 1, pgxact_load in Hrun. rewrite Hx0, Hx in Hrun. discriminate. }
  rewrite (bind_pgxact_load _ x) in Hrun by by rewrite Hx0.
  cbv zeta in Hrun.
  destruct (xlog_records (xlog w) !! prepare_begin_lsn d0) as [rec|] eqn:Hrec; cycle 1.
  { unfold bind at 1, XLogReadRecord in Hrun. rewrite Hxl0, Hrec in Hrun. discriminate. }
  exists x, rec. split; [reflexivity|]. split; [exact Hlock|].
  split; [reflexivity|]. split; [reflexivity|].
  intros -> Hcommitted.
  assert (Hread : XLogReadRecord (prepare_begin_lsn d0) w0 = (Done (Some rec), w0)).
  { unfold XLogReadRecord. by rewrite Hxl0, Hrec. }
  rewrite (bind_done _ _ _ _ _ Hread) in Hrun.
  unfold RecordTransactionAbortPrepared in Hrun.
  assert (Hdid : TransactionIdDidCommit (pgxact_xid x) w0 = (Done true, w0)).
  { unfold TransactionIdDidCommit. by rewrite Hc0, Hcommitted. }
  rewrite !bind_assoc, (bind_done _ _ _ _ _ Hdid) in Hrun.
  rewrite bind_assoc in Hrun. discriminate.
Qed.

(** C1.  Every run of [FinishPreparedTransaction] that starts on a
    well-formed registry, for commit and for rollback:

    - its calls into the collaborators come in the order of the
      protocol, also in a run that ends in an error: no call of a
      later step comes before one of an earlier step;

    - a run that returns true is [LockGXact] followed by the four
      steps in their order, and passes through the worlds [w0], [w1],
      [w2] and [w3] between them.  In [w0] the entry is locked and
      nothing is written.  The first step inserts the outcome
      record for the transaction and flushes the log to the end of
      that record: in [w1] the record is in the log and flushed, and
      the status store, the ProcArray and the registry are as they
      were.  The second step updates the status store: in [w2] the
      transaction and its subtransactions are committed or aborted
      there, and the ProcArray and the registry are as they were.
      The third step removes the dummy PGPROC from the ProcArray: in
      [w3] it is gone, the entry is still valid and registered, and
      no file has been dropped, no cache invalidated and no callback
      run.  The last step marks the entry invalid, drops the files,
      invalidates the caches, runs the callbacks and takes the entry
      out of the registry, and leaves the log, the status store and
      the ProcArray as the steps before made them. *)
Theorem FinishPreparedTransaction_order gid0 isCommit raise w fl r w' :
  registry_wf w fl →
  FinishPreparedTransaction gid0 isCommit raise w = (r, w') →
  (∃ new, events w' = events w ++ new
          ∧ ∀ i j a b, new !! i = Some a → new !! j = Some b →
              (finish_step a < finish_step b)%nat → (i < j)%nat)
  ∧ (r = Done true →
     ∃ g d x rec main rdata recptr w0 w1 w2 w3 callbacks,
       let xid := pgxact_xid x in
       let sv := disassemble (XLogRecGetData rec) in
       let children := read_xids (sv_children sv) (hdr_nsubxacts (sv_hdr sv)) in
       let latestXid := TransactionIdLatest xid children in
       let begin_lsn := xlog_insert_pos (xlog w) in
       (* the entry is found and locked; nothing is written *)
       LockGXact gid0 GetUserId raise w = (Done (Some g), w0)
       ∧ gxacts (TwoPhaseState w0) !! g = Some d ∧ valid d = true
       ∧ g ∈ live_ptrs (TwoPhaseState w0)
       ∧ allPgXact w0 !! pgprocno d = Some x
       ∧ xlog_records (xlog w0) !! prepare_begin_lsn d = Some rec
       ∧ xlog w0 = xlog w ∧ clog w0 = clog w ∧ procArray w0 = procArray w
       (* from there the function is its four steps, in this order *)
       ∧ FinishPreparedTransaction_locked gid0 isCommit g w0
         = (recptr <- Finish_write_record main rdata ;;
            Finish_update_status isCommit xid children ;;;
            Finish_leave_ProcArray recptr (pgprocno d) latestXid ;;;
            Finish_clean_up isCommit g xid sv) w0
       (* the outcome record is written and flushed *)
       ∧ Finish_write_record main rdata w0 = (Done recptr, w1)
       ∧ outcome_of main = Some (isCommit, xid)
       ∧ xlog_records (xlog w1) !! begin_lsn = Some (mkXLogRecord main rdata)
       ∧ recptr = begin_lsn + SizeOfXLogRecord + Z.of_nat (length (concat rdata))
       ∧ recptr ≤ xlog_flushed (xlog w1)
       ∧ clog w1 = clog w ∧ procArray w1 = procArray w
       ∧ TwoPhaseState w1 = TwoPhaseState w0
       (* the status store is updated *)
       ∧ Finish_update_status isCommit xid children w1 = (Done tt, w2)
       ∧ clog w2 = set_status_tree (outcome_status isCommit) xid children (clog w)
       ∧ Forall (fun t => clog w2 !! t = Some (outcome_status isCommit))
           (xid :: children)
       ∧ xlog w2 = xlog w1 ∧ procArray w2 = procArray w
       ∧ TwoPhaseState w2 = TwoPhaseState w0
       (* the dummy PGPROC leaves the ProcArray *)
       ∧ Finish_leave_ProcArray recptr (pgprocno d) latestXid w2 = (Done tt, w3)
       ∧ procArray w3 = filter (fun q => q ≠ pgprocno d) (procArray w)
       ∧ xlog w3 = xlog w1 ∧ clog w3 = clog w2
       ∧ TwoPhaseState w3 = TwoPhaseState w0
       ∧ events w3
         = events w0 ++
           outcome_events isCommit main begin_lsn recptr xid children
             (pgprocno d) latestXid
       (* the entry is marked invalid, the files are dropped, the
          caches invalidated, the callbacks run, the entry removed *)
       ∧ Finish_clean_up isCommit g xid sv w3 = (Done true, w')
       ∧ (∃ d', gxacts (TwoPhaseState w') !! g = Some d' ∧ valid d' = false)
       ∧ (g ∉ live_ptrs (TwoPhaseState w'))
       ∧ live_ptrs (TwoPhaseState w) ≡ₚ g :: live_ptrs (TwoPhaseState w')
       ∧ xlog w' = xlog w1 ∧ clog w' = clog w2 ∧ procArray w' = procArray w3
       ∧ Forall (fun e => finish_step e = 9%nat) callbacks
       ∧ events w' = events w3 ++ cleanup_events isCommit g xid sv callbacks).
Proof.
  intros Hwf Hrun. split.
  { destruct (performs_FinishPreparedTransaction gid0 isCommit raise w r w' Hrun)
      as (new & He & Ho & _ & _).
    exists new. split; [done|].
    intros i j a b Ha Hb Hlt.
    destruct (decide (i < j)%nat) as [|Hge]; [done|]. exfalso.
    destruct (decide (j = i)) as [->|Hne].
    - rewrite Ha in Hb. injection Hb as <-. lia.
    - assert (j < i)%nat as Hji by lia.
      pose proof (Ho j i b a Hji Hb Ha). lia. }
  intros ->.
  destruct (FinishPreparedTransaction_true_inv gid0 isCommit raise w fl w' Hwf Hrun)
    as (g & d0 & x & rec & Hfind & Hlock & Hx & Hrec & Hclog).
  pose proof (find_prepared_Some _ _ _ _ Hfind) as (Hlive & Hd & Hvalid & Hgid).
  pose proof (exit_hook_registered_shared true w)
    as (Hs1 & Hp1 & Hx1 & _ & _ & _ & Hxl1 & Hc1 & Ha1 & _).
  pose proof (exit_hook_registered_wf true w fl Hwf) as Hwf1.
  set (d := set_locking_backend MyBackendId d0).
  set (w0 := locked g d0 (exit_hook_registered true w)) in *.
  assert (Hgid0 : Z.of_nat (String.length (gid d0)) < GIDSIZE).
  { pose proof (wf_gids _ _ Hwf) as Hg. rewrite Forall_forall in Hg.
    apply (Hg d0). by eapply list_elem_of_lookup_2. }
  assert (Hwf0 : registry_wf w0 fl).
  { subst w0. unfold locked.
    eapply (registry_wf_ext
              (set_TwoPhaseState
                 (set_gxacts (<[g := d]> (gxacts (TwoPhaseState (exit_hook_registered true w))))
                    (TwoPhaseState (exit_hook_registered true w)))
                 (exit_hook_registered true w))); try done.
    apply (registry_wf_store _ fl g d0); try done. by rewrite Hs1. }
  assert (Hw0 : TwoPhaseState w0
                = set_gxacts (<[g := d]> (gxacts (TwoPhaseState w))) (TwoPhaseState w)
                ∧ allProcs w0 = allProcs w ∧ allPgXact w0 = allPgXact w
                ∧ xlog w0 = xlog w ∧ clog w0 = clog w ∧ procArray w0 = procArray w).
  { subst w0. unfold locked. wsimpl. by rewrite Hs1. }
  destruct Hw0 as (Hs0 & Hp0 & Hx0 & Hxl0 & Hc0 & Ha0).
  assert (Hd0 : gxacts (TwoPhaseState w0) !! g = Some d).
  { rewrite Hs0. wsimpl. apply list_lookup_insert_eq. by eapply lookup_lt_Some. }
  assert (Hl0 : live_ptrs (TwoPhaseState w0) = live_ptrs (TwoPhaseState w))
    by by rewrite Hs0.
  unfold FinishPreparedTransaction in Hrun. rewrite (bind_done _ _ _ _ _ Hlock) in Hrun.
  destruct (FinishPreparedTransaction_locked_steps gid0 isCommit g d x rec w0)
    as (main & rdata & Hout & Hsteps); try done.
  { by rewrite Hx0. }
  { by rewrite Hxl0. }
  { intros Hc. rewrite Hc0. by apply Hclog. }
  rewrite Hsteps in Hrun.
  set (xid := pgxact_xid x) in *.
  set (sv := disassemble (XLogRecGetData rec)) in *.
  set (children := read_xids (sv_children sv) (hdr_nsubxacts (sv_hdr sv))) in *.
  destruct (Finish_write_record_run main rdata w0)
    as (w1 & Hr1 & Hrec1 & Hfl1 & Hs1' & Hp1' & Hx1' & Hc1' & Ha1' & He1).
  cbv zeta in Hr1, Hrec1, Hfl1, He1.
  rewrite (bind_done _ _ _ _ _ Hr1) in Hrun.
  destruct (Finish_update_status_run isCommit xid children w1)
    as (w2 & Hr2 & Hc2 & Hs2 & Hp2 & Hx2 & Hxl2 & Ha2 & He2).
  rewrite (bind_done _ _ _ _ _ Hr2) in Hrun.
  set (recptr := xlog_insert_pos (xlog w0) + SizeOfXLogRecord
                 + Z.of_nat (length (concat rdata))) in *.
  destruct (Finish_leave_ProcArray_run recptr (pgprocno d)
              (TransactionIdLatest xid children) w2)
    as (w3 & Hr3 & Ha3 & Hs3 & Hp3 & Hx3 & Hxl3 & Hc3 & He3).
  rewrite (bind_done _ _ _ _ _ Hr3) in Hrun.
  apply list_elem_of_lookup in Hlive as [i Hi].
  assert (Hwf3 : registry_wf w3 fl).
  { eapply (registry_wf_ext w0); [| | |exact Hwf0].
    - by rewrite Hs3, Hs2, Hs1'.
    - by rewrite Hp3, Hp2, Hp1'.
    - by rewrite Hx3, Hx2, Hx1'. }
  destruct (Finish_clean_up_run isCommit g xid sv w3 fl i d Hwf3)
    as (w'' & callbacks & Hr4 & Hwf4 & Hperm & Hg4 & Hxl4 & Hc4 & Ha4 & Hcb & He4).
  { by rewrite Hs3, Hs2, Hs1', Hl0. }
  { by rewrite Hs3, Hs2, Hs1'. }
  rewrite Hr4 in Hrun. injection Hrun as ->.
  exists g, d, x, rec, main, rdata, recptr, w0, w1, w2, w3, callbacks.
  cbv zeta. fold xid sv children.
  split; [exact Hlock|]. split; [exact Hd0|]. split; [exact Hvalid|].
  split. { rewrite Hl0. by eapply list_elem_of_lookup_2. }
  split; [by rewrite Hx0|]. split; [by rewrite Hxl0|].
  split; [exact Hxl0|]. split; [exact Hc0|]. split; [exact Ha0|].
  split; [exact Hsteps|].
  split; [exact Hr1|]. split; [exact Hout|].
  split; [by rewrite <- Hxl0|].
  split; [subst recptr; by rewrite Hxl0|].
  split; [exact Hfl1|].
  split; [by rewrite Hc1'|]. split; [by rewrite Ha1'|]. split; [exact Hs1'|].
  split; [exact Hr2|].
  split; [by rewrite Hc2, Hc1', Hc0|].
  split; [rewrite Hc2; apply set_status_tree_all|].
  split; [exact Hxl2|]. split; [by rewrite Ha2, Ha1'|].
  split; [by rewrite Hs2|].
  split; [exact Hr3|].
  split; [by rewrite Ha3, Ha2, Ha1', Ha0|].
  split; [by rewrite Hxl3|]. split; [exact Hc3|].
  split; [by rewrite Hs3, Hs2|].
  split.
  { rewrite He3, He2, He1. unfold outcome_events. rewrite <- !app_assoc.
    by rewrite Hxl0. }
  split; [exact Hr4|].
  split. { eexists. split; [exact Hg4|]. reflexivity. }
  assert (Hperm' : live_ptrs (TwoPhaseState w) ≡ₚ g :: live_ptrs (TwoPhaseState w')).
  { rewrite <- Hperm. by rewrite Hs3, Hs2, Hs1', Hl0. }
  split.
  { pose proof (wf_nodup _ _ Hwf) as Hnd. apply NoDup_app in Hnd as [Hnd _].
    rewrite Hperm' in Hnd. by apply NoDup_cons in Hnd as [? _]. }
  split; [exact Hperm'|].
  split; [by rewrite Hxl4, Hxl3, Hxl2|]. split; [by rewrite Hc4, Hc3|].
  split; [exact Ha4|]. split; [exact Hcb|]. exact He4.
Qed.

(** ** A state file that is too long *)

Lemma save_state_data_total data len w :
  xl_chain (records w) ≠ [] →
  ∃ xl, save_state_data data len w = (Done tt, set_records xl w)
        ∧ total_len xl = wrap32 (total_len (records w) + wrap32 (MAXALIGN len))
        ∧ xl_chain xl ≠ [].
Proof.
  intros Hne. unfold save_state_data. rewrite bind_get.
  assert (Hsnoc : ∀ l : list XLogRecData, l ≠ [] → ∃ b t, l = b ++ [t]).
  { intros l. destruct l as [|a l] using rev_ind; [done|]. intros _. by exists l, a. }
  destruct (bytes_free (records w) <? wrap32 (MAXALIGN len)).
  - rewrite bind_when_true.
    destruct (xl_chain (records w)) as [|c0 chain'] eqn:Hc; [done|].
    rewrite bind_modify, bind_get.
    cbn [records set_records xl_chain bytes_free total_len].
    rewrite unsnoc_snoc. unfold modify. eexists. split; [reflexivity|].
    cbn [total_len xl_chain]. split; [reflexivity|].
    intros H. apply (f_equal length) in H. rewrite length_app in H. cbn in H. lia.
  - rewrite bind_when_false, bind_get.
    destruct (Hsnoc _ Hne) as (b & t & Hbt). rewrite Hbt, unsnoc_snoc.
    unfold modify. eexists. split; [reflexivity|].
    cbn [total_len xl_chain]. split; [reflexivity|]. by destruct b.
Qed.

(** X10.  When the running total of the chain, with the end
    sentinel and the checksum, is above MaxAllocSize, EndPrepare raises
    ERROR "two-phase state file maximum length exceeded"; the chain
    under construction is all that has changed: nothing is inserted
    into the log, the entry is neither marked valid nor unlocked, and
    the table of prepared transactions is as it was. *)
Theorem EndPrepare_refuses_a_state_file_that_is_too_long g d x w :
  gxacts (TwoPhaseState w) !! g = Some d →
  allPgXact w !! pgprocno d = Some x →
  xl_chain (records w) ≠ [] →
  MaxAllocSize
  < wrap32 (wrap32 (total_len (records w)
                    + wrap32 (MAXALIGN sizeof_TwoPhaseRecordOnDisk))
            + sizeof_pg_crc32) →
  ∃ xl,
    EndPrepare g w
    = (Raise ERROR ERRCODE_PROGRAM_LIMIT_EXCEEDED msg_length_exceeded,
       set_records xl w).
Proof.
  intros Hd Hx Hne Hlong. unfold EndPrepare.
  rewrite (bind_gxact_load _ _ _ _ Hd), (bind_pgxact_load _ _ _ _ Hx). cbv zeta.
  unfold RegisterTwoPhaseRecord. rewrite bind_assoc.
  destruct (save_state_data_total (record_image 0 TWOPHASE_RM_END_ID 0)
              sizeof_TwoPhaseRecordOnDisk w Hne) as (xl & Hrun & Htotal & Hchain).
  rewrite (bind_done _ _ _ _ _ Hrun).
  change (0 <? 0) with false. rewrite bind_when_false, bind_get.
  cbn [records set_records].
  destruct (xl_chain xl) as [|h rest] eqn:Hc; [done|].
  rewrite bind_modify. rewrite Htotal.
  destruct (Z.ltb_spec MaxAllocSize
              (wrap32 (wrap32 (total_len (records w)
                               + wrap32 (MAXALIGN sizeof_TwoPhaseRecordOnDisk))
                       + sizeof_pg_crc32))) as [_|]; [|lia].
  rewrite bind_when_true, bind_ereport.
  eexists. reflexivity.
Qed.

(** ** From the reservation to the view *)

(** X7.  An entry that MarkAsPreparing has reserved is not shown
    by pg_prepared_xact; once MarkAsPrepared has marked it valid the
    view shows one more row, last, with the xid, GID, time, owner and
    database the reservation was made with. *)
Theorem pg_prepared_xact_shows_an_entry_once_it_is_prepared
    xid ldx gid0 ts own db lsn w fl g w1 :
  registry_wf w fl →
  Z.of_nat max_prepared_xacts < 2 ^ 31 →
  MarkAsPreparing xid ldx gid0 ts own db lsn w = (Done g, w1) →
  ∃ w2 rows,
    MarkAsPrepared g w1 = (Done tt, w2)
    ∧ pg_prepared_xact w = Ok rows
    ∧ pg_prepared_xact w1 = Ok rows
    ∧ pg_prepared_xact w2
      = Ok (rows ++ [{| row_transaction := xid; row_gid := gid0; row_prepared := ts;
                        row_ownerid := own; row_dbid := db |}]).
Proof.
  intros Hwf Hmax Hrun.
  rewrite (MarkAsPreparing_run _ _ _ _ _ _ _ _ fl Hwf) in Hrun.
  destruct (Z.leb_spec GIDSIZE (Z.of_nat (String.length gid0))) as [|Hshort];
    [discriminate|].
  destruct (Nat.eqb max_prepared_xacts 0); [discriminate|].
  destruct (bool_decide _); [discriminate|].
  destruct fl as [|g' fl']; [discriminate|].
  destruct (gxacts (TwoPhaseState w) !! g') as [d|] eqn:Hd; [|discriminate].
  injection Hrun as <- <-.
  destruct (reserved_wf g' d xid ldx gid0 ts own db lsn w fl' Hwf Hd Hshort)
    as (Hwf1 & _ & Hptrs & _ & Hview1 & _).
  destruct (MarkAsPrepared_last g' _ fl' _ _ _ Hwf1 Hptrs Hview1)
    as (w2 & Hrun2 & Hwf2 & Hview2 & _).
  exists w2, (view_row <$> List.filter px_valid (registry_view w)).
  split; [exact Hrun2|].
  rewrite (pg_prepared_xact_run w (g' :: fl') Hwf Hmax).
  rewrite (pg_prepared_xact_run _ fl' Hwf1 Hmax).
  rewrite (pg_prepared_xact_run _ fl' Hwf2 Hmax).
  rewrite Hview1, Hview2, !List.filter_app. cbn [List.filter px_valid marked_valid].
  rewrite app_nil_r, fmap_app. done.
Qed.

End More.

(** ** Pending relation deletes *)

Lemma smgrGetPendingDeletes_count_run nestLevel forCommit pending : ∀ nrels,
  0 ≤ nrels →
  nrels + Z.of_nat (length pending) < 2 ^ 31 →
  smgrGetPendingDeletes_count nestLevel forCommit pending nrels
  = nrels + Z.of_nat (length (List.filter (to_report nestLevel forCommit) pending)).
Proof.
  induction pending as [|p next IH]; intros nrels Hn Hb; cbn [smgrGetPendingDeletes_count List.filter].
  - cbn. lia.
  - cbn [length] in Hb. destruct (to_report nestLevel forCommit p).
    + rewrite to_int32_id by lia. rewrite IH by lia. cbn [length]. lia.
    + rewrite IH by lia. lia.
Qed.

Lemma filter_length_le {A} (f : A → bool) l : (length (List.filter f l) ≤ length l)%nat.
Proof. induction l as [|x l IH]; cbn; [lia|]. destruct (f x); cbn; lia. Qed.

Lemma smgrGetPendingDeletes_fill_run nestLevel forCommit nrels pending : ∀ rptr,
  Z.of_nat (length rptr + length (List.filter (to_report nestLevel forCommit) pending)) ≤ nrels →
  smgrGetPendingDeletes_fill nestLevel forCommit pending nrels rptr
  = Ok (rptr ++ (pd_relnode <$> List.filter (to_report nestLevel forCommit) pending)).
Proof.
  induction pending as [|p next IH]; intros rptr Hb;
    cbn [smgrGetPendingDeletes_fill List.filter].
  - cbn. by rewrite app_nil_r.
  - cbn [List.filter] in Hb. destruct (to_report nestLevel forCommit p).
    + cbn [length] in Hb.
      destruct (Z.ltb_spec (Z.of_nat (length rptr)) nrels) as [_|]; [|lia].
      rewrite IH.
      * cbn [fmap list_fmap]. by rewrite <- app_assoc.
      * rewrite length_app. cbn [length]. lia.
    + by apply IH.
Qed.

(** X18.  smgrGetPendingDeletes returns the relations of the
    entries of the current nesting level or deeper that are scheduled
    for the given outcome and are not database operations, temporary
    relations included, in list order, with their number; NULL and 0
    when there is none. *)
Theorem smgrGetPendingDeletes_result forCommit nestLevel s :
  Z.of_nat (length (pendingDeletes s)) < 2 ^ 31 →
  smgrGetPendingDeletes forCommit nestLevel s
  = Ok (match reported nestLevel forCommit s with
        | [] => (0, None)
        | _ :: _ =>
            (Z.of_nat (length (reported nestLevel forCommit s)),
             Some (pd_relnode <$> reported nestLevel forCommit s))
        end).
Proof.
  intros Hb. unfold smgrGetPendingDeletes, reported.
  rewrite smgrGetPendingDeletes_count_run by lia.
  rewrite Z.add_0_l.
  destruct (List.filter (to_report nestLevel forCommit) (pendingDeletes s)) as [|p l] eqn:Hf.
  - reflexivity.
  - destruct (Z.eqb_spec (Z.of_nat (length (p :: l))) 0) as [H0|_]; [cbn in H0; lia|].
    rewrite smgrGetPendingDeletes_fill_run.
    + rewrite Hf. reflexivity.
    + rewrite Hf. cbn [length]. lia.
Qed.

Lemma smgrDoPendingDeletes_loop_run nestLevel isCommit pending : ∀ srels st maxrels,
  Z.of_nat (length srels + length pending) < 2 ^ 30 →
  (maxrels = 0 ∧ srels = [] ∨ 0 < maxrels < 2 ^ 31 ∧ Z.of_nat (length srels) ≤ maxrels) →
  Forall (fun p => due_dbOperation nestLevel isCommit p = false) pending →
  ∃ maxrels',
    smgrDoPendingDeletes_loop nestLevel isCommit pending srels st maxrels
    = Ok {| dl_pending := outer_entries nestLevel pending;
            dl_srels := srels ++ (pending_srel <$>
                          List.filter (to_report nestLevel isCommit) pending);
            dl_relstorages := st ++ ((fun p => rfn_relstorage (pd_relnode p)) <$>
                          List.filter (to_report nestLevel isCommit) pending);
            dl_maxrels := maxrels';
            dl_dropped := None |}.
Proof.
  induction pending as [|p next IH]; intros srels st maxrels Hb Hinv Hdb;
    cbn [smgrDoPendingDeletes_loop outer_entries List.filter].
  - exists maxrels. cbn. by rewrite !app_nil_r.
  - inversion Hdb as [|? ? Hp Hnext]; subst. cbn [length] in Hb.
    unfold due_dbOperation in Hp. unfold to_report.
    destruct (Z.ltb_spec (pd_nestLevel p) nestLevel) as [Hout | Hin].
    + destruct (Z.leb_spec nestLevel (pd_nestLevel p)) as [|_]; [lia|].
      cbn [andb].
      destruct (IH srels st maxrels) as (m' & ->); [lia|done|done|].
      exists m'. reflexivity.
    + destruct (Z.leb_spec nestLevel (pd_nestLevel p)) as [_|]; [|lia].
      cbn [andb] in Hp |- *.
      destruct (Bool.eqb (pd_atCommit p) isCommit); cbn [andb] in Hp |- *.
      * rewrite Hp. cbn [negb]. cbv zeta. fold (pending_srel p).
        set (maxrels' := if maxrels =? 0 then 8
                         else if maxrels <=? Z.of_nat (length srels)
                              then to_int32 (maxrels * 2) else maxrels).
        assert (Hm : 0 < maxrels' < 2 ^ 31 ∧ Z.of_nat (length srels) + 1 ≤ maxrels').
        { subst maxrels'. destruct Hinv as [[-> ->] | [Hm Hn]].
          - cbn. lia.
          - destruct (Z.eqb_spec maxrels 0); [lia|].
            destruct (Z.leb_spec maxrels (Z.of_nat (length srels))).
            + rewrite to_int32_id; lia.
            + lia. }
        destruct (Z.ltb_spec (Z.of_nat (length srels)) maxrels') as [_|]; [|lia].
        destruct (IH (srels ++ [pending_srel p])
                    (st ++ [rfn_relstorage (pd_relnode p)]) maxrels') as (m' & ->).
        -- rewrite length_app. cbn [length]. lia.
        -- right. rewrite length_app. cbn [length]. lia.
        -- done.
        -- exists m'. cbn [fmap list_fmap]. by rewrite <- !app_assoc.
      * destruct (IH srels st maxrels) as (m' & ->); [lia|done|done|].
        exists m'. reflexivity.
Qed.

Lemma smgrDoPendingDeletes_unlinks_the_reported_aux isCommit nestLevel s :
  Z.of_nat (length (pendingDeletes s)) < 2 ^ 30 →
  Forall (fun p => due_dbOperation nestLevel isCommit p = false) (pendingDeletes s) →
  smgrDoPendingDeletes isCommit nestLevel s
  = (Ok tt,
     {| pendingDeletes := outer_entries nestLevel (pendingDeletes s);
        smgr_events := smgr_events s ++ unlink_events (reported nestLevel isCommit s) |}).
Proof.
  intros Hb Hdb. unfold smgrDoPendingDeletes.
  destruct (smgrDoPendingDeletes_loop_run nestLevel isCommit (pendingDeletes s) [] [] 0)
    as (m' & ->); [cbn; lia|by left|done|].
  cbn [dl_pending dl_dropped dl_srels dl_relstorages app].
  do 3 f_equal. unfold unlink_events, reported.
  destruct (List.filter (to_report nestLevel isCommit) (pendingDeletes s)); reflexivity.
Qed.

(** X19.  When no database operation is due, smgrDoPendingDeletes
    (and AtSubAbort_smgr, which is the call for an abort) keeps exactly
    the entries of the outer levels on the list, and passes exactly
    the relations that smgrGetPendingDeletes reports for the same
    outcome and level to one smgrdounlinkall, in list order, then
    closes each; with nothing to unlink it calls nothing.  The arrays
    it collects them in are never written past their end. *)
Theorem smgrDoPendingDeletes_unlinks_the_reported isCommit nestLevel s :
  Z.of_nat (length (pendingDeletes s)) < 2 ^ 30 →
  Forall (fun p => due_dbOperation nestLevel isCommit p = false) (pendingDeletes s) →
  let after :=
    (Ok tt,
     {| pendingDeletes := outer_entries nestLevel (pendingDeletes s);
        smgr_events := smgr_events s ++ unlink_events (reported nestLevel isCommit s) |})
  in
  smgrDoPendingDeletes isCommit nestLevel s = after
  ∧ (isCommit = false → AtSubAbort_smgr nestLevel s = after).
Proof.
  intros Hb Hdb after. split.
  - by apply smgrDoPendingDeletes_unlinks_the_reported_aux.
  - intros ->. by apply smgrDoPendingDeletes_unlinks_the_reported_aux.
Qed.

Lemma smgrDoPendingDeletes_loop_drop nestLevel isCommit p after before :
  ∀ srels st maxrels,
  Z.of_nat (length srels + length before) < 2 ^ 30 →
  (maxrels = 0 ∧ srels = [] ∨ 0 < maxrels < 2 ^ 31 ∧ Z.of_nat (length srels) ≤ maxrels) →
  Forall (fun q => due_dbOperation nestLevel isCommit q = false) before →
  due_dbOperation nestLevel isCommit p = true →
  ∃ r,
    smgrDoPendingDeletes_loop nestLevel isCommit (before ++ p :: after) srels st maxrels
    = Ok r
    ∧ dl_pending r = outer_entries nestLevel before ++ after
    ∧ dl_dropped r = Some (dbNode (rfn_node (pd_relnode p)),
                           spcNode (rfn_node (pd_relnode p))).
Proof.
  intros srels st maxrels Hb Hinv Hdb Hp. revert srels st maxrels Hb Hinv.
  induction Hdb as [|q before Hq Hbefore IH]; intros srels st maxrels Hb Hinv;
    cbn [app smgrDoPendingDeletes_loop outer_entries List.filter].
  - unfold due_dbOperation in Hp.
    apply andb_prop in Hp as [Hp Hdbop]. apply andb_prop in Hp as [Hlvl Hat].
    destruct (Z.ltb_spec (pd_nestLevel p) nestLevel) as [|_]; [lia|].
    rewrite Hat, Hdbop. eexists. split; [reflexivity|]. split; reflexivity.
  - cbn [length] in Hb. unfold due_dbOperation in Hq.
    destruct (Z.ltb_spec (pd_nestLevel q) nestLevel) as [Hout | Hin].
    + destruct (IH srels st maxrels) as (r & -> & Hr1 & Hr2); [lia|done|].
      eexists. split; [reflexivity|]. cbn. by rewrite Hr1, Hr2.
    + destruct (Z.leb_spec nestLevel (pd_nestLevel q)) as [_|]; [|lia].
      cbn [andb] in Hq.
      destruct (Bool.eqb (pd_atCommit q) isCommit); cbn [andb] in Hq.
      * rewrite Hq. cbv zeta.
        set (maxrels' := if maxrels =? 0 then 8
                         else if maxrels <=? Z.of_nat (length srels)
                              then to_int32 (maxrels * 2) else maxrels).
        assert (Hm : 0 < maxrels' < 2 ^ 31 ∧ Z.of_nat (length srels) + 1 ≤ maxrels').
        { subst maxrels'. destruct Hinv as [[-> ->] | [Hm Hn]].
          - cbn. lia.
          - destruct (Z.eqb_spec maxrels 0); [lia|].
            destruct (Z.leb_spec maxrels (Z.of_nat (length srels))).
            + rewrite to_int32_id; lia.
            + lia. }
        destruct (Z.ltb_spec (Z.of_nat (length srels)) maxrels') as [_|]; [|lia].
        apply IH.
        -- rewrite length_app. cbn [length]. lia.
        -- right. rewrite length_app. cbn [length]. lia.
      * apply IH; [lia|done].
Qed.

(** X20.  When smgrDoPendingDeletes comes to a database operation
    that is due, it drops the database directory and returns at once.
    The code asserts there that the operation is the last entry of the
    list and that its relNode is InvalidOid; under these conditions
    the entries before it that belong to the outer levels stay, and
    the relation entries it has passed are off the list without having
    been unlinked: the only call is DropDatabaseDirectory. *)
Theorem smgrDoPendingDeletes_database_drop isCommit nestLevel s before p :
  pendingDeletes s = before ++ [p] →
  relNode (rfn_node (pd_relnode p)) = InvalidOid →
  Z.of_nat (length before) < 2 ^ 30 →
  Forall (fun q => due_dbOperation nestLevel isCommit q = false) before →
  due_dbOperation nestLevel isCommit p = true →
  ∃ s',
    smgrDoPendingDeletes isCommit nestLevel s = (Ok tt, s')
    ∧ pendingDeletes s' = outer_entries nestLevel before
    ∧ smgr_events s'
      = smgr_events s ++
        [EvDropDatabaseDirectory (dbNode (rfn_node (pd_relnode p)))
           (spcNode (rfn_node (pd_relnode p)))]
    ∧ Forall (fun q => q ∉ pendingDeletes s') (reported nestLevel isCommit s).
Proof.
  intros Hs _ Hb Hdb Hp. unfold smgrDoPendingDeletes. rewrite Hs.
  destruct (smgrDoPendingDeletes_loop_drop nestLevel isCommit p [] before [] [] 0)
    as (r & -> & Hr1 & Hr2); [cbn; lia|by left|done|done|].
  rewrite Hr1, Hr2, app_nil_r.
  eexists. split; [reflexivity|]. cbn [pendingDeletes smgr_events].
  split; [reflexivity|]. split; [reflexivity|].
  apply Forall_forall. intros q Hq Hin.
  unfold reported in Hq. apply list_elem_of_In, filter_In in Hq as [_ Hq].
  unfold outer_entries in Hin. apply list_elem_of_In, filter_In in Hin as [_ Hin].
  unfold to_report in Hq. apply andb_prop in Hq as [Hq _]. apply andb_prop in Hq as [Hq _].
  lia.
Qed.



Lemma valid_relpersistence_create rnode relpersistence relstorage nestLevel s :
  valid_relpersistence relpersistence = true →
  ∃ (backend : Z) (needs_wal : bool),
    RelationCreateStorage rnode relpersistence relstorage nestLevel s
    = (Ok tt,
       push_pending
         {| pd_relnode :=
              {| rfn_node := rnode; rfn_relstorage := relstorage;
                 rfn_isTempRelation := backend =? TempRelBackendId |};
            pd_atCommit := false; pd_nestLevel := nestLevel;
            pd_dbOperation := false |}
         (EvSmgrCreate (smgropen rnode backend) ::
          if needs_wal then [EvLogSmgrCreate rnode] else []) s)
    ∧ (backend = TempRelBackendId ∨ backend = InvalidBackendId)
    ∧ (backend = TempRelBackendId ↔ relpersistence = RELPERSISTENCE_TEMP)
    ∧ (needs_wal = true ↔ relpersistence = RELPERSISTENCE_PERMANENT).
Proof.
  unfold valid_relpersistence, RelationCreateStorage. intros Hv.
  destruct (Z.eqb_spec relpersistence RELPERSISTENCE_TEMP) as [->|Ht].
  { exists TempRelBackendId, false. split; [reflexivity|]. split; [by left|].
    split; [done|]. split; [done|]. by intros [=]. }
  destruct (Z.eqb_spec relpersistence RELPERSISTENCE_UNLOGGED) as [->|Hu].
  { exists InvalidBackendId, false. split; [reflexivity|]. split; [by right|].
    split; [split; [by intros [=]|by intros [=]]|]. split; [done|]. by intros [=]. }
  destruct (Z.eqb_spec relpersistence RELPERSISTENCE_PERMANENT) as [->|Hp]; [|done].
  exists InvalidBackendId, true. split; [reflexivity|]. split; [by right|].
  split; [split; [by intros [=]|by intros [=]]|]. done.
Qed.


Lemma RelationPreserveStorage_loop_filter rnode atCommit pending :
  RelationPreserveStorage_loop rnode atCommit pending
  = List.filter (fun p => negb (RelFileNodeEquals rnode (rfn_node (pd_relnode p))
                                && Bool.eqb (pd_atCommit p) atCommit)) pending.
Proof.
  induction pending as [|p next IH]; [reflexivity|].
  cbn [RelationPreserveStorage_loop List.filter].
  destruct (RelFileNodeEquals rnode (rfn_node (pd_relnode p))
            && Bool.eqb (pd_atCommit p) atCommit); cbn [negb]; by rewrite IH.
Qed.

Lemma smgrDoPendingDeletes_loop_srels (P : SMgrRelation → Prop) nestLevel isCommit
    pending : ∀ srels st maxrels r,
  Forall P srels →
  Forall (fun p => Bool.eqb (pd_atCommit p) isCommit = true → P (pending_srel p)) pending →
  smgrDoPendingDeletes_loop nestLevel isCommit pending srels st maxrels = Ok r →
  Forall P (dl_srels r).
Proof.
  induction pending as [|p next IH]; intros srels st maxrels r Hs Hp;
    cbn [smgrDoPendingDeletes_loop].
  - intros [= <-]. exact Hs.
  - inversion Hp as [|? ? Hp1 Hp2]; subst.
    destruct (pd_nestLevel p <? nestLevel).
    + destruct (smgrDoPendingDeletes_loop nestLevel isCommit next srels st maxrels)
        as [r'| | |] eqn:Hr'; cbn [rbind]; try discriminate.
      intros [= <-]. cbn [dl_srels]. by eapply IH.
    + destruct (Bool.eqb (pd_atCommit p) isCommit).
      * destruct (pd_dbOperation p).
        -- intros [= <-]. exact Hs.
        -- cbv zeta. fold (pending_srel p).
           match goal with |- context [if ?c then _ else Fault] => destruct c end;
             [|discriminate].
           apply IH; [|done]. apply Forall_app. split; [done|].
           constructor; [by apply Hp1|constructor].
      * by apply IH.
Qed.

(** X22.  RelationPreserveStorage takes off the list every entry
    of the relation for the given outcome and no other entry; after it
    smgrDoPendingDeletes for that outcome unlinks no file of the
    relation. *)
Theorem RelationPreserveStorage_spares_the_relation rnode atCommit s :
  pendingDeletes (RelationPreserveStorage rnode atCommit s)
  = List.filter (fun p => negb (RelFileNodeEquals rnode (rfn_node (pd_relnode p))
                                && Bool.eqb (pd_atCommit p) atCommit))
      (pendingDeletes s)
  ∧ ∀ nestLevel s',
      smgrDoPendingDeletes atCommit nestLevel (RelationPreserveStorage rnode atCommit s)
      = (Ok tt, s') →
      ∃ new, smgr_events s' = smgr_events s ++ new
             ∧ Forall (fun srel => RelFileNodeEquals rnode (smgr_rnode srel) = false)
                 (unlinked new).
Proof.
  split.
  { apply RelationPreserveStorage_loop_filter. }
  intros nestLevel s'. unfold smgrDoPendingDeletes.
  destruct (smgrDoPendingDeletes_loop nestLevel atCommit
              (pendingDeletes (RelationPreserveStorage rnode atCommit s)) [] [] 0)
    as [r| | |] eqn:Hr; try discriminate.
  intros [= <-]. cbn [smgr_events RelationPreserveStorage].
  eexists. split; [reflexivity|].
  destruct (dl_dropped r) as [[db spc]|]; [constructor|].
  destruct (0 <? Z.of_nat (length (dl_srels r))); [|constructor].
  assert (Hu : ∀ srels st,
            unlinked (EvSmgrDoUnlinkAll srels st :: (EvSmgrClose <$> srels)) = srels).
  { intros srels st. unfold unlinked. cbn [fmap list_fmap mjoin list_join].
    assert (H : ∀ l : list SMgrRelation,
       mjoin ((λ e, match e with EvSmgrDoUnlinkAll srels _ => srels | _ => [] end)
                <$> (EvSmgrClose <$> l)) = []).
    { induction l as [|x l IH]; [reflexivity|]. cbn. exact IH. }
    cbn. rewrite H. by rewrite app_nil_r. }
  rewrite Hu.
  eapply smgrDoPendingDeletes_loop_srels; [| |exact Hr]; [constructor|].
  cbn [pendingDeletes RelationPreserveStorage].
  rewrite RelationPreserveStorage_loop_filter.
  apply Forall_forall. intros p Hin Hat.
  apply list_elem_of_In, filter_In in Hin as [_ Hneg].
  rewrite Hat, andb_true_r in Hneg. apply negb_true_iff in Hneg.
  exact Hneg.
Qed.

Lemma smgrDoPendingDeletes_loop_outer nestLevel isCommit pending : ∀ srels st maxrels,
  Forall (fun p => pd_nestLevel p < nestLevel) pending →
  smgrDoPendingDeletes_loop nestLevel isCommit pending srels st maxrels
  = Ok {| dl_pending := pending; dl_srels := srels; dl_relstorages := st;
          dl_maxrels := maxrels; dl_dropped := None |}.
Proof.
  induction pending as [|p next IH]; intros srels st maxrels Hout;
    cbn [smgrDoPendingDeletes_loop]; [reflexivity|].
  inversion Hout as [|? ? Hp Hnext]; subst.
  destruct (Z.ltb_spec (pd_nestLevel p) nestLevel) as [_|]; [|lia].
  by rewrite IH.
Qed.

Lemma smgrDoPendingDeletes_outer isCommit nestLevel s :
  Forall (fun p => pd_nestLevel p < nestLevel) (pendingDeletes s) →
  smgrDoPendingDeletes isCommit nestLevel s = (Ok tt, s).
Proof.
  intros Hout. unfold smgrDoPendingDeletes.
  rewrite smgrDoPendingDeletes_loop_outer by done.
  cbn. rewrite app_nil_r. by destruct s.
Qed.

Lemma to_report_reassign nestLevel forCommit p :
  - 2 ^ 31 < nestLevel < 2 ^ 31 →
  to_report (nestLevel - 1) forCommit (reassign nestLevel p)
  = to_report (nestLevel - 1) forCommit p
  ∧ pd_relnode (reassign nestLevel p) = pd_relnode p.
Proof.
  intros Hn. unfold reassign, to_report.
  destruct (Z.leb_spec nestLevel (pd_nestLevel p)) as [Hin|Hout]; [|done].
  cbn [pd_nestLevel pd_atCommit pd_dbOperation pd_relnode].
  rewrite to_int32_id by lia. split; [|done].
  rewrite Z.leb_refl.
  by destruct (Z.leb_spec (nestLevel - 1) (pd_nestLevel p)) as [_|]; [|lia].
Qed.

Lemma smgrGetPendingDeletes_count_reassign nestLevel forCommit pending : ∀ nrels,
  - 2 ^ 31 < nestLevel < 2 ^ 31 →
  smgrGetPendingDeletes_count (nestLevel - 1) forCommit (reassign nestLevel <$> pending) nrels
  = smgrGetPendingDeletes_count (nestLevel - 1) forCommit pending nrels.
Proof.
  induction pending as [|p next IH]; intros nrels Hn; [reflexivity|].
  cbn [fmap list_fmap smgrGetPendingDeletes_count].
  destruct (to_report_reassign nestLevel forCommit p Hn) as [-> _].
  change (list_fmap _ _ (reassign nestLevel) next) with (reassign nestLevel <$> next).
  by rewrite IH.
Qed.

Lemma smgrGetPendingDeletes_fill_reassign nestLevel forCommit nrels pending : ∀ rptr,
  - 2 ^ 31 < nestLevel < 2 ^ 31 →
  smgrGetPendingDeletes_fill (nestLevel - 1) forCommit (reassign nestLevel <$> pending)
    nrels rptr
  = smgrGetPendingDeletes_fill (nestLevel - 1) forCommit pending nrels rptr.
Proof.
  induction pending as [|p next IH]; intros rptr Hn; [reflexivity|].
  cbn [fmap list_fmap smgrGetPendingDeletes_fill].
  destruct (to_report_reassign nestLevel forCommit p Hn) as [-> ->].
  change (list_fmap _ _ (reassign nestLevel) next) with (reassign nestLevel <$> next).
  destruct (to_report (nestLevel - 1) forCommit p); [|by rewrite IH].
  destruct (Z.of_nat (length rptr) <? nrels); [|done]. by rewrite IH.
Qed.

(** X23.  After AtSubCommit_smgr nothing is left to do at the
    level of the subtransaction, for either outcome, and what
    smgrGetPendingDeletes reports at the parent's level is what it
    reported there before: the subtransaction's requests now belong to
    the parent. *)
Theorem AtSubCommit_smgr_hands_over_to_parent nestLevel s :
  - 2 ^ 31 < nestLevel < 2 ^ 31 →
  (∀ isCommit,
     smgrDoPendingDeletes isCommit nestLevel (AtSubCommit_smgr nestLevel s)
     = (Ok tt, AtSubCommit_smgr nestLevel s))
  ∧ (∀ forCommit,
       smgrGetPendingDeletes forCommit (nestLevel - 1) (AtSubCommit_smgr nestLevel s)
       = smgrGetPendingDeletes forCommit (nestLevel - 1) s).
Proof.
  intros Hn. split.
  - intros isCommit. apply smgrDoPendingDeletes_outer.
    cbn [AtSubCommit_smgr pendingDeletes].
    apply Forall_forall. intros p Hin.
    apply list_elem_of_In, in_map_iff in Hin as (q & <- & _).
    destruct (Z.leb_spec nestLevel (pd_nestLevel q)); [|done].
    cbn [pd_nestLevel]. rewrite to_int32_id; lia.
  - intros forCommit. unfold smgrGetPendingDeletes.
    cbn [AtSubCommit_smgr pendingDeletes].
    change (map _ (pendingDeletes s)) with (reassign nestLevel <$> pendingDeletes s).
    rewrite smgrGetPendingDeletes_count_reassign by done.
    by rewrite smgrGetPendingDeletes_fill_reassign.
Qed.

Lemma PostPrepare_smgr_loop_nil pending : PostPrepare_smgr_loop pending = [].
Proof. induction pending as [|p next IH]; [reflexivity|exact IH]. Qed.

(** X24.  PostPrepare_smgr empties the list without calling the
    storage manager; after it smgrGetPendingDeletes reports nothing
    and smgrDoPendingDeletes does nothing, for either outcome at any
    level. *)
Theorem PostPrepare_smgr_forgets_everything s :
  PostPrepare_smgr s = {| pendingDeletes := []; smgr_events := smgr_events s |}
  ∧ ∀ isCommit nestLevel,
      smgrGetPendingDeletes isCommit nestLevel (PostPrepare_smgr s) = Ok (0, None)
      ∧ smgrDoPendingDeletes isCommit nestLevel (PostPrepare_smgr s)
        = (Ok tt, PostPrepare_smgr s).
Proof.
  unfold PostPrepare_smgr. rewrite PostPrepare_smgr_loop_nil.
  split; [reflexivity|]. intros isCommit nestLevel. split; [reflexivity|].
  unfold smgrDoPendingDeletes. cbn. by rewrite app_nil_r.
Qed.

(** X25.  With a persistence that is none of temporary, unlogged
    and permanent RelationCreateStorage raises "invalid relpersistence"
    and neither creates nor schedules anything.  Otherwise, whatever
    is pending already, it creates the file, for a temporary relation
    under the temporary backend, logs the creation for a permanent
    relation only, and puts the relation at the head of the list, to
    be deleted on abort.  Where no database operation is due,
    smgrDoPendingDeletes at that level then unlinks the relation on
    abort, ahead of the relations that were due anyway, and closes it;
    on commit it unlinks what was due and just forgets the request. *)
Theorem RelationCreateStorage_is_undone_by_abort
    rnode relpersistence relstorage nestLevel s :
  if valid_relpersistence relpersistence then
    ∃ s1 srel request,
      RelationCreateStorage rnode relpersistence relstorage nestLevel s = (Ok tt, s1)
      ∧ smgr_rnode srel = rnode
      ∧ (smgr_backend srel = TempRelBackendId ↔ relpersistence = RELPERSISTENCE_TEMP)
      ∧ smgr_events s1
        = smgr_events s ++
          EvSmgrCreate srel ::
          (if relpersistence =? RELPERSISTENCE_PERMANENT
           then [EvLogSmgrCreate rnode] else [])
      ∧ pendingDeletes s1 = request :: pendingDeletes s
      ∧ pd_atCommit request = false ∧ pd_nestLevel request = nestLevel
      ∧ pd_dbOperation request = false
      ∧ pending_srel request = srel
      ∧ rfn_relstorage (pd_relnode request) = relstorage
      ∧ ∀ isCommit,
          Z.of_nat (length (pendingDeletes s)) + 1 < 2 ^ 30 →
          Forall (fun p => due_dbOperation nestLevel isCommit p = false)
            (pendingDeletes s) →
          smgrDoPendingDeletes isCommit nestLevel s1
          = (Ok tt,
             {| pendingDeletes := outer_entries nestLevel (pendingDeletes s);
                smgr_events :=
                  smgr_events s1 ++
                  unlink_events ((if isCommit then [] else [request])
                                 ++ reported nestLevel isCommit s) |})
  else
    RelationCreateStorage rnode relpersistence relstorage nestLevel s
    = (Failed ERROR msg_invalid_relpersistence, s).
Proof.
  destruct (valid_relpersistence relpersistence) eqn:Hv.
  - destruct (valid_relpersistence_create rnode relpersistence relstorage nestLevel s Hv)
      as (backend & needs_wal & Hc & Hb & Htemp & Hwal).
    eexists. exists (smgropen rnode backend). eexists.
    split; [exact Hc|].
    split; [reflexivity|]. split; [exact Htemp|].
    split.
    { cbn [push_pending smgr_events]. do 2 f_equal.
      destruct needs_wal.
      - destruct Hwal as [Hwal _]. rewrite (Hwal eq_refl). reflexivity.
      - destruct (Z.eqb_spec relpersistence RELPERSISTENCE_PERMANENT) as [Hp|]; [|done].
        destruct Hwal as [_ Hwal]. by specialize (Hwal Hp). }
    split; [reflexivity|]. split; [reflexivity|]. split; [reflexivity|].
    split; [reflexivity|].
    split. { unfold pending_srel. cbn. by destruct Hb as [-> | ->]. }
    split; [reflexivity|].
    intros isCommit Hlen Hdb.
    rewrite smgrDoPendingDeletes_unlinks_the_reported_aux; cycle 1.
    { cbn [push_pending pendingDeletes length]. lia. }
    { cbn [push_pending pendingDeletes]. constructor; [|exact Hdb].
      unfold due_dbOperation. cbn. by rewrite andb_false_r. }
    cbn [push_pending pendingDeletes smgr_events outer_entries List.filter pd_nestLevel].
    destruct (Z.ltb_spec nestLevel nestLevel) as [|_]; [lia|].
    do 3 f_equal. unfold reported.
    cbn [push_pending pendingDeletes List.filter].
    unfold to_report at 1. cbn [pd_nestLevel pd_atCommit pd_dbOperation negb].
    rewrite Z.leb_refl. by destruct isCommit.
  - unfold valid_relpersistence in Hv. unfold RelationCreateStorage.
    destruct (relpersistence =? RELPERSISTENCE_TEMP); [done|].
    destruct (relpersistence =? RELPERSISTENCE_UNLOGGED); [done|].
    destruct (relpersistence =? RELPERSISTENCE_PERMANENT); [done|].
    reflexivity.
Qed.

(** X26.  A database drop scheduled on an empty list is never
    among the relations smgrGetPendingDeletes reports; commit drops the
    database directory, abort drops nothing, and either empties the
    list. *)
Theorem DatabaseDropStorage_drops_at_commit db_id tablespace_id garbage nestLevel s :
  pendingDeletes s = [] →
  (∀ forCommit,
     smgrGetPendingDeletes forCommit nestLevel
       (DatabaseDropStorage db_id tablespace_id garbage nestLevel s) = Ok (0, None))
  ∧ smgrDoPendingDeletes true nestLevel
      (DatabaseDropStorage db_id tablespace_id garbage nestLevel s)
    = (Ok tt,
       {| pendingDeletes := [];
          smgr_events := smgr_events s ++
                         [EvDropDatabaseDirectory db_id tablespace_id] |})
  ∧ smgrDoPendingDeletes false nestLevel
      (DatabaseDropStorage db_id tablespace_id garbage nestLevel s)
    = (Ok tt, {| pendingDeletes := []; smgr_events := smgr_events s |}).
Proof.
  intros Hs. unfold DatabaseDropStorage, push_pending. rewrite Hs, app_nil_r.
  split; [|split].
  - intros forCommit. unfold smgrGetPendingDeletes.
    cbn [pendingDeletes smgrGetPendingDeletes_count].
    unfold to_report. cbn [pd_dbOperation negb]. by rewrite andb_false_r.
  - unfold smgrDoPendingDeletes.
    cbn [pendingDeletes smgrDoPendingDeletes_loop pd_nestLevel pd_atCommit
         pd_dbOperation Bool.eqb].
    destruct (Z.ltb_spec nestLevel nestLevel) as [|_]; [lia|]. reflexivity.
  - unfold smgrDoPendingDeletes.
    cbn [pendingDeletes smgrDoPendingDeletes_loop pd_nestLevel pd_atCommit
         pd_dbOperation Bool.eqb].
    destruct (Z.ltb_spec nestLevel nestLevel) as [|_]; [lia|].
    cbn. by rewrite app_nil_r.
Qed.

(** * The steps of FinishPreparedTransaction at the small installation *)

Lemma FinishPreparedTransaction_order_witness :
  (∃ w1 w2 w3 w' recptr,
     FinishPreparedTransaction (E := demo_env) "t1" true true idle_world = (Done true, w')
     ∧ (∃ main rdata,
          xlog_records (xlog w1) !! 4408 = Some (mkXLogRecord main rdata)
          ∧ outcome_of main = Some (true, 601))
     ∧ 4408 < recptr ≤ xlog_flushed (xlog w1)
     ∧ clog w1 !! 601 = None
     ∧ clog w2 !! 601 = Some TRANSACTION_STATUS_COMMITTED
     ∧ procArray w2 = [1%nat]
     ∧ procArray w3 = []
     ∧ valid <$> gxacts (TwoPhaseState w3) !! 1%nat = Some true
     ∧ 1%nat ∈ live_ptrs (TwoPhaseState w3)
     ∧ valid <$> gxacts (TwoPhaseState w') !! 1%nat = Some false
     ∧ 1%nat ∉ live_ptrs (TwoPhaseState w'))
  ∧ (∃ w1 w2 w3 w' recptr,
       FinishPreparedTransaction (E := demo_env) "t1" false true idle_world
       = (Done true, w')
       ∧ (∃ main rdata,
            xlog_records (xlog w1) !! 4408 = Some (mkXLogRecord main rdata)
            ∧ outcome_of main = Some (false, 601))
       ∧ 4408 < recptr ≤ xlog_flushed (xlog w1)
       ∧ clog w1 !! 601 = None
       ∧ clog w2 !! 601 = Some TRANSACTION_STATUS_ABORTED
       ∧ procArray w2 = [1%nat]
       ∧ procArray w3 = []
       ∧ valid <$> gxacts (TwoPhaseState w3) !! 1%nat = Some true
       ∧ 1%nat ∈ live_ptrs (TwoPhaseState w3)
       ∧ valid <$> gxacts (TwoPhaseState w') !! 1%nat = Some false
       ∧ 1%nat ∉ live_ptrs (TwoPhaseState w')).
Proof.
  assert (registry_wf (E := demo_env) idle_world [0%nat]) as Hwf.
  { apply (registry_wf_b_sound (E := demo_env)). vm_compute. reflexivity. }
  split.
  - assert ((FinishPreparedTransaction (E := demo_env) "t1" true true idle_world).1
            = Done true) as Hdone by (vm_compute; reflexivity).
    destruct (FinishPreparedTransaction_order (E := demo_env) "t1" true true
                idle_world [0%nat] (Done true)
                (FinishPreparedTransaction (E := demo_env) "t1" true true idle_world).2
                Hwf) as [_ Hsteps].
    { rewrite <- Hdone. apply surjective_pairing. }
    destruct (Hsteps eq_refl)
      as (g & d & x & rec & main & rdata & recptr & w0 & w1 & w2 & w3 & callbacks
          & Hlock & Hd & Hvalid & Hlive & Hx & _ & _ & _ & _ & _
          & _ & Hout & Hrec1 & Hrecptr & Hfl1 & Hc1 & _ & _
          & _ & _ & Hc2 & _ & Ha2 & _
          & _ & Ha3 & _ & _ & Hs3 & _
          & _ & (d' & Hd' & Hvalid') & Hgone & _).
    cbv zeta in *.
    vm_compute in Hlock. injection Hlock as <- <-.
    vm_compute in Hd. injection Hd as <-.
    vm_compute in Hx. injection Hx as <-.
    exists w1, w2, w3,
      (FinishPreparedTransaction (E := demo_env) "t1" true true idle_world).2, recptr.
    split. { rewrite <- Hdone. apply surjective_pairing. }
    split. { exists main, rdata. split; [exact Hrec1|exact Hout]. }
    split.
    { split; [|exact Hfl1]. rewrite Hrecptr.
      change (xlog_insert_pos (xlog idle_world)) with 4408.
      unfold SizeOfXLogRecord. lia. }
    split. { rewrite Hc1. vm_compute. reflexivity. }
    split. { apply Forall_cons in Hc2 as [Hxid _]. exact Hxid. }
    split. { rewrite Ha2. vm_compute. reflexivity. }
    split. { rewrite Ha3. vm_compute. reflexivity. }
    split. { rewrite Hs3. vm_compute. reflexivity. }
    split. { rewrite Hs3. exact Hlive. }
    split. { rewrite Hd'. cbn. by rewrite Hvalid'. }
    exact Hgone.
  - assert ((FinishPreparedTransaction (E := demo_env) "t1" false true idle_world).1
            = Done true) as Hdone by (vm_compute; reflexivity).
    destruct (FinishPreparedTransaction_order (E := demo_env) "t1" false true
                idle_world [0%nat] (Done true)
                (FinishPreparedTransaction (E := demo_env) "t1" false true idle_world).2
                Hwf) as [_ Hsteps].
    { rewrite <- Hdone. apply surjective_pairing. }
    destruct (Hsteps eq_refl)
      as (g & d & x & rec & main & rdata & recptr & w0 & w1 & w2 & w3 & callbacks
          & Hlock & Hd & Hvalid & Hlive & Hx & _ & _ & _ & _ & _
          & _ & Hout & Hrec1 & Hrecptr & Hfl1 & Hc1 & _ & _
          & _ & _ & Hc2 & _ & Ha2 & _
          & _ & Ha3 & _ & _ & Hs3 & _
          & _ & (d' & Hd' & Hvalid') & Hgone & _).
    cbv zeta in *.
    vm_compute in Hlock. injection Hlock as <- <-.
    vm_compute in Hd. injection Hd as <-.
    vm_compute in Hx. injection Hx as <-.
    exists w1, w2, w3,
      (FinishPreparedTransaction (E := demo_env) "t1" false true idle_world).2, recptr.
    split. { rewrite <- Hdone. apply surjective_pairing. }
    split. { exists main, rdata. split; [exact Hrec1|exact Hout]. }
    split.
    { split; [|exact Hfl1]. rewrite Hrecptr.
      change (xlog_insert_pos (xlog idle_world)) with 4408.
      unfold SizeOfXLogRecord. lia. }
    split. { rewrite Hc1. vm_compute. reflexivity. }
    split. { apply Forall_cons in Hc2 as [Hxid _]. exact Hxid. }
    split. { rewrite Ha2. vm_compute. reflexivity. }
    split. { rewrite Ha3. vm_compute. reflexivity. }
    split. { rewrite Hs3. vm_compute. reflexivity. }
    split. { rewrite Hs3. exact Hlive. }
    split. { rewrite Hd'. cbn. by rewrite Hvalid'. }
    exact Hgone.
Defined.

(** * The further properties at the small installation *)

Lemma TwoPhaseShmemInit_numbers_the_dummy_backends_witness :
  ∃ w', TwoPhaseShmemInit (E := demo_env) boot_world = (Done tt, w')
        ∧ registry_wf (E := demo_env) w' [1%nat; 0%nat]
        ∧ registry_view w' = []
        ∧ ∀ i, (i < 2)%nat →
               ∃ d, gxacts (TwoPhaseState w') !! i = Some d
                    ∧ pgprocno d = i
                    ∧ dummyBackendId d = 10 + 1 + Z.of_nat i.
Proof.
  apply (TwoPhaseShmemInit_numbers_the_dummy_backends (E := demo_env) boot_world);
    vm_compute; lia.
Defined.

Lemma RemoveGXact_frees_a_live_entry_only_witness :
  (∃ w', RemoveGXact 1 reserved_world = (Done tt, w')
         ∧ registry_wf (E := demo_env) w' [1%nat; 0%nat]
         ∧ live_ptrs (TwoPhaseState reserved_world)
           ≡ₚ 1%nat :: live_ptrs (TwoPhaseState w')
         ∧ (∀ g', g' ≠ 1%nat → entry_view w' g' = entry_view reserved_world g'))
  ∧ RemoveGXact 0 reserved_world
    = (Raise ERROR ERRCODE_INTERNAL_ERROR msg_failed_to_find_gxact, reserved_world).
Proof.
  assert (registry_wf (E := demo_env) reserved_world [0%nat]) as Hwf.
  { apply (registry_wf_b_sound (E := demo_env)). vm_compute. reflexivity. }
  split.
  - exact (RemoveGXact_frees_a_live_entry_only (E := demo_env)
             reserved_world [0%nat] 1%nat Hwf).
  - exact (RemoveGXact_frees_a_live_entry_only (E := demo_env)
             reserved_world [0%nat] 0%nat Hwf).
Defined.

Lemma RemoveGXact_then_MarkAsPreparing_reuses_the_struct_witness :
  ∃ w1 w2,
    RemoveGXact 1 reserved_world = (Done tt, w1)
    ∧ MarkAsPreparing (E := demo_env) 603 demo_ldx "t2" 5001 21 1 0 w1 = (Done 1%nat, w2)
    ∧ entry_view w2 1 = Some (mkPreparedXact 603 "t2" 5001 21 1 false).
Proof.
  apply (RemoveGXact_then_MarkAsPreparing_reuses_the_struct (E := demo_env)
           reserved_world [0%nat]).
  - apply (registry_wf_b_sound (E := demo_env)). vm_compute. reflexivity.
  - vm_compute. apply list_elem_of_here.
  - vm_compute. reflexivity.
  - intros g' v Hin Hne. vm_compute in Hin.
    apply list_elem_of_singleton in Hin. done.
Defined.

Lemma PostPrepare_Twophase_lets_go_of_the_entry_witness :
  ∃ w', PostPrepare_Twophase prepared_world = (Done tt, w')
        ∧ gxacts (TwoPhaseState w') !! 1%nat
          = Some (mkGlobalTransactionData (Some 0%nat) 1 12 5000 4096 4408 20
                    InvalidBackendId true "t1")
        ∧ (∀ g', g' ≠ 1%nat →
             gxacts (TwoPhaseState w') !! g' = gxacts (TwoPhaseState prepared_world) !! g')
        ∧ MyLockedGxact w' = None
        ∧ AtAbort_Twophase w' = (Done tt, w')
        ∧ AtProcExit_Twophase w' = (Done tt, w').
Proof.
  destruct (PostPrepare_Twophase_lets_go_of_the_entry prepared_world) as [_ Hlocked].
  apply (Hlocked 1%nat
           (mkGlobalTransactionData (Some 0%nat) 1 12 5000 4096 4408 20 3 true "t1"));
    reflexivity.
Defined.

Lemma GXactLoadSubxactData_caches_up_to_the_limit_witness :
  ∃ w' p' x',
    GXactLoadSubxactData (E := demo_env) 1 2 [602; 603] reserved_world = (Done tt, w')
    ∧ allProcs w' !! 1%nat = Some p'
    ∧ allPgXact w' !! 1%nat = Some x'
    ∧ pgxact_xid x' = 601
    ∧ pgxact_overflowed x' = false
    ∧ pgxact_nxids x' = 2
    ∧ proc_subxids p' = [602; 603].
Proof.
  exact (GXactLoadSubxactData_caches_up_to_the_limit (E := demo_env) 1
           (mkGlobalTransactionData (Some 0%nat) 1 12 5000 0 0 20 3 false "t1")
           (reserved_PGPROC 1 601 demo_ldx 20 1) (reserved_PGXACT 601)
           2 [602; 603] reserved_world eq_refl eq_refl eq_refl eq_refl).
Defined.

Lemma pg_prepared_xact_shows_the_valid_entries_witness :
  pg_prepared_xact two_prepared_world
  = Ok [mkPreparedXactRow 601 "t1" 5000 20 1; mkPreparedXactRow 603 "t2" 5001 21 1]
  ∧ pg_prepared_xact reserved_world = Ok [].
Proof.
  split.
  - apply (pg_prepared_xact_shows_the_valid_entries (E := demo_env)
             two_prepared_world []).
    + apply (registry_wf_b_sound (E := demo_env)). vm_compute. reflexivity.
    + vm_compute. reflexivity.
  - apply (pg_prepared_xact_shows_the_valid_entries (E := demo_env)
             reserved_world [0%nat]).
    + apply (registry_wf_b_sound (E := demo_env)). vm_compute. reflexivity.
    + vm_compute. reflexivity.
Defined.

Lemma pg_prepared_xact_shows_an_entry_once_it_is_prepared_witness :
  ∃ w2 rows,
    MarkAsPrepared 0 (snd (MarkAsPreparing (E := demo_env) 603 demo_ldx "t2" 5001 21 1 0
                             idle_world)) = (Done tt, w2)
    ∧ pg_prepared_xact idle_world = Ok rows
    ∧ pg_prepared_xact (snd (MarkAsPreparing (E := demo_env) 603 demo_ldx "t2" 5001 21 1 0
                               idle_world)) = Ok rows
    ∧ pg_prepared_xact w2 = Ok (rows ++ [mkPreparedXactRow 603 "t2" 5001 21 1]).
Proof.
  apply (pg_prepared_xact_shows_an_entry_once_it_is_prepared (E := demo_env)
           603 demo_ldx "t2" 5001 21 1 0 idle_world [0%nat]).
  - apply (registry_wf_b_sound (E := demo_env)). vm_compute. reflexivity.
  - vm_compute. reflexivity.
  - vm_compute. reflexivity.
Defined.

Lemma TwoPhaseGetGXact_finds_the_first_witness :
  (TwoPhaseGetGXact initial_cache 603 two_prepared_world
   = (Ok (Some 0%nat), {| cached_xid := 603; cached_gxact := Some 0%nat |})
   ∧ TwoPhaseGetDummyBackendId initial_cache 603 two_prepared_world
     = (Ok 11, {| cached_xid := 603; cached_gxact := Some 0%nat |})
   ∧ TwoPhaseGetDummyProc initial_cache 603 two_prepared_world
     = (Ok 0%nat, {| cached_xid := 603; cached_gxact := Some 0%nat |})
   ∧ pgxact_xid <$> allPgXact two_prepared_world !! 0%nat = Some 603)
  ∧ TwoPhaseGetGXact initial_cache 999 two_prepared_world
    = (Failed ERROR msg_failed_to_find_xid, initial_cache).
Proof.
  assert (registry_wf (E := demo_env) two_prepared_world []) as Hwf.
  { apply (registry_wf_b_sound (E := demo_env)). vm_compute. reflexivity. }
  split.
  - apply (TwoPhaseGetGXact_finds_the_first (E := demo_env) initial_cache 603
             two_prepared_world [] Hwf). vm_compute. discriminate.
  - apply (TwoPhaseGetGXact_finds_the_first (E := demo_env) initial_cache 999
             two_prepared_world [] Hwf). vm_compute. discriminate.
Defined.

Lemma TwoPhaseGetGXact_answers_from_its_cache_witness :
  TwoPhaseGetGXact_calls
    {| cached_xid := 603; cached_gxact := Some 0%nat |}
    [(603, fresh_world); (603, idle_world)]
  = ([Ok (Some 0%nat); Ok (Some 0%nat)],
     {| cached_xid := 603; cached_gxact := Some 0%nat |})
  ∧ TwoPhaseGetGXact
      {| cached_xid := 601; cached_gxact := Some 1%nat |} 603 fresh_world
    = (Failed ERROR msg_failed_to_find_xid,
       {| cached_xid := 601; cached_gxact := Some 1%nat |}).
Proof.
  destruct (TwoPhaseGetGXact_answers_from_its_cache (E := demo_env) initial_cache 603
              two_prepared_world (Some 0%nat)
              {| cached_xid := 603; cached_gxact := Some 0%nat |})
    as (Hsame & Hother & _).
  { vm_compute. reflexivity. }
  split.
  - apply (Hsame [(603, fresh_world); (603, idle_world)]). repeat constructor.
  - destruct (Hother 601 two_prepared_world (Some 1%nat)
                {| cached_xid := 601; cached_gxact := Some 1%nat |})
      as [_ Hagain].
    + discriminate.
    + vm_compute. reflexivity.
    + apply (Hagain fresh_world [1%nat; 0%nat]).
      * apply (registry_wf_b_sound (E := demo_env)). vm_compute. reflexivity.
      * vm_compute. reflexivity.
Defined.

Lemma EndPrepare_refuses_a_state_file_that_is_too_long_witness :
  ∃ xl,
    EndPrepare (E := demo_env) 1 overlong_world
    = (Raise ERROR ERRCODE_PROGRAM_LIMIT_EXCEEDED msg_length_exceeded,
       set_records xl overlong_world).
Proof.
  apply (EndPrepare_refuses_a_state_file_that_is_too_long (E := demo_env) 1
           (mkGlobalTransactionData (Some 0%nat) 1 12 5000 0 0 20 3 false "t1")
           (reserved_PGXACT 601)).
  - reflexivity.
  - reflexivity.
  - discriminate.
  - vm_compute. reflexivity.
Defined.

Lemma FinishPreparedTransaction_finishes_the_entry_witness :
  ∃ w', FinishPreparedTransaction (E := demo_env) "t1" true true idle_world
        = (Done true, w')
        ∧ registry_wf (E := demo_env) w' [1%nat; 0%nat]
        ∧ live_ptrs (TwoPhaseState idle_world) ≡ₚ 1%nat :: live_ptrs (TwoPhaseState w')
        ∧ MyLockedGxact w' = None
        ∧ clog w' !! 601 = Some TRANSACTION_STATUS_COMMITTED
        ∧ default [] (map_ht w')
          = filter (fun e => pm_xid e ≠ 601) (default [] (map_ht idle_world))
        ∧ procArray w' = filter (fun q => q ≠ 1%nat) (procArray idle_world).
Proof.
  destruct (xlog_records (xlog idle_world) !! 4096) as [rec|] eqn:Hrec;
    [|vm_compute in Hrec; discriminate].
  apply (FinishPreparedTransaction_finishes_the_entry (E := demo_env)
           "t1" true true idle_world [0%nat] 1%nat
           (mkGlobalTransactionData (Some 0%nat) 1 12 5000 4096 4408 20
              InvalidBackendId true "t1")
           {| proc_pgprocno := 1; proc_lxid := 601; proc_pid := 0;
              proc_backendId := InvalidBackendId; proc_databaseId := 1;
              proc_roleId := 20; proc_subxids := [602];
              proc_localDistribXactData := demo_ldx |}
           {| pgxact_xid := 601; pgxact_xmin := 0; pgxact_delayChkpt := false;
              pgxact_vacuumFlags := 0; pgxact_overflowed := false; pgxact_nxids := 1 |}
           rec).
  - apply (registry_wf_b_sound (E := demo_env)). vm_compute. reflexivity.
  - vm_compute. reflexivity.
  - vm_compute. reflexivity.
  - vm_compute. reflexivity.
  - reflexivity.
  - right. reflexivity.
  - left. reflexivity.
  - exact Hrec.
  - discriminate.
Defined.

Lemma add_recover_map_entry_keeps_one_entry_per_xid_witness :
  ∃ l,
    add_recover_post_checkpoint_prepared_transactions_map_entry 601 9000
      two_prepared_world = (Done tt, set_map_ht (Some l) two_prepared_world)
    ∧ RecreateTwoPhaseFile 601 [] 0 9000 two_prepared_world
      = (Done tt, set_map_ht (Some l) two_prepared_world)
    ∧ NoDup (pm_xid <$> l)
    ∧ ∀ e, e ∈ l ↔ e = mkprpt_map 601 9000
                   ∨ (e ∈ default [] (map_ht two_prepared_world) ∧ pm_xid e ≠ 601).
Proof.
  apply (add_recover_map_entry_keeps_one_entry_per_xid 601 9000 two_prepared_world).
  apply (bool_decide_unpack _). vm_compute. exact I.
Defined.

Lemma getTwoPhasePreparedTransactionData_gathers_the_valid_entries_witness :
  ∃ ptas,
    getTwoPhasePreparedTransactionData two_prepared_world = Ok ptas
    ∧ ptas_count ptas = Z.of_nat (length (checkpoint_entries two_prepared_world))
    ∧ (length (checkpoint_entries two_prepared_world) ≤ length (ptas_maps ptas))%nat
    ∧ take (length (checkpoint_entries two_prepared_world)) (ptas_maps ptas)
      = checkpoint_entries two_prepared_world.
Proof.
  apply (getTwoPhasePreparedTransactionData_gathers_the_valid_entries (E := demo_env)
           two_prepared_world []).
  - apply (registry_wf_b_sound (E := demo_env)). vm_compute. reflexivity.
  - vm_compute. reflexivity.
Defined.

Lemma SetupCheckpointPreparedTransactionList_loads_the_table_witness :
  SetupCheckpointPreparedTransactionList demo_ptas fresh_world
  = (Done tt,
     set_map_ht (Some [mkprpt_map 603 4408; mkprpt_map 601 4096]) fresh_world).
Proof.
  apply (SetupCheckpointPreparedTransactionList_loads_the_table demo_ptas fresh_world).
  - vm_compute. split; discriminate.
  - apply (bool_decide_unpack _). vm_compute. exact I.
Defined.

Lemma getTwoPhaseOldestPreparedTransactionXLogRecPtr_is_the_minimum_witness :
  ∃ i ei,
    getTwoPhaseOldestPreparedTransactionXLogRecPtr demo_ptas = Ok (Some i)
    ∧ Z.of_nat i < 2
    ∧ ptas_maps demo_ptas !! i = Some ei
    ∧ ∀ j e, Z.of_nat j < 2 → ptas_maps demo_ptas !! j = Some e →
             pm_xlogrecptr ei ≤ pm_xlogrecptr e
             ∧ ((i < j)%nat → pm_xlogrecptr ei < pm_xlogrecptr e).
Proof.
  apply (getTwoPhaseOldestPreparedTransactionXLogRecPtr_is_the_minimum demo_ptas).
  vm_compute. discriminate.
Defined.

Lemma smgrGetPendingDeletes_result_witness :
  smgrGetPendingDeletes true 2 demo_smgr
  = Ok (1, Some [mkRelFileNodePendingDelete (demo_rnode 16386) 104 false])
  ∧ smgrGetPendingDeletes false 2 demo_smgr
    = Ok (1, Some [mkRelFileNodePendingDelete (demo_rnode 16385) 104 true])
  ∧ smgrGetPendingDeletes false 1 empty_smgr = Ok (0, None).
Proof.
  split; [|split].
  - apply (smgrGetPendingDeletes_result true 2 demo_smgr). vm_compute. reflexivity.
  - apply (smgrGetPendingDeletes_result false 2 demo_smgr). vm_compute. reflexivity.
  - apply (smgrGetPendingDeletes_result false 1 empty_smgr). vm_compute. reflexivity.
Defined.

Lemma smgrDoPendingDeletes_unlinks_the_reported_witness :
  AtSubAbort_smgr 2 demo_smgr
  = (Ok tt,
     {| pendingDeletes := outer_entries 2 (pendingDeletes demo_smgr);
        smgr_events :=
          smgr_events demo_smgr ++
          [EvSmgrDoUnlinkAll [smgropen (demo_rnode 16385) TempRelBackendId] [104];
           EvSmgrClose (smgropen (demo_rnode 16385) TempRelBackendId)] |}).
Proof.
  apply (smgrDoPendingDeletes_unlinks_the_reported false 2 demo_smgr).
  - vm_compute. reflexivity.
  - repeat constructor.
  - reflexivity.
Defined.

Lemma smgrDoPendingDeletes_database_drop_witness :
  ∃ s',
    smgrDoPendingDeletes true 1 demo_database_drop = (Ok tt, s')
    ∧ pendingDeletes s' = []
    ∧ smgr_events s'
      = smgr_events demo_database_drop ++ [EvDropDatabaseDirectory 5 1663]
    ∧ Forall (fun q => q ∉ pendingDeletes s') (reported 1 true demo_database_drop).
Proof.
  apply (smgrDoPendingDeletes_database_drop true 1 demo_database_drop
           [mkPendingRelDelete (mkRelFileNodePendingDelete (demo_rnode 16386) 104 false)
              true 1 false]
           (mkPendingRelDelete
              (mkRelFileNodePendingDelete (mkRelFileNode 1663 5 InvalidOid) 0 false)
              true 1 true)).
  - reflexivity.
  - reflexivity.
  - vm_compute. reflexivity.
  - repeat constructor.
  - reflexivity.
Defined.


Lemma RelationPreserveStorage_spares_the_relation_witness :
  ∃ new,
    smgr_events (snd (smgrDoPendingDeletes false 2
                        (RelationPreserveStorage (demo_rnode 16385) false demo_smgr)))
    = smgr_events demo_smgr ++ new
    ∧ Forall (fun srel => RelFileNodeEquals (demo_rnode 16385) (smgr_rnode srel) = false)
        (unlinked new).
Proof.
  destruct (RelationPreserveStorage_spares_the_relation (demo_rnode 16385) false demo_smgr)
    as [_ Hspares].
  apply (Hspares 2). reflexivity.
Defined.

Lemma AtSubCommit_smgr_hands_over_to_parent_witness :
  smgrDoPendingDeletes false 2 (AtSubCommit_smgr 2 demo_smgr)
  = (Ok tt, AtSubCommit_smgr 2 demo_smgr)
  ∧ smgrGetPendingDeletes true 1 (AtSubCommit_smgr 2 demo_smgr)
    = smgrGetPendingDeletes true 1 demo_smgr.
Proof.
  destruct (AtSubCommit_smgr_hands_over_to_parent 2 demo_smgr) as [Hdo Hget].
  - vm_compute. split; reflexivity.
  - split; [apply Hdo|]. exact (Hget true).
Defined.

Lemma RelationCreateStorage_is_undone_by_abort_witness :
  (∃ s1 srel request,
     RelationCreateStorage (demo_rnode 16390) RELPERSISTENCE_PERMANENT 104 2 demo_smgr
     = (Ok tt, s1)
     ∧ smgr_rnode srel = demo_rnode 16390
     ∧ smgr_events s1
       = smgr_events demo_smgr ++
         [EvSmgrCreate srel; EvLogSmgrCreate (demo_rnode 16390)]
     ∧ pendingDeletes s1 = request :: pendingDeletes demo_smgr
     ∧ smgrDoPendingDeletes false 2 s1
       = (Ok tt,
          {| pendingDeletes := outer_entries 2 (pendingDeletes demo_smgr);
             smgr_events :=
               smgr_events s1 ++
               unlink_events (request :: reported 2 false demo_smgr) |})
     ∧ smgrDoPendingDeletes true 2 s1
       = (Ok tt,
          {| pendingDeletes := outer_entries 2 (pendingDeletes demo_smgr);
             smgr_events :=
               smgr_events s1 ++ unlink_events (reported 2 true demo_smgr) |}))
  ∧ RelationCreateStorage (demo_rnode 16390) 120 104 2 demo_smgr
    = (Failed ERROR msg_invalid_relpersistence, demo_smgr).
Proof.
  split.
  - destruct (RelationCreateStorage_is_undone_by_abort (demo_rnode 16390)
                RELPERSISTENCE_PERMANENT 104 2 demo_smgr)
      as (s1 & srel & request & Hrun & Hnode & _ & Hev & Hlist & _ & _ & _ & _ & _ & Hdo).
    exists s1, srel, request.
    split; [exact Hrun|]. split; [exact Hnode|]. split; [exact Hev|].
    split; [exact Hlist|]. split.
    + apply (Hdo false); [vm_compute; reflexivity|repeat constructor].
    + apply (Hdo true); [vm_compute; reflexivity|repeat constructor].
  - exact (RelationCreateStorage_is_undone_by_abort (demo_rnode 16390)
             120 104 2 demo_smgr).
Defined.

Lemma DatabaseDropStorage_drops_at_commit_witness :
  smgrDoPendingDeletes true 1 (DatabaseDropStorage 5 1663 0 1 empty_smgr)
  = (Ok tt, {| pendingDeletes := [];
               smgr_events := [EvDropDatabaseDirectory 5 1663] |})
  ∧ smgrDoPendingDeletes false 1 (DatabaseDropStorage 5 1663 0 1 empty_smgr)
    = (Ok tt, {| pendingDeletes := []; smgr_events := [] |}).
Proof.
  destruct (DatabaseDropStorage_drops_at_commit 5 1663 0 1 empty_smgr eq_refl)
    as (_ & Hcommit & Habort).
  split; [exact Hcommit|exact Habort].
Defined.
